(* ===== verification/_CoqProject ===== *)
-Q . S2P
Prelude.v
PyStr.v
Sha256.v
Json.v
JsonText.v
Domain.v
Ports.v
Idempotency.v
Schema.v
Sql.v
Migration.v
Constraints.v
Effects.v
Bodies.v
Adapter.v
Authorize.v
Problem.v
Coordinator.v
Ledger.v
Orchestrator.v
Faults.v
Protocol.v
Coherence.v
System.v
Progress.v
Fairness.v
Concurrency.v
Requests.v
Api.v
History.v
Atomic.v
Tracking.v
Serving.v
Responses.v
Settings.v
Environment.v
Emulator.v
Platform.v
Wiring.v
