(* ===== verification/Prelude.v ===== *)
(** * The transaction reliability platform, verified

    The program (src/transaction_platform) accepts payment authorization requests over
    HTTP, asks a payment network once per request, and makes retries safe with durable
    idempotency keys.  A request passes through these parts:

    - the API (api/): validates headers and body, runs the orchestrator, and turns its
      envelope or an exception into a response;
    - the orchestrator (application/idempotent_orchestrator.py): reserves the key, runs
      the authorization service when it got the reservation, completes the reservation
      with the response, or answers with the stored response, a conflict or "in progress";
    - the coordinator (infrastructure/idempotency_coordinator.py): both units of work over
      the tables of infrastructure/models.py;
    - the authorization service (application/authorize_transaction.py) with the entity of
      domain/transaction.py, and the HTTP adapter (adapters/http_payment_network.py);
    - the emulator (emulator/): the test network on the other side of the adapter.

    ** Files

    - Prelude: results of Python calls, notations, automation, generic lemmas.
    - PyStr, Sha256, Json, JsonText: what the source uses of Python's [str], of SHA-256 and
      UTF-8, of [json.dumps] and [json.loads]; all executable.  Bodies: the texts of bodies.
    - Domain: [Transaction] and its three mutating methods, exceptions as values
      (domain/transaction.py, domain/exceptions.py).
    - Ports: data and exceptions of the two ports and of the application layer.
    - Idempotency: header checks, key hash, canonical JSON and fingerprint
      (common/idempotency.py, common/correlation.py).
    - Schema: rows, column types, keys and check constraints, and the INSERT and UPDATE
      statements as functions on table contents (infrastructure/models.py).
    - Sql: the SQL conditions of the constraints, parsed and evaluated.  Migration: the
      declarations of models.py as data, the migration 0001 and the catalog it changes.
      Constraints: Schema against the declarations.
    - Effects: a coroutine is a tree of database operations and HTTP calls ([prog]), so
      [try], [async with session.begin()] and early returns are functions on trees; the
      contract of the database ([pg_contract]: READ COMMITTED, row locks, any operation may
      fail, a failed commit may have taken effect, a failed rollback has ended the
      transaction); [Engine], an implementation of it.
    - Adapter, Authorize, Coordinator, Problem, Orchestrator: one file per module of the
      source, each operation as the whole handler.
    - Ledger: the abstract ledger the coordinator implements, and its port as a type
      class with laws.
    - Faults: one request on a database that may fail at any operation.
    - Protocol: what a unit of work may do to tables and network, step by step, as a
      weakest-precondition logic over [prog].  Coherence: the invariant of the tables.
      System: the step relation of any number of requests at once, for any [Workload]
      that keeps the protocol, with its rule-induction invariant and what clients observe
      of it.  Progress: what lets requests go on, connections of the pool included.
      Fairness: infinite runs, and why nothing waits for ever in a fair one.
      Concurrency: the instance for the orchestrator and its theorems.
    - Requests, Api: request models, exception handlers, middleware and
      POST /v1/transactions (api/schemas.py, api/errors.py, api/app.py).  Responses: the
      response models.  History: requests one after another, with failures.
    - Atomic: the API as an abstract machine, in which a request acts on the ledger in at
      most two indivisible actions.  Tracking: a program logic in which the route is shown
      to follow the machine.  Serving: the instance of System for POST /v1/transactions
      and its simulation by the machine, in any environment of clients and networks.
    - Emulator: scenarios with the delays they sleep, handlers and POST /v1/authorizations (emulator/), and the
      platform talking to it.
    - Platform: the concurrent API with the emulator as its network.
    - Settings: emulator/settings.py and the settings and engine of
      infrastructure/database.py, read from the variables of the process.  Environment:
      migrations/env.py, with the sections and references of its configuration file.  Wiring: [create_app] of both services, dependency providers,
      the session dependency, routes, shutdown.

    ** What is shown

    - Any interleaving of any number of requests, with database failures, lost requests
      and an arbitrary network (Concurrency): the network is asked at most once per
      transaction and per key; tables satisfy their constraints and correspond one to one
      and cached responses tell the state of their transaction; completed records never
      change; a key left in progress by a crash stays so.
    - The same interleavings seen by the clients of the API (Serving): concurrent requests
      are atomic, in the sense that an abstract machine with indivisible actions on the
      ledger simulates them; all final answers given for a key are the same; every reply
      is accounted for by the tables; and when nothing fails any more, every schedule
      ends, within fifteen steps per request, with every request answered, on a pool of
      any number of connections, none of which is held while the network is awaited.  In a
      fair infinite run no client waits for ever, though requests arrive and operations
      fail without end (the one place where classical logic is used).
    - The same with the emulator as the network (Platform): every final answer, and the
      recorded state of its transaction, are those of the payment token of the client, or
      pending reconciliation when the answer of the emulator was lost, for clients no two
      of whose requests are a SHA-256 collision.
    - One request (Orchestrator, Ledger, Api): it ends, does what the abstract ledger says
      on every branch, and a retry replays the first response.  The API answers every
      input with a documented status and every error with a problem document, but for
      bodies that FastAPI itself gives up on and for exceptions of the HTTP client that
      nothing foresees; validation reports reveal nothing of the input.  The request model
      accepts exactly the objects with its five fields.
    - Failures (Faults, History, Responses): a request on a failing database leaves
      nothing, a lone reservation, or reservation and completion together, and a response
      is given only when it is recorded; the first final answer stands through any later
      requests and failures; every body conforms to the model of its status (FastAPI's own
      400 object again apart).
    - The entity (Domain): its methods are exactly the lifecycle relation, all or nothing,
      versions count transitions, terminal states are those no method can leave.
    - The network's answers (Adapter, Authorize): every answer is read as specified, and a
      definite outcome is reported only when the answer justifies it.
    - Digests (Idempotency, Bodies): fingerprints of two requests are equal exactly when
      the requests are, or their own canonical texts collide; the text behind a fingerprint decodes to the request, and digests
      satisfy the format checks of the tables.
    - The schema (Migration, Constraints, Environment): declarations, migration and
      statement model agree, condition by condition, and the migrations run on the
      database the application uses, if no other option of the section interferes.
    - End to end (Emulator): each payment token leads through API, tables and emulator,
      JSON texts in both directions, to its documented status and transaction state.
    - The applications (Wiring, Settings): what [create_app] serves, what is closed and what
      stays open when closing fails, and the bounds of the delay.

    ** Parameters and bounds

    Code outside the repository is a parameter with its documented behaviour as laws, and
    each has a reference instance on which the witnesses run: the database ([Engine],
    [pg_contract]; ReferenceEngine), the HTTP client ([network], [post_contract]), pydantic
    ([Pydantic], [SettingsFields]), FastAPI's dependency resolution ([FastAPI],
    [EmulatorAPI]), the libraries that write and read JSON bodies ([BodyRendering]),
    SQLAlchemy's making of engines ([EngineFactory]) and Alembic ([Alembic]).  FastAPI's own
    response to a body it cannot read ([unreadable_response]) is the documented one of its
    HTTPException.  Of SHA-256 only [collision_free] is ever assumed, of the requests of
    given clients.
    Programs are finite trees and runs ([eval], [run]) are structural.  A request performs
    at most fourteen operations ([within_handle]), which with its return makes the fifteen
    steps of Serving; a connection is taken from the pool when a session begins its
    transaction and given back when it ends.  Functions with fuel
    are the blocks of SHA-256 (the number of words; [blocks_complete]), decimal printing
    (the number of bits; the round trip with [int]), [json.loads] (the length of the text;
    [scan_fuel]), the parser of SQL conditions (run on the fixed texts of the constraints,
    where it succeeds) and a pass over a configuration option ([resolve]; references nest to
    the depth of ConfigParser).
    Integers are [Z], with the ranges of BigInteger and Integer columns checked where
    values are stored; a [float] is an IEEE 754 binary64 of the Standard Library; a [str] is
    a list of code points, unpaired surrogates included.

    ** What is not modelled

    The values of the time stamps of rows (set by the server, never read); the time-outs
    and the recycling of a connection pool, beyond the number of its connections; the
    order in which waiting requests are served (every order is allowed; liveness assumes
    it fair); logging; titles and descriptions of the OpenAPI documents; package
    re-exports; the module-level [app] objects, which are [create_app] without arguments.
    What is left of the source is documentation, imports and these. *)
From stdpp Require Export prelude gmap strings.
From Stdlib Require Export ZArith Lia.

(** * Results of Python calls *)

(** A Python call either returns a value or raises an exception. *)
Inductive res (E A : Type) : Type :=
| Ok (a : A)
| Raise (e : E).
Arguments Ok {E A} a.
Arguments Raise {E A} e.

#[export] Instance res_ret E : MRet (res E) := fun A a => Ok a.
#[export] Instance res_bind E : MBind (res E) := fun A B f m =>
  match m with Ok a => f a | Raise e => Raise e end.
#[export] Instance res_fmap E : FMap (res E) := fun A B f m =>
  match m with Ok a => Ok (f a) | Raise e => Raise e end.

#[export] Instance res_eq_dec `{EqDecision E, EqDecision A} : EqDecision (res E A).
Proof. solve_decision. Defined.

Definition is_ok {E A} (r : res E A) : bool :=
  match r with Ok _ => true | Raise _ => false end.

Lemma Ok_inj {E A} (a b : A) : @Ok E A a = Ok b -> a = b.
Proof. congruence. Qed.

(** The usual assertion of Python guards: raise unless the test holds. *)
Definition guard_else {E} (b : bool) (e : E) : res E unit :=
  if b then Ok tt else Raise e.

Lemma guard_else_ok {E} b (e : E) : guard_else b e = Ok tt <-> b = true.
Proof. destruct b; simpl; split; congruence. Qed.

Lemma res_bind_ok {E A B} (m : res E A) (f : A -> res E B) b :
  mbind f m = Ok b <-> exists a, m = Ok a /\ f a = Ok b.
Proof. destruct m; simpl; naive_solver. Qed.

(** * Methods of mutable objects *)

(** A method of an object with state [S]: the assignments made before an
    exception is raised persist, so the state is returned on both branches. *)
Definition method (S E A : Type) : Type := S -> res E A * S.

Section method.
Context {S E : Type}.

Definition method_ret {A} (a : A) : method S E A := fun s => (Ok a, s).
Definition method_bind {A B} (m : method S E A) (f : A -> method S E B) : method S E B :=
  fun s => match m s with
           | (Ok a, s') => f a s'
           | (Raise e, s') => (Raise e, s')
           end.
Definition raise {A} (e : E) : method S E A := fun s => (Raise e, s).
Definition get : method S E S := fun s => (Ok s, s).
(** One attribute assignment. *)
Definition assign (f : S -> S) : method S E unit := fun s => (Ok tt, f s).
(** [if c: raise e]. *)
Definition raise_if (c : bool) (e : E) : method S E unit :=
  if c then raise e else method_ret tt.
End method.

Declare Scope method_scope.
Delimit Scope method_scope with method.
Notation "'let*' x := m 'in' k" := (method_bind m (fun x => k))
  (at level 10, x name, m at level 100, k at level 200) : method_scope.
Notation "m ';;;' k" := (method_bind m (fun _ => k))
  (at level 100, k at level 200, right associativity) : method_scope.

(** * Generic lemmas *)

Lemma forallb_Forall_iff {A} (f : A -> bool) (l : list A) :
  forallb f l = true <-> Forall (fun x => f x = true) l.
Proof. rewrite forallb_forall, Forall_forall. setoid_rewrite list_elem_of_In. done. Qed.

Lemma bool_decide_eq_iff {A} `{EqDecision A} (x y : A) :
  bool_decide (x = y) = true <-> x = y.
Proof. apply bool_decide_eq_true. Qed.

(** Case analysis on every boolean test and match of the context. *)
Ltac split_tests :=
  repeat match goal with
  | H : (if ?b then _ else _) = _ |- _ => destruct b eqn:?; simplify_eq/=
  | |- context [if ?b then _ else _] => destruct b eqn:?; simplify_eq/=
  end.
