(* ===== verification/PyStr.v ===== *)
(** Python's [str] as the source uses it: code points, [strip], [lower],
    [startswith], [int(...)], [str(int)], and the anchored character-class
    regular expressions of the source. *)
From S2P Require Import Prelude.

(** A [str] is the sequence of its code points. *)
Abbreviation pystr := (list N).

(** An ASCII literal of the source. *)
Definition py (s : string) : pystr := Ascii.N_of_ascii <$> String.list_ascii_of_string s.
Arguments py s%_string : simpl never.

Definition str_eqb (s t : pystr) : bool := bool_decide (s = t).

Lemma str_eqb_eq s t : str_eqb s t = true <-> s = t.
Proof. apply bool_decide_eq_true. Qed.

(** ** Character classes *)

Definition in_range (lo hi c : N) : bool := (lo <=? c)%N && (c <=? hi)%N.

(** [str.isspace] on one code point (Unicode White_Space and the ASCII separators). *)
Definition is_space (c : N) : bool :=
  in_range 9 13 c || in_range 28 32 c || (c =? 133)%N || (c =? 160)%N || (c =? 5760)%N
  || in_range 8192 8202 c || in_range 8232 8233 c || (c =? 8239)%N || (c =? 8287)%N
  || (c =? 12288)%N.

Definition is_upper_ascii (c : N) : bool := in_range 65 90 c.
Definition is_lower_ascii (c : N) : bool := in_range 97 122 c.
Definition is_digit_ascii (c : N) : bool := in_range 48 57 c.

(** A Unicode scalar value: a code point that is not a surrogate. *)
Definition is_scalar (c : N) : bool := (c <=? 1114111)%N && negb (in_range 55296 57343 c).
Definition scalar_str (s : pystr) : bool := forallb is_scalar s.

(** ** [str.strip] *)

Fixpoint lstrip (s : pystr) : pystr :=
  match s with
  | c :: s' => if is_space c then lstrip s' else s
  | [] => []
  end.

Definition rstrip (s : pystr) : pystr := reverse (lstrip (reverse s)).
Definition strip (s : pystr) : pystr := rstrip (lstrip s).

(** No white space at the ends: the fixed points of [strip]. *)
Definition trimmed (s : pystr) : Prop :=
  (forall c, head s = Some c -> is_space c = false)
  /\ (forall c, last s = Some c -> is_space c = false).

Lemma lstrip_head s c : head (lstrip s) = Some c -> is_space c = false.
Proof. induction s as [|x s IH]; simpl; [done|]. destruct (is_space x) eqn:?; naive_solver. Qed.

Lemma lstrip_id s : (forall c, head s = Some c -> is_space c = false) -> lstrip s = s.
Proof. destruct s as [|c s]; simpl; [done|]. intros H. by rewrite (H c). Qed.

Lemma lstrip_suffix s : exists sp, s = sp ++ lstrip s /\ Forall (fun c => is_space c = true) sp.
Proof.
  induction s as [|x s (sp & Hs & Hsp)]; simpl; [by exists []|].
  destruct (is_space x) eqn:Hx; [|by exists []].
  exists (x :: sp). simpl. split; [congruence | by constructor].
Qed.

Lemma lstrip_nil s : lstrip s = [] <-> Forall (fun c => is_space c = true) s.
Proof.
  induction s as [|x s IH]; simpl; [done|].
  rewrite Forall_cons. destruct (is_space x); naive_solver.
Qed.

Lemma rstrip_prefix s : exists sp, s = rstrip s ++ sp /\ Forall (fun c => is_space c = true) sp.
Proof.
  destruct (lstrip_suffix (reverse s)) as (sp & Hs & Hsp).
  exists (reverse sp). split; [|by rewrite Forall_reverse].
  unfold rstrip. rewrite <- reverse_app, <- Hs. by rewrite reverse_involutive.
Qed.

Lemma head_reverse {A} (s : list A) : head (reverse s) = last s.
Proof. rewrite <- (reverse_involutive s) at 2. by rewrite last_reverse. Qed.

Lemma rstrip_last s c : last (rstrip s) = Some c -> is_space c = false.
Proof. unfold rstrip. rewrite last_reverse. apply lstrip_head. Qed.

Lemma rstrip_id s : (forall c, last s = Some c -> is_space c = false) -> rstrip s = s.
Proof.
  intros H. unfold rstrip. rewrite lstrip_id, reverse_involutive; [done|].
  intros c. rewrite head_reverse. apply H.
Qed.

Lemma rstrip_head s c : head (rstrip s) = Some c -> head s = Some c.
Proof.
  destruct (rstrip_prefix s) as (sp & Hs & _). rewrite Hs at 2.
  destruct (rstrip s); simpl; congruence.
Qed.

Lemma strip_trimmed s : trimmed (strip s).
Proof.
  split; intros c; [|apply rstrip_last].
  unfold strip. intros H%rstrip_head. by apply lstrip_head in H.
Qed.

Lemma strip_id s : trimmed s -> strip s = s.
Proof. intros [Hh Hl]. unfold strip. rewrite lstrip_id by done. by apply rstrip_id. Qed.

Lemma strip_idemp s : strip (strip s) = strip s.
Proof. apply strip_id, strip_trimmed. Qed.

Lemma strip_substring s : exists a b, s = a ++ strip s ++ b.
Proof.
  destruct (lstrip_suffix s) as (a & Ha & _), (rstrip_prefix (lstrip s)) as (b & Hb & _).
  exists a, b. unfold strip. by rewrite <- Hb.
Qed.

Lemma strip_nil s : strip s = [] <-> Forall (fun c => is_space c = true) s.
Proof.
  rewrite <- lstrip_nil. unfold strip, rstrip. split; [|by intros ->].
  intros H. apply (f_equal reverse) in H. rewrite reverse_involutive in H. simpl in H.
  apply lstrip_nil in H. rewrite Forall_reverse in H.
  destruct (lstrip s) as [|c s'] eqn:E; [done|].
  assert (is_space c = false) by (apply (lstrip_head s); by rewrite E).
  inversion H; congruence.
Qed.

Lemma strip_Forall (P : N -> Prop) s : Forall P s -> Forall P (strip s).
Proof.
  destruct (strip_substring s) as (a & b & Hs). rewrite Hs at 1.
  rewrite !Forall_app. tauto.
Qed.

(** ** [str.lower], [str.startswith] *)

(** Lower-casing one code point.  Outside ASCII only U+0130 and U+212A have an
    ASCII letter in their lower-case form; every other code point is mapped to
    itself, which the source cannot tell from its real lower-case form because it
    only compares the result with ASCII literals. *)
Definition lower_char (c : N) : pystr :=
  if is_upper_ascii c then [(c + 32)%N]
  else if (c =? 304)%N then [105%N; 775%N]
  else if (c =? 8490)%N then [107%N]
  else [c].

Definition lower (s : pystr) : pystr := s ≫= lower_char.

Fixpoint startswith (s prefix : pystr) : bool :=
  match prefix, s with
  | [], _ => true
  | p :: prefix', c :: s' => (p =? c)%N && startswith s' prefix'
  | _ :: _, [] => false
  end.

Lemma startswith_app s prefix : startswith s prefix = true <-> exists t, s = prefix ++ t.
Proof.
  revert s. induction prefix as [|p prefix IH]; intros s.
  - split; [|by destruct s]. intros _. by exists s.
  - destruct s as [|c s]; cbn [startswith app]; [by split; [|intros [t ?]]|].
    rewrite andb_true_iff, N.eqb_eq, IH. split.
    + intros [-> [t ->]]. by exists t.
    + intros [t [= -> ->]]. split; [done|]. by exists t.
Qed.

(** ** Anchored regular expressions [^\[class\]{lo,hi}$] *)

(** [re.match] of such a pattern.  In Python [$] also matches before a newline at
    the end of the string, so one trailing newline is tolerated. *)
Definition class_run (cls : N -> bool) (lo hi : nat) (s : pystr) : bool :=
  forallb cls s && (lo <=? length s)%nat && (length s <=? hi)%nat.

Definition drop_final_newline (s : pystr) : pystr :=
  match last s with
  | Some 10%N => take (length s - 1) s
  | _ => s
  end.

Definition re_match_class (cls : N -> bool) (lo hi : nat) (s : pystr) : bool :=
  class_run cls lo hi s || (negb (str_eqb (drop_final_newline s) s)
                            && class_run cls lo hi (drop_final_newline s)).

Lemma drop_final_newline_app s : drop_final_newline (s ++ [10%N]) = s.
Proof.
  unfold drop_final_newline. rewrite last_snoc, length_app. simpl.
  rewrite take_app_le by lia. by rewrite take_ge by lia.
Qed.

Lemma drop_final_newline_cases s :
  drop_final_newline s = s \/ s = drop_final_newline s ++ [10%N].
Proof.
  destruct s as [|c s _] using rev_ind; [by left|].
  destruct (decide (c = 10%N)) as [->|Hc].
  - right. by rewrite drop_final_newline_app.
  - left. unfold drop_final_newline. rewrite last_snoc.
    repeat case_match; congruence.
Qed.

(** What the pattern accepts: a run of the class, possibly followed by one newline. *)
Lemma re_match_class_spec cls lo hi s :
  re_match_class cls lo hi s = true <->
  exists w, class_run cls lo hi w = true /\ (s = w \/ s = w ++ [10%N]).
Proof.
  unfold re_match_class. rewrite orb_true_iff, andb_true_iff, negb_true_iff. split.
  - intros [H|[Hne H]]; [naive_solver|].
    exists (drop_final_newline s). split; [done|].
    destruct (drop_final_newline_cases s) as [Heq|]; [|by right].
    apply str_eqb_eq in Heq. congruence.
  - intros (w & H & [->| ->]); [by left|]. right. rewrite drop_final_newline_app.
    split; [|done]. apply not_true_is_false. rewrite str_eqb_eq.
    intros Hw%(f_equal length). rewrite length_app in Hw. simpl in Hw. lia.
Qed.

Lemma class_run_spec cls lo hi s :
  class_run cls lo hi s = true <->
  Forall (fun c => cls c = true) s /\ (lo <= length s <= hi)%nat.
Proof. unfold class_run. rewrite !andb_true_iff, forallb_Forall_iff, !Nat.leb_le. tauto. Qed.

(** ** [int(...)] on a string, and [str(int)] *)

(** The code points of value 0 of the Unicode decimal digits (category Nd);
    each is followed by the digits 1 to 9 of its script. *)
Definition decimal_zeros : list N :=
  [48; 1632; 1776; 1984; 2406; 2534; 2662; 2790; 2918; 3046; 3174; 3302; 3430; 3558; 3664;
   3792; 3872; 4160; 4240; 6112; 6160; 6470; 6608; 6784; 6800; 6992; 7088; 7232; 7248; 42528;
   43216; 43264; 43472; 43504; 43600; 44016; 65296; 66720; 68912; 69734; 69872; 69942; 70096;
   70384; 70736; 70864; 71248; 71360; 71472; 71904; 72016; 72784; 73040; 73120; 92768; 92864;
   93008; 120782; 120792; 120802; 120812; 120822; 123200; 123632; 125264; 130032]%N.

Definition digit_val (c : N) : option Z :=
  match list_find (fun z => in_range z (z + 9) c) decimal_zeros with
  | Some (_, z) => Some (Z.of_N (c - z))
  | None => None
  end.

(** Decimal digits with single underscores between them.  [after] says that the
    previous character was a digit; the result has the value and the number of digits. *)
Fixpoint scan_digits (after : bool) (acc : Z) (n : Z) (s : pystr) : option (Z * Z) :=
  match s with
  | [] => if after then Some (acc, n) else None
  | c :: s' =>
      match digit_val c with
      | Some d => scan_digits true (acc * 10 + d) (n + 1) s'
      | None => if (c =? 95)%N && after then scan_digits false acc n s' else None
      end
  end.

(** The interpreter's limit on the digits of a decimal conversion. *)
Definition max_str_digits : Z := 4300.

Definition unsigned_int (s : pystr) : option Z :=
  match scan_digits false 0 0 s with
  | Some (z, n) => if (n <=? max_str_digits)%Z then Some z else None
  | None => None
  end.

(** [int(s)]; [None] is [ValueError]. *)
Definition py_int (s : pystr) : option Z :=
  match strip s with
  | 43%N :: ds => unsigned_int ds
  | 45%N :: ds => Z.opp <$> unsigned_int ds
  | ds => unsigned_int ds
  end.

(** Decimal digits of [n], most significant first; [f] bounds their number. *)
Fixpoint dec_fuel (f : nat) (n : N) : pystr :=
  match f with
  | O => []
  | S f' => if (n <? 10)%N then [(48 + n)%N] else dec_fuel f' (n / 10) ++ [(48 + n mod 10)%N]
  end.

Definition dec_digits (n : N) : pystr := dec_fuel (S (N.to_nat (N.size n))) n.

(** [str(z)]. *)
Definition py_str_int (z : Z) : pystr :=
  if (z <? 0)%Z then py "-" ++ dec_digits (Z.to_N (- z)) else dec_digits (Z.to_N z).

(** *** [int(str(z)) = z] *)

Lemma digit_val_ascii d : (d < 10)%N -> digit_val (48 + d) = Some (Z.of_N d).
Proof.
  intros Hd. assert (d = 0 \/ d = 1 \/ d = 2 \/ d = 3 \/ d = 4 \/ d = 5 \/ d = 6 \/ d = 7
                     \/ d = 8 \/ d = 9)%N as Hcases by lia.
  by repeat destruct Hcases as [->|Hcases]; [..|subst].
Qed.

Lemma dec_fuel_ascii f n : Forall (fun c => is_digit_ascii c = true) (dec_fuel f n).
Proof.
  assert (Hd : forall m, (m < 10)%N -> is_digit_ascii (48 + m) = true).
  { intros m ?. unfold is_digit_ascii, in_range. rewrite andb_true_iff, !N.leb_le. lia. }
  revert n. induction f as [|f IH]; intros n; simpl; [constructor|].
  destruct (N.ltb_spec n 10).
  - constructor; [by apply Hd | constructor].
  - apply Forall_app. split; [done|]. constructor; [|constructor].
    apply Hd, N.mod_lt. lia.
Qed.

Lemma dec_fuel_nonempty f n : dec_fuel (S f) n <> [].
Proof. simpl. destruct (n <? 10)%N; [done|]. by destruct (dec_fuel f (n / 10)). Qed.

Lemma scan_dec_fuel f n a acc k rest :
  (n < 10 ^ N.of_nat (S f))%N ->
  scan_digits a acc k (dec_fuel (S f) n ++ rest) =
  scan_digits true (acc * 10 ^ Z.of_nat (length (dec_fuel (S f) n)) + Z.of_N n)
    (k + Z.of_nat (length (dec_fuel (S f) n))) rest.
Proof.
  revert n a acc k rest. induction f as [|f IH]; intros n a acc k rest Hn.
  - cbn [dec_fuel]. destruct (N.ltb_spec n 10); [|simpl in Hn; lia].
    cbn [app scan_digits length]. rewrite digit_val_ascii by done. f_equal; lia.
  - remember (S f) as g. cbn [dec_fuel]. destruct (N.ltb_spec n 10).
    + cbn [app scan_digits length]. rewrite digit_val_ascii by done. f_equal; lia.
    + assert (n / 10 < 10 ^ N.of_nat g)%N as Hdiv.
      { apply N.Div0.div_lt_upper_bound. rewrite Nat2N.inj_succ, N.pow_succ_r' in Hn. lia. }
      rewrite <- app_assoc, (IH _ _ _ _ _ Hdiv). cbn [app scan_digits].
      rewrite digit_val_ascii by (apply N.mod_lt; lia).
      rewrite length_app, Nat2Z.inj_add. cbn [length]. f_equal; [|lia].
      rewrite Z.pow_add_r by lia. pose proof (N.div_mod n 10). lia.
Qed.

Lemma dec_digits_scan n a acc k :
  scan_digits a acc k (dec_digits n) =
  Some (acc * 10 ^ Z.of_nat (length (dec_digits n)) + Z.of_N n,
        k + Z.of_nat (length (dec_digits n)))%Z.
Proof.
  unfold dec_digits. rewrite <- (app_nil_r (dec_fuel _ n)) at 1.
  rewrite scan_dec_fuel; [done|].
  rewrite Nat2N.inj_succ, N2Nat.id. apply N.lt_le_trans with (2 ^ N.size n)%N.
  - apply N.size_gt.
  - etransitivity; [apply (N.pow_le_mono_l 2 10); lia|]. apply N.pow_le_mono_r; lia.
Qed.

Lemma digit_not_space c : is_digit_ascii c = true -> is_space c = false.
Proof.
  unfold is_digit_ascii, is_space, in_range.
  rewrite !andb_true_iff, !N.leb_le. intros [H1 H2].
  repeat rewrite orb_false_iff. repeat rewrite andb_false_iff.
  repeat rewrite N.leb_gt. repeat rewrite N.eqb_neq. lia.
Qed.

Lemma dec_digits_trimmed n : trimmed (dec_digits n).
Proof.
  assert (Forall (fun c => is_space c = false) (dec_digits n)) as Hs.
  { eapply Forall_impl; [apply dec_fuel_ascii|]. intros c. apply digit_not_space. }
  rewrite Forall_forall in Hs.
  split; intros c Hc; apply Hs; [by apply head_Some_elem_of | by apply last_Some_elem_of].
Qed.

Lemma dec_digits_unsigned n :
  (Z.of_nat (length (dec_digits n)) <= max_str_digits)%Z ->
  unsigned_int (dec_digits n) = Some (Z.of_N n).
Proof.
  intros Hlen. unfold unsigned_int. rewrite dec_digits_scan, Z.mul_0_l, !Z.add_0_l.
  apply Z.leb_le in Hlen. by rewrite Hlen.
Qed.

Lemma py_int_digits n :
  (Z.of_nat (length (dec_digits n)) <= max_str_digits)%Z ->
  py_int (dec_digits n) = Some (Z.of_N n).
Proof.
  intros Hlen. unfold py_int. rewrite strip_id by apply dec_digits_trimmed.
  rewrite <- (dec_digits_unsigned n) by done.
  pose proof (dec_fuel_ascii (S (N.to_nat (N.size n))) n) as Hd. fold (dec_digits n) in Hd.
  destruct (dec_digits n) as [|c ds]; [done|]. apply Forall_cons in Hd as [Hc _].
  by repeat (case_match; try done; subst).
Qed.

Lemma py_int_str_nonneg z :
  (0 <= z)%Z -> (Z.of_nat (length (dec_digits (Z.to_N z))) <= max_str_digits)%Z ->
  py_int (py_str_int z) = Some z.
Proof.
  intros Hz Hlen. unfold py_str_int. destruct (Z.ltb_spec z 0); [lia|].
  rewrite py_int_digits by done. f_equal. lia.
Qed.

Lemma py_str_int_digits z : (0 <= z)%Z -> py_str_int z = dec_digits (Z.to_N z).
Proof. intros Hz. unfold py_str_int. destruct (Z.ltb_spec z 0); [lia|done]. Qed.

(** A whole number of up to 4000 bits survives [str] and [int]. *)
Lemma length_dec_fuel f n : (length (dec_fuel f n) <= f)%nat.
Proof.
  revert n. induction f as [|f IH]; intros n; simpl; [done|].
  destruct (n <? 10)%N; simpl; [lia|]. rewrite length_app. specialize (IH (n / 10)%N). simpl. lia.
Qed.

Lemma dec_digits_length_le n :
  (n < 2 ^ 4000)%N -> (Z.of_nat (length (dec_digits n)) <= max_str_digits)%Z.
Proof.
  intros Hn. assert (N.size n <= 4000)%N as Hs.
  { destruct (decide (n = 0)%N) as [->|Hn0]; [done|]. rewrite N.size_log2 by done.
    apply N.le_succ_l, N.log2_lt_pow2; [by apply N.neq_0_lt_0 | exact Hn]. }
  clear Hn. pose proof (length_dec_fuel (S (N.to_nat (N.size n))) n) as Hl.
  fold (dec_digits n) in Hl. unfold max_str_digits. lia.
Qed.

Lemma py_str_int_trimmed z : trimmed (py_str_int z).
Proof.
  unfold py_str_int. destruct (z <? 0)%Z; [|apply dec_digits_trimmed].
  destruct (dec_digits_trimmed (Z.to_N (- z))) as [_ Hl]. split; [by intros c [= <-]|].
  intros c. rewrite last_app. specialize (Hl c).
  destruct (last (dec_digits (Z.to_N (- z)))) as [d|]; [done | by intros [= <-]].
Qed.

Lemma to_N_below z b : (Z.abs z < 2 ^ Z.of_N b)%Z -> (Z.to_N z < 2 ^ b)%N /\ (Z.to_N (- z) < 2 ^ b)%N.
Proof. intros Hz. rewrite !N2Z.inj_lt, N2Z.inj_pow. lia. Qed.

Lemma py_int_py_str_int z : (Z.abs z < 2 ^ 4000)%Z -> py_int (py_str_int z) = Some z.
Proof.
  intros Hz. destruct (to_N_below z 4000 Hz) as [Hp Hn].
  apply dec_digits_length_le in Hp, Hn. clear Hz. unfold py_int. rewrite strip_id by apply py_str_int_trimmed.
  unfold py_str_int. destruct (Z.ltb_spec z 0).
  - change (py "-" ++ dec_digits (Z.to_N (- z))) with (45%N :: dec_digits (Z.to_N (- z))).
    cbv beta iota.
    rewrite dec_digits_unsigned by done. simpl. f_equal. lia.
  - rewrite <- (strip_id (dec_digits (Z.to_N z))) by apply dec_digits_trimmed.
    fold (py_int (dec_digits (Z.to_N z))).
    rewrite py_int_digits by done. f_equal. lia.
Qed.
