(* ===== verification/Sha256.v ===== *)
(** [hashlib.sha256(...).hexdigest()] (FIPS 180-4) and [str.encode("utf-8")],
    the two library routines behind every digest the program stores. *)
From S2P Require Import Prelude PyStr.

Open Scope N_scope.

(** ** UTF-8 *)

(** The encoding of one code point; a surrogate raises [UnicodeEncodeError]. *)
Definition utf8_char (c : N) : option (list N) :=
  if negb (is_scalar c) then None
  else if c <? 128 then Some [c]
  else if c <? 2048 then Some [192 + c / 64; 128 + c mod 64]
  else if c <? 65536 then Some [224 + c / 4096; 128 + (c / 64) mod 64; 128 + c mod 64]
  else Some [240 + c / 262144; 128 + (c / 4096) mod 64; 128 + (c / 64) mod 64; 128 + c mod 64].

Fixpoint utf8_encode (s : pystr) : option (list N) :=
  match s with
  | [] => Some []
  | c :: s' => b ← utf8_char c; bs ← utf8_encode s'; Some (b ++ bs)
  end.

(** On ASCII text the encoding is the text itself. *)
Lemma utf8_encode_ascii s : Forall (fun c => c < 128) s -> utf8_encode s = Some s.
Proof.
  induction 1 as [|c s Hc Hs IH]; [done|]. simpl. rewrite IH. unfold utf8_char.
  assert (is_scalar c = true) as ->.
  { unfold is_scalar, in_range. rewrite andb_true_iff, negb_true_iff, andb_false_iff, !N.leb_le,
      !N.leb_gt. lia. }
  simpl. by rewrite (proj2 (N.ltb_lt c 128) Hc).
Qed.

Lemma utf8_encode_scalar s : is_Some (utf8_encode s) <-> scalar_str s = true.
Proof.
  unfold scalar_str. induction s as [|c s IH]; [by split; [|eexists]|].
  simpl. unfold utf8_char. destruct (is_scalar c); simpl.
  - rewrite <- IH. split.
    + intros [bs H]. destruct (utf8_encode s); [by eexists|].
      repeat case_match; simplify_eq/=.
    + intros [bs ->]. repeat case_match; by eexists.
  - split; [intros [? ?]|]; done.
Qed.

(** ** 32-bit words *)

Definition w32 (x : N) : N := x mod 4294967296.
Definition add32 (x y : N) : N := w32 (x + y).
Definition rotr (n x : N) : N := N.lor (N.shiftr x n) (w32 (N.shiftl x (32 - n))).
Definition not32 (x : N) : N := N.lxor x 4294967295.

Definition Ch (x y z : N) : N := N.lxor (N.land x y) (N.land (not32 x) z).
Definition Maj (x y z : N) : N := N.lxor (N.lxor (N.land x y) (N.land x z)) (N.land y z).
Definition bsig0 (x : N) : N := N.lxor (N.lxor (rotr 2 x) (rotr 13 x)) (rotr 22 x).
Definition bsig1 (x : N) : N := N.lxor (N.lxor (rotr 6 x) (rotr 11 x)) (rotr 25 x).
Definition ssig0 (x : N) : N := N.lxor (N.lxor (rotr 7 x) (rotr 18 x)) (N.shiftr x 3).
Definition ssig1 (x : N) : N := N.lxor (N.lxor (rotr 17 x) (rotr 19 x)) (N.shiftr x 10).

(** The constants of the standard, computed from their definition: the first 32 bits of
    the fractional parts of the roots of the first primes. *)
Definition is_prime (p : N) : bool :=
  forallb (fun d => negb (p mod N.of_nat d =? 0)) (seq 2 (N.to_nat p - 2)).
Definition primes (n : nat) : list N :=
  take n (List.filter is_prime (N.of_nat <$> seq 2 310)).

(** The bits of the largest [r] with [f r <= n], from bit [k] down. *)
Fixpoint root_bits (f : N -> N) (n : N) (k : nat) (r : N) : N :=
  let r' := r + N.shiftl 1 (N.of_nat k) in
  let r := if f r' <=? n then r' else r in
  match k with O => r | S k => root_bits f n k r end.
Definition cube_root (n : N) : N := root_bits (fun r => r * r * r) n 40 0.

Definition round_constants : list N :=
  Eval vm_compute in (fun p => w32 (cube_root (N.shiftl p 96))) <$> primes 64.

(** The eight working variables, and their initial value. *)
Record hash_state := HashState { ha : N; hb : N; hc : N; hd : N; he : N; hf : N; hg : N; hh : N }.

Definition initial_hash : hash_state :=
  Eval vm_compute in
    let h i := w32 (N.sqrt (N.shiftl (nth i (primes 8) 0) 64)) in
    HashState (h 0%nat) (h 1%nat) (h 2%nat) (h 3%nat) (h 4%nat) (h 5%nat) (h 6%nat) (h 7%nat).

(** ** Padding and parsing into blocks *)

Definition be_bytes (n : nat) (x : N) : list N :=
  (fun i => N.shiftr x (8 * N.of_nat i) mod 256) <$> reverse (seq 0 n).

Definition pad (msg : list N) : list N :=
  let len := Z.of_nat (length msg) in
  msg ++ [128] ++ replicate (Z.to_nat ((55 - len) mod 64)) 0 ++ be_bytes 8 (Z.to_N (8 * len)).

Fixpoint words (bytes : list N) : list N :=
  match bytes with
  | b0 :: b1 :: b2 :: b3 :: rest =>
      (N.shiftl b0 24 + N.shiftl b1 16 + N.shiftl b2 8 + b3) :: words rest
  | _ => []
  end.

(** Blocks of sixteen words; [f] bounds their number. *)
Fixpoint blocks (f : nat) (ws : list N) : list (list N) :=
  match f, ws with
  | S f', _ :: _ => take 16 ws :: blocks f' (drop 16 ws)
  | _, _ => []
  end.

(** No word of the message is lost: its length is enough fuel. *)
Lemma blocks_complete f ws : (length ws <= f)%nat -> concat (blocks f ws) = ws.
Proof.
  revert ws. induction f as [|f IH]; intros [|w ws] Hl; try done; [simpl in Hl; lia|].
  cbn [blocks concat]. rewrite IH.
  - by rewrite take_drop.
  - rewrite length_drop. simpl in *. lia.
Qed.

(** ** Compression *)

(** The message schedule, latest word first. *)
Fixpoint extend (n : nat) (ws : list N) : list N :=
  match n with
  | O => ws
  | S n' =>
      let w i := nth (i - 1) ws 0 in
      extend n' (w32 (ssig1 (w 2%nat) + w 7%nat + ssig0 (w 15%nat) + w 16%nat) :: ws)
  end.

Definition schedule (block : list N) : list N := reverse (extend 48 (reverse block)).

Definition round (s : hash_state) (kw : N * N) : hash_state :=
  let t1 := w32 (hh s + bsig1 (he s) + Ch (he s) (hf s) (hg s) + fst kw + snd kw) in
  let t2 := w32 (bsig0 (ha s) + Maj (ha s) (hb s) (hc s)) in
  HashState (add32 t1 t2) (ha s) (hb s) (hc s) (add32 (hd s) t1) (he s) (hf s) (hg s).

Definition compress (s : hash_state) (block : list N) : hash_state :=
  let r := fold_left round (zip round_constants (schedule block)) s in
  HashState (add32 (ha s) (ha r)) (add32 (hb s) (hb r)) (add32 (hc s) (hc r))
    (add32 (hd s) (hd r)) (add32 (he s) (he r)) (add32 (hf s) (hf r)) (add32 (hg s) (hg r))
    (add32 (hh s) (hh r)).

Definition sha256 (msg : list N) : list N :=
  let ws := words (pad msg) in
  let s := fold_left compress (blocks (length ws) ws) initial_hash in
  [ha s; hb s; hc s; hd s; he s; hf s; hg s; hh s].

(** ** Hexadecimal *)

Definition hex_digit (d : N) : N := if d <? 10 then 48 + d else 87 + d.

(** The [n] low hexadecimal digits of [x], most significant first. *)
Definition hex_digits (n : nat) (x : N) : pystr :=
  (fun i => hex_digit (N.shiftr x (4 * N.of_nat i) mod 16)) <$> reverse (seq 0 n).

Definition hexdigest (digest : list N) : pystr := digest ≫= hex_digits 8.

(** [hashlib.sha256(data).hexdigest()]. *)
Definition sha256_hex (data : list N) : pystr := hexdigest (sha256 data).

(** The characters of [^\[0-9a-f\]{64}$]. *)
Definition is_hex_lower (c : N) : bool := is_digit_ascii c || in_range 97 102 c.

Lemma hex_digit_lower d : d < 16 -> is_hex_lower (hex_digit d) = true.
Proof.
  intros Hd. unfold is_hex_lower, is_digit_ascii, in_range, hex_digit.
  rewrite orb_true_iff, !andb_true_iff, !N.leb_le. destruct (N.ltb_spec d 10); lia.
Qed.

Lemma hex_digits_lower n x : Forall (fun c => is_hex_lower c = true) (hex_digits n x).
Proof.
  unfold hex_digits. apply Forall_fmap, Forall_forall. intros i _. simpl.
  apply hex_digit_lower, N.mod_lt. lia.
Qed.

Lemma length_hex_digits n x : length (hex_digits n x) = n.
Proof. unfold hex_digits. by rewrite length_fmap, length_reverse, length_seq. Qed.

Lemma hexdigest_lower ws : Forall (fun c => is_hex_lower c = true) (hexdigest ws).
Proof.
  unfold hexdigest. induction ws as [|w ws IH]; [constructor|].
  rewrite bind_cons. apply Forall_app. split; [apply hex_digits_lower | done].
Qed.

Lemma length_hexdigest ws : length (hexdigest ws) = (8 * length ws)%nat.
Proof.
  unfold hexdigest. induction ws as [|w ws IH]; [done|].
  rewrite bind_cons, length_app, length_hex_digits, IH. simpl. lia.
Qed.

(** A digest always has the format the tables require of it. *)
Lemma sha256_hex_format data :
  length (sha256_hex data) = 64%nat
  /\ Forall (fun c => is_hex_lower c = true) (sha256_hex data).
Proof. split; [apply length_hexdigest | apply hexdigest_lower]. Qed.

(** The FIPS 180-4 test vectors of one and of two blocks. *)
Example sha256_abc :
  sha256_hex (py "abc")
  = py "ba7816bf8f01cfea414140de5dae2223b00361a396177a9cb410ff61f20015ad".
Proof. vm_compute. reflexivity. Qed.

Example sha256_two_blocks :
  sha256_hex (py "abcdbcdecdefdefgefghfghighijhijkijkljklmklmnlmnomnopnopq")
  = py "248d6a61d20638b8e5c026930c3e6039a33ce45964ff2167f6ecedd419db06c1".
Proof. vm_compute. reflexivity. Qed.
