(* ===== verification/Json.v ===== *)
(** JSON values as Python objects, and [json.dumps] with the options of
    common/idempotency.py ([sort_keys=True], separators [,] and [:],
    [ensure_ascii=True]).  The rendering of strings is a prefix code, which is
    what makes the canonical request text unambiguous. *)
From S2P Require Import Prelude PyStr Sha256.

(** ** Values *)

(** What [json.loads] returns: a float keeps its literal, a dict its entries. *)
Inductive json : Type :=
| JNull
| JBool (b : bool)
| JInt (z : Z)
| JFloat (literal : pystr)
| JStr (s : pystr)
| JArr (items : list json)
| JObj (fields : list (pystr * json)).

(** [d.get(key)] on a decoded object; [json.loads] keeps one entry per key. *)
Fixpoint dict_get (key : pystr) (fields : list (pystr * json)) : option json :=
  match fields with
  | [] => None
  | (k, v) :: rest => if str_eqb k key then Some v else dict_get key rest
  end.

(** ** Rendering *)

Definition hex4 (x : N) : pystr := py "\u" ++ hex_digits 4 x.

(** The escapes with a letter of their own. *)
Definition short_escape (c : N) : option N :=
  if (c =? 34)%N then Some 34%N          (* quotation mark *)
  else if (c =? 92)%N then Some 92%N     (* backslash *)
  else if (c =? 10)%N then Some 110%N    (* n *)
  else if (c =? 13)%N then Some 114%N    (* r *)
  else if (c =? 9)%N then Some 116%N     (* t *)
  else if (c =? 12)%N then Some 102%N    (* f *)
  else if (c =? 8)%N then Some 98%N      (* b *)
  else None.

Definition high_surrogate (c : N) : N := (55296 + (c - 65536) / 1024)%N.
Definition low_surrogate (c : N) : N := (56320 + (c - 65536) mod 1024)%N.

Definition escape_char (c : N) : pystr :=
  match short_escape c with
  | Some e => [92%N; e]
  | None =>
      if in_range 32 126 c then [c]
      else if (c <? 65536)%N then hex4 c
      else hex4 (high_surrogate c) ++ hex4 (low_surrogate c)
  end.

Definition dumps_str (s : pystr) : pystr := [34%N] ++ (s ≫= escape_char) ++ [34%N].

(** Comparison of [str] objects: by code point, shorter first. *)
Fixpoint str_leb (s t : pystr) : bool :=
  match s, t with
  | [], _ => true
  | _ :: _, [] => false
  | c :: s', d :: t' => if (c <? d)%N then true else if (d <? c)%N then false else str_leb s' t'
  end.

Fixpoint insert_field {A} (kv : pystr * A) (fields : list (pystr * A)) : list (pystr * A) :=
  match fields with
  | [] => [kv]
  | kv' :: rest => if str_leb (fst kv) (fst kv') then kv :: fields else kv' :: insert_field kv rest
  end.

Definition sort_fields {A} (fields : list (pystr * A)) : list (pystr * A) :=
  foldr insert_field [] fields.

Fixpoint join (sep : pystr) (parts : list pystr) : pystr :=
  match parts with
  | [] => []
  | [p] => p
  | p :: rest => p ++ sep ++ join sep rest
  end.

Fixpoint dumps (j : json) : pystr :=
  match j with
  | JNull => py "null"
  | JBool b => if b then py "true" else py "false"
  | JInt z => py_str_int z
  | JFloat lit => lit
  | JStr s => dumps_str s
  | JArr items => py "[" ++ join (py ",") (map dumps items) ++ py "]"
  | JObj fields =>
      py "{" ++
      join (py ",") (map (fun kv => dumps_str (fst kv) ++ py ":" ++ snd kv)
                       (sort_fields (map (fun kv => (fst kv, dumps (snd kv))) fields)))
      ++ py "}"
  end.

(** ** Injectivity of the hexadecimal escapes *)

Lemma hex_digit_inj d e :
  (d < 16)%N -> (e < 16)%N -> hex_digit d = hex_digit e -> d = e.
Proof. unfold hex_digit. destruct (N.ltb_spec d 10), (N.ltb_spec e 10); lia. Qed.

Lemma hex_value4 x :
  (x < 65536)%N ->
  x = ((N.shiftr x 12 mod 16) * 4096 + (N.shiftr x 8 mod 16) * 256
       + (N.shiftr x 4 mod 16) * 16 + N.shiftr x 0 mod 16)%N.
Proof.
  intros Hx.
  assert (forall y, y = 16 * N.shiftr y 4 + y mod 16)%N as Hdiv.
  { intros y. rewrite N.shiftr_div_pow2. apply (N.div_mod y 16). lia. }
  assert (N.shiftr x 8 = N.shiftr (N.shiftr x 4) 4)%N as -> by (by rewrite N.shiftr_shiftr).
  assert (N.shiftr x 12 = N.shiftr (N.shiftr (N.shiftr x 4) 4) 4)%N as -> by (by rewrite !N.shiftr_shiftr).
  rewrite N.shiftr_0_r.
  pose proof (Hdiv x) as H0. pose proof (Hdiv (N.shiftr x 4)) as H1.
  pose proof (Hdiv (N.shiftr (N.shiftr x 4) 4)) as H2.
  generalize dependent (N.shiftr (N.shiftr (N.shiftr x 4) 4) 4).
  generalize dependent (N.shiftr (N.shiftr x 4) 4).
  generalize dependent (N.shiftr x 4). clear Hdiv.
  intros a H0 b H1 c H2.
  assert (c < 16)%N as Hc; [|rewrite (N.mod_small c 16) by done; lia].
  revert H0 H1 H2. generalize (x mod 16)%N (a mod 16)%N (b mod 16)%N. lia.
Qed.

Lemma hex_digits4_inj x y :
  (x < 65536)%N -> (y < 65536)%N -> hex_digits 4 x = hex_digits 4 y -> x = y.
Proof.
  intros Hx Hy H. unfold hex_digits in H.
  change (reverse (seq 0 4)) with [3; 2; 1; 0]%nat in H. cbn [fmap list_fmap] in H.
  injection H as H3 H2 H1 H0.
  apply hex_digit_inj in H0, H1, H2, H3; try (apply N.mod_lt; lia).
  rewrite (hex_value4 x), (hex_value4 y) by done.
  change (4 * N.of_nat 3)%N with 12%N in *. change (4 * N.of_nat 2)%N with 8%N in *.
  change (4 * N.of_nat 1)%N with 4%N in *. change (4 * N.of_nat 0)%N with 0%N in *.
  congruence.
Qed.

Lemma hex4_app_inj x y s t :
  (x < 65536)%N -> (y < 65536)%N -> hex4 x ++ s = hex4 y ++ t -> x = y /\ s = t.
Proof.
  intros Hx Hy H. unfold hex4 in H. rewrite <- !app_assoc in H. apply app_inv_head in H.
  apply app_inj_1 in H as [H ->]; [|by rewrite !length_hex_digits].
  split; [by apply hex_digits4_inj | done].
Qed.

Lemma scalar_range c :
  is_scalar c = true -> (c <= 1114111)%N /\ ((c < 55296)%N \/ (57343 < c)%N).
Proof.
  unfold is_scalar, in_range.
  rewrite andb_true_iff, negb_true_iff, andb_false_iff, N.leb_le, !N.leb_gt. lia.
Qed.

(** ** The rendering of strings is a prefix code *)

(** The four shapes of a rendered character. *)
Inductive escaped : N -> pystr -> Prop :=
| EscShort c e : short_escape c = Some e -> escaped c [92%N; e]
| EscPlain c : short_escape c = None -> (32 <= c <= 126)%N -> escaped c [c]
| EscUnit c : (c < 65536)%N -> (c < 55296 \/ 57343 < c)%N -> escaped c (hex4 c)
| EscPair c : (65536 <= c <= 1114111)%N ->
    escaped c (hex4 (high_surrogate c) ++ hex4 (low_surrogate c)).

Lemma escape_view c : is_scalar c = true -> escaped c (escape_char c).
Proof.
  intros [Hc Hs]%scalar_range. unfold escape_char, in_range.
  destruct (short_escape c) as [e|] eqn:He; [by constructor|].
  destruct ((32 <=? c)%N && (c <=? 126)%N) eqn:Hr.
  - rewrite andb_true_iff, !N.leb_le in Hr. by constructor.
  - destruct (N.ltb_spec c 65536); constructor; lia.
Qed.

Lemma short_escape_inj c d e : short_escape c = Some e -> short_escape d = Some e -> c = d.
Proof.
  unfold short_escape.
  repeat match goal with
  | |- context [(?x =? ?n)%N] => destruct (N.eqb_spec x n)
  end; congruence.
Qed.

Lemma short_escape_not_u c : short_escape c <> Some 117%N.
Proof. unfold short_escape. repeat case_match; congruence. Qed.

Lemma surrogate_bounds c :
  (65536 <= c <= 1114111)%N ->
  (55296 <= high_surrogate c <= 57343)%N /\ (high_surrogate c < 65536)%N
  /\ (low_surrogate c < 65536)%N.
Proof.
  intros Hc. unfold high_surrogate, low_surrogate.
  pose proof (N.mod_lt (c - 65536) 1024) as Hm.
  assert ((c - 65536) / 1024 < 1024)%N as Hq by (apply N.Div0.div_lt_upper_bound; lia).
  revert Hm Hq. generalize ((c - 65536) mod 1024)%N ((c - 65536) / 1024)%N. lia.
Qed.

Lemma surrogates_inj c d :
  (65536 <= c)%N -> (65536 <= d)%N ->
  high_surrogate c = high_surrogate d -> low_surrogate c = low_surrogate d -> c = d.
Proof.
  unfold high_surrogate, low_surrogate. intros Hc Hd Hh Hl.
  pose proof (N.div_mod (c - 65536) 1024). pose proof (N.div_mod (d - 65536) 1024). lia.
Qed.

Lemma hex4_cons x : exists h, hex4 x = 92%N :: 117%N :: h.
Proof. by eexists. Qed.

Lemma escaped_app_inj c d p q s t :
  escaped c p -> escaped d q -> p ++ s = q ++ t -> c = d /\ s = t.
Proof.
  assert (Hsu : forall c e x s t, short_escape c = Some e -> [92%N; e] ++ s = hex4 x ++ t -> False).
  { intros c' e x s' t' He [= -> _]. by apply short_escape_not_u in He. }
  assert (Hpu : forall c x s t, short_escape c = None -> [c] ++ s = hex4 x ++ t -> False).
  { intros c' x s' t' He [= -> _]. discriminate He. }
  intros Hp Hq. destruct Hp, Hq; rewrite <- ?app_assoc; intros Heq.
  all: try (by exfalso; eauto).
  - injection Heq as -> ->. split; [by eapply short_escape_inj | done].
  - injection Heq as <- _. discriminate.
  - injection Heq as -> _. discriminate.
  - injection Heq as -> ->. done.
  - by apply hex4_app_inj in Heq.
  - pose proof (surrogate_bounds c0). apply hex4_app_inj in Heq; lia.
  - pose proof (surrogate_bounds c). apply hex4_app_inj in Heq; lia.
  - pose proof (surrogate_bounds c). pose proof (surrogate_bounds c0).
    apply hex4_app_inj in Heq as [Hh Heq]; [|lia..].
    apply hex4_app_inj in Heq as [Hl ->]; [|lia..].
    split; [apply surrogates_inj; lia | done].
Qed.

Lemma escaped_not_quote c p s t : escaped c p -> p ++ s = 34%N :: t -> False.
Proof.
  intros Hp. destruct Hp; try discriminate.
  intros [= -> _]. discriminate.
Qed.

(** A rendered string ends at its closing quotation mark. *)
Lemma dumps_str_app_inj s t x y :
  scalar_str s = true -> scalar_str t = true ->
  dumps_str s ++ x = dumps_str t ++ y -> s = t /\ x = y.
Proof.
  unfold dumps_str, scalar_str. intros Hs Ht. rewrite <- !app_assoc.
  intros [= H]. revert t x y Ht H.
  induction s as [|c s IH]; intros [|d t] x y Ht; simpl in *.
  - by intros [= ->].
  - apply andb_true_iff in Ht as [Hd _]. rewrite <- app_assoc. intros H. symmetry in H.
    exfalso. eapply escaped_not_quote; [by apply escape_view | done].
  - apply andb_true_iff in Hs as [Hc _]. rewrite <- app_assoc. intros H.
    exfalso. eapply escaped_not_quote; [by apply escape_view | done].
  - apply andb_true_iff in Hs as [Hc Hs], Ht as [Hd Ht]. rewrite <- !app_assoc. intros H.
    apply (escaped_app_inj _ _ _ _ _ _ (escape_view c Hc) (escape_view d Hd)) in H as [-> H].
    by apply IH in H as [-> ->].
Qed.

(** ** The rendering of integers is a prefix code when a separator follows *)

Lemma app_sep_inj {A} (P : A -> Prop) (sep : A) a b x y :
  Forall P a -> Forall P b -> ~ P sep -> a ++ sep :: x = b ++ sep :: y -> a = b /\ x = y.
Proof.
  intros Ha. revert b. induction Ha as [|c a Hc Ha IH]; intros b Hb Hsep H.
  - destruct Hb as [|d b Hd Hb]; [by injection H | by injection H as ->].
  - destruct Hb as [|d b Hd Hb]; [by injection H as ->|].
    injection H as -> H. by apply IH in H as [-> ->].
Qed.

Lemma dec_digits_inj m n : dec_digits m = dec_digits n -> m = n.
Proof.
  intros H. pose proof (dec_digits_scan m false 0 0) as Hm.
  rewrite H, dec_digits_scan in Hm. injection Hm as Hm. lia.
Qed.

Lemma py_str_int_inj a b : py_str_int a = py_str_int b -> a = b.
Proof.
  assert (Hneg : forall n s, dec_digits n = 45%N :: s -> False).
  { intros n s H. pose proof (dec_fuel_ascii (S (N.to_nat (N.size n))) n) as Hd.
    fold (dec_digits n) in Hd. rewrite H in Hd. by inversion Hd. }
  unfold py_str_int. destruct (Z.ltb_spec a 0), (Z.ltb_spec b 0); intros Heq.
  - apply app_inv_head, dec_digits_inj in Heq. lia.
  - symmetry in Heq. by apply Hneg in Heq.
  - by apply Hneg in Heq.
  - apply dec_digits_inj in Heq. lia.
Qed.

Lemma py_str_int_no_comma z : Forall (fun c => c <> 44%N) (py_str_int z).
Proof.
  assert (Hd : forall n, Forall (fun c => c <> 44%N) (dec_digits n)).
  { intros n. eapply Forall_impl; [apply dec_fuel_ascii|]. by intros c Hc ->. }
  unfold py_str_int. destruct (z <? 0)%Z; [|apply Hd].
  apply Forall_app. split; [by repeat constructor | apply Hd].
Qed.

Lemma py_str_int_app_inj a b x y :
  py_str_int a ++ 44%N :: x = py_str_int b ++ 44%N :: y -> a = b /\ x = y.
Proof.
  intros H. apply (app_sep_inj (fun c => c <> 44%N)) in H as [H ->];
    [|apply py_str_int_no_comma..|naive_solver].
  split; [by apply py_str_int_inj | done].
Qed.
