(* ===== verification/JsonText.v ===== *)
(** [json.loads]: the decoder that [httpx.Response.json()] and the framework apply to
    the texts of request and response bodies, and its round trip with [json.dumps]. *)
From S2P Require Import Prelude PyStr Sha256 Json.

(** * Decoding *)

(** Whitespace of the grammar. *)
Definition json_ws (c : N) : bool :=
  (c =? 32)%N || (c =? 9)%N || (c =? 10)%N || (c =? 13)%N.

Fixpoint skip_ws (s : pystr) : pystr :=
  match s with
  | c :: rest => if json_ws c then skip_ws rest else s
  | [] => []
  end.

(** ** Strings *)

Definition hex_val (c : N) : option N :=
  if in_range 48 57 c then Some (c - 48)%N
  else if in_range 97 102 c then Some (c - 87)%N
  else if in_range 65 70 c then Some (c - 55)%N
  else None.

Definition hex4_val (a b c d : N) : option N :=
  x ← hex_val a; y ← hex_val b; z ← hex_val c; w ← hex_val d;
  Some (x * 4096 + y * 256 + z * 16 + w)%N.

Definition is_high (x : N) : bool := in_range 55296 56319 x.
Definition is_low (x : N) : bool := in_range 56320 57343 x.
Definition join_surrogates (h l : N) : N := (65536 + (h - 55296) * 1024 + (l - 56320))%N.

Definition unescape (c : N) : option N :=
  if (c =? 34)%N then Some 34%N
  else if (c =? 92)%N then Some 92%N
  else if (c =? 47)%N then Some 47%N
  else if (c =? 98)%N then Some 8%N
  else if (c =? 102)%N then Some 12%N
  else if (c =? 110)%N then Some 10%N
  else if (c =? 114)%N then Some 13%N
  else if (c =? 116)%N then Some 9%N
  else None.

Definition push (c : N) (r : option (pystr * pystr)) : option (pystr * pystr) :=
  '(t, rest) ← r; Some (c :: t, rest).

(** The rest of a string after its opening quotation mark.  Control characters are
    refused; an escaped high surrogate is joined with an escaped low one after it. *)
Fixpoint scan_string (s : pystr) : option (pystr * pystr) :=
  match s with
  | [] => None
  | c :: s1 =>
      if (c =? 34)%N then Some ([], s1)
      else if (c =? 92)%N then
        match s1 with
        | [] => None
        | e :: s2 =>
            if (e =? 117)%N then
              match s2 with
              | h1 :: h2 :: h3 :: h4 :: s3 =>
                  match hex4_val h1 h2 h3 h4 with
                  | None => None
                  | Some x =>
                      match s3 with
                      | b :: u :: l1 :: l2 :: l3 :: l4 :: s4 =>
                          match hex4_val l1 l2 l3 l4 with
                          | Some y =>
                              if is_high x && (b =? 92)%N && (u =? 117)%N && is_low y
                              then push (join_surrogates x y) (scan_string s4)
                              else push x (scan_string s3)
                          | None => push x (scan_string s3)
                          end
                      | _ => push x (scan_string s3)
                      end
                  end
              | _ => None
              end
            else match unescape e with
                 | Some x => push x (scan_string s2)
                 | None => None
                 end
        end
      else if (c <? 32)%N then None
      else push c (scan_string s1)
  end.

(** ** Numbers *)

Fixpoint span (p : N -> bool) (s : pystr) : pystr * pystr :=
  match s with
  | c :: rest => if p c then let '(a, b) := span p rest in (c :: a, b) else ([], s)
  | [] => ([], [])
  end.

Definition scan_sign (s : pystr) : pystr * pystr :=
  match s with
  | c :: rest => if (c =? 45)%N then ([c], rest) else ([], s)
  | [] => ([], [])
  end.

(** [0|[1-9]\d*]. *)
Definition scan_int (s : pystr) : option (pystr * pystr) :=
  match s with
  | c :: rest =>
      if (c =? 48)%N then Some ([c], rest)
      else if is_digit_ascii c then Some (span is_digit_ascii s) else None
  | [] => None
  end.

(** [(\.\d+)?]. *)
Definition scan_fraction (s : pystr) : pystr * pystr :=
  match s with
  | c :: rest =>
      if (c =? 46)%N
      then match span is_digit_ascii rest with ([], _) => ([], s) | (ds, t) => (c :: ds, t) end
      else ([], s)
  | [] => ([], [])
  end.

(** [([eE][-+]?\d+)?]. *)
Definition scan_exponent (s : pystr) : pystr * pystr :=
  match s with
  | c :: rest =>
      if (c =? 101)%N || (c =? 69)%N
      then let '(sign, digits) :=
             match rest with
             | d :: r => if (d =? 43)%N || (d =? 45)%N then ([d], r) else ([], rest)
             | [] => ([], [])
             end in
           match span is_digit_ascii digits with
           | ([], _) => ([], s)
           | (ds, t) => (c :: sign ++ ds, t)
           end
      else ([], s)
  | [] => ([], [])
  end.

(** An integer beyond the conversion limit of [int] is a [ValueError]. *)
Definition scan_number (s : pystr) : option (json * pystr) :=
  let '(sign, s1) := scan_sign s in
  '(digits, s2) ← scan_int s1;
  let '(fraction, s3) := scan_fraction s2 in
  let '(exponent, s4) := scan_exponent s3 in
  match fraction, exponent with
  | [], [] => z ← py_int (sign ++ digits); Some (JInt z, s4)
  | _, _ => Some (JFloat (sign ++ digits ++ fraction ++ exponent), s4)
  end.

(** ** Values *)

(** The literals [null], [true], [false] and the three constants the decoder accepts. *)
Definition literals : list (pystr * json) :=
  [(py "null", JNull); (py "true", JBool true); (py "false", JBool false);
   (py "NaN", JFloat (py "NaN")); (py "Infinity", JFloat (py "Infinity"));
   (py "-Infinity", JFloat (py "-Infinity"))].

Fixpoint scan_literal (table : list (pystr * json)) (s : pystr) : option (json * pystr) :=
  match table with
  | [] => None
  | (text, j) :: rest =>
      if startswith s text then Some (j, drop (length text) s) else scan_literal rest s
  end.

(** [d[key] = value]: an existing key keeps its place. *)
Fixpoint dict_set {A} (key : pystr) (value : A) (fields : list (pystr * A)) : list (pystr * A) :=
  match fields with
  | [] => [(key, value)]
  | (k, v) :: rest => if str_eqb k key then (k, value) :: rest else (k, v) :: dict_set key value rest
  end.

(** [dict(pairs)]. *)
Definition dict_of {A} (pairs : list (pystr * A)) : list (pystr * A) :=
  fold_left (fun d kv => dict_set (fst kv) (snd kv) d) pairs [].

(** One value, without whitespace before it; the items of an array up to its bracket;
    the members of an object up to its brace. *)
Fixpoint scan_value (f : nat) (s : pystr) : option (json * pystr) :=
  match f with
  | O => None
  | S f =>
      match s with
      | [] => None
      | c :: rest =>
          if (c =? 34)%N then '(t, r) ← scan_string rest; Some (JStr t, r)
          else if (c =? 91)%N then
            match skip_ws rest with
            | [] => None
            | d :: r =>
                if (d =? 93)%N then Some (JArr [], r)
                else '(items, r') ← scan_items f (d :: r); Some (JArr items, r')
            end
          else if (c =? 123)%N then
            match skip_ws rest with
            | [] => None
            | d :: r =>
                if (d =? 125)%N then Some (JObj [], r)
                else '(members, r') ← scan_members f (d :: r); Some (JObj (dict_of members), r')
            end
          else match scan_literal literals s with
               | Some jr => Some jr
               | None => scan_number s
               end
      end
  end
with scan_items (f : nat) (s : pystr) : option (list json * pystr) :=
  match f with
  | O => None
  | S f =>
      '(j, r) ← scan_value f s;
      match skip_ws r with
      | [] => None
      | c :: r =>
          if (c =? 93)%N then Some ([j], r)
          else if (c =? 44)%N then '(js, r') ← scan_items f (skip_ws r); Some (j :: js, r')
          else None
      end
  end
with scan_members (f : nat) (s : pystr) : option (list (pystr * json) * pystr) :=
  match f with
  | O => None
  | S f =>
      match s with
      | [] => None
      | q :: s1 =>
          if negb (q =? 34)%N then None
          else
            '(k, r) ← scan_string s1;
            match skip_ws r with
            | [] => None
            | c :: r =>
                if negb (c =? 58)%N then None
                else
                  '(j, r) ← scan_value f (skip_ws r);
                  match skip_ws r with
                  | [] => None
                  | c :: r =>
                      if (c =? 125)%N then Some ([(k, j)], r)
                      else if (c =? 44)%N
                      then '(ms, r') ← scan_members f (skip_ws r); Some ((k, j) :: ms, r')
                      else None
                  end
            end
      end
  end.

(** [json.loads(text)]; [None] is a [ValueError].  Every call consumes a character or is
    the first of its array or object, so twice the length of the text is enough fuel. *)
Definition loads (text : pystr) : option json :=
  match text with
  | 65279%N :: _ => None
  | _ =>
      '(j, r) ← scan_value (2 * length text) (skip_ws text);
      match skip_ws r with [] => Some j | _ => None end
  end.

(** * The fuel is enough *)

Lemma length_skip_ws s : (length (skip_ws s) <= length s)%nat.
Proof. induction s as [|c s IH]; [done|]. simpl. destruct (json_ws c); simpl; lia. Qed.

Lemma skip_ws_shorter c r s : skip_ws s = c :: r -> (length r < length s)%nat.
Proof. intros H. pose proof (length_skip_ws s) as Hl. rewrite H in Hl. simpl in Hl. lia. Qed.

Lemma push_some c o t r :
  push c o = Some (t, r) -> exists t', o = Some (t', r) /\ t = c :: t'.
Proof. destruct o as [[t' r']|]; [|done]. intros [= <- <-]. by exists t'. Qed.

Lemma scan_string_shorter s t r : scan_string s = Some (t, r) -> (length r < length s)%nat.
Proof.
  remember (length s) as n eqn:Hn. revert s t r Hn.
  induction n as [n IH] using lt_wf_ind. intros s t r Hn H.
  assert (Hrec : forall c s' t r, (length s' < n)%nat -> push c (scan_string s') = Some (t, r) ->
            (length r < length s')%nat).
  { intros c s' t' r' Hl (t'' & Hs & _)%push_some. by eapply (IH (length s')). }
  destruct s as [|c s1]; [done|]. cbn [scan_string] in H. simpl in Hn.
  destruct (c =? 34)%N; [injection H as <- <-; lia|].
  destruct (c =? 92)%N; [|destruct (c <? 32)%N; [done|]; apply Hrec in H; lia].
  destruct s1 as [|e s2]; [done|]. simpl in Hn. destruct (e =? 117)%N.
  - destruct s2 as [|h1 [|h2 [|h3 [|h4 s3]]]]; try done. simpl in Hn.
    destruct (hex4_val h1 h2 h3 h4) as [x|]; [|done].
    assert (Hs3 : push x (scan_string s3) = Some (t, r) -> (length r < n)%nat)
      by (intros H'%Hrec; lia).
    destruct s3 as [|b [|u [|l1 [|l2 [|l3 [|l4 s4]]]]]]; try exact (Hs3 H).
    destruct (hex4_val l1 l2 l3 l4) as [y|]; [|exact (Hs3 H)].
    destruct (_ && is_low y); [|exact (Hs3 H)]. apply Hrec in H; simpl in *; lia.
  - destruct (unescape e); [|done]. apply Hrec in H; lia.
Qed.

Lemma span_length p s a b : span p s = (a, b) -> length s = (length a + length b)%nat.
Proof.
  revert a b. induction s as [|c s IH]; simpl; intros a b H; [by injection H as <- <-|].
  destruct (p c); [|by injection H as <- <-]. destruct (span p s) as [a' b'].
  injection H as <- <-. simpl. by rewrite (IH _ _ eq_refl).
Qed.

Lemma scan_int_shorter s ds r : scan_int s = Some (ds, r) -> (length r < length s)%nat.
Proof.
  destruct s as [|c s]; [done|]. cbn [scan_int]. destruct (c =? 48)%N; [intros [= <- <-]; simpl; lia|].
  destruct (is_digit_ascii c) eqn:Hc; [|done]. intros [= H]. cbn [span] in H. rewrite Hc in H.
  destruct (span is_digit_ascii s) as [a b] eqn:Hs. injection H as <- <-.
  apply span_length in Hs. simpl. lia.
Qed.

Lemma scan_fraction_length s a r : scan_fraction s = (a, r) -> (length r <= length s)%nat.
Proof.
  destruct s as [|c s]; cbn [scan_fraction]; [by intros [= <- <-]|].
  destruct (c =? 46)%N; [|by intros [= <- <-]].
  destruct (span is_digit_ascii s) as [[|d ds] t] eqn:Hs; intros [= <- <-]; [done|].
  apply span_length in Hs. simpl in *. lia.
Qed.

Lemma scan_exponent_length s a r : scan_exponent s = (a, r) -> (length r <= length s)%nat.
Proof.
  destruct s as [|c s]; cbn [scan_exponent]; [by intros [= <- <-]|].
  destruct (_ || _); [|by intros [= <- <-]].
  destruct s as [|d s]; [by intros [= <- <-]|].
  destruct ((d =? 43)%N || (d =? 45)%N).
  - destruct (span is_digit_ascii s) as [[|x ds] t] eqn:Hs; intros [= <- <-]; [done|].
    apply span_length in Hs. simpl in *. lia.
  - destruct (span is_digit_ascii (d :: s)) as [[|x ds] t] eqn:Hs; intros [= <- <-]; [done|].
    apply span_length in Hs. simpl in *. lia.
Qed.

Lemma scan_sign_length s a r : scan_sign s = (a, r) -> (length r <= length s)%nat.
Proof.
  destruct s as [|c s]; cbn [scan_sign]; [by intros [= <- <-]|].
  destruct (c =? 45)%N; intros [= <- <-]; simpl; lia.
Qed.

Lemma scan_number_shorter s j r : scan_number s = Some (j, r) -> (length r < length s)%nat.
Proof.
  unfold scan_number. destruct (scan_sign s) as [sign s1] eqn:H1.
  destruct (scan_int s1) as [[ds s2]|] eqn:H2; [|done]. cbn [mbind option_bind].
  destruct (scan_fraction s2) as [fr s3] eqn:H3. destruct (scan_exponent s3) as [ex s4] eqn:H4.
  apply scan_sign_length in H1. apply scan_int_shorter in H2.
  apply scan_fraction_length in H3. apply scan_exponent_length in H4.
  intros H. assert (r = s4) as ->; [|lia].
  destruct fr, ex; try (by injection H). destruct (py_int _); [by injection H | done].
Qed.

Lemma scan_literal_shorter s j r : scan_literal literals s = Some (j, r) -> (length r < length s)%nat.
Proof.
  assert (Hall : Forall (fun tj => fst tj <> []) literals) by (repeat constructor; discriminate).
  induction literals as [|[text v] table IH]; cbn [scan_literal]; [done|].
  apply Forall_cons in Hall as [Ht Hall]. destruct (startswith s text) eqn:Hs; [|by apply IH].
  intros [= <- <-]. rewrite length_drop. destruct text as [|c text]; [done|].
  destruct s as [|d s]; [done|]. simpl. lia.
Qed.

Lemma scan_shorter f :
  (forall s j r, scan_value f s = Some (j, r) -> (length r < length s)%nat)
  /\ (forall s js r, scan_items f s = Some (js, r) -> (length r < length s)%nat)
  /\ (forall s ms r, scan_members f s = Some (ms, r) -> (length r < length s)%nat).
Proof.
  induction f as [|f (IHv & IHi & IHm)]; [done|]. split_and!.
  - intros [|c s] j r; [done|]. cbn [scan_value].
    destruct (c =? 34)%N.
    { destruct (scan_string s) as [[t r']|] eqn:Hs; [|done]. intros [= <- <-].
      apply scan_string_shorter in Hs. simpl. lia. }
    destruct (c =? 91)%N.
    { destruct (skip_ws s) as [|d u] eqn:Hw; [done|]. apply skip_ws_shorter in Hw as Hl.
      destruct (d =? 93)%N; [intros [= <- <-]; simpl; lia|].
      destruct (scan_items f (d :: u)) as [[js r']|] eqn:Hi; [|done]. intros [= <- <-].
      apply IHi in Hi. simpl in *. lia. }
    destruct (c =? 123)%N.
    { destruct (skip_ws s) as [|d u] eqn:Hw; [done|]. apply skip_ws_shorter in Hw as Hl.
      destruct (d =? 125)%N; [intros [= <- <-]; simpl; lia|].
      destruct (scan_members f (d :: u)) as [[js r']|] eqn:Hi; [|done]. intros [= <- <-].
      apply IHm in Hi. simpl in *. lia. }
    destruct (scan_literal literals (c :: s)) as [[j' r']|] eqn:Hl.
    { intros [= <- <-]. by apply scan_literal_shorter in Hl. }
    apply scan_number_shorter.
  - intros s js r. cbn [scan_items]. destruct (scan_value f s) as [[j r1]|] eqn:Hv; [|done].
    apply IHv in Hv. cbn [mbind option_bind]. destruct (skip_ws r1) as [|c r2] eqn:Hw; [done|].
    apply skip_ws_shorter in Hw. destruct (c =? 93)%N; [intros [= <- <-]; lia|].
    destruct (c =? 44)%N; [|done].
    destruct (scan_items f (skip_ws r2)) as [[js' r']|] eqn:Hi; [|done]. intros [= <- <-].
    apply IHi in Hi. pose proof (length_skip_ws r2). lia.
  - intros [|q s] ms r; [done|]. cbn [scan_members]. destruct (negb _); [done|].
    destruct (scan_string s) as [[k r1]|] eqn:Hs; [|done]. apply scan_string_shorter in Hs.
    cbn [mbind option_bind]. destruct (skip_ws r1) as [|c r2] eqn:Hw; [done|].
    apply skip_ws_shorter in Hw. destruct (negb _); [done|].
    destruct (scan_value f (skip_ws r2)) as [[j r3]|] eqn:Hv; [|done]. apply IHv in Hv.
    pose proof (length_skip_ws r2). cbn [mbind option_bind].
    destruct (skip_ws r3) as [|d r4] eqn:Hw2; [done|]. apply skip_ws_shorter in Hw2.
    simpl. destruct (d =? 125)%N; [intros [= <- <-]; lia|]. destruct (d =? 44)%N; [|done].
    destruct (scan_members f (skip_ws r4)) as [[ms' r']|] eqn:Hm; [|done]. intros [= <- <-].
    apply IHm in Hm. pose proof (length_skip_ws r4). lia.
Qed.

(** More fuel than twice the length changes nothing. *)
Lemma scan_fuel f : forall g s,
  ((2 * length s <= f)%nat -> (2 * length s <= g)%nat -> scan_value f s = scan_value g s)
  /\ ((2 * length s < f)%nat -> (2 * length s < g)%nat -> scan_items f s = scan_items g s)
  /\ ((2 * length s < f)%nat -> (2 * length s < g)%nat -> scan_members f s = scan_members g s).
Proof.
  induction f as [|f IH]; intros g s.
  { split_and!; intros Hf Hg; [|lia..]. destruct s; [by destruct g | simpl in Hf; lia]. }
  destruct g as [|g].
  { split_and!; intros Hf Hg; [|lia..]. destruct s; [done | simpl in Hg; lia]. }
  assert (IHv : forall s, (2 * length s <= f)%nat -> (2 * length s <= g)%nat ->
            scan_value f s = scan_value g s) by (intros; by apply IH).
  assert (IHi : forall s, (2 * length s < f)%nat -> (2 * length s < g)%nat ->
            scan_items f s = scan_items g s) by (intros; by apply IH).
  assert (IHm : forall s, (2 * length s < f)%nat -> (2 * length s < g)%nat ->
            scan_members f s = scan_members g s) by (intros; by apply IH).
  clear IH. split_and!; intros Hf Hg.
  - destruct s as [|c s]; [done|]. simpl in Hf, Hg. cbn [scan_value].
    destruct (c =? 34)%N; [done|]. destruct (c =? 91)%N.
    { destruct (skip_ws s) as [|d u] eqn:Hw; [done|]. apply skip_ws_shorter in Hw.
      rewrite IHi by (simpl; lia). done. }
    destruct (c =? 123)%N; [|done].
    destruct (skip_ws s) as [|d u] eqn:Hw; [done|]. apply skip_ws_shorter in Hw.
    rewrite IHm by (simpl; lia). done.
  - cbn [scan_items]. rewrite IHv by lia. destruct (scan_value g s) as [[j r1]|] eqn:Hv; [|done].
    apply (proj1 (scan_shorter g)) in Hv. cbn [mbind option_bind].
    destruct (skip_ws r1) as [|c r2] eqn:Hw; [done|]. apply skip_ws_shorter in Hw.
    pose proof (length_skip_ws r2). by rewrite IHi by lia.
  - destruct s as [|q s]; [done|]. simpl in Hf, Hg. cbn [scan_members].
    destruct (negb _); [done|]. destruct (scan_string s) as [[k r1]|] eqn:Hs; [|done].
    apply scan_string_shorter in Hs. cbn [mbind option_bind].
    destruct (skip_ws r1) as [|c r2] eqn:Hw; [done|]. apply skip_ws_shorter in Hw.
    destruct (negb _); [done|]. pose proof (length_skip_ws r2). rewrite IHv by lia.
    destruct (scan_value g (skip_ws r2)) as [[j r3]|] eqn:Hv; [|done].
    apply (proj1 (scan_shorter g)) in Hv. cbn [mbind option_bind].
    destruct (skip_ws r3) as [|d r4] eqn:Hw2; [done|]. apply skip_ws_shorter in Hw2.
    pose proof (length_skip_ws r4). by rewrite IHm by lia.
Qed.

(** * Round trip with [json.dumps] *)

(** ** Strings *)

Lemma hex_val_digit d : (d < 16)%N -> hex_val (hex_digit d) = Some d.
Proof.
  intros Hd. unfold hex_val, hex_digit, in_range. destruct (N.ltb_spec d 10).
  - assert ((48 <=? 48 + d)%N && (48 + d <=? 57)%N = true) as ->
      by (rewrite andb_true_iff, !N.leb_le; lia). f_equal. lia.
  - assert ((48 <=? 87 + d)%N && (87 + d <=? 57)%N = false) as ->
      by (rewrite andb_false_iff, !N.leb_gt; lia).
    assert ((97 <=? 87 + d)%N && (87 + d <=? 102)%N = true) as ->
      by (rewrite andb_true_iff, !N.leb_le; lia). f_equal. lia.
Qed.

(** The escape of a 16-bit unit reads back as the unit. *)
Lemma hex4_read x : (x < 65536)%N ->
  exists a b c d, hex4 x = [92%N; 117%N; a; b; c; d] /\ hex4_val a b c d = Some x.
Proof.
  intros Hx. unfold hex4, hex_digits. change (reverse (seq 0 4)) with [3; 2; 1; 0]%nat.
  eexists _, _, _, _. split; [reflexivity|]. unfold hex4_val.
  rewrite !hex_val_digit by (apply N.mod_lt; lia). cbn [mbind option_bind].
  f_equal. symmetry. exact (hex_value4 x Hx).
Qed.

Lemma short_escape_read c e :
  short_escape c = Some e ->
  unescape e = Some c /\ (e =? 117)%N = false.
Proof.
  unfold short_escape.
  repeat match goal with
  | |- (if (c =? ?n)%N then _ else _) = _ -> _ =>
      destruct (N.eqb_spec c n) as [->|_]; [intros H; apply Some_inj in H; subst e; by split|]
  end. discriminate.
Qed.

Lemma in_range_true lo hi c : in_range lo hi c = true <-> (lo <= c <= hi)%N.
Proof. unfold in_range. rewrite andb_true_iff, !N.leb_le. done. Qed.
Lemma in_range_false lo hi c : in_range lo hi c = false <-> (c < lo \/ hi < c)%N.
Proof. unfold in_range. rewrite andb_false_iff, !N.leb_gt. done. Qed.

Lemma join_split c :
  (65536 <= c <= 1114111)%N ->
  is_high (high_surrogate c) = true /\ is_low (low_surrogate c) = true
  /\ join_surrogates (high_surrogate c) (low_surrogate c) = c.
Proof.
  intros Hc. unfold is_high, is_low, join_surrogates, high_surrogate, low_surrogate.
  rewrite !in_range_true. pose proof (N.mod_lt (c - 65536) 1024) as Hm.
  assert ((c - 65536) / 1024 < 1024)%N as Hq by (apply N.Div0.div_lt_upper_bound; lia).
  pose proof (N.div_mod (c - 65536) 1024) as Hd.
  revert Hm Hq Hd. generalize ((c - 65536) mod 1024)%N ((c - 65536) / 1024)%N. lia.
Qed.

(** A unit that is not a high surrogate ends its escape. *)
Lemma scan_unit x t :
  (x < 65536)%N -> is_high x = false -> scan_string (hex4 x ++ t) = push x (scan_string t).
Proof.
  intros Hx Hh. destruct (hex4_read x Hx) as (a & b & c & d & -> & Hv).
  cbn [app scan_string]. change (92 =? 34)%N with false. change (92 =? 92)%N with true.
  change (117 =? 117)%N with true. cbv iota. rewrite Hv, Hh. cbn [andb].
  clear Hv. destruct t as [|? [|? [|? [|? [|? [|? t]]]]]]; try done. by destruct (hex4_val _ _ _ _).
Qed.

Lemma scan_pair x y t :
  (x < 65536)%N -> (y < 65536)%N -> is_high x = true -> is_low y = true ->
  scan_string (hex4 x ++ hex4 y ++ t) = push (join_surrogates x y) (scan_string t).
Proof.
  intros Hx Hy Hh Hl. destruct (hex4_read x Hx) as (a & b & c & d & -> & Hv).
  destruct (hex4_read y Hy) as (a' & b' & c' & d' & -> & Hv').
  cbn [app scan_string]. change (92 =? 34)%N with false. change (92 =? 92)%N with true.
  change (117 =? 117)%N with true. cbv iota. by rewrite Hv, Hv', Hh, Hl.
Qed.

Lemma short_escape_none c :
  short_escape c = None -> (c =? 34)%N = false /\ (c =? 92)%N = false.
Proof.
  unfold short_escape. destruct (c =? 34)%N; [discriminate|]. by destruct (c =? 92)%N.
Qed.

Lemma scan_escaped c p t :
  escaped c p -> is_scalar c = true -> scan_string (p ++ t) = push c (scan_string t).
Proof.
  intros Hp Hc. destruct Hp as [c e He|c He Hr|c H1 H2|c H1].
  - apply short_escape_read in He as [Hu Hn]. cbn [app scan_string].
    change (92 =? 34)%N with false. change (92 =? 92)%N with true. cbv iota. by rewrite Hn, Hu.
  - apply short_escape_none in He as [Hq Hb]. cbn [app scan_string]. rewrite Hq, Hb.
    by destruct (N.ltb_spec c 32); [lia|].
  - apply scan_unit; [done|]. apply in_range_false. lia.
  - rewrite <- app_assoc. destruct (join_split c H1) as (Hh & Hl & Hj).
    pose proof (surrogate_bounds c H1). rewrite scan_pair by (done || lia). by rewrite Hj.
Qed.

(** A way to write the characters of a string that [json.loads] reads back. *)
Definition readable (esc : N -> pystr) : Prop :=
  forall c t, is_scalar c = true -> scan_string (esc c ++ t) = push c (scan_string t).

Lemma escape_char_readable : readable escape_char.
Proof. intros c t Hc. exact (scan_escaped _ _ t (escape_view c Hc) Hc). Qed.

(** The escapes of [ensure_ascii=False]. *)
Definition escape_raw (c : N) : pystr :=
  match short_escape c with
  | Some e => [92%N; e]
  | None => if (c <? 32)%N then hex4 c else [c]
  end.

Lemma escape_raw_readable : readable escape_raw.
Proof.
  intros c t Hc. unfold escape_raw. destruct (short_escape c) as [e|] eqn:He.
  { exact (scan_escaped c _ t (EscShort c e He) Hc). }
  destruct (N.ltb_spec c 32) as [Hl|Hl].
  - apply scan_unit; [lia|]. apply in_range_false. lia.
  - apply short_escape_none in He as [Hq Hb]. cbn [app scan_string]. rewrite Hq, Hb.
    by destruct (N.ltb_spec c 32); [lia|].
Qed.

Lemma scan_string_readable esc s rest :
  readable esc -> scalar_str s = true -> scan_string ((s ≫= esc) ++ 34%N :: rest) = Some (s, rest).
Proof.
  intros He. induction s as [|c s IH]; [done|]. cbn [scalar_str forallb]. intros [Hc Hs]%andb_true_iff.
  rewrite bind_cons, <- app_assoc, He, IH by done. done.
Qed.

(** ** Integers *)

(** What can follow a value inside a document. *)
Definition ends (rest : pystr) : Prop :=
  match rest with [] => True | c :: _ => c = 44%N \/ c = 93%N \/ c = 125%N end.

Lemma span_app p a b :
  Forall (fun c => p c = true) a -> match b with [] => True | c :: _ => p c = false end ->
  span p (a ++ b) = (a, b).
Proof.
  intros Ha Hb. induction Ha as [|c a Hc Ha IH].
  - destruct b as [|c b]; [done|]. cbn [app span]. by rewrite Hb.
  - cbn [app span]. by rewrite Hc, IH.
Qed.

Lemma ends_no_digit rest : ends rest -> match rest with [] => True | c :: _ => is_digit_ascii c = false end.
Proof. destruct rest as [|c rest]; [done|]. by intros [->|[->| ->]]. Qed.

Lemma ends_no_tail rest :
  ends rest -> scan_fraction rest = ([], rest) /\ scan_exponent rest = ([], rest).
Proof. destruct rest as [|c rest]; [done|]. by intros [->|[->| ->]]. Qed.

Lemma ends_skip rest : ends rest -> skip_ws rest = rest.
Proof. destruct rest as [|c rest]; [done|]. by intros [->|[->| ->]]. Qed.

(** No leading zero. *)
Lemma dec_fuel_head f n :
  (0 < n < 10 ^ N.of_nat (S f))%N -> exists c ds, dec_fuel (S f) n = c :: ds /\ (c <> 48)%N.
Proof.
  revert n. induction f as [|f IH]; intros n Hn.
  - cbn [dec_fuel]. destruct (N.ltb_spec n 10); [|simpl in Hn; lia].
    eexists _, _. split; [done|]. lia.
  - remember (S f) as g eqn:Hg. cbn [dec_fuel]. destruct (N.ltb_spec n 10) as [Hl|Hl].
    + eexists _, _. split; [done|]. lia.
    + subst g. destruct (IH (n / 10)%N) as (c & ds & -> & Hc).
      * split; [apply N.div_str_pos; lia|]. apply N.Div0.div_lt_upper_bound.
        rewrite Nat2N.inj_succ, N.pow_succ_r' in Hn. lia.
      * by eexists _, _.
Qed.

Lemma dec_digits_bound n : (n < 10 ^ N.of_nat (S (N.to_nat (N.size n))))%N.
Proof.
  rewrite Nat2N.inj_succ, N2Nat.id. apply N.lt_le_trans with (2 ^ N.size n)%N; [apply N.size_gt|].
  etransitivity; [apply (N.pow_le_mono_l 2 10); lia|]. apply N.pow_le_mono_r; lia.
Qed.

Lemma scan_int_digits n rest :
  ends rest -> scan_int (dec_digits n ++ rest) = Some (dec_digits n, rest).
Proof.
  intros Hr. destruct (decide (n = 0)%N) as [->|Hn]; [done|].
  destruct (dec_fuel_head (N.to_nat (N.size n)) n) as (c & ds & Hd & Hc).
  { split; [lia|]. apply dec_digits_bound. }
  pose proof (dec_fuel_ascii (S (N.to_nat (N.size n))) n) as Hf.
  change (dec_fuel _ n) with (dec_digits n) in Hd, Hf. rewrite Hd in *.
  cbn [app scan_int]. apply N.eqb_neq in Hc. rewrite Hc.
  apply Forall_cons in Hf as Hf'. destruct Hf' as [-> _].
  change (c :: ds ++ rest) with ((c :: ds) ++ rest).
  by rewrite span_app by (done || by apply ends_no_digit).
Qed.

Lemma dec_digits_first n : exists c ds, dec_digits n = c :: ds /\ is_digit_ascii c = true.
Proof.
  pose proof (dec_fuel_ascii (S (N.to_nat (N.size n))) n) as Hf.
  pose proof (dec_fuel_nonempty (N.to_nat (N.size n)) n) as Hn.
  change (dec_fuel _ n) with (dec_digits n) in Hf, Hn. destruct (dec_digits n) as [|c ds]; [done|].
  apply Forall_cons in Hf as [Hc _]. by exists c, ds.
Qed.

Lemma scan_number_int z rest :
  (Z.abs z < 2 ^ 4000)%Z -> ends rest ->
  scan_number (py_str_int z ++ rest) = Some (JInt z, rest).
Proof.
  intros Hz Hr. pose proof (py_int_py_str_int z Hz) as Hp. unfold scan_number, py_str_int in *.
  destruct (ends_no_tail rest Hr) as [Hf He].
  destruct (z <? 0)%Z.
  - change (py "-") with [45%N]. cbn [app scan_sign]. change (45 =? 45)%N with true. cbv iota.
    rewrite scan_int_digits by done. cbn [mbind option_bind]. rewrite Hf, He.
    change ([45%N] ++ dec_digits (Z.to_N (- z))) with (py "-" ++ dec_digits (Z.to_N (- z))).
    by rewrite Hp.
  - destruct (dec_digits_first (Z.to_N z)) as (c & ds & Hd & Hc).
    assert (scan_sign (dec_digits (Z.to_N z) ++ rest) = ([], dec_digits (Z.to_N z) ++ rest)) as ->.
    { rewrite Hd. cbn [app scan_sign]. apply in_range_true in Hc.
      by destruct (N.eqb_spec c 45); [lia|]. }
    rewrite scan_int_digits by done. cbn [mbind option_bind app]. rewrite Hf, He. by rewrite Hp.
Qed.

(** A digit, or a minus sign and a digit: no literal, string, array or object. *)
Lemma digit_cases c :
  is_digit_ascii c = true -> c ∈ [48; 49; 50; 51; 52; 53; 54; 55; 56; 57]%N.
Proof. intros Hc%in_range_true. rewrite !elem_of_cons. lia. Qed.

Lemma scan_value_digit f c s :
  is_digit_ascii c = true -> scan_value (S f) (c :: s) = scan_number (c :: s).
Proof.
  intros Hc%digit_cases. repeat (apply elem_of_cons in Hc as [->|Hc]; [reflexivity|]).
  by apply elem_of_nil in Hc.
Qed.

Lemma scan_value_minus f c s :
  is_digit_ascii c = true -> scan_value (S f) (45%N :: c :: s) = scan_number (45%N :: c :: s).
Proof.
  intros Hc%digit_cases. repeat (apply elem_of_cons in Hc as [->|Hc]; [reflexivity|]).
  by apply elem_of_nil in Hc.
Qed.

Lemma scan_value_int f z rest :
  (Z.abs z < 2 ^ 4000)%Z -> ends rest ->
  scan_value (S f) (py_str_int z ++ rest) = Some (JInt z, rest).
Proof.
  intros Hz Hr. rewrite <- (scan_number_int z rest Hz Hr). unfold py_str_int. destruct (z <? 0)%Z.
  - destruct (dec_digits_first (Z.to_N (- z))) as (c & ds & -> & Hc). by apply scan_value_minus.
  - destruct (dec_digits_first (Z.to_N z)) as (c & ds & -> & Hc). by apply scan_value_digit.
Qed.

(** ** Values *)

(** Induction through the items of arrays and the members of objects. *)
Definition json_nested_ind (P : json -> Prop) (fnull : P JNull) (fbool : forall b, P (JBool b))
    (fint : forall z, P (JInt z)) (ffloat : forall l, P (JFloat l)) (fstr : forall s, P (JStr s))
    (farr : forall l, Forall P l -> P (JArr l))
    (fobj : forall l, Forall (fun kv => P (snd kv)) l -> P (JObj l)) : forall j, P j :=
  fix go j : P j :=
    match j with
    | JNull => fnull | JBool b => fbool b | JInt z => fint z | JFloat l => ffloat l | JStr s => fstr s
    | JArr l => farr l ((fix items l : Forall P l :=
                           match l with
                           | [] => Forall_nil_2 _
                           | j :: l => Forall_cons_2 _ _ _ (go j) (items l)
                           end) l)
    | JObj l => fobj l ((fix members l : Forall (fun kv => P (snd kv)) l :=
                           match l with
                           | [] => Forall_nil_2 _
                           | kv :: l => Forall_cons_2 _ _ _ (go (snd kv)) (members l)
                           end) l)
    end.

(** What the program writes: integers within the conversion limit, text without unpaired
    surrogates, one member per key; no floats. *)
Fixpoint json_plain (j : json) : bool :=
  match j with
  | JNull | JBool _ => true
  | JInt z => (Z.abs z <? 2 ^ 4000)%Z
  | JFloat _ => false
  | JStr s => scalar_str s
  | JArr items => forallb json_plain items
  | JObj fields =>
      bool_decide (NoDup fields.*1)
      && forallb (fun kv => scalar_str (fst kv) && json_plain (snd kv)) fields
  end.

Lemma insert_field_map {A B} (g : A -> B) kv l :
  insert_field (fst kv, g (snd kv)) (map (fun kv => (fst kv, g (snd kv))) l)
  = map (fun kv => (fst kv, g (snd kv))) (insert_field kv l).
Proof.
  induction l as [|kv' l IH]; [done|]. cbn [map insert_field fst].
  destruct (str_leb _ _); [done|]. cbn [map]. by rewrite <- IH.
Qed.

Lemma sort_fields_map {A B} (g : A -> B) l :
  sort_fields (map (fun kv => (fst kv, g (snd kv))) l)
  = map (fun kv => (fst kv, g (snd kv))) (sort_fields l).
Proof.
  unfold sort_fields. induction l as [|kv l IH]; [done|]. cbn [map foldr]. rewrite IH.
  apply insert_field_map.
Qed.

Lemma insert_field_perm {A} (kv : pystr * A) l : insert_field kv l ≡ₚ kv :: l.
Proof.
  induction l as [|kv' l IH]; [done|]. cbn [insert_field]. destruct (str_leb _ _); [done|].
  rewrite IH. apply Permutation_swap.
Qed.

Lemma sort_fields_perm {A} (l : list (pystr * A)) : sort_fields l ≡ₚ l.
Proof.
  unfold sort_fields. induction l as [|kv l IH]; [done|]. cbn [foldr]. by rewrite insert_field_perm, IH.
Qed.

Lemma dict_set_fresh {A} k (v : A) d : k ∉ d.*1 -> dict_set k v d = d ++ [(k, v)].
Proof.
  induction d as [|[k' v'] d IH]; [done|]. rewrite fmap_cons, not_elem_of_cons. intros [Hk Hd].
  cbn [dict_set]. destruct (str_eqb k' k) eqn:E; [by apply str_eqb_eq in E; subst|].
  by rewrite IH.
Qed.

Lemma dict_of_nodup {A} (l : list (pystr * A)) : NoDup l.*1 -> dict_of l = l.
Proof.
  intros Hl. unfold dict_of.
  enough (forall d, NoDup (d ++ l).*1 -> fold_left (fun d kv => dict_set (fst kv) (snd kv) d) l d = d ++ l)
    as H by (by apply (H [])).
  clear Hl. induction l as [|[k v] l IH]; intros d Hd; [by rewrite app_nil_r|].
  cbn [fold_left fst snd]. rewrite dict_set_fresh.
  - rewrite IH by (by rewrite <- app_assoc). by rewrite <- app_assoc.
  - rewrite fmap_app, fmap_cons in Hd. apply NoDup_app in Hd as (_ & Hd & _).
    intros Hk. apply (Hd k Hk). by left.
Qed.

(** ** [json.dumps] by its options *)

(** Compact separators; [esc] writes a character, [sort] is [sort_keys]. *)
Definition arrange {A} (sort : bool) (fields : list (pystr * A)) : list (pystr * A) :=
  if sort then sort_fields fields else fields.
Definition render_str (esc : N -> pystr) (s : pystr) : pystr := [34%N] ++ (s ≫= esc) ++ [34%N].

Fixpoint render (esc : N -> pystr) (sort : bool) (j : json) : pystr :=
  match j with
  | JNull => py "null"
  | JBool b => if b then py "true" else py "false"
  | JInt z => py_str_int z
  | JFloat lit => lit
  | JStr s => render_str esc s
  | JArr items => py "[" ++ join (py ",") (map (render esc sort) items) ++ py "]"
  | JObj fields =>
      py "{" ++
      join (py ",") (map (fun kv => render_str esc (fst kv) ++ py ":" ++ snd kv)
                       (arrange sort (map (fun kv => (fst kv, render esc sort (snd kv))) fields)))
      ++ py "}"
  end.

(** The value with its members in the order they are written. *)
Fixpoint arranged (sort : bool) (j : json) : json :=
  match j with
  | JArr items => JArr (map (arranged sort) items)
  | JObj fields => JObj (arrange sort (map (fun kv => (fst kv, arranged sort (snd kv))) fields))
  | j => j
  end.

Lemma arrange_map {A B} sort (g : A -> B) l :
  arrange sort (map (fun kv => (fst kv, g (snd kv))) l)
  = map (fun kv => (fst kv, g (snd kv))) (arrange sort l).
Proof. destruct sort; [apply sort_fields_map | done]. Qed.

Lemma arrange_perm {A} sort (l : list (pystr * A)) : arrange sort l ≡ₚ l.
Proof. destruct sort; [apply sort_fields_perm | done]. Qed.

(** [dumps] is the rendering of the fingerprints. *)
Lemma dumps_render j : dumps j = render escape_char true j.
Proof.
  induction j as [| | | | |l IH|l IH] using json_nested_ind; try done; cbn [dumps render arrange].
  - do 3 f_equal. induction IH as [|j l Hj Hl IHl]; [done|]. cbn [map]. by rewrite Hj, IHl.
  - assert (map (fun kv => (fst kv, dumps (snd kv))) l
            = map (fun kv => (fst kv, render escape_char true (snd kv))) l) as ->; [|done].
    induction IH as [|kv l Hj Hl IHl]; [done|]. cbn [map]. by rewrite Hj, IHl.
Qed.

(** Bodies whose members are not sorted are not rearranged. *)
Lemma arranged_as_written j : arranged false j = j.
Proof.
  induction j as [| | | | |l IH|l IH] using json_nested_ind; try done; cbn [arranged arrange]; f_equal.
  - induction IH as [|j l Hj Hl IHl]; [done|]. cbn [map]. by rewrite Hj, IHl.
  - induction IH as [|[k j] l Hj Hl IHl]; [done|]. cbn [map fst snd] in *. by rewrite Hj, IHl.
Qed.

Lemma skip_ws_head s : match s with [] => True | c :: _ => json_ws c = false end -> skip_ws s = s.
Proof. destruct s as [|c s]; [done|]. cbn [skip_ws]. by intros ->. Qed.

Lemma digit_not_ws c : is_digit_ascii c = true -> json_ws c = false.
Proof.
  intros Hc%digit_cases. repeat (apply elem_of_cons in Hc as [->|Hc]; [reflexivity|]).
  by apply elem_of_nil in Hc.
Qed.

Section round_trip.
Context (esc : N -> pystr) (sort : bool).
Hypothesis esc_readable : readable esc.

(** A text starts with neither whitespace nor a closing bracket. *)
Lemma dumps_head j :
  json_plain j = true -> exists c s, render esc sort j = c :: s /\ json_ws c = false /\ (c =? 93)%N = false.
Proof.
  destruct j as [|[]|z| |s|l|l]; try discriminate; intros _; try by eexists _, _.
  cbn [render]. unfold py_str_int. destruct (z <? 0)%Z; [by eexists _, _|].
  destruct (dec_digits_first (Z.to_N z)) as (c & ds & -> & Hc). exists c, ds.
  split; [done|]. split; [by apply digit_not_ws|]. apply in_range_true in Hc. apply N.eqb_neq. lia.
Qed.

(** The decoder reads a rendered value and leaves what follows it. *)
Definition reads (j : json) : Prop :=
  forall f rest, (2 * length (render esc sort j) <= f)%nat -> ends rest ->
  scan_value f (render esc sort j ++ rest) = Some (arranged sort j, rest).

Lemma scan_items_dumps l f rest :
  Forall reads l -> Forall (fun j => json_plain j = true) l -> l <> [] ->
  (2 * length (join (py ",") (map (render esc sort) l)) < f)%nat ->
  scan_items f (join (py ",") (map (render esc sort) l) ++ 93%N :: rest) = Some (map (arranged sort) l, rest).
Proof.
  intros Hr. revert f. induction Hr as [|j l Hj Hl IH]; [done|].
  intros [|f] Hp _ Hf; [lia|]. apply Forall_cons in Hp as [Hpj Hpl].
  destruct l as [|j' l]; cbn [map join] in *; cbn [scan_items].
  - rewrite Hj by (simpl; auto || lia). reflexivity.
  - rewrite !length_app in Hf. change (length (py ",")) with 1%nat in Hf. rewrite <- !app_assoc.
    rewrite Hj by (simpl; auto || lia). cbn [mbind option_bind].
    change (py ",") with [44%N]. cbn [app skip_ws json_ws].
    change (json_ws 44) with false. cbv iota. change (44 =? 93)%N with false.
    change (44 =? 44)%N with true. cbv iota.
    rewrite skip_ws_head.
    + rewrite IH by (done || (cbn [map join length] in *; lia)). reflexivity.
    + apply Forall_cons in Hpl as [Hpj' _]. destruct (dumps_head j' Hpj') as (c & s & Hd & Hc & _).
      rewrite Hd. by destruct l.
Qed.

Abbreviation member kv := (render_str esc (fst kv) ++ py ":" ++ render esc sort (snd kv)).

Lemma scan_members_dumps l f rest :
  Forall (fun kv => reads (snd kv)) l ->
  Forall (fun kv => scalar_str (fst kv) && json_plain (snd kv) = true) l -> l <> [] ->
  (2 * length (join (py ",") (map (fun kv => member kv) l)) < f)%nat ->
  scan_members f (join (py ",") (map (fun kv => member kv) l) ++ 125%N :: rest)
  = Some (map (fun kv => (fst kv, arranged sort (snd kv))) l, rest).
Proof.
  intros Hr. revert f. induction Hr as [|[k j] l Hj Hl IH]; [done|].
  intros [|f] Hp _ Hf; [lia|]. apply Forall_cons in Hp as [[Hk Hpj]%andb_true_iff Hpl].
  cbn [fst snd] in *.
  assert (Hone : forall x, (2 * length (render esc sort j) <= f)%nat -> ends x ->
    scan_members (S f) (member (k, j) ++ x)
    = match x with
      | c :: r =>
          if (c =? 125)%N then Some ([(k, arranged sort j)], r)
          else if (c =? 44)%N
          then '(ms, r') ← scan_members f (skip_ws r); Some ((k, arranged sort j) :: ms, r')
          else None
      | [] => None
      end).
  { intros x Hx He. cbn [fst snd]. unfold render_str. rewrite <- !app_assoc.
    change (py ":") with [58%N]. cbn [app scan_members]. change (negb (34 =? 34)%N) with false. cbv iota.
    rewrite (scan_string_readable esc k (58%N :: render esc sort j ++ x)) by done. cbn [mbind option_bind].
    change (skip_ws (58%N :: render esc sort j ++ x)) with (58%N :: render esc sort j ++ x). cbv iota.
    change (negb (58 =? 58)%N) with false. cbv iota.
    rewrite skip_ws_head.
    - rewrite Hj by done. cbn [mbind option_bind]. by rewrite ends_skip by done.
    - destruct (dumps_head j Hpj) as (c & s & -> & Hc & _). done. }
  destruct l as [|kv' l]; cbn [map join] in *.
  - rewrite Hone; [done| |simpl; auto]. cbn [fst snd] in Hf. rewrite !length_app in Hf. lia.
  - cbn [fst snd] in Hf. rewrite !length_app in Hf. change (length (py ",")) with 1%nat in Hf.
    rewrite <- app_assoc, Hone;
      [|lia|by left].
    change (py ",") with [44%N]. cbn [app]. change (44 =? 125)%N with false.
    change (44 =? 44)%N with true. cbv iota. rewrite skip_ws_head by (by destruct l).
    rewrite IH by (done || (cbn [map join] in *; lia)). reflexivity.
Qed.

Lemma plain_items l : json_plain (JArr l) = true -> Forall (fun j => json_plain j = true) l.
Proof. cbn [json_plain]. apply forallb_Forall_iff. Qed.

Lemma plain_members l :
  json_plain (JObj l) = true ->
  NoDup l.*1 /\ Forall (fun kv => scalar_str (fst kv) && json_plain (snd kv) = true) l.
Proof.
  cbn [json_plain]. intros [Hn Hl]%andb_true_iff. apply bool_decide_eq_true in Hn.
  by apply forallb_Forall_iff in Hl.
Qed.

Lemma reads_array l :
  Forall reads l -> Forall (fun j => json_plain j = true) l -> reads (JArr l).
Proof.
  intros Hr Hp f rest Hf Hends. cbn [render] in *. rewrite !length_app in Hf.
  change (py "[") with [91%N] in *. change (py "]") with [93%N] in *. cbn [length] in Hf.
  destruct f as [|f]; [lia|]. rewrite <- !app_assoc. cbn [app scan_value].
  change (91 =? 34)%N with false. change (91 =? 91)%N with true. cbv iota.
  destruct l as [|j l]; [done|]. set (text := join (py ",") (map (render esc sort) (j :: l))) in *.
  assert (Hh : exists c s, text ++ 93%N :: rest = c :: s /\ json_ws c = false /\ (c =? 93)%N = false).
  { apply Forall_cons in Hp as [Hj _]. destruct (dumps_head j Hj) as (c & s & Hd & Hc).
    unfold text. cbn [map]. rewrite Hd. destruct l; cbn [map join app]; by eexists _, _. }
  destruct Hh as (c & s & Hs & Hw & H93). rewrite Hs, skip_ws_head, H93 by exact Hw.
  rewrite <- Hs. unfold text in *.
  rewrite scan_items_dumps by (done || lia). reflexivity.
Qed.

Lemma reads_object l :
  Forall (fun kv => reads (snd kv)) l -> json_plain (JObj l) = true -> reads (JObj l).
Proof.
  intros Hr [Hn Hp]%plain_members f rest Hf Hends. cbn [render arranged] in *.
  rewrite !arrange_map, map_map in *. cbn [fst snd] in *.
  change (py "{") with [123%N] in *. change (py "}") with [125%N] in *.
  rewrite !length_app in Hf. cbn [length] in Hf.
  destruct f as [|f]; [lia|]. rewrite <- !app_assoc. cbn [app scan_value].
  change (123 =? 34)%N with false. change (123 =? 91)%N with false.
  change (123 =? 123)%N with true. cbv iota.
  destruct (arrange sort l) as [|kv l'] eqn:Hl; [done|]. rewrite <- Hl in *.
  set (text := join (py ",") (map (fun kv => member kv) (arrange sort l))) in *.
  assert (Hh : exists s, text ++ 125%N :: rest = 34%N :: s).
  { unfold text. rewrite Hl. cbn [map]. destruct l'; by eexists. }
  destruct Hh as (s & Hs). rewrite Hs, skip_ws_head by done.
  change (34 =? 125)%N with false. cbv iota. rewrite <- Hs. unfold text in *.
  assert (Hperm : arrange sort l ≡ₚ l) by apply arrange_perm.
  rewrite scan_members_dumps; [|by rewrite Hperm|by rewrite Hperm|by rewrite Hl|lia].
  cbn [mbind option_bind]. rewrite dict_of_nodup; [done|].
  assert (Hk : (map (fun kv => (fst kv, arranged sort (snd kv))) (arrange sort l)).*1 = (arrange sort l).*1).
  { generalize (arrange sort l). intros m. induction m as [|kv' m IHm]; [done|].
    cbn [map]. by rewrite !fmap_cons, IHm. }
  rewrite Hk. by rewrite Hperm.
Qed.

Lemma dumps_reads j : json_plain j = true -> reads j.
Proof.
  induction j as [|b|z|lit|s|l IH|l IH] using json_nested_ind; intros Hp.
  - intros [|f] [|c rest] Hf _; [simpl in Hf; lia..|reflexivity|reflexivity].
  - intros [|f] [|c rest] Hf _; destruct b; try (simpl in Hf; lia); reflexivity.
  - intros f rest Hf He. destruct f as [|f].
    { cbn [render] in Hf. unfold py_str_int in Hf.
      destruct (z <? 0)%Z; [simpl in Hf; lia|].
      destruct (dec_digits_first (Z.to_N z)) as (c & ds & Hd & _). rewrite Hd in Hf. simpl in Hf. lia. }
    apply scan_value_int; [by apply Z.ltb_lt | done].
  - discriminate.
  - intros [|f] rest Hf _; [simpl in Hf; lia|]. cbn [render]. unfold render_str.
    rewrite <- !app_assoc. cbn [app scan_value]. change (34 =? 34)%N with true. cbv iota.
    by rewrite scan_string_readable.
  - apply plain_items in Hp. apply reads_array; [|done].
    apply Forall_forall. intros j Hj. rewrite !Forall_forall in *. by apply IH, Hp.
  - apply reads_object; [|done]. apply plain_members in Hp as [_ Hp].
    apply Forall_forall. intros kv Hkv. rewrite !Forall_forall in *. apply IH; [done|].
    by apply Hp in Hkv as [_ Hkv]%andb_true_iff.
Qed.

Lemma loads_text j : json_plain j = true -> loads (render esc sort j) = Some (arranged sort j).
Proof.
  intros Hp. pose proof (dumps_reads j Hp (2 * length (render esc sort j))%nat []) as Hr.
  rewrite app_nil_r in Hr. unfold loads.
  destruct (dumps_head j Hp) as (c & s & Hd & Hc & _).
  assert (skip_ws (render esc sort j) = render esc sort j) as Hs by (rewrite skip_ws_head; [done | by rewrite Hd]).
  rewrite Hs, Hr by (simpl; auto). cbn [mbind option_bind skip_ws]. rewrite Hd.
  destruct (N.eqb_spec c 65279) as [->|Hne].
  - exfalso. destruct j as [|[]|z| |t|l|l]; cbn [render] in Hd; try discriminate.
    unfold py_str_int in Hd. destruct (z <? 0)%Z; [discriminate|].
    destruct (dec_digits_first (Z.to_N z)) as (d & ds & Hd' & Hdig). rewrite Hd' in Hd.
    injection Hd as -> _. discriminate.
  - by repeat (case_match; try done; subst).
Qed.
End round_trip.
