(* ===== verification/Domain.v ===== *)
(** The transaction entity of domain/transaction.py and its exceptions
    (domain/exceptions.py): constructor, the three mutating methods, and the
    lifecycle they implement. *)
From S2P Require Import Prelude PyStr.

Open Scope Z_scope.
Open Scope method_scope.

(** * Data *)

Inductive TransactionStatus : Set :=
| CREATED | AUTHORIZED | DECLINED | CAPTURED | REFUNDED | PENDING_RECONCILIATION | FAILED.

Inductive PendingOperation : Set := AUTHORIZATION | CAPTURE | REFUND.

#[export] Instance TransactionStatus_eq_dec : EqDecision TransactionStatus.
Proof. solve_decision. Defined.
#[export] Instance PendingOperation_eq_dec : EqDecision PendingOperation.
Proof. solve_decision. Defined.

(** The [.value] of the members of the two [StrEnum] classes. *)
Definition TransactionStatus_value (s : TransactionStatus) : pystr :=
  match s with
  | CREATED => py "CREATED"
  | AUTHORIZED => py "AUTHORIZED"
  | DECLINED => py "DECLINED"
  | CAPTURED => py "CAPTURED"
  | REFUNDED => py "REFUNDED"
  | PENDING_RECONCILIATION => py "PENDING_RECONCILIATION"
  | FAILED => py "FAILED"
  end.

Definition PendingOperation_value (o : PendingOperation) : pystr :=
  match o with
  | AUTHORIZATION => py "AUTHORIZATION"
  | CAPTURE => py "CAPTURE"
  | REFUND => py "REFUND"
  end.

(** The Python objects the runtime type checks of the entity tell apart. *)
Inductive pyobj : Type :=
| PStr (s : pystr)
| PInt (z : Z)
| PBool (b : bool)
| PNone
| PStatus (s : TransactionStatus)
| POperation (o : PendingOperation)
| POther.

(** ** The transition tables *)

Definition _TERMINAL_STATES : list TransactionStatus := [DECLINED; FAILED; REFUNDED].

Definition _ORDINARY_TRANSITIONS (s : TransactionStatus) : option (list TransactionStatus) :=
  match s with
  | CREATED => Some [AUTHORIZED; DECLINED; FAILED]
  | AUTHORIZED => Some [CAPTURED]
  | CAPTURED => Some [REFUNDED]
  | PENDING_RECONCILIATION => Some []
  | DECLINED => Some []
  | FAILED => Some []
  | REFUNDED => Some []
  end.

Definition _RECONCILIATION_ENTRIES (s : TransactionStatus) : option PendingOperation :=
  match s with
  | CREATED => Some AUTHORIZATION
  | AUTHORIZED => Some CAPTURE
  | CAPTURED => Some REFUND
  | _ => None
  end.

Definition _RECONCILIATION_RESOLUTIONS (o : PendingOperation) : option (list TransactionStatus) :=
  match o with
  | AUTHORIZATION => Some [AUTHORIZED; DECLINED; FAILED]
  | CAPTURE => Some [CAPTURED; AUTHORIZED]
  | REFUND => Some [REFUNDED; CAPTURED]
  end.

(** ** Exceptions *)

(** The structural checks of the constructor, in place of their message texts. *)
Inductive invariant_violation : Type :=
| BadTransactionId (o : pyobj)
| BadVersion (o : pyobj)
| BadStatus (o : pyobj)
| MissingPendingOperation
| BadPendingOperation (o : pyobj)
| UnexpectedPendingOperation (s : TransactionStatus)
| CorruptedPending (transaction_id : pystr).

Inductive reconciliation_misuse : Type :=
| OrdinaryTransitionWhilePending (transaction_id : pystr) (target : TransactionStatus)
| AlreadyPending (transaction_id : pystr)
| ResolveWhileNotPending (transaction_id : pystr) (current : TransactionStatus).

Inductive domain_exn : Type :=
| InvalidTransactionInvariantError (why : invariant_violation)
| InvalidStateTransitionError (current_status attempted_status : TransactionStatus)
    (transaction_id : option pystr) (reason : option pystr)
| InvalidReconciliationOperationError (current_status : TransactionStatus)
    (attempted_operation : PendingOperation) (transaction_id : option pystr)
| InvalidReconciliationResolutionError (pending_operation : PendingOperation)
    (attempted_status : TransactionStatus) (transaction_id : option pystr)
| ReconciliationStateError (why : reconciliation_misuse)
| TypeErrorOf (o : pyobj).

(** The classes below [DomainException]; [TypeError] is not one of them. *)
Definition is_DomainException (e : domain_exn) : bool :=
  match e with TypeErrorOf _ => false | _ => true end.

(** [f" for transaction '{transaction_id}'" if transaction_id else ""]. *)
Definition tx_context (transaction_id : option pystr) : pystr :=
  match transaction_id with
  | Some (c :: s) => py " for transaction '" ++ (c :: s) ++ py "'"
  | _ => []
  end.

(** The message texts composed by the [__init__] methods. *)
Definition typed_message (e : domain_exn) : option pystr :=
  match e with
  | InvalidStateTransitionError cur att tid reason =>
      let detail := match reason with
                    | Some (c :: s) => py " (" ++ (c :: s) ++ py ")"
                    | _ => []
                    end in
      Some (py "Invalid transaction transition" ++ tx_context tid
            ++ py ": cannot transition from '" ++ TransactionStatus_value cur
            ++ py "' to '" ++ TransactionStatus_value att ++ py "'" ++ detail ++ py ".")
  | InvalidReconciliationOperationError cur op tid =>
      Some (py "Invalid reconciliation operation" ++ tx_context tid
            ++ py ": operation '" ++ PendingOperation_value op
            ++ py "' cannot be initiated from state '" ++ TransactionStatus_value cur ++ py "'.")
  | InvalidReconciliationResolutionError op att tid =>
      Some (py "Invalid reconciliation resolution" ++ tx_context tid
            ++ py ": cannot resolve pending operation '" ++ PendingOperation_value op
            ++ py "' to state '" ++ TransactionStatus_value att ++ py "'.")
  | _ => None
  end.

(** * The entity *)

Record Transaction : Type := MkTransaction {
  transaction_id : pystr;
  status : TransactionStatus;
  version : Z;
  pending_operation : option PendingOperation
}.

#[export] Instance Transaction_eq_dec : EqDecision Transaction.
Proof. solve_decision. Defined.

(** Attribute assignments. *)
Definition set_status (s : TransactionStatus) (t : Transaction) : Transaction :=
  MkTransaction (transaction_id t) s (version t) (pending_operation t).
Definition set_pending (o : option PendingOperation) (t : Transaction) : Transaction :=
  MkTransaction (transaction_id t) (status t) (version t) o.
Definition incr_version (t : Transaction) : Transaction :=
  MkTransaction (transaction_id t) (status t) (version t + 1) (pending_operation t).

(** [type(o) is str and o.strip()], [type(o) is int and o >= 0]. *)
Definition check_transaction_id (o : pyobj) : res domain_exn pystr :=
  match o with
  | PStr s => if str_eqb (strip s) []
              then Raise (InvalidTransactionInvariantError (BadTransactionId o)) else Ok s
  | _ => Raise (InvalidTransactionInvariantError (BadTransactionId o))
  end.

Definition check_version (o : pyobj) : res domain_exn Z :=
  match o with
  | PInt z => if z <? 0 then Raise (InvalidTransactionInvariantError (BadVersion o)) else Ok z
  | _ => Raise (InvalidTransactionInvariantError (BadVersion o))
  end.

Definition check_status (o : pyobj) : res domain_exn TransactionStatus :=
  match o with
  | PStatus s => Ok s
  | _ => Raise (InvalidTransactionInvariantError (BadStatus o))
  end.

Definition check_pending_operation (s : TransactionStatus) (o : pyobj)
    : res domain_exn (option PendingOperation) :=
  if bool_decide (s = PENDING_RECONCILIATION) then
    match o with
    | PNone => Raise (InvalidTransactionInvariantError MissingPendingOperation)
    | POperation op => Ok (Some op)
    | _ => Raise (InvalidTransactionInvariantError (BadPendingOperation o))
    end
  else
    match o with
    | PNone => Ok None
    | _ => Raise (InvalidTransactionInvariantError (UnexpectedPendingOperation s))
    end.

(** [Transaction(transaction_id, status, version, pending_operation)]. *)
Definition Transaction_init (transaction_id status version pending_operation : pyobj)
    : res domain_exn Transaction :=
  tid ← check_transaction_id transaction_id;
  v ← check_version version;
  s ← check_status status;
  o ← check_pending_operation s pending_operation;
  Ok (MkTransaction tid s v o).

(** [Transaction(transaction_id=tid)]: the defaults of the signature. *)
Definition new_transaction (tid : pystr) : res domain_exn Transaction :=
  Transaction_init (PStr tid) (PStatus CREATED) (PInt 0) PNone.

Definition is_terminal (t : Transaction) : bool := bool_decide (status t ∈ _TERMINAL_STATES).

Definition transition_to (target_status : pyobj) : method Transaction domain_exn unit :=
  match target_status with
  | PStatus target =>
      let* self := get in
      raise_if (bool_decide (status self = PENDING_RECONCILIATION))
        (ReconciliationStateError (OrdinaryTransitionWhilePending (transaction_id self) target)) ;;;
      raise_if (bool_decide (target = PENDING_RECONCILIATION))
        (InvalidStateTransitionError (status self) target (Some (transaction_id self))
           (Some (py "Cannot transition directly to PENDING_RECONCILIATION; "
                  ++ py "use mark_pending_reconciliation()"))) ;;;
      let* allowed := method_ret (default [] (_ORDINARY_TRANSITIONS (status self))) in
      raise_if (negb (bool_decide (target ∈ allowed)))
        (InvalidStateTransitionError (status self) target (Some (transaction_id self)) None) ;;;
      assign (set_status target) ;;;
      assign incr_version
  | _ => raise (TypeErrorOf target_status)
  end.

Definition mark_pending_reconciliation (operation : pyobj) : method Transaction domain_exn unit :=
  match operation with
  | POperation op =>
      let* self := get in
      raise_if (bool_decide (status self = PENDING_RECONCILIATION))
        (ReconciliationStateError (AlreadyPending (transaction_id self))) ;;;
      let* expected := method_ret (_RECONCILIATION_ENTRIES (status self)) in
      raise_if (negb (bool_decide (expected = Some op)))
        (InvalidReconciliationOperationError (status self) op (Some (transaction_id self))) ;;;
      assign (set_status PENDING_RECONCILIATION) ;;;
      assign (set_pending (Some op)) ;;;
      assign incr_version
  | _ => raise (TypeErrorOf operation)
  end.

Definition resolve_reconciliation (target_status : pyobj) : method Transaction domain_exn unit :=
  match target_status with
  | PStatus target =>
      let* self := get in
      raise_if (negb (bool_decide (status self = PENDING_RECONCILIATION)))
        (ReconciliationStateError (ResolveWhileNotPending (transaction_id self) (status self))) ;;;
      match pending_operation self with
      | None => raise (InvalidTransactionInvariantError (CorruptedPending (transaction_id self)))
      | Some op =>
          let* allowed := method_ret (default [] (_RECONCILIATION_RESOLUTIONS op)) in
          raise_if (negb (bool_decide (target ∈ allowed)))
            (InvalidReconciliationResolutionError op target (Some (transaction_id self))) ;;;
          assign (set_status target) ;;;
          assign (set_pending None) ;;;
          assign incr_version
      end
  | _ => raise (TypeErrorOf target_status)
  end.

(** * Actions, runs, and the abstract lifecycle *)

(** A call of one of the mutating methods, with any argument. *)
Inductive action : Type :=
| TransitionTo (o : pyobj)
| MarkPendingReconciliation (o : pyobj)
| ResolveReconciliation (o : pyobj).

Definition perform (a : action) : method Transaction domain_exn unit :=
  match a with
  | TransitionTo o => transition_to o
  | MarkPendingReconciliation o => mark_pending_reconciliation o
  | ResolveReconciliation o => resolve_reconciliation o
  end.

(** A client that goes on after every exception: the final state, and the number
    of calls that returned. *)
Fixpoint run_actions (l : list action) (t : Transaction) : Transaction * Z :=
  match l with
  | [] => (t, 0)
  | a :: l' =>
      let '(r, t') := perform a t in
      let '(t'', n) := run_actions l' t' in
      (t'', n + if is_ok r then 1 else 0)
  end.

(** What the constructor checks, as a property of an entity. *)
Definition valid (t : Transaction) : Prop :=
  strip (transaction_id t) <> []
  /\ 0 <= version t
  /\ (status t = PENDING_RECONCILIATION <-> is_Some (pending_operation t)).

(** The lifecycle of the design: a stable status, or an operation whose outcome
    is unknown. *)
Inductive phase : Type :=
| Stable (s : TransactionStatus)
| Ambiguous (o : PendingOperation).

Definition phase_of (t : Transaction) : phase :=
  match pending_operation t with
  | Some o => Ambiguous o
  | None => Stable (status t)
  end.

Inductive lifecycle : phase -> phase -> Prop :=
| AuthorizationApproved : lifecycle (Stable CREATED) (Stable AUTHORIZED)
| AuthorizationDeclined : lifecycle (Stable CREATED) (Stable DECLINED)
| AuthorizationFailed : lifecycle (Stable CREATED) (Stable FAILED)
| CaptureConfirmed : lifecycle (Stable AUTHORIZED) (Stable CAPTURED)
| RefundConfirmed : lifecycle (Stable CAPTURED) (Stable REFUNDED)
| AuthorizationUnknown : lifecycle (Stable CREATED) (Ambiguous AUTHORIZATION)
| CaptureUnknown : lifecycle (Stable AUTHORIZED) (Ambiguous CAPTURE)
| RefundUnknown : lifecycle (Stable CAPTURED) (Ambiguous REFUND)
| ReconciledApproved : lifecycle (Ambiguous AUTHORIZATION) (Stable AUTHORIZED)
| ReconciledDeclined : lifecycle (Ambiguous AUTHORIZATION) (Stable DECLINED)
| ReconciledFailed : lifecycle (Ambiguous AUTHORIZATION) (Stable FAILED)
| ReconciledCaptured : lifecycle (Ambiguous CAPTURE) (Stable CAPTURED)
| CaptureReverted : lifecycle (Ambiguous CAPTURE) (Stable AUTHORIZED)
| ReconciledRefunded : lifecycle (Ambiguous REFUND) (Stable REFUNDED)
| RefundReverted : lifecycle (Ambiguous REFUND) (Stable CAPTURED).

(** * Lemmas *)

Create HintDb domain.
#[export] Hint Constructors lifecycle : domain.

Lemma TransactionStatus_value_inj s s' :
  TransactionStatus_value s = TransactionStatus_value s' -> s = s'.
Proof. by destruct s, s'. Qed.

Lemma PendingOperation_value_inj o o' :
  PendingOperation_value o = PendingOperation_value o' -> o = o'.
Proof. by destruct o, o'. Qed.

(** Symbolic execution of a method call: case analysis on its argument and tests. *)
Ltac run_method :=
  unfold perform, transition_to, mark_pending_reconciliation, resolve_reconciliation,
    method_bind, raise_if, get, raise, assign, method_ret in *;
  repeat (case_match; simplify_eq/=).

(** When each method returns, and what it then assigns. *)
Lemma transition_to_ok o t t' :
  transition_to o t = (Ok tt, t') ->
  exists s, o = PStatus s /\ s ∈ default [] (_ORDINARY_TRANSITIONS (status t))
    /\ status t <> PENDING_RECONCILIATION /\ s <> PENDING_RECONCILIATION
    /\ t' = incr_version (set_status s t).
Proof.
  intros H. run_method. rewrite ?bool_decide_eq_false, ?negb_false_iff, ?bool_decide_eq_true in *.
  by eexists.
Qed.

Lemma mark_pending_ok o t t' :
  mark_pending_reconciliation o t = (Ok tt, t') ->
  exists op, o = POperation op /\ _RECONCILIATION_ENTRIES (status t) = Some op
    /\ t' = incr_version (set_pending (Some op) (set_status PENDING_RECONCILIATION t)).
Proof.
  intros H. run_method. rewrite ?negb_false_iff, ?bool_decide_eq_true in *. by eexists.
Qed.

Lemma resolve_ok o t t' :
  resolve_reconciliation o t = (Ok tt, t') ->
  exists s op, o = PStatus s /\ pending_operation t = Some op
    /\ s ∈ default [] (_RECONCILIATION_RESOLUTIONS op)
    /\ t' = incr_version (set_pending None (set_status s t)).
Proof.
  intros H. run_method. rewrite ?negb_false_iff, ?bool_decide_eq_true in *. by eexists _, _.
Qed.

Lemma valid_cases t :
  (status t = PENDING_RECONCILIATION <-> is_Some (pending_operation t)) <->
  (exists o, status t = PENDING_RECONCILIATION /\ pending_operation t = Some o)
  \/ (status t <> PENDING_RECONCILIATION /\ pending_operation t = None).
Proof.
  split.
  - intros [H1 H2]. destruct (pending_operation t) as [o|].
    + left. exists o. split; [by apply H2; eexists | done].
    + right. split; [|done]. intros Hs. by destruct (H1 Hs).
  - intros [(o & Hs & ->)|[Hs ->]]; split; done.
Qed.

(** An exception leaves the entity as it was; a return adds one to the version
    and keeps the identifier. *)
Lemma perform_effect a t r t' :
  perform a t = (r, t') ->
  match r with
  | Ok _ => version t' = version t + 1 /\ transaction_id t' = transaction_id t
  | Raise _ => t' = t
  end.
Proof. intros H. destruct a; run_method; done. Qed.

Ltac elem_cases :=
  repeat match goal with
  | H : _ ∈ default [] ?x |- _ => destruct x as [?|] eqn:?; simpl in H
  | H : _ ∈ [] |- _ => by apply not_elem_of_nil in H
  | H : _ ∈ _ :: _ |- _ => apply elem_of_cons in H as [->|H]
  end.

Lemma perform_phase a t t' :
  (status t = PENDING_RECONCILIATION <-> is_Some (pending_operation t)) ->
  perform a t = (Ok tt, t') ->
  (status t' = PENDING_RECONCILIATION <-> is_Some (pending_operation t'))
  /\ lifecycle (phase_of t) (phase_of t').
Proof.
  rewrite !valid_cases. unfold phase_of. destruct t as [tid st ver pend]. intros Hp H. cbn in Hp.
  destruct a; simpl in H.
  - apply transition_to_ok in H as (s & _ & Hs & Hst & _ & ->). simpl in *.
    destruct Hp as [(? & ? & _)|[_ ->]]; [done|].
    destruct st; simpl in Hs; elem_cases; eauto 6 with domain.
  - apply mark_pending_ok in H as (op & _ & Hop & ->). simpl in *.
    destruct Hp as [(? & -> & _)|[_ ->]]; [done|].
    destruct st; simplify_eq/=; eauto 6 with domain.
  - apply resolve_ok in H as (s & op & _ & -> & Hs & ->). simpl in *.
    destruct op; simpl in Hs; elem_cases; eauto 6 with domain.
Qed.

Lemma perform_valid a t r t' : perform a t = (r, t') -> valid t -> valid t'.
Proof.
  intros E (Hid & Hv & Hp). pose proof (perform_effect _ _ _ _ E) as Heff.
  destruct r as [[]|e]; [|by subst]. destruct Heff as [Hver Htid].
  split; [by rewrite Htid|]. split; [lia|]. by eapply perform_phase.
Qed.

Lemma perform_sound a t t' :
  valid t -> perform a t = (Ok tt, t') -> lifecycle (phase_of t) (phase_of t').
Proof. intros (_ & _ & Hp) H. by eapply perform_phase. Qed.

Lemma perform_complete t p :
  valid t -> lifecycle (phase_of t) p ->
  exists a t', perform a t = (Ok tt, t') /\ phase_of t' = p.
Proof.
  intros (_ & _ & Hp) H. apply valid_cases in Hp. unfold phase_of in H.
  destruct t as [tid st ver pend]. cbn in Hp, H.
  destruct Hp as [(op & -> & ->)|[Hs ->]]; inversion H; subst;
    match goal with
    | H : lifecycle (Ambiguous _) (Stable ?s) |- _ => exists (ResolveReconciliation (PStatus s))
    | H : lifecycle (Stable _) (Stable ?s) |- _ => exists (TransitionTo (PStatus s))
    | H : lifecycle (Stable _) (Ambiguous ?o) |- _ =>
        exists (MarkPendingReconciliation (POperation o))
    end; by eexists.
Qed.

Lemma run_actions_valid l t : valid t -> valid (fst (run_actions l t)).
Proof.
  revert t. induction l as [|a l IH]; intros t Ht; simpl; [done|].
  destruct (perform a t) as [r t'] eqn:E. pose proof (perform_valid _ _ _ _ E Ht) as Ht'.
  specialize (IH t' Ht'). by destruct (run_actions l t').
Qed.


(** The object an optional pending operation is passed as. *)
Definition pending_obj (o : option PendingOperation) : pyobj :=
  match o with Some op => POperation op | None => PNone end.

Lemma check_pending_operation_ok s o p :
  check_pending_operation s o = Ok p <->
  o = pending_obj p /\ (s = PENDING_RECONCILIATION <-> is_Some p).
Proof.
  unfold check_pending_operation. case_bool_decide as Hs.
  - split.
    + destruct o; simpl; try discriminate. intros [= <-]. done.
    + intros [-> [H _]]. destruct p; [done|]. by destruct (H Hs).
  - split.
    + destruct o; simpl; try discriminate. intros [= <-]. split; [done|].
      split; [done | by intros []].
    + intros [-> [_ H]]. destruct p; [|done]. exfalso. by apply Hs, H.
Qed.

(** The constructor accepts exactly the arguments that describe a valid entity. *)
Lemma Transaction_init_ok a b c d t :
  Transaction_init a b c d = Ok t <->
  a = PStr (transaction_id t) /\ b = PStatus (status t) /\ c = PInt (version t)
  /\ d = pending_obj (pending_operation t) /\ valid t.
Proof.
  unfold Transaction_init, valid. split.
  - intros (i & Hi & (v & Hv & (s & Hs & (p & Hp & [= <-])%res_bind_ok)%res_bind_ok)%res_bind_ok)
      %res_bind_ok.
    apply check_pending_operation_ok in Hp as [-> Hp]. simpl.
    destruct a; simpl in Hi; try discriminate. destruct c; simpl in Hv; try discriminate.
    destruct b; simpl in Hs; try discriminate.
    destruct (str_eqb _ _) eqn:E in Hi; [discriminate|].
    destruct (Z.ltb_spec z 0) in Hv; [discriminate|]. simplify_eq.
    repeat split; try done; try apply Hp. rewrite <- str_eqb_eq. congruence.
  - intros (-> & -> & -> & -> & Hi & Hv & Hp). simpl.
    destruct (str_eqb _ _) eqn:E; [by apply str_eqb_eq in E|].
    destruct (Z.ltb_spec (version t) 0); [lia|]. simpl.
    rewrite (proj2 (check_pending_operation_ok _ _ (pending_operation t))) by done.
    by destruct t.
Qed.

Lemma new_transaction_ok tid :
  strip tid <> [] -> new_transaction tid = Ok (MkTransaction tid CREATED 0 None).
Proof.
  intros H. apply Transaction_init_ok. repeat split; try done; simpl; by intros [].
Qed.

Lemma run_actions_effect l t :
  let '(t', n) := run_actions l t in
  version t' = version t + n /\ transaction_id t' = transaction_id t.
Proof.
  revert t. induction l as [|a l IH]; intros t; simpl; [split; [lia | done]|].
  destruct (perform a t) as [r t'] eqn:E. apply perform_effect in E.
  specialize (IH t'). destruct (run_actions l t') as [t'' n]. destruct IH as [IH1 IH2].
  destruct r; simpl; [destruct E as [E1 E2]; split; [lia | congruence] | subst; split; [lia | done]].
Qed.

(** Phases in which an authorization is known to have succeeded. *)
Definition funded (p : phase) : bool :=
  match p with
  | Stable AUTHORIZED | Stable CAPTURED | Stable REFUNDED
  | Ambiguous CAPTURE | Ambiguous REFUND => true
  | _ => false
  end.

Lemma run_actions_phase (P : phase -> Prop) l t :
  (forall p q, lifecycle p q -> P p -> P q) ->
  valid t -> P (phase_of t) -> P (phase_of (fst (run_actions l t))).
Proof.
  intros Hstep. revert t. induction l as [|a l IH]; intros t Ht HP; simpl; [done|].
  destruct (perform a t) as [r t'] eqn:E.
  assert (valid t' /\ P (phase_of t')) as [Ht' HP'].
  { split; [by eapply perform_valid|]. destruct r as [[]|e].
    - eapply Hstep; [by eapply perform_sound | done].
    - apply perform_effect in E. by subst. }
  specialize (IH t' Ht' HP'). by destruct (run_actions l t').
Qed.

Lemma stable_status t s : phase_of t = Stable s -> status t = s.
Proof. unfold phase_of. case_match; congruence. Qed.

(** * Properties *)

(** C26.  A [Transaction] that was constructed, and then received any sequence of
    method calls with arguments of any type, still satisfies the checks of the
    constructor: a non-blank identifier, a version that is not negative, and a
    pending operation exactly when the status is PENDING_RECONCILIATION.  The
    identifier never changes and the version counts the calls that returned. *)
Theorem entity_invariant id_arg status_arg version_arg pending_arg t (l : list action) :
  Transaction_init id_arg status_arg version_arg pending_arg = Ok t ->
  let '(t', returned) := run_actions l t in
  valid t' /\ transaction_id t' = transaction_id t /\ version t' = version t + returned.
Proof.
  intros (_ & _ & _ & _ & Ht)%Transaction_init_ok.
  pose proof (run_actions_valid l t Ht) as Hv. pose proof (run_actions_effect l t) as He.
  destruct (run_actions l t) as [t' n]. naive_solver.
Qed.

Definition sample_actions : list action :=
  [TransitionTo (PStr (py "AUTHORIZED")); MarkPendingReconciliation (POperation AUTHORIZATION);
   TransitionTo (PStatus AUTHORIZED); ResolveReconciliation (PStatus AUTHORIZED);
   TransitionTo (PStatus CAPTURED)].

Lemma entity_invariant_witness :
  let t := MkTransaction (py "txn_1") CREATED 0 None in
  Transaction_init (PStr (py "txn_1")) (PStatus CREATED) (PInt 0) PNone = Ok t
  /\ run_actions sample_actions t = (MkTransaction (py "txn_1") CAPTURED 3 None, 3)
  /\ let '(t', returned) := run_actions sample_actions t in
     valid t' /\ transaction_id t' = transaction_id t /\ version t' = version t + returned.
Proof.
  split; [reflexivity|]. split; [reflexivity|].
  apply (entity_invariant (PStr (py "txn_1")) (PStatus CREATED) (PInt 0) PNone). reflexivity.
Defined.

(** C28.  Every mutating method is all-or-nothing: when it raises, the entity is
    exactly as before the call, although Python would keep any attribute assigned
    before the exception; when it returns, the version is one higher and the
    identifier is the same. *)
Theorem transition_all_or_nothing (a : action) (t : Transaction) :
  match perform a t with
  | (Ok _, t') => version t' = version t + 1 /\ transaction_id t' = transaction_id t
  | (Raise _, t') => t' = t
  end.
Proof.
  destruct (perform a t) as [r t'] eqn:E. apply perform_effect in E. by destruct r.
Qed.

(** C27.  The three methods together implement the lifecycle diagram: from a valid
    entity a successful call is a step of the diagram, and every step of the
    diagram is taken by some call. *)
Theorem lifecycle_refinement (t : Transaction) (p : phase) :
  valid t ->
  lifecycle (phase_of t) p <->
  exists a t', perform a t = (Ok tt, t') /\ phase_of t' = p.
Proof.
  intros Ht. split; [by apply perform_complete|].
  intros (a & t' & H & <-). by eapply perform_sound.
Qed.

Definition sample_created : Transaction := MkTransaction (py "txn_1") CREATED 0 None.

Lemma sample_created_valid : valid sample_created.
Proof. split; [done|]. split; [done|]. split; [done | by intros []]. Defined.

Lemma lifecycle_refinement_witness :
  lifecycle (phase_of sample_created) (Ambiguous AUTHORIZATION) <->
  exists a t', perform a sample_created = (Ok tt, t') /\ phase_of t' = Ambiguous AUTHORIZATION.
Proof. apply (lifecycle_refinement sample_created). exact sample_created_valid. Defined.

(** C30.  [is_terminal] is true exactly of the entities on which every method call,
    with any argument, raises and changes nothing. *)
Theorem terminal_iff_stuck (t : Transaction) :
  valid t ->
  is_terminal t = true <-> forall a, exists e, perform a t = (Raise e, t).
Proof.
  intros Ht. unfold is_terminal. rewrite bool_decide_eq_true. split.
  - intros Hterm a. destruct (perform a t) as [[[]|e] t'] eqn:E.
    + pose proof (perform_sound _ _ _ Ht E) as H.
      destruct Ht as (_ & _ & Hp). apply valid_cases in Hp.
      exfalso. unfold phase_of in H at 1. destruct t as [tid st ver pend]. cbn in Hp, H, Hterm.
      destruct Hp as [(? & -> & _)|[_ ->]]; [|inversion H; subst]; unfold _TERMINAL_STATES in *;
        elem_cases; set_solver.
    + exists e. apply perform_effect in E. by subst.
  - intros Hstuck.
    assert (Hno : forall p, ~ lifecycle (phase_of t) p).
    { intros p (a & t' & H & _)%perform_complete; [|done]. destruct (Hstuck a). congruence. }
    destruct Ht as (_ & _ & Hp). apply valid_cases in Hp. unfold phase_of in Hno.
    destruct t as [tid st ver pend]. cbn in Hp, Hno |- *.
    destruct Hp as [(op & _ & ->)|[Hs ->]].
    + destruct op; exfalso; eapply Hno; eauto with domain.
    + destruct st; try done; try (by exfalso; eapply Hno; eauto with domain); set_solver.
Qed.

Definition sample_declined : Transaction := MkTransaction (py "txn_1") DECLINED 1 None.

Lemma terminal_iff_stuck_witness :
  is_terminal sample_declined = true <-> forall a, exists e, perform a sample_declined = (Raise e, sample_declined).
Proof.
  apply (terminal_iff_stuck sample_declined).
  split; [done|]. split; [done|]. split; [done | by intros []].
Defined.

(** C29.  Money that was authorized is never reported as refused: once the entity is
    authorized, captured, refunded, or waiting for the outcome of a capture or of a
    refund, no sequence of method calls makes it CREATED, DECLINED or FAILED, nor
    brings back the unknown outcome of the authorization. *)
Theorem funded_forever (t : Transaction) (l : list action) :
  valid t -> funded (phase_of t) = true ->
  let t' := fst (run_actions l t) in
  funded (phase_of t') = true /\ status t' ∉ [CREATED; DECLINED; FAILED].
Proof.
  intros Ht Hf t'.
  assert (funded (phase_of t') = true) as Hf'.
  { apply run_actions_phase; [|done..]. by intros p q []. }
  split; [done|]. pose proof (run_actions_valid l t Ht) as (_ & _ & Hp). fold t' in Hp.
  apply valid_cases in Hp. unfold phase_of in Hf'.
  destruct Hp as [(o & Hs & Ho)|[Hs Ho]]; rewrite Ho in Hf'; [rewrite Hs; set_solver|].
  destruct (status t'); try done; set_solver.
Qed.

Lemma funded_forever_witness :
  let t := MkTransaction (py "txn_1") AUTHORIZED 1 None in
  let t' := fst (run_actions [MarkPendingReconciliation (POperation CAPTURE)] t) in
  funded (phase_of t') = true /\ status t' ∉ [CREATED; DECLINED; FAILED].
Proof.
  apply (funded_forever (MkTransaction (py "txn_1") AUTHORIZED 1 None)); [|reflexivity].
  split; [done|]. split; [done|]. split; [done | by intros []].
Defined.
