(* ===== verification/Ports.v ===== *)
(** The data and failure types of the ports (ports/payment_network.py,
    ports/idempotency_coordinator.py) and of the application layer, and the
    exceptions that cross component boundaries. *)
From S2P Require Import Prelude PyStr Json Domain.

(** * Payment network port *)

Record PaymentNetworkAuthorizationRequest : Type := MkPaymentRequest {
  pr_transaction_id : pystr;
  pr_merchant_id : pystr;
  pr_payment_token : pystr;
  pr_amount : Z;
  pr_currency : pystr;
  pr_correlation_id : pystr
}.

(** The two results of the port; an implementation is not prevented from returning
    an object of another class. *)
Inductive PaymentNetworkResult : Type :=
| PaymentNetworkAuthorizedResult (network_reference authorization_code : pystr)
| PaymentNetworkDeclinedResult (decline_code : pystr)
| UnrecognizedResult.

(** * Idempotency coordinator port *)

Inductive ReservationStatus : Set :=
| ACQUIRED | IN_PROGRESS | COMPLETED | IDEMPOTENCY_CONFLICT | TRANSACTION_ID_CONFLICT.

#[export] Instance ReservationStatus_eq_dec : EqDecision ReservationStatus.
Proof. solve_decision. Defined.

(** A [dict[str, Any]] used as a response body: equality of dicts ignores order. *)
Abbreviation body_dict := (gmap pystr json).
(** A [dict[str, str]] of headers, in insertion order. *)
Abbreviation header_dict := (list (pystr * pystr)).

Record ResponseEnvelope : Type := MkEnvelope {
  env_status_code : Z;
  env_body : body_dict;
  env_headers : header_dict;
  env_is_replay : bool;
  env_media_type : option pystr
}.

Record IdempotencyReservation : Type := MkReservation {
  res_status : ReservationStatus;
  res_stored_envelope : option ResponseEnvelope
}.

(** * Application layer *)

Record AuthorizeTransactionCommand : Type := MkCommand {
  cmd_transaction_id : pystr;
  cmd_merchant_id : pystr;
  cmd_payment_token : pystr;
  cmd_amount : Z;
  cmd_currency : pystr;
  cmd_correlation_id : pystr
}.

Record AuthorizeTransactionResult : Type := MkResult {
  ar_transaction : Transaction;
  ar_network_reference : option pystr;
  ar_authorization_code : option pystr;
  ar_decline_code : option pystr
}.

(** * Exceptions *)

Inductive exn : Type :=
(* ports/payment_network.py *)
| PaymentNetworkTimeoutError
| PaymentNetworkRateLimitError (retry_after : Z)
| PaymentNetworkInvalidResponseError
| PaymentNetworkUnavailableError
| PaymentNetworkRejectedError
(* ports/idempotency_coordinator.py *)
| PersistenceError
| OptimisticConcurrencyError
(* application/authorize_transaction.py *)
| DownstreamRateLimitExceededError (transaction : Transaction) (retry_after : Z)
| DownstreamRejectedError (transaction : Transaction)
(* infrastructure/idempotency_coordinator.py *)
| ReservationIntegrityError
(* common/correlation.py, common/idempotency.py *)
| MissingCorrelationIdError
| MissingIdempotencyKeyError
(* domain/exceptions.py, and the TypeError of the entity *)
| DomainError (e : domain_exn)
(* raised by the libraries *)
| IntegrityError
| OtherSQLAlchemyError
| HttpxTimeoutException
| AsyncioTimeoutError
| HttpxTransportError
| UnicodeEncodeError
| AssertionError
| OtherError.

(** [isinstance] along the class hierarchies the handlers use. *)
Definition is_PaymentNetworkError (e : exn) : bool :=
  match e with
  | PaymentNetworkTimeoutError | PaymentNetworkRateLimitError _
  | PaymentNetworkInvalidResponseError | PaymentNetworkUnavailableError
  | PaymentNetworkRejectedError => true
  | _ => false
  end.

Definition is_PersistenceError (e : exn) : bool :=
  match e with PersistenceError | OptimisticConcurrencyError => true | _ => false end.

Definition is_SQLAlchemyError (e : exn) : bool :=
  match e with IntegrityError | OtherSQLAlchemyError => true | _ => false end.
