(* ===== verification/Idempotency.v ===== *)
(** Header validation, key hashing and request fingerprinting
    (common/correlation.py, common/idempotency.py). *)
From S2P Require Import Prelude PyStr Sha256 Json Domain Ports.

(** The class [\[A-Za-z0-9._:-\]]. *)
Definition is_header_char (c : N) : bool :=
  is_upper_ascii c || is_lower_ascii c || is_digit_ascii c
  || (c =? 46)%N || (c =? 95)%N || (c =? 58)%N || (c =? 45)%N.

Definition CORRELATION_ID_REGEX (s : pystr) : bool := re_match_class is_header_char 1 128 s.
Definition IDEMPOTENCY_KEY_REGEX (s : pystr) : bool := re_match_class is_header_char 1 128 s.

Definition require_correlation_id (x_correlation_id : option pystr) : res exn pystr :=
  match x_correlation_id with
  | None => Raise MissingCorrelationIdError
  | Some v => if negb (CORRELATION_ID_REGEX v) then Raise MissingCorrelationIdError else Ok v
  end.

Definition require_idempotency_key (idempotency_key : option pystr) : res exn pystr :=
  match idempotency_key with
  | None => Raise MissingIdempotencyKeyError
  | Some v => if negb (IDEMPOTENCY_KEY_REGEX v) then Raise MissingIdempotencyKeyError else Ok v
  end.

(** [hashlib.sha256(s.encode("utf-8")).hexdigest()]. *)
Definition sha256_of_str (s : pystr) : res exn pystr :=
  match utf8_encode s with
  | Some bytes => Ok (sha256_hex bytes)
  | None => Raise UnicodeEncodeError
  end.

Definition compute_key_hash (idempotency_key : pystr) : res exn pystr :=
  sha256_of_str idempotency_key.

Definition payload_dict (amount : Z) (currency merchant_id payment_token transaction_id : pystr)
    : json :=
  JObj [(py "amount", JInt amount);
        (py "currency", JStr currency);
        (py "merchant_id", JStr merchant_id);
        (py "payment_token", JStr payment_token);
        (py "transaction_id", JStr transaction_id)].

Definition canonical_json (amount : Z) (currency merchant_id payment_token transaction_id : pystr)
    : pystr :=
  dumps (payload_dict amount currency merchant_id payment_token transaction_id).

Definition compute_request_fingerprint
    (amount : Z) (currency merchant_id payment_token transaction_id : pystr) : res exn pystr :=
  sha256_of_str (canonical_json amount currency merchant_id payment_token transaction_id).

(** ** Lemmas *)

(** The text of the five fields, in key order. *)
Lemma canonical_json_unfold a c m p t :
  canonical_json a c m p t =
  (py "{" ++ dumps_str (py "amount") ++ py ":" ++ py_str_int a ++ py "," ++
   dumps_str (py "currency") ++ py ":" ++ dumps_str c ++ py "," ++
   dumps_str (py "merchant_id") ++ py ":" ++ dumps_str m ++ py "," ++
   dumps_str (py "payment_token") ++ py ":" ++ dumps_str p ++ py "," ++
   dumps_str (py "transaction_id") ++ py ":" ++ dumps_str t ++ py "}").
Proof.
  unfold canonical_json, payload_dict. cbn [dumps map fst snd sort_fields foldr insert_field].
  change (str_leb (py "payment_token") (py "transaction_id")) with true. cbn [insert_field fst].
  change (str_leb (py "merchant_id") (py "payment_token")) with true. cbn [insert_field fst].
  change (str_leb (py "currency") (py "merchant_id")) with true. cbn [insert_field fst].
  change (str_leb (py "amount") (py "currency")) with true.
  cbn [map join fst snd]. by rewrite <- !app_assoc.
Qed.

(** Rendered text is ASCII ([ensure_ascii=True]). *)
Abbreviation ascii := (Forall (fun c => (c < 128)%N)).

Lemma hex_digits_ascii n x : ascii (hex_digits n x).
Proof.
  eapply Forall_impl; [apply hex_digits_lower|]. intros c.
  unfold is_hex_lower, is_digit_ascii, in_range.
  rewrite orb_true_iff, !andb_true_iff, !N.leb_le. simpl. lia.
Qed.

Lemma escape_char_ascii c : ascii (escape_char c).
Proof.
  unfold escape_char, hex4. destruct (short_escape c) as [e|] eqn:He.
  - constructor; [lia|]. constructor; [|constructor].
    unfold short_escape in He. repeat case_match; simplify_eq; lia.
  - destruct (in_range 32 126 c) eqn:Hr.
    + apply andb_true_iff in Hr as [_ Hr%N.leb_le]. constructor; [lia | constructor].
    + case_match; rewrite !Forall_app; repeat split; try apply hex_digits_ascii;
        by repeat constructor.
Qed.

Lemma dumps_str_ascii s : ascii (dumps_str s).
Proof.
  unfold dumps_str. rewrite !Forall_app. repeat split; [by repeat constructor| |by repeat constructor].
  induction s as [|c s IH]; [constructor|]. rewrite bind_cons, Forall_app.
  split; [apply escape_char_ascii | done].
Qed.

Lemma py_str_int_ascii z : ascii (py_str_int z).
Proof.
  assert (Hd : forall n, ascii (dec_digits n)).
  { intros n. eapply Forall_impl; [apply dec_fuel_ascii|]. intros c.
    unfold is_digit_ascii, in_range. rewrite andb_true_iff, !N.leb_le. lia. }
  unfold py_str_int. case_match; [|apply Hd].
  apply Forall_app. split; [by repeat constructor | apply Hd].
Qed.

Lemma canonical_json_ascii a c m p t : ascii (canonical_json a c m p t).
Proof.
  rewrite canonical_json_unfold, !Forall_app.
  repeat split; first [apply dumps_str_ascii | apply py_str_int_ascii | by repeat constructor].
Qed.

Lemma sha256_of_str_ascii s : ascii s -> sha256_of_str s = Ok (sha256_hex s).
Proof. intros H. unfold sha256_of_str. by rewrite utf8_encode_ascii. Qed.

(** The canonical text determines the five fields. *)
Lemma canonical_json_inj a c m p t a' c' m' p' t' :
  scalar_str c = true -> scalar_str m = true -> scalar_str p = true -> scalar_str t = true ->
  scalar_str c' = true -> scalar_str m' = true -> scalar_str p' = true -> scalar_str t' = true ->
  canonical_json a c m p t = canonical_json a' c' m' p' t' ->
  a = a' /\ c = c' /\ m = m' /\ p = p' /\ t = t'.
Proof.
  intros Hc Hm Hp Ht Hc' Hm' Hp' Ht'. rewrite !canonical_json_unfold.
  intros H. do 3 apply app_inv_head in H.
  change (py ",") with [44%N] in H. cbn [app] in H. apply py_str_int_app_inj in H as [-> H].
  do 2 apply app_inv_head in H. apply dumps_str_app_inj in H as [-> H]; [|done..].
  apply (app_inv_head [44%N]) in H.
  do 2 apply app_inv_head in H. apply dumps_str_app_inj in H as [-> H]; [|done..].
  apply (app_inv_head [44%N]) in H.
  do 2 apply app_inv_head in H. apply dumps_str_app_inj in H as [-> H]; [|done..].
  apply (app_inv_head [44%N]) in H.
  do 2 apply app_inv_head in H. apply dumps_str_app_inj in H as [-> _]; [|done..].
  done.
Qed.

(** Two given texts that differ and have the same digest. *)
Definition collide (text text' : pystr) : Prop :=
  text <> text' /\ sha256_of_str text = sha256_of_str text'.

(** The format the digest columns require. *)
Definition digest_format (h : pystr) : bool := class_run is_hex_lower 64 64 h.

Lemma sha256_hex_digest_format m : digest_format (sha256_hex m) = true.
Proof.
  destruct (sha256_hex_format m) as [Hl Hf]. apply class_run_spec. rewrite Hl.
  split; [done | lia].
Qed.

Lemma header_run_ascii w :
  class_run is_header_char 1 128 w = true -> ascii w.
Proof.
  intros [H _]%class_run_spec. eapply Forall_impl; [exact H|]. intros c.
  unfold is_header_char, is_upper_ascii, is_lower_ascii, is_digit_ascii, in_range.
  rewrite !orb_true_iff, !andb_true_iff, !N.leb_le, !N.eqb_eq. simpl. lia.
Qed.

Lemma require_idempotency_key_ok v k :
  require_idempotency_key (Some v) = Ok k <->
  k = v /\ exists w, class_run is_header_char 1 128 w = true /\ (v = w \/ v = w ++ [10%N]).
Proof.
  unfold require_idempotency_key, IDEMPOTENCY_KEY_REGEX.
  rewrite <- re_match_class_spec. destruct (re_match_class _ _ _ _); simpl; naive_solver.
Qed.

(** Both digests exist for every request with an accepted key. *)
Lemma digests_computed v k a c m p t :
  require_idempotency_key (Some v) = Ok k ->
  (exists h, compute_key_hash k = Ok h /\ digest_format h = true)
  /\ (exists f, compute_request_fingerprint a c m p t = Ok f /\ digest_format f = true).
Proof.
  intros (-> & w & Hw%header_run_ascii & Hv)%require_idempotency_key_ok.
  assert (ascii v) as Hk.
  { destruct Hv as [->| ->]; [done|]. apply Forall_app. split; [done | by repeat constructor]. }
  unfold compute_key_hash, compute_request_fingerprint.
  rewrite !sha256_of_str_ascii by first [exact Hk | apply canonical_json_ascii].
  split; eexists; (split; [done | apply sha256_hex_digest_format]).
Qed.

(** Fingerprints determine requests whose canonical texts do not collide. *)
Lemma fingerprints_distinguish a c m p t a' c' m' p' t' :
  Forall (fun s => scalar_str s = true) [c; m; p; t; c'; m'; p'; t'] ->
  compute_request_fingerprint a c m p t = compute_request_fingerprint a' c' m' p' t' <->
  (a = a' /\ c = c' /\ m = m' /\ p = p' /\ t = t')
  \/ collide (canonical_json a c m p t) (canonical_json a' c' m' p' t').
Proof.
  intros Hs. rewrite !Forall_cons in Hs. destruct Hs as (?&?&?&?&?&?&?&?&_).
  unfold compute_request_fingerprint. split; [intros H'|].
  - destruct (decide (canonical_json a c m p t = canonical_json a' c' m' p' t')) as [E|E].
    + left. by apply canonical_json_inj in E.
    + by right.
  - by intros [(-> & -> & -> & -> & ->)|[_ H']].
Qed.

(** ** Properties *)

(** C31.  Fingerprints tell requests apart: two requests have the same fingerprint exactly
    when their amount, currency, merchant, token and transaction identifier are the same,
    or the canonical JSON texts of these two very requests differ and have one SHA-256
    digest.  The sorted, escaped text is an injective encoding of the five fields, so no
    rearrangement of characters between fields can go unnoticed.  The statement is about
    texts of Unicode scalar values (no lone surrogates). *)
Theorem fingerprint_distinguishes_requests a c m p t a' c' m' p' t' :
  Forall (fun s => scalar_str s = true) [c; m; p; t; c'; m'; p'; t'] ->
  compute_request_fingerprint a c m p t = compute_request_fingerprint a' c' m' p' t' <->
  (a = a' /\ c = c' /\ m = m' /\ p = p' /\ t = t')
  \/ collide (canonical_json a c m p t) (canonical_json a' c' m' p' t').
Proof. apply fingerprints_distinguish. Qed.

(** Moving characters from the currency to the merchant changes the fingerprint. *)
Lemma fingerprint_distinguishes_requests_witness :
  compute_request_fingerprint 100 (py "USD") (py "m1") (py "tok_test_a") (py "t1")
  <> compute_request_fingerprint 100 (py "US") (py "Dm1") (py "tok_test_a") (py "t1").
Proof.
  intros [(_ & E & _)|[_ E]]%(fingerprint_distinguishes_requests 100 (py "USD") (py "m1") (py "tok_test_a")
    (py "t1") 100 (py "US") (py "Dm1") (py "tok_test_a") (py "t1")).
  - discriminate E.
  - vm_compute in E. discriminate E.
  - repeat constructor.
Defined.

(** Hashing never fails and always fits the digest columns: a key that passed
    the header check has a digest, every request has a fingerprint, and both match
    the [^\[0-9a-f\]{64}$] constraint of the tables. *)
Theorem digests_fit_the_tables v k a c m p t :
  require_idempotency_key (Some v) = Ok k ->
  (exists h, compute_key_hash k = Ok h /\ digest_format h = true)
  /\ (exists f, compute_request_fingerprint a c m p t = Ok f /\ digest_format f = true).
Proof. apply digests_computed. Qed.

Lemma digests_fit_the_tables_witness :
  (exists h, compute_key_hash (py "idem_sample_001") = Ok h /\ digest_format h = true)
  /\ (exists f, compute_request_fingerprint 2500 (py "USD") (py "merchant_101")
        (py "tok_test_approved") (py "txn_sample_001") = Ok f /\ digest_format f = true).
Proof. apply (digests_fit_the_tables (py "idem_sample_001")). reflexivity. Defined.

(** What the Idempotency-Key check accepts: one to 128 characters of
    [A-Za-z0-9._:-], returned unchanged, and also such a key followed by one newline
    (Python's [$] matches before it), although the comment of the function says that
    white space is strictly rejected.  Everything else raises. *)
Theorem idempotency_key_check (header : option pystr) :
  match require_idempotency_key header with
  | Ok k => header = Some k
            /\ exists w, Forall (fun c => is_header_char c = true) w /\ (1 <= length w <= 128)%nat
                         /\ (k = w \/ k = w ++ [10%N])
  | Raise e => e = MissingIdempotencyKeyError
               /\ forall k, header = Some k ->
                    class_run is_header_char 1 128 k = false
                    /\ class_run is_header_char 1 128 (drop_final_newline k) = false
  end.
Proof.
  destruct header as [v|]; [|done].
  destruct (require_idempotency_key (Some v)) as [k|e] eqn:H.
  - apply require_idempotency_key_ok in H as (-> & w & Hw & Hv).
    apply class_run_spec in Hw as [Hf Hl]. split; [done|]. exists w. tauto.
  - unfold require_idempotency_key, IDEMPOTENCY_KEY_REGEX, re_match_class in H.
    destruct (negb _) eqn:Hm in H; [|discriminate]. injection H as <-. split; [done|].
    intros ? [= <-]. apply negb_true_iff, orb_false_iff in Hm as [H1 H2].
    split; [done|]. apply andb_false_iff in H2 as [H2|H2]; [|done].
    apply negb_false_iff, str_eqb_eq in H2. by rewrite H2.
Qed.

Example newline_key_accepted :
  require_idempotency_key (Some (py "key_1" ++ [10%N])) = Ok (py "key_1" ++ [10%N]).
Proof. reflexivity. Qed.
