(* ===== verification/Schema.v ===== *)
(** The two tables of infrastructure/models.py: columns, keys and check
    constraints, and what the SQL statements issued by the coordinator do to their
    contents.  That the declared tables, and the migration, agree with it is shown in
    Constraints.v and Migration.v.  The time stamps [created_at] and [updated_at] are set
    by the server and never read, so the rows below leave them out. *)
From S2P Require Import Prelude PyStr Sha256 Json Domain Ports.

Open Scope Z_scope.

(** * Rows *)

Record transaction_row : Type := MkTransactionRow {
  t_transaction_id : pystr;
  t_merchant_id : pystr;
  t_amount : Z;
  t_currency : pystr;
  t_status : pystr;
  t_pending_operation : option pystr;
  t_version : Z;
  t_network_reference : option pystr;
  t_authorization_code : option pystr;
  t_decline_code : option pystr
}.

Record idempotency_row : Type := MkIdempotencyRow {
  i_idempotency_key_hash : pystr;
  i_request_fingerprint : pystr;
  i_processing_status : pystr;
  i_transaction_id : pystr;
  i_stored_status_code : option Z;
  i_stored_response_body : option body_dict;
  i_stored_headers : option header_dict
}.

(** The contents of the tables, by primary key. *)
Record db : Type := MkDb {
  transactions : gmap pystr transaction_row;
  idempotency_records : gmap pystr idempotency_row
}.

Definition empty_db : db := MkDb ∅ ∅.

(** * Column types *)

(** Text the server can store: no NUL, and encodable in UTF-8. *)
Definition text_ok (s : pystr) : bool :=
  forallb (fun c => negb (c =? 0)%N && is_scalar c) s.

(** [String(n)]: a longer value is an error unless the excess is all spaces, which
    are then cut off. *)
Definition store_varchar (n : nat) (s : pystr) : option pystr :=
  if negb (text_ok s) then None
  else if (length s <=? n)%nat then Some s
  else if forallb (fun c => (c =? 32)%N) (drop n s) then Some (take n s)
  else None.

Definition store_opt_varchar (n : nat) (s : option pystr) : option (option pystr) :=
  match s with
  | None => Some None
  | Some v => Some <$> store_varchar n v
  end.

Definition int_range (bits : Z) (z : Z) : bool :=
  (- 2 ^ (bits - 1) <=? z) && (z <? 2 ^ (bits - 1)).

(** [BigInteger] and [Integer]. *)
Definition store_bigint (z : Z) : option Z := if int_range 64 z then Some z else None.
Definition store_integer (z : Z) : option Z := if int_range 32 z then Some z else None.

(** [JSONB]: every string in the document must be storable text. *)
Fixpoint jsonb_ok (j : json) : bool :=
  match j with
  | JStr s => text_ok s
  | JArr items => forallb jsonb_ok items
  | JObj fields => forallb (fun kv => text_ok (fst kv) && jsonb_ok (snd kv)) fields
  | _ => true
  end.

Definition store_body (b : body_dict) : option body_dict :=
  if bool_decide (map_Forall (fun k v => text_ok k && jsonb_ok v = true) b) then Some b else None.

Definition store_headers (h : header_dict) : option header_dict :=
  if forallb (fun kv => text_ok (fst kv) && text_ok (snd kv)) h then Some h else None.

(** The values a row is stored with; [None] is a data error. *)
Definition store_transaction_row (r : transaction_row) : option transaction_row :=
  tid ← store_varchar 128 (t_transaction_id r);
  mid ← store_varchar 128 (t_merchant_id r);
  amount ← store_bigint (t_amount r);
  currency ← store_varchar 3 (t_currency r);
  st ← store_varchar 32 (t_status r);
  pend ← store_opt_varchar 32 (t_pending_operation r);
  ver ← store_integer (t_version r);
  nref ← store_opt_varchar 128 (t_network_reference r);
  auth ← store_opt_varchar 128 (t_authorization_code r);
  decl ← store_opt_varchar 128 (t_decline_code r);
  Some (MkTransactionRow tid mid amount currency st pend ver nref auth decl).

Definition store_option {A} (f : A -> option A) (o : option A) : option (option A) :=
  match o with
  | None => Some None
  | Some a => Some <$> f a
  end.

Definition store_idempotency_row (r : idempotency_row) : option idempotency_row :=
  key ← store_varchar 64 (i_idempotency_key_hash r);
  fp ← store_varchar 64 (i_request_fingerprint r);
  st ← store_varchar 32 (i_processing_status r);
  tid ← store_varchar 128 (i_transaction_id r);
  code ← store_option store_integer (i_stored_status_code r);
  body ← store_option store_body (i_stored_response_body r);
  hdrs ← store_option store_headers (i_stored_headers r);
  Some (MkIdempotencyRow key fp st tid code body hdrs).

(** * Check constraints *)

(** [btrim(s)] removes spaces only. *)
Fixpoint ltrim_spaces (s : pystr) : pystr :=
  match s with
  | c :: s' => if (c =? 32)%N then ltrim_spaces s' else s
  | [] => []
  end.
Definition btrim (s : pystr) : pystr := reverse (ltrim_spaces (reverse (ltrim_spaces s))).

Definition between (lo hi z : Z) : bool := (lo <=? z) && (z <=? hi).
Definition str_in (s : pystr) (l : list pystr) : bool := existsb (str_eqb s) l.

Definition chk_transactions_transaction_id_trimmed_length (r : transaction_row) : bool :=
  between 1 128 (Z.of_nat (length (btrim (t_transaction_id r)))).
Definition chk_transactions_merchant_id_trimmed_length (r : transaction_row) : bool :=
  between 1 128 (Z.of_nat (length (btrim (t_merchant_id r)))).
Definition chk_transactions_amount_positive (r : transaction_row) : bool := 0 <? t_amount r.
(** The server's [$] matches only at the end of the string. *)
Definition chk_transactions_currency_format (r : transaction_row) : bool :=
  class_run is_upper_ascii 3 3 (t_currency r).
Definition chk_transactions_version_non_negative (r : transaction_row) : bool := 0 <=? t_version r.
Definition chk_transactions_status_valid (r : transaction_row) : bool :=
  str_in (t_status r)
    [py "CREATED"; py "AUTHORIZED"; py "DECLINED"; py "CAPTURED"; py "REFUNDED";
     py "PENDING_RECONCILIATION"; py "FAILED"].
Definition chk_transactions_pending_operation_valid (r : transaction_row) : bool :=
  match t_pending_operation r with
  | None => true
  | Some o => str_in o [py "AUTHORIZATION"; py "CAPTURE"; py "REFUND"]
  end.
Definition chk_transactions_reconciliation_invariant (r : transaction_row) : bool :=
  (str_eqb (t_status r) (py "PENDING_RECONCILIATION")
     && bool_decide (is_Some (t_pending_operation r)))
  || (negb (str_eqb (t_status r) (py "PENDING_RECONCILIATION"))
        && bool_decide (t_pending_operation r = None)).

Definition transactions_checks (r : transaction_row) : bool :=
  chk_transactions_transaction_id_trimmed_length r
  && chk_transactions_merchant_id_trimmed_length r
  && chk_transactions_amount_positive r
  && chk_transactions_currency_format r
  && chk_transactions_version_non_negative r
  && chk_transactions_status_valid r
  && chk_transactions_pending_operation_valid r
  && chk_transactions_reconciliation_invariant r.

Definition chk_idempotency_key_hash_format (r : idempotency_row) : bool :=
  class_run is_hex_lower 64 64 (i_idempotency_key_hash r).
Definition chk_idempotency_fingerprint_format (r : idempotency_row) : bool :=
  class_run is_hex_lower 64 64 (i_request_fingerprint r).
Definition chk_idempotency_status_valid (r : idempotency_row) : bool :=
  str_in (i_processing_status r) [py "IN_PROGRESS"; py "COMPLETED"].

Definition is_null {A} (o : option A) : bool := match o with None => true | Some _ => false end.

Definition chk_idempotency_payload_integrity (r : idempotency_row) : bool :=
  (str_eqb (i_processing_status r) (py "COMPLETED")
     && negb (is_null (i_stored_status_code r)) && negb (is_null (i_stored_response_body r)))
  || (str_eqb (i_processing_status r) (py "IN_PROGRESS")
        && is_null (i_stored_status_code r) && is_null (i_stored_response_body r)
        && is_null (i_stored_headers r)).
Definition chk_idempotency_stored_status_code_range (r : idempotency_row) : bool :=
  match i_stored_status_code r with
  | None => true
  | Some c => between 100 599 c
  end.
(** [stored_headers - 'Retry-After' = '{}']: no other key. *)
Definition chk_idempotency_stored_headers_allowlist (r : idempotency_row) : bool :=
  match i_stored_headers r with
  | None => true
  | Some h => forallb (fun kv => str_eqb (fst kv) (py "Retry-After")) h
  end.

Definition idempotency_checks (r : idempotency_row) : bool :=
  chk_idempotency_key_hash_format r
  && chk_idempotency_fingerprint_format r
  && chk_idempotency_status_valid r
  && chk_idempotency_payload_integrity r
  && chk_idempotency_stored_status_code_range r
  && chk_idempotency_stored_headers_allowlist r.

(** * Statements *)

(** A statement succeeds, violates a constraint, or is given a value the column
    type cannot hold. *)
Inductive sql_result (A : Type) : Type :=
| SqlOk (a : A)
| SqlIntegrityViolation
| SqlDataError.
Arguments SqlOk {A} a.
Arguments SqlIntegrityViolation {A}.
Arguments SqlDataError {A}.

Definition put_transaction (r : transaction_row) (d : db) : db :=
  MkDb (<[t_transaction_id r := r]> (transactions d)) (idempotency_records d).
Definition put_idempotency (r : idempotency_row) (d : db) : db :=
  MkDb (transactions d) (<[i_idempotency_key_hash r := r]> (idempotency_records d)).

(** [INSERT INTO transactions]. *)
Definition insert_transaction (r : transaction_row) (d : db) : sql_result transaction_row :=
  match store_transaction_row r with
  | None => SqlDataError
  | Some r' =>
      if negb (transactions_checks r') then SqlIntegrityViolation
      else if bool_decide (is_Some (transactions d !! t_transaction_id r'))
           then SqlIntegrityViolation
      else SqlOk r'
  end.

(** [INSERT INTO idempotency_records], with its foreign key. *)
Definition insert_idempotency (r : idempotency_row) (d : db) : sql_result idempotency_row :=
  match store_idempotency_row r with
  | None => SqlDataError
  | Some r' =>
      if negb (idempotency_checks r') then SqlIntegrityViolation
      else if bool_decide (is_Some (idempotency_records d !! i_idempotency_key_hash r'))
           then SqlIntegrityViolation
      else if bool_decide (transactions d !! i_transaction_id r' = None)
           then SqlIntegrityViolation
      else SqlOk r'
  end.

(** The [SET] list of the update of a transaction. *)
Record transaction_values : Type := MkTransactionValues {
  v_status : pystr;
  v_pending_operation : option pystr;
  v_version : Z;
  v_network_reference : option pystr;
  v_authorization_code : option pystr;
  v_decline_code : option pystr
}.

Definition set_transaction (v : transaction_values) (r : transaction_row) : transaction_row :=
  MkTransactionRow (t_transaction_id r) (t_merchant_id r) (t_amount r) (t_currency r)
    (v_status v) (v_pending_operation v) (v_version v)
    (v_network_reference v) (v_authorization_code v) (v_decline_code v).

(** [UPDATE transactions SET ... WHERE transaction_id = tid AND version = ver]:
    the new row, or [None] when no row matches. *)
Definition update_transaction (tid : pystr) (ver : Z) (v : transaction_values) (d : db)
    : sql_result (option transaction_row) :=
  match transactions d !! tid with
  | None => SqlOk None
  | Some r =>
      if negb (t_version r =? ver) then SqlOk None
      else match store_transaction_row (set_transaction v r) with
           | None => SqlDataError
           | Some r' => if transactions_checks r' then SqlOk (Some r') else SqlIntegrityViolation
           end
  end.

(** The [SET] list of the update of an idempotency record. *)
Record idempotency_values : Type := MkIdempotencyValues {
  v_processing_status : pystr;
  v_stored_status_code : option Z;
  v_stored_response_body : option body_dict;
  v_stored_headers : option header_dict
}.

Definition set_idempotency (v : idempotency_values) (r : idempotency_row) : idempotency_row :=
  MkIdempotencyRow (i_idempotency_key_hash r) (i_request_fingerprint r) (v_processing_status v)
    (i_transaction_id r) (v_stored_status_code v) (v_stored_response_body v) (v_stored_headers v).

(** [UPDATE idempotency_records SET ... WHERE idempotency_key_hash = key AND
    transaction_id = tid AND processing_status = st]. *)
Definition update_idempotency (key tid st : pystr) (v : idempotency_values) (d : db)
    : sql_result (option idempotency_row) :=
  match idempotency_records d !! key with
  | None => SqlOk None
  | Some r =>
      if negb (str_eqb (i_transaction_id r) tid && str_eqb (i_processing_status r) st)
      then SqlOk None
      else match store_idempotency_row (set_idempotency v r) with
           | None => SqlDataError
           | Some r' => if idempotency_checks r' then SqlOk (Some r') else SqlIntegrityViolation
           end
  end.

(** * Rows at rest *)

Lemma option_bind_some {A B} (o : option A) (f : A -> option B) b :
  o ≫= f = Some b <-> exists a, o = Some a /\ f a = Some b.
Proof. destruct o; simpl; naive_solver. Qed.

Lemma text_ok_take n s : text_ok s = true -> text_ok (take n s) = true.
Proof. unfold text_ok. rewrite !forallb_Forall_iff. apply Forall_take. Qed.

Lemma store_varchar_fits n s :
  text_ok s = true -> (length s <= n)%nat -> store_varchar n s = Some s.
Proof. intros Ht Hl. unfold store_varchar. rewrite Ht. apply Nat.leb_le in Hl. by rewrite Hl. Qed.

Lemma store_varchar_stored n s s' :
  store_varchar n s = Some s' -> text_ok s' = true /\ (length s' <= n)%nat.
Proof.
  unfold store_varchar. destruct (text_ok s) eqn:Ht; [|done]. simpl.
  destruct (Nat.leb_spec (length s) n); [by intros [= <-]|].
  destruct (forallb _ _); [|done]. intros [= <-].
  split; [by apply text_ok_take|]. rewrite length_take. lia.
Qed.

(** Storing is idempotent: a stored value is stored as it is. *)
Definition idempotent_store {A} (f : A -> option A) : Prop :=
  forall a a', f a = Some a' -> f a' = Some a'.

Lemma store_varchar_idem n : idempotent_store (store_varchar n).
Proof. intros s s' [Ht Hl]%store_varchar_stored. by apply store_varchar_fits. Qed.

Lemma store_opt_varchar_idem n : idempotent_store (store_opt_varchar n).
Proof.
  intros [s|] o'; simpl; [|by intros [= <-]].
  intros (s' & Hs & ->)%fmap_Some. simpl. by rewrite (store_varchar_idem n s s').
Qed.

Lemma store_option_idem {A} (f : A -> option A) :
  idempotent_store f -> idempotent_store (store_option f).
Proof.
  intros Hf [a|] o'; simpl; [|by intros [= <-]].
  intros (a' & Ha & ->)%fmap_Some. simpl. by rewrite (Hf a a').
Qed.

Lemma idempotent_test {A} (test : A -> bool) :
  idempotent_store (fun a => if test a then Some a else None).
Proof. intros a a'. destruct (test a) eqn:E; [intros [= <-]; by rewrite E | done]. Qed.

Create HintDb store.
#[export] Hint Resolve store_varchar_idem store_opt_varchar_idem : store.

Ltac bind_some :=
  repeat match goal with
  | H : _ ≫= _ = Some _ |- _ => apply option_bind_some in H as (? & ? & H)
  end.

(** Replays the stores of the fields of a row that was stored. *)
Ltac restore :=
  repeat match goal with
  | H : store_varchar ?n _ = Some ?s |- context [store_varchar ?n ?s] =>
      rewrite (store_varchar_idem n _ _ H)
  | H : store_opt_varchar ?n _ = Some ?s |- context [store_opt_varchar ?n ?s] =>
      rewrite (store_opt_varchar_idem n _ _ H)
  | H : store_bigint _ = Some ?s |- context [store_bigint ?s] =>
      rewrite (idempotent_test (int_range 64) _ _ H : store_bigint s = Some s)
  | H : store_integer _ = Some ?s |- context [store_integer ?s] =>
      rewrite (idempotent_test (int_range 32) _ _ H : store_integer s = Some s)
  | H : store_option ?f _ = Some ?s |- context [store_option ?f ?s] =>
      rewrite (store_option_idem f (idempotent_test _) _ _ H)
  end.

(** The columns that no update writes are stored as they are. *)
Lemma stored_transaction_row r :
  store_transaction_row r = Some r ->
  store_varchar 128 (t_transaction_id r) = Some (t_transaction_id r)
  /\ store_varchar 128 (t_merchant_id r) = Some (t_merchant_id r)
  /\ store_bigint (t_amount r) = Some (t_amount r)
  /\ store_varchar 3 (t_currency r) = Some (t_currency r).
Proof.
  destruct r as [tid mid amount cur st pend v n a dc]. unfold store_transaction_row.
  cbn [t_transaction_id t_merchant_id t_amount t_currency t_status t_pending_operation t_version
    t_network_reference t_authorization_code t_decline_code].
  intros H. bind_some.
  by match goal with
     | H : Some _ = Some _ |- _ => injection H as -> -> -> -> -> -> -> -> -> ->
     end.
Qed.

Lemma stored_idempotency_row r :
  store_idempotency_row r = Some r ->
  store_varchar 64 (i_idempotency_key_hash r) = Some (i_idempotency_key_hash r)
  /\ store_varchar 64 (i_request_fingerprint r) = Some (i_request_fingerprint r)
  /\ store_varchar 128 (i_transaction_id r) = Some (i_transaction_id r).
Proof.
  destruct r as [k fp st tid code body hdrs]. unfold store_idempotency_row.
  cbn [i_idempotency_key_hash i_request_fingerprint i_processing_status i_transaction_id
    i_stored_status_code i_stored_response_body i_stored_headers].
  intros H. bind_some.
  by match goal with H : Some _ = Some _ |- _ => injection H as -> -> -> -> -> -> -> end.
Qed.

Lemma store_transaction_row_idem : idempotent_store store_transaction_row.
Proof.
  intros r r' H. unfold store_transaction_row in H. bind_some. simplify_eq.
  unfold store_transaction_row. cbn [t_transaction_id t_merchant_id t_amount t_currency t_status
    t_pending_operation t_version t_network_reference t_authorization_code t_decline_code].
  restore. done.
Qed.

Lemma store_idempotency_row_idem : idempotent_store store_idempotency_row.
Proof.
  intros r r' H. unfold store_idempotency_row in H. bind_some. simplify_eq.
  unfold store_idempotency_row. cbn [i_idempotency_key_hash i_request_fingerprint
    i_processing_status i_transaction_id i_stored_status_code i_stored_response_body
    i_stored_headers].
  restore. done.
Qed.

Definition transaction_row_ok (k : pystr) (r : transaction_row) : Prop :=
  t_transaction_id r = k /\ store_transaction_row r = Some r /\ transactions_checks r = true.
Definition idempotency_row_ok (k : pystr) (r : idempotency_row) : Prop :=
  i_idempotency_key_hash r = k /\ store_idempotency_row r = Some r /\ idempotency_checks r = true.

(** What the server guarantees of the tables: column types, check constraints, and the
    foreign key. *)
Definition db_ok (d : db) : Prop :=
  map_Forall transaction_row_ok (transactions d)
  /\ map_Forall idempotency_row_ok (idempotency_records d)
  /\ map_Forall (fun _ r => is_Some (transactions d !! i_transaction_id r)) (idempotency_records d).

Lemma insert_transaction_ok r d r' :
  insert_transaction r d = SqlOk r' ->
  store_transaction_row r = Some r' /\ transaction_row_ok (t_transaction_id r') r'
  /\ transactions d !! t_transaction_id r' = None.
Proof.
  unfold insert_transaction. destruct (store_transaction_row r) as [s|] eqn:Hs; [|done].
  destruct (transactions_checks s) eqn:Hc; [|done]. simpl.
  case_bool_decide as Hd; [done|]. intros [= <-]. split; [done|].
  split; [|by apply eq_None_not_Some].
  split; [done|]. split; [by apply (store_transaction_row_idem r) | done].
Qed.

Lemma insert_idempotency_ok r d r' :
  insert_idempotency r d = SqlOk r' ->
  store_idempotency_row r = Some r' /\ idempotency_row_ok (i_idempotency_key_hash r') r'
  /\ idempotency_records d !! i_idempotency_key_hash r' = None
  /\ is_Some (transactions d !! i_transaction_id r').
Proof.
  unfold insert_idempotency. destruct (store_idempotency_row r) as [s|] eqn:Hs; [|done].
  destruct (idempotency_checks s) eqn:Hc; [|done]. simpl.
  case_bool_decide as Hd; [done|]. case_bool_decide as Hf; [done|]. intros [= <-].
  split; [done|]. split.
  - split; [done|]. split; [by apply (store_idempotency_row_idem r) | done].
  - split; [by apply eq_None_not_Some | by apply not_eq_None_Some].
Qed.

Lemma update_transaction_row tid ver v d r' :
  update_transaction tid ver v d = SqlOk (Some r') ->
  exists r, transactions d !! tid = Some r /\ t_version r = ver
    /\ store_transaction_row (set_transaction v r) = Some r'
    /\ transaction_row_ok (t_transaction_id r') r'.
Proof.
  unfold update_transaction. destruct (transactions d !! tid) as [r|]; [|done].
  destruct (Z.eqb_spec (t_version r) ver) as [Hv|]; [|done]. simpl.
  destruct (store_transaction_row _) as [s|] eqn:Hs; [|done].
  destruct (transactions_checks s) eqn:Hc; [|done]. intros [= <-].
  exists r. split_and!; [done..|]. split; [done|].
  split; [by apply (store_transaction_row_idem _ _ Hs) | done].
Qed.

Lemma update_idempotency_row key tid st v d r' :
  update_idempotency key tid st v d = SqlOk (Some r') ->
  exists r, idempotency_records d !! key = Some r /\ i_transaction_id r = tid
    /\ i_processing_status r = st /\ store_idempotency_row (set_idempotency v r) = Some r'
    /\ idempotency_row_ok (i_idempotency_key_hash r') r'.
Proof.
  unfold update_idempotency. destruct (idempotency_records d !! key) as [r|]; [|done].
  destruct (str_eqb (i_transaction_id r) tid) eqn:Ht; [|done].
  destruct (str_eqb (i_processing_status r) st) eqn:Hp; [|done]. simpl.
  apply str_eqb_eq in Ht, Hp.
  destruct (store_idempotency_row _) as [s|] eqn:Hs; [|done].
  destruct (idempotency_checks s) eqn:Hc; [|done]. intros [= <-].
  exists r. split_and!; [done..|]. split; [done|].
  split; [by apply (store_idempotency_row_idem _ _ Hs) | done].
Qed.

(** * Values that are stored as they are *)

Definition storable_text (n : nat) (s : pystr) : bool := text_ok s && (length s <=? n)%nat.
Definition storable_opt_text (n : nat) (o : option pystr) : bool :=
  match o with None => true | Some s => storable_text n s end.
(** An identifier column: text of at most 128 characters, not only spaces. *)
Definition storable_id (s : pystr) : bool := storable_text 128 s && negb (str_eqb (btrim s) []).

Lemma storable_text_spec n s :
  storable_text n s = true <-> text_ok s = true /\ (length s <= n)%nat.
Proof. unfold storable_text. by rewrite andb_true_iff, Nat.leb_le. Qed.

Lemma store_storable n s : storable_text n s = true -> store_varchar n s = Some s.
Proof. intros [Ht Hl]%storable_text_spec. by apply store_varchar_fits. Qed.

Lemma store_storable_opt n o : storable_opt_text n o = true -> store_opt_varchar n o = Some o.
Proof. destruct o as [s|]; [|done]. intros H%store_storable. simpl. by rewrite H. Qed.

Lemma stored_storable n s : store_varchar n s = Some s -> storable_text n s = true.
Proof. intros H%store_varchar_stored. by apply storable_text_spec. Qed.

Lemma ltrim_length s : (length (ltrim_spaces s) <= length s)%nat.
Proof. induction s as [|c s IH]; simpl; [done|]. destruct (c =? 32)%N; simpl; lia. Qed.

Lemma btrim_length s : (length (btrim s) <= length s)%nat.
Proof.
  unfold btrim. rewrite length_reverse. etransitivity; [apply ltrim_length|].
  rewrite length_reverse. apply ltrim_length.
Qed.

Lemma storable_id_length_check s :
  storable_id s = true -> between 1 128 (Z.of_nat (length (btrim s))) = true.
Proof.
  unfold storable_id. rewrite andb_true_iff, negb_true_iff. intros [[_ Hl]%storable_text_spec Hb].
  unfold between. apply andb_true_iff. rewrite !Z.leb_le. pose proof (btrim_length s).
  destruct (btrim s) as [|c b] eqn:E; [|simpl in *; lia].
  exfalso. by apply not_true_iff_false in Hb.
Qed.

Lemma store_storable_id s : storable_id s = true -> store_varchar 128 s = Some s.
Proof. intros [H _]%andb_true_iff. by apply store_storable. Qed.

(** Text of a class of ASCII characters is storable. *)
Lemma class_run_storable cls lo hi s :
  (forall c, cls c = true -> (0 < c < 128)%N) ->
  class_run cls lo hi s = true -> storable_text hi s = true.
Proof.
  intros Hc [Hf Hl]%class_run_spec. apply storable_text_spec. split; [|lia].
  apply forallb_Forall_iff. eapply Forall_impl; [exact Hf|]. intros c Hcls%Hc.
  apply andb_true_iff. split; [apply negb_true_iff, N.eqb_neq; lia|].
  unfold is_scalar, in_range. apply andb_true_iff.
  rewrite N.leb_le, negb_true_iff, andb_false_iff, !N.leb_gt. lia.
Qed.

Lemma is_hex_lower_ascii c : is_hex_lower c = true -> (0 < c < 128)%N.
Proof.
  unfold is_hex_lower, is_digit_ascii, in_range.
  rewrite orb_true_iff, !andb_true_iff, !N.leb_le. lia.
Qed.

Lemma is_upper_ascii_ascii c : is_upper_ascii c = true -> (0 < c < 128)%N.
Proof. unfold is_upper_ascii, in_range. rewrite andb_true_iff, !N.leb_le. lia. Qed.

Lemma store_digest s : class_run is_hex_lower 64 64 s = true -> store_varchar 64 s = Some s.
Proof. intros H. by eapply store_storable, class_run_storable, H; intros; apply is_hex_lower_ascii. Qed.

Lemma store_currency s : class_run is_upper_ascii 3 3 s = true -> store_varchar 3 s = Some s.
Proof. intros H. by eapply store_storable, class_run_storable, H; intros; apply is_upper_ascii_ascii. Qed.

Lemma status_value_stored s :
  store_varchar 32 (TransactionStatus_value s) = Some (TransactionStatus_value s)
  /\ chk_transactions_status_valid
       (MkTransactionRow [] [] 0 [] (TransactionStatus_value s) None 0 None None None) = true.
Proof. by destruct s. Qed.

Lemma pending_value_stored o :
  store_opt_varchar 32 (PendingOperation_value <$> o) = Some (PendingOperation_value <$> o)
  /\ chk_transactions_pending_operation_valid
       (MkTransactionRow [] [] 0 [] [] (PendingOperation_value <$> o) 0 None None None) = true.
Proof. by destruct o as [[]|]. Qed.
