(* ===== verification/Sql.v ===== *)
(** The SQL conditions of check constraints, as texts: a parser for the part of the
    language that the constraints of infrastructure/models.py and of the migration are
    written in, and its three-valued evaluation. *)
From S2P Require Import Prelude PyStr Sha256 Json JsonText Domain Ports Schema.

Open Scope Z_scope.

(** * Tokens *)

Inductive token : Type :=
| TWord (w : pystr)      (* an identifier or a keyword *)
| TNumber (z : Z)
| TText (s : pystr)      (* a string literal *)
| TSymbol (s : pystr).

#[export] Instance token_eq_dec : EqDecision token.
Proof. solve_decision. Defined.

Definition is_word_char (c : N) : bool :=
  is_upper_ascii c || is_lower_ascii c || is_digit_ascii c || (c =? 95)%N.

(** The symbols of the conditions, longest first. *)
Definition symbols : list pystr :=
  [py "::"; py ">="; py "!="; py ">"; py "="; py "~"; py "-"; py "("; py ")"; py ","].

Fixpoint find_symbol (table : list pystr) (s : pystr) : option pystr :=
  match table with
  | [] => None
  | t :: rest => if startswith s t then Some t else find_symbol rest s
  end.

(** One token and the rest of the text, which starts with no space. *)
Definition next_token (s : pystr) : option (token * pystr) :=
  match s with
  | [] => None
  | c :: rest =>
      if (c =? 39)%N then
        match span (fun d => negb (d =? 39)%N) rest with
        | (text, _ :: r) => Some (TText text, r)
        | (_, []) => None
        end
      else if is_digit_ascii c then
        let '(ds, r) := span is_digit_ascii s in z ← py_int ds; Some (TNumber z, r)
      else if is_word_char c then
        let '(w, r) := span is_word_char s in Some (TWord w, r)
      else t ← find_symbol symbols s; Some (TSymbol t, drop (length t) s)
  end.

Fixpoint tokens (f : nat) (s : pystr) : option (list token) :=
  match f with
  | O => None
  | S f =>
      match skip_ws s with
      | [] => Some []
      | s => '(t, r) ← next_token s; ts ← tokens f r; Some (t :: ts)
      end
  end.

(** * Expressions *)

Inductive sql_op : Type := OpOr | OpAnd | OpEq | OpNe | OpGt | OpGe | OpMatch | OpMinus.

Inductive sql_expr : Type :=
| SColumn (name : pystr)
| SNumber (z : Z)
| SText (s : pystr)
| SNull
| SCall (f : pystr) (arg : sql_expr)
| SCast (e : sql_expr) (ty : pystr)
| SBin (op : sql_op) (a b : sql_expr)
| SIsNull (negated : bool) (e : sql_expr)
| SBetween (e lo hi : sql_expr)
| SIn (e : sql_expr) (l : list sql_expr).

(** ** Parsing, by the precedence of PostgreSQL: [OR], [AND], [IS], comparisons,
    [BETWEEN] and [IN], other operators, [::]. *)

Definition word (w : string) : token := TWord (py w).
Definition sym (s : string) : token := TSymbol (py s).
Definition is_tok (t u : token) : bool := bool_decide (t = u).

(** The binary operators of each level. *)
Definition level_op (level : nat) (t : token) : option sql_op :=
  match level with
  | 0%nat => if is_tok t (word "OR") then Some OpOr else None
  | 1%nat => if is_tok t (word "AND") then Some OpAnd else None
  | 3%nat =>
      if is_tok t (sym "=") then Some OpEq
      else if is_tok t (sym "!=") then Some OpNe
      else if is_tok t (sym ">=") then Some OpGe
      else if is_tok t (sym ">") then Some OpGt
      else None
  | 5%nat =>
      if is_tok t (sym "~") then Some OpMatch
      else if is_tok t (sym "-") then Some OpMinus
      else None
  | _ => None
  end.

(** [parse f level ts]: an expression of at least the given level.  [more] extends the
    expression parsed so far by the operators of the level; [args] is a parenthesised
    list after its opening parenthesis. *)
Fixpoint parse (f : nat) (level : nat) (ts : list token) : option (sql_expr * list token) :=
  match f with
  | O => None
  | S f =>
      match level with
      | 6%nat =>
          match ts with
          | TNumber z :: ts => Some (SNumber z, ts)
          | TText s :: ts => Some (SText s, ts)
          | TWord w :: t :: ts =>
              if str_eqb w (py "NULL") then Some (SNull, t :: ts)
              else if is_tok t (sym "(")
              then '(e, ts) ← parse f 0 ts;
                   match ts with
                   | u :: ts => if is_tok u (sym ")") then Some (SCall w e, ts) else None
                   | [] => None
                   end
              else Some (SColumn w, t :: ts)
          | [TWord w] => Some (if str_eqb w (py "NULL") then SNull else SColumn w, [])
          | TSymbol s :: ts =>
              if str_eqb s (py "(")
              then '(e, ts) ← parse f 0 ts;
                   match ts with
                   | u :: ts => if is_tok u (sym ")") then Some (e, ts) else None
                   | [] => None
                   end
              else None
          | [] => None
          end
      | _ => '(e, ts) ← parse f (S level) ts; more f level e ts
      end
  end
with more (f : nat) (level : nat) (e : sql_expr) (ts : list token) : option (sql_expr * list token) :=
  match f with
  | O => None
  | S f =>
      match ts with
      | [] => Some (e, [])
      | t :: rest =>
          match level_op level t with
          | Some op => '(b, ts) ← parse f (S level) rest; more f level (SBin op e b) ts
          | None =>
              if (level =? 2)%nat && is_tok t (word "IS") then
                match rest with
                | u :: v :: ts =>
                    if is_tok u (word "NOT") && is_tok v (word "NULL")
                    then more f level (SIsNull true e) ts
                    else if is_tok u (word "NULL") then more f level (SIsNull false e) (v :: ts)
                    else None
                | [u] => if is_tok u (word "NULL") then Some (SIsNull false e, []) else None
                | [] => None
                end
              else if (level =? 4)%nat && is_tok t (word "BETWEEN") then
                '(lo, ts) ← parse f 5 rest;
                match ts with
                | u :: ts =>
                    if is_tok u (word "AND")
                    then '(hi, ts) ← parse f 5 ts; Some (SBetween e lo hi, ts)
                    else None
                | [] => None
                end
              else if (level =? 4)%nat && is_tok t (word "IN") then
                match rest with
                | u :: ts =>
                    if is_tok u (sym "(") then '(l, ts) ← args f ts; Some (SIn e l, ts) else None
                | [] => None
                end
              else if (level =? 5)%nat && is_tok t (sym "::") then
                match rest with
                | TWord ty :: ts => more f level (SCast e ty) ts
                | _ => None
                end
              else Some (e, ts)
          end
      end
  end
with args (f : nat) (ts : list token) : option (list sql_expr * list token) :=
  match f with
  | O => None
  | S f =>
      '(e, ts) ← parse f 5 ts;
      match ts with
      | t :: ts =>
          if is_tok t (sym ")") then Some ([e], ts)
          else if is_tok t (sym ",") then '(es, ts) ← args f ts; Some (e :: es, ts)
          else None
      | [] => None
      end
  end.

(** The expression of a condition.  Each level and each token takes at most ten steps. *)
Definition parse_condition (text : pystr) : option sql_expr :=
  ts ← tokens (S (length text)) text;
  '(e, rest) ← parse (10 * S (length ts)) 0 ts;
  match rest with [] => Some e | _ => None end.

(** * Values *)

Inductive sql_value : Type :=
| VNull
| VText (s : pystr)
| VInt (z : Z)
| VBool (b : bool)
| VJson (j : json).

(** Three-valued logic: [None] is unknown. *)
Definition or3 (a b : option bool) : option bool :=
  match a, b with
  | Some true, _ | _, Some true => Some true
  | Some false, Some false => Some false
  | _, _ => None
  end.
Definition and3 (a b : option bool) : option bool :=
  match a, b with
  | Some false, _ | _, Some false => Some false
  | Some true, Some true => Some true
  | _, _ => None
  end.

Definition of_truth (t : option bool) : sql_value :=
  match t with Some b => VBool b | None => VNull end.
Definition truth (v : sql_value) : option (option bool) :=
  match v with VBool b => Some (Some b) | VNull => Some None | _ => None end.

(** ** Operators *)

(** The patterns of the constraints, [^\[...\]{n}$]: the class and the count. *)
Fixpoint class_ranges (s : pystr) : list (N * N) :=
  match s with
  | a :: rest =>
      match rest with
      | d :: b :: rest' => if (d =? 45)%N then (a, b) :: class_ranges rest' else (a, a) :: class_ranges rest
      | _ => (a, a) :: class_ranges rest
      end
  | [] => []
  end.
Definition in_class (ranges : list (N * N)) (c : N) : bool :=
  existsb (fun r => in_range (fst r) (snd r) c) ranges.

Definition parse_pattern (pattern : pystr) : option (list (N * N) * nat) :=
  if startswith pattern (py "^[") then
    match span (fun c => negb (c =? 93)%N) (drop 2 pattern) with
    | (class, _ :: rest) =>
        if startswith rest (py "{") then
          let '(ds, tail) := span is_digit_ascii (drop 1 rest) in
          if str_eqb tail (py "}$") then n ← py_int ds; Some (class_ranges class, Z.to_nat n) else None
        else None
    | (_, []) => None
    end
  else None.

(** [text ~ pattern]; the server's [$] matches only at the end. *)
Definition posix_match (s pattern : pystr) : option bool :=
  '(ranges, n) ← parse_pattern pattern; Some (class_run (in_class ranges) n n s).

(** Equality of [jsonb] values, one of which has no members. *)
Definition jsonb_empty_eq (a b : json) : option bool :=
  match a, b with
  | JObj [], JObj l | JObj l, JObj [] => Some (match l with [] => true | _ => false end)
  | _, _ => None
  end.

(** [None]: the operands have no such operator. *)
Definition compare_values (op : sql_op) (a b : sql_value) : option (option bool) :=
  match op, a, b with
  | (OpEq | OpNe | OpGt | OpGe | OpMatch), VNull, _
  | (OpEq | OpNe | OpGt | OpGe | OpMatch), _, VNull => Some None
  | OpEq, VText s, VText t => Some (Some (str_eqb s t))
  | OpNe, VText s, VText t => Some (Some (negb (str_eqb s t)))
  | OpMatch, VText s, VText p => Some <$> posix_match s p
  | OpEq, VInt x, VInt y => Some (Some (x =? y))
  | OpNe, VInt x, VInt y => Some (Some (negb (x =? y)))
  | OpGt, VInt x, VInt y => Some (Some (y <? x))
  | OpGe, VInt x, VInt y => Some (Some (y <=? x))
  | OpEq, VJson x, VJson y => Some <$> jsonb_empty_eq x y
  | _, _, _ => None
  end.

(** [jsonb - text]: without the member. *)
Definition without_member (key : pystr) (fields : list (pystr * json)) : list (pystr * json) :=
  List.filter (fun kv => negb (str_eqb (fst kv) key)) fields.

Definition apply_op (op : sql_op) (a b : sql_value) : option sql_value :=
  match op with
  | OpOr => x ← truth a; y ← truth b; Some (of_truth (or3 x y))
  | OpAnd => x ← truth a; y ← truth b; Some (of_truth (and3 x y))
  | OpMinus =>
      match a, b with
      | VNull, _ | _, VNull => Some VNull
      | VJson (JObj fields), VText key => Some (VJson (JObj (without_member key fields)))
      | VInt x, VInt y => Some (VInt (x - y))
      | _, _ => None
      end
  | op => of_truth <$> compare_values op a b
  end.

Definition json_type (j : json) : pystr :=
  match j with
  | JNull => py "null" | JBool _ => py "boolean" | JInt _ | JFloat _ => py "number"
  | JStr _ => py "string" | JArr _ => py "array" | JObj _ => py "object"
  end.

Definition call (f : pystr) (v : sql_value) : option sql_value :=
  match v with
  | VNull => Some VNull
  | VText s =>
      if str_eqb f (py "length") then Some (VInt (Z.of_nat (length s)))
      else if str_eqb f (py "btrim") then Some (VText (btrim s)) else None
  | VJson j => if str_eqb f (py "jsonb_typeof") then Some (VText (json_type j)) else None
  | _ => None
  end.

Definition cast (v : sql_value) (ty : pystr) : option sql_value :=
  if str_eqb ty (py "jsonb")
  then match v with
       | VNull => Some VNull
       | VText s => VJson <$> loads s
       | _ => None
       end
  else None.

(** ** Evaluation on a row *)

Fixpoint eval_sql (row : pystr -> option sql_value) (e : sql_expr) : option sql_value :=
  match e with
  | SColumn name => row name
  | SNumber z => Some (VInt z)
  | SText s => Some (VText s)
  | SNull => Some VNull
  | SCall f e => v ← eval_sql row e; call f v
  | SCast e ty => v ← eval_sql row e; cast v ty
  | SBin op a b => x ← eval_sql row a; y ← eval_sql row b; apply_op op x y
  | SIsNull negated e =>
      v ← eval_sql row e;
      Some (VBool (xorb negated (match v with VNull => true | _ => false end)))
  | SBetween e lo hi =>
      v ← eval_sql row e; a ← eval_sql row lo; b ← eval_sql row hi;
      x ← compare_values OpGe v a; y ← compare_values OpGe b v; Some (of_truth (and3 x y))
  | SIn e l =>
      v ← eval_sql row e;
      of_truth <$> foldr (fun a acc => w ← eval_sql row a; x ← compare_values OpEq v w;
                                       y ← acc; Some (or3 x y)) (Some (Some false)) l
  end.

(** A check constraint is violated only when its condition is false; [None]: the
    condition cannot be parsed or has no type. *)
Definition check_holds (row : pystr -> option sql_value) (text : pystr) : option bool :=
  e ← parse_condition text; v ← eval_sql row e;
  match v with VBool b => Some b | VNull => Some true | _ => None end.

(** All constraints of a table. *)
Fixpoint checks_hold (row : pystr -> option sql_value) (texts : list pystr) : option bool :=
  match texts with
  | [] => Some true
  | t :: rest => a ← check_holds row t; b ← checks_hold row rest; Some (a && b)
  end.

(** ** The rows of the two tables *)

Definition opt_text (o : option pystr) : sql_value :=
  match o with Some s => VText s | None => VNull end.

Fixpoint column_value (columns : list (pystr * sql_value)) (name : pystr) : option sql_value :=
  match columns with
  | [] => None
  | (n, v) :: rest => if str_eqb n name then Some v else column_value rest name
  end.

Definition transaction_columns (r : transaction_row) : pystr -> option sql_value :=
  column_value
    [(py "transaction_id", VText (t_transaction_id r)); (py "merchant_id", VText (t_merchant_id r));
     (py "amount", VInt (t_amount r)); (py "currency", VText (t_currency r));
     (py "status", VText (t_status r)); (py "pending_operation", opt_text (t_pending_operation r));
     (py "version", VInt (t_version r)); (py "network_reference", opt_text (t_network_reference r));
     (py "authorization_code", opt_text (t_authorization_code r));
     (py "decline_code", opt_text (t_decline_code r))].

(** Headers are a flat object of texts. *)
Definition headers_json (h : header_dict) : json :=
  JObj (map (fun kv => (fst kv, JStr (snd kv))) h).

Definition idempotency_columns (r : idempotency_row) : pystr -> option sql_value :=
  column_value
    [(py "idempotency_key_hash", VText (i_idempotency_key_hash r));
     (py "request_fingerprint", VText (i_request_fingerprint r));
     (py "processing_status", VText (i_processing_status r));
     (py "transaction_id", VText (i_transaction_id r));
     (py "stored_status_code", match i_stored_status_code r with Some c => VInt c | None => VNull end);
     (py "stored_response_body",
        match i_stored_response_body r with Some b => VJson (JObj (map_to_list b)) | None => VNull end);
     (py "stored_headers", match i_stored_headers r with Some h => VJson (headers_json h) | None => VNull end)].
