(* ===== verification/Migration.v ===== *)
(** The schema: the tables that infrastructure/models.py declares, the migration
    src/migrations/versions/0001_initial_schema.py, the catalog of a database and what
    the data definition statements do to it. *)
From S2P Require Import Prelude PyStr Sha256 Json JsonText Domain Ports Schema Sql.

(** * Declarations *)

Inductive sql_type : Type :=
| String_ (length : nat)
| BigInteger
| Integer
| DateTime (timezone : bool)
| JSONB.

(** A literal default is quoted; [func.now()] and [text("now()")] are expressions. *)
Inductive server_default : Type :=
| DefaultLiteral (s : pystr)
| DefaultExpr (s : pystr).

(** [Column(name, type, ...)]; [None] for [nullable] is SQLAlchemy's default, nullable
    unless the column is a primary key. *)
Record column : Type := MkColumn {
  c_name : pystr;
  c_type : sql_type;
  c_primary_key : bool;
  c_nullable : option bool;
  c_server_default : option server_default;
  c_foreign_key : option pystr
}.

(** The arguments of [Table] and [op.create_table] after the name. *)
Inductive table_item : Type :=
| ItemColumn (c : column)
| PrimaryKeyConstraint (columns : list pystr)
| ForeignKeyConstraint (columns targets : list pystr)
| CheckConstraint (sql name : pystr).

Record index : Type := MkIndex {
  ix_name : pystr;
  ix_table : pystr;
  ix_columns : list pystr;
  ix_unique : bool
}.

(** ** The models *)

Definition col (name : string) (ty : sql_type) (nullable : bool) : table_item :=
  ItemColumn (MkColumn (py name) ty false (Some nullable) None None).
Definition key_col (name : string) (ty : sql_type) : table_item :=
  ItemColumn (MkColumn (py name) ty true None None None).
Definition default_col (name : string) (ty : sql_type) (nullable : bool) (d : server_default)
    : table_item :=
  ItemColumn (MkColumn (py name) ty false (Some nullable) (Some d) None).
Definition check (sql : pystr) (name : string) : table_item := CheckConstraint sql (py name).

Definition transactions_table : list table_item :=
  [key_col "transaction_id" (String_ 128);
   col "merchant_id" (String_ 128) false;
   col "amount" BigInteger false;
   col "currency" (String_ 3) false;
   col "status" (String_ 32) false;
   col "pending_operation" (String_ 32) true;
   default_col "version" Integer false (DefaultLiteral (py "0"));
   col "network_reference" (String_ 128) true;
   col "authorization_code" (String_ 128) true;
   col "decline_code" (String_ 128) true;
   default_col "created_at" (DateTime true) false (DefaultExpr (py "now()"));
   default_col "updated_at" (DateTime true) false (DefaultExpr (py "now()"));
   check (py "length(btrim(transaction_id)) BETWEEN 1 AND 128")
     "chk_transactions_transaction_id_trimmed_length";
   check (py "length(btrim(merchant_id)) BETWEEN 1 AND 128")
     "chk_transactions_merchant_id_trimmed_length";
   check (py "amount > 0") "chk_transactions_amount_positive";
   check (py "currency ~ '^[A-Z]{3}$'") "chk_transactions_currency_format";
   check (py "version >= 0") "chk_transactions_version_non_negative";
   check (py "status IN ('CREATED', 'AUTHORIZED', 'DECLINED', 'CAPTURED', "
          ++ py "'REFUNDED', 'PENDING_RECONCILIATION', 'FAILED')")
     "chk_transactions_status_valid";
   check (py "pending_operation IS NULL OR pending_operation IN ('AUTHORIZATION', 'CAPTURE', 'REFUND')")
     "chk_transactions_pending_operation_valid";
   check (py "((status = 'PENDING_RECONCILIATION' AND pending_operation IS NOT NULL) OR "
          ++ py "(status != 'PENDING_RECONCILIATION' AND pending_operation IS NULL))")
     "chk_transactions_reconciliation_invariant"].

Definition idempotency_records_table : list table_item :=
  [key_col "idempotency_key_hash" (String_ 64);
   col "request_fingerprint" (String_ 64) false;
   col "processing_status" (String_ 32) false;
   ItemColumn (MkColumn (py "transaction_id") (String_ 128) false (Some false) None
                 (Some (py "transactions.transaction_id")));
   col "stored_status_code" Integer true;
   col "stored_response_body" JSONB true;
   col "stored_headers" JSONB true;
   default_col "created_at" (DateTime true) false (DefaultExpr (py "now()"));
   default_col "updated_at" (DateTime true) false (DefaultExpr (py "now()"));
   check (py "idempotency_key_hash ~ '^[0-9a-f]{64}$'") "chk_idempotency_key_hash_format";
   check (py "request_fingerprint ~ '^[0-9a-f]{64}$'") "chk_idempotency_fingerprint_format";
   check (py "processing_status IN ('IN_PROGRESS', 'COMPLETED')") "chk_idempotency_status_valid";
   check (py "((processing_status = 'COMPLETED' AND stored_status_code IS NOT NULL "
          ++ py "AND stored_response_body IS NOT NULL) OR "
          ++ py "(processing_status = 'IN_PROGRESS' AND stored_status_code IS NULL "
          ++ py "AND stored_response_body IS NULL AND stored_headers IS NULL))")
     "chk_idempotency_payload_integrity";
   check (py "stored_status_code IS NULL OR (stored_status_code BETWEEN 100 AND 599)")
     "chk_idempotency_stored_status_code_range";
   check (py "stored_headers IS NULL OR ("
          ++ py "jsonb_typeof(stored_headers) = 'object' AND "
          ++ py "(stored_headers - 'Retry-After') = '{}'::jsonb)")
     "chk_idempotency_stored_headers_allowlist"].

(** [metadata]: the tables, and the indexes attached to them. *)
Definition metadata_tables : list (pystr * list table_item) :=
  [(py "transactions", transactions_table); (py "idempotency_records", idempotency_records_table)].

Definition metadata_indexes : list index :=
  [MkIndex (py "idx_transactions_merchant_id") (py "transactions") [py "merchant_id"] false;
   MkIndex (py "idx_transactions_status") (py "transactions") [py "status"] false;
   MkIndex (py "idx_idempotency_records_transaction_id") (py "idempotency_records")
     [py "transaction_id"] false].

(** * The catalog *)

Record foreign_key : Type := MkForeignKey {
  fk_columns : list pystr;
  fk_table : pystr;
  fk_targets : list pystr
}.

Record table_def : Type := MkTableDef {
  td_columns : list (pystr * (sql_type * bool * option server_default));
  td_primary_key : list pystr;
  td_foreign_keys : list foreign_key;
  td_checks : list (pystr * pystr)
}.

Record catalog : Type := MkCatalog {
  tables : gmap pystr table_def;
  indexes : gmap pystr index
}.

#[export] Instance sql_type_eq_dec : EqDecision sql_type.
Proof. solve_decision. Defined.
#[export] Instance server_default_eq_dec : EqDecision server_default.
Proof. solve_decision. Defined.
#[export] Instance index_eq_dec : EqDecision index.
Proof. solve_decision. Defined.
#[export] Instance foreign_key_eq_dec : EqDecision foreign_key.
Proof. solve_decision. Defined.
#[export] Instance table_def_eq_dec : EqDecision table_def.
Proof. solve_decision. Defined.
#[export] Instance catalog_eq_dec : EqDecision catalog.
Proof. solve_decision. Defined.

(** ["table.column"]. *)
Definition split_target (target : pystr) : pystr * pystr :=
  match span (fun c => negb (c =? 46)%N) target with
  | (t, _ :: c) => (t, c)
  | (t, []) => (t, [])
  end.

(** The definition that the items of a table make: a primary key is NOT NULL. *)
Definition item_columns (items : list table_item) : list column :=
  items ≫= fun i => match i with ItemColumn c => [c] | _ => [] end.
Definition item_primary_key (items : list table_item) : list pystr :=
  items ≫= fun i => match i with
                    | ItemColumn c => if c_primary_key c then [c_name c] else []
                    | PrimaryKeyConstraint cs => cs
                    | _ => []
                    end.
Definition item_foreign_keys (items : list table_item) : list foreign_key :=
  items ≫= fun i => match i with
                    | ItemColumn c =>
                        match c_foreign_key c with
                        | Some t => [MkForeignKey [c_name c] (fst (split_target t)) [snd (split_target t)]]
                        | None => []
                        end
                    | ForeignKeyConstraint cs ts =>
                        [MkForeignKey cs (default [] (fst ∘ split_target <$> head ts))
                           (snd ∘ split_target <$> ts)]
                    | _ => []
                    end.
Definition item_checks (items : list table_item) : list (pystr * pystr) :=
  items ≫= fun i => match i with CheckConstraint sql name => [(name, sql)] | _ => [] end.

Definition not_null (primary_key : list pystr) (c : column) : bool :=
  bool_decide (c_name c ∈ primary_key) || negb (default true (c_nullable c)).

Definition build_table (items : list table_item) : table_def :=
  let pk := item_primary_key items in
  MkTableDef ((fun c => (c_name c, (c_type c, not_null pk c, c_server_default c))) <$> item_columns items)
    pk (item_foreign_keys items) (item_checks items).

(** ** Data definition statements *)

Inductive ddl : Type :=
| CreateTable (name : pystr) (items : list table_item)
| CreateIndex (ix : index)
| DropIndex (name : pystr)
| DropTable (name : pystr).

(** Tables and indexes share one name space. *)
Definition taken (c : catalog) (name : pystr) : bool :=
  bool_decide (is_Some (tables c !! name)) || bool_decide (is_Some (indexes c !! name)).

Definition column_names (t : table_def) : list pystr := (td_columns t).*1.

Definition has_columns (t : table_def) (names : list pystr) : bool :=
  forallb (fun n => bool_decide (n ∈ column_names t)) names.

(** A foreign key refers to the primary key of an existing table, or of its own. *)
Definition foreign_key_ok (c : catalog) (name : pystr) (t : table_def) (k : foreign_key) : bool :=
  has_columns t (fk_columns k)
  && match (if str_eqb (fk_table k) name then Some t else tables c !! fk_table k) with
     | Some target => bool_decide (fk_targets k = td_primary_key target)
     | None => false
     end.

(** Column and constraint names are distinct, keys name columns, conditions are
    expressions. *)
Definition table_ok (c : catalog) (name : pystr) (t : table_def) : bool :=
  bool_decide (NoDup (column_names t))
  && has_columns t (td_primary_key t)
  && forallb (foreign_key_ok c name t) (td_foreign_keys t)
  && bool_decide (NoDup (td_checks t).*1)
  && forallb (fun nc => bool_decide (is_Some (parse_condition (snd nc)))) (td_checks t).

Definition references (name : pystr) (t : table_def) : bool :=
  existsb (fun k => str_eqb (fk_table k) name) (td_foreign_keys t).

(** One statement; [None] is the server's error.  Dropping a table drops its indexes,
    and is refused while another table refers to it. *)
Definition exec_ddl (op : ddl) (c : catalog) : option catalog :=
  match op with
  | CreateTable name items =>
      let t := build_table items in
      if negb (taken c name) && table_ok c name t
      then Some (MkCatalog (<[name := t]> (tables c)) (indexes c)) else None
  | CreateIndex ix =>
      match tables c !! ix_table ix with
      | Some t =>
          if negb (taken c (ix_name ix)) && has_columns t (ix_columns ix)
          then Some (MkCatalog (tables c) (<[ix_name ix := ix]> (indexes c))) else None
      | None => None
      end
  | DropIndex name =>
      if bool_decide (is_Some (indexes c !! name))
      then Some (MkCatalog (tables c) (delete name (indexes c))) else None
  | DropTable name =>
      if bool_decide (is_Some (tables c !! name))
         && bool_decide (map_Forall (fun _ t => references name t = false) (delete name (tables c)))
      then Some (MkCatalog (delete name (tables c))
                   (filter (fun nix => ix_table (snd nix) <> name) (indexes c)))
      else None
  end.

Fixpoint run_ddl (ops : list ddl) (c : catalog) : option catalog :=
  match ops with
  | [] => Some c
  | op :: rest => c' ← exec_ddl op c; run_ddl rest c'
  end.

(** A migration runs in one transaction: an error leaves the catalog as it was. *)
Definition migrate (ops : list ddl) (c : catalog) : bool * catalog :=
  match run_ddl ops c with Some c' => (true, c') | None => (false, c) end.

(** * The migration 0001 *)

(** [sa.Column] of the migration. *)
Definition sa_Column (name : string) (ty : sql_type) (nullable : bool) : table_item :=
  ItemColumn (MkColumn (py name) ty false (Some nullable) None None).
Definition sa_Column_default (name : string) (ty : sql_type) (d : server_default) (nullable : bool)
    : table_item :=
  ItemColumn (MkColumn (py name) ty false (Some nullable) (Some d) None).

Definition revision : pystr := py "0001".
Definition down_revision : option pystr := None.

Definition upgrade : list ddl :=
  [CreateTable (py "transactions")
     [sa_Column "transaction_id" (String_ 128) false;
      sa_Column "merchant_id" (String_ 128) false;
      sa_Column "amount" BigInteger false;
      sa_Column "currency" (String_ 3) false;
      sa_Column "status" (String_ 32) false;
      sa_Column "pending_operation" (String_ 32) true;
      sa_Column_default "version" Integer (DefaultLiteral (py "0")) false;
      sa_Column "network_reference" (String_ 128) true;
      sa_Column "authorization_code" (String_ 128) true;
      sa_Column "decline_code" (String_ 128) true;
      sa_Column_default "created_at" (DateTime true) (DefaultExpr (py "now()")) false;
      sa_Column_default "updated_at" (DateTime true) (DefaultExpr (py "now()")) false;
      PrimaryKeyConstraint [py "transaction_id"];
      check (py "length(btrim(transaction_id)) BETWEEN 1 AND 128")
        "chk_transactions_transaction_id_trimmed_length";
      check (py "length(btrim(merchant_id)) BETWEEN 1 AND 128")
        "chk_transactions_merchant_id_trimmed_length";
      check (py "amount > 0") "chk_transactions_amount_positive";
      check (py "currency ~ '^[A-Z]{3}$'") "chk_transactions_currency_format";
      check (py "version >= 0") "chk_transactions_version_non_negative";
      check (py "status IN ('CREATED', 'AUTHORIZED', 'DECLINED', 'CAPTURED', "
             ++ py "'REFUNDED', 'PENDING_RECONCILIATION', 'FAILED')")
        "chk_transactions_status_valid";
      check (py "pending_operation IS NULL OR "
             ++ py "pending_operation IN ('AUTHORIZATION', 'CAPTURE', 'REFUND')")
        "chk_transactions_pending_operation_valid";
      check (py "((status = 'PENDING_RECONCILIATION' AND pending_operation IS NOT NULL) OR "
             ++ py "(status != 'PENDING_RECONCILIATION' AND pending_operation IS NULL))")
        "chk_transactions_reconciliation_invariant"];
   CreateIndex (MkIndex (py "idx_transactions_merchant_id") (py "transactions") [py "merchant_id"] false);
   CreateIndex (MkIndex (py "idx_transactions_status") (py "transactions") [py "status"] false);
   CreateTable (py "idempotency_records")
     [sa_Column "idempotency_key_hash" (String_ 64) false;
      sa_Column "request_fingerprint" (String_ 64) false;
      sa_Column "processing_status" (String_ 32) false;
      sa_Column "transaction_id" (String_ 128) false;
      sa_Column "stored_status_code" Integer true;
      sa_Column "stored_response_body" JSONB true;
      sa_Column "stored_headers" JSONB true;
      sa_Column_default "created_at" (DateTime true) (DefaultExpr (py "now()")) false;
      sa_Column_default "updated_at" (DateTime true) (DefaultExpr (py "now()")) false;
      ForeignKeyConstraint [py "transaction_id"] [py "transactions.transaction_id"];
      PrimaryKeyConstraint [py "idempotency_key_hash"];
      check (py "idempotency_key_hash ~ '^[0-9a-f]{64}$'") "chk_idempotency_key_hash_format";
      check (py "request_fingerprint ~ '^[0-9a-f]{64}$'") "chk_idempotency_fingerprint_format";
      check (py "processing_status IN ('IN_PROGRESS', 'COMPLETED')") "chk_idempotency_status_valid";
      check (py "((processing_status = 'COMPLETED' AND stored_status_code IS NOT NULL "
             ++ py "AND stored_response_body IS NOT NULL) OR "
             ++ py "(processing_status = 'IN_PROGRESS' AND stored_status_code IS NULL "
             ++ py "AND stored_response_body IS NULL AND stored_headers IS NULL))")
        "chk_idempotency_payload_integrity";
      check (py "stored_status_code IS NULL OR (stored_status_code BETWEEN 100 AND 599)")
        "chk_idempotency_stored_status_code_range";
      check (py "stored_headers IS NULL OR ("
             ++ py "jsonb_typeof(stored_headers) = 'object' AND "
             ++ py "(stored_headers - 'Retry-After') = '{}'::jsonb)")
        "chk_idempotency_stored_headers_allowlist"];
   CreateIndex (MkIndex (py "idx_idempotency_records_transaction_id") (py "idempotency_records")
                  [py "transaction_id"] false)].

Definition downgrade : list ddl :=
  [DropIndex (py "idx_idempotency_records_transaction_id");
   DropTable (py "idempotency_records");
   DropIndex (py "idx_transactions_status");
   DropIndex (py "idx_transactions_merchant_id");
   DropTable (py "transactions")].

(** * What the models declare *)

Definition metadata_catalog : catalog :=
  MkCatalog (list_to_map ((fun nt => (fst nt, build_table (snd nt))) <$> metadata_tables))
    (list_to_map ((fun ix => (ix_name ix, ix)) <$> metadata_indexes)).

Definition metadata_names : list pystr :=
  metadata_tables.*1 ++ (ix_name <$> metadata_indexes).

(** * The migration creates what the models declare *)

Abbreviation T1 := (build_table transactions_table).
Abbreviation T2 := (build_table idempotency_records_table).
Abbreviation n1 := (py "transactions").
Abbreviation n2 := (py "idempotency_records").

(** Evaluates a closed boolean, or one whose variables do not matter. *)
Ltac computed := vm_compute; reflexivity.
Ltac distinct := let E := fresh in intros E; vm_compute in E; discriminate E.

(** The statements with the definitions of the models in place of their own items. *)
Lemma table_ok_transactions c : table_ok c n1 T1 = true.
Proof. computed. Qed.

Lemma table_ok_records c : tables c !! n1 = Some T1 -> table_ok c n2 T2 = true.
Proof.
  intros H. unfold table_ok.
  assert (forallb (foreign_key_ok c n2 T2) (td_foreign_keys T2) = true) as ->; [|computed].
  change (td_foreign_keys T2) with [MkForeignKey [py "transaction_id"] n1 [py "transaction_id"]].
  cbn [forallb]. unfold foreign_key_ok. cbn [fk_table fk_targets fk_columns].
  change (str_eqb n1 n2) with false. cbv iota. rewrite H. computed.
Qed.

(** The catalog with one more table or index. *)
Definition add_table (name : pystr) (t : table_def) (c : catalog) : catalog :=
  MkCatalog (<[name := t]> (tables c)) (indexes c).
Definition add_index (ix : index) (c : catalog) : catalog :=
  MkCatalog (tables c) (<[ix_name ix := ix]> (indexes c)).

Lemma taken_add_table name t c m : m <> name -> taken (add_table name t c) m = taken c m.
Proof. intros Hm. unfold taken, add_table. cbn [tables indexes]. by rewrite lookup_insert_ne. Qed.
Lemma taken_add_index ix c m : m <> ix_name ix -> taken (add_index ix c) m = taken c m.
Proof. intros Hm. unfold taken, add_index. cbn [tables indexes]. by rewrite lookup_insert_ne. Qed.

Abbreviation ix1 := (MkIndex (py "idx_transactions_merchant_id") n1 [py "merchant_id"] false).
Abbreviation ix2 := (MkIndex (py "idx_transactions_status") n1 [py "status"] false).
Abbreviation ix3 := (MkIndex (py "idx_idempotency_records_transaction_id") n2 [py "transaction_id"] false).

Lemma create_table_step name items t c :
  build_table items = t -> table_ok c name t = true ->
  exec_ddl (CreateTable name items) c = if taken c name then None else Some (add_table name t c).
Proof. intros <- Hok. cbn [exec_ddl]. rewrite Hok. by destruct (taken c name). Qed.

Lemma create_index_step ix t c :
  tables c !! ix_table ix = Some t -> has_columns t (ix_columns ix) = true ->
  exec_ddl (CreateIndex ix) c = if taken c (ix_name ix) then None else Some (add_index ix c).
Proof. intros Ht Hc. cbn [exec_ddl]. rewrite Ht, Hc. by destruct (taken c (ix_name ix)). Qed.

(** The catalog after the migration. *)
Definition upgraded (c : catalog) : catalog :=
  add_index ix3 (add_table n2 T2 (add_index ix2 (add_index ix1 (add_table n1 T1 c)))).

Lemma run_upgrade c :
  run_ddl upgrade c = if existsb (taken c) metadata_names then None else Some (upgraded c).
Proof.
  unfold upgrade. cbn [run_ddl].
  rewrite (create_table_step n1 _ T1 c) by (computed || apply table_ok_transactions).
  change (existsb (taken c) metadata_names)
    with (taken c n1 || (taken c n2 || (taken c (ix_name ix1) || (taken c (ix_name ix2)
          || (taken c (ix_name ix3) || false))))).
  destruct (taken c n1); [done|]. cbn [mbind option_bind orb].
  rewrite (create_index_step ix1 T1) by (computed || apply lookup_insert_eq).
  rewrite taken_add_table by distinct.
  destruct (taken c (ix_name ix1)); [by rewrite orb_true_r|]. cbn [mbind option_bind orb].
  rewrite (create_index_step ix2 T1) by (computed || apply lookup_insert_eq).
  rewrite taken_add_index, taken_add_table by distinct.
  destruct (taken c (ix_name ix2)); [by rewrite orb_true_r|]. cbn [mbind option_bind orb].
  rewrite (create_table_step n2 _ T2) by (computed || (apply table_ok_records; apply lookup_insert_eq)).
  rewrite !taken_add_index, taken_add_table by distinct.
  destruct (taken c n2); [done|]. cbn [mbind option_bind orb].
  rewrite (create_index_step ix3 T2) by (computed || apply lookup_insert_eq).
  rewrite taken_add_table, !taken_add_index, taken_add_table by distinct.
  by destruct (taken c (ix_name ix3)).
Qed.

(** The union of the catalog with the declared one. *)
Definition with_metadata (c : catalog) : catalog :=
  MkCatalog (tables metadata_catalog ∪ tables c) (indexes metadata_catalog ∪ indexes c).

Lemma upgraded_metadata c : upgraded c = with_metadata c.
Proof.
  unfold upgraded, with_metadata, add_index, add_table. cbn [tables indexes]. f_equal.
  - change (tables metadata_catalog) with (<[n1 := T1]> (<[n2 := T2]> (∅ : gmap pystr table_def))).
    rewrite <- !insert_union_l, (left_id_L ∅ (∪)). apply insert_insert_ne. distinct.
  - change (indexes metadata_catalog)
      with (<[ix_name ix1 := ix1]> (<[ix_name ix2 := ix2]> (<[ix_name ix3 := ix3]> (∅ : gmap pystr index)))).
    rewrite <- !insert_union_l, (left_id_L ∅ (∪)).
    rewrite (insert_insert_ne _ (ix_name ix3) (ix_name ix2)) by distinct.
    rewrite (insert_insert_ne _ (ix_name ix3) (ix_name ix1)) by distinct.
    by rewrite (insert_insert_ne _ (ix_name ix2) (ix_name ix1)) by distinct.
Qed.

(** ** Taking it back *)

(** Indexes and foreign keys refer to existing tables: true of every catalog the server
    can be in. *)
Definition closed_catalog (c : catalog) : Prop :=
  map_Forall (fun _ t => Forall (fun k => is_Some (tables c !! fk_table k)) (td_foreign_keys t)) (tables c)
  /\ map_Forall (fun _ ix => is_Some (tables c !! ix_table ix)) (indexes c).

Lemma closed_no_reference c name :
  closed_catalog c -> tables c !! name = None ->
  map_Forall (fun _ t => references name t = false) (tables c).
Proof.
  intros [Hf _] Hn m t Hm. apply Hf in Hm. unfold references.
  apply not_true_iff_false. intros (k & Hk & E)%existsb_exists. apply str_eqb_eq in E.
  rewrite Forall_forall in Hm. apply list_elem_of_In, Hm in Hk. rewrite E, Hn in Hk. by destruct Hk.
Qed.

Lemma closed_no_index c name :
  closed_catalog c -> tables c !! name = None ->
  map_Forall (fun _ ix => ix_table ix <> name) (indexes c).
Proof. intros [_ Hi] Hn m ix Hm%Hi E. rewrite E, Hn in Hm. by destruct Hm. Qed.

Lemma drop_index_step ix c :
  indexes c !! ix_name ix = None -> exec_ddl (DropIndex (ix_name ix)) (add_index ix c) = Some c.
Proof.
  intros Hn. destruct c as [ts ixs]. cbn [exec_ddl add_index indexes tables] in *.
  rewrite bool_decide_true by (by rewrite lookup_insert_eq). by rewrite delete_insert_id.
Qed.

Lemma drop_table_step name t c :
  tables c !! name = None ->
  map_Forall (fun _ t => references name t = false) (tables c) ->
  map_Forall (fun _ ix => ix_table ix <> name) (indexes c) ->
  exec_ddl (DropTable name) (add_table name t c) = Some c.
Proof.
  intros Hn Hr Hi. destruct c as [ts ixs]. cbn [exec_ddl add_table indexes tables] in *.
  rewrite delete_insert_id by done.
  rewrite bool_decide_true by (by rewrite lookup_insert_eq).
  rewrite (bool_decide_true (map_Forall _ ts)) by done. cbn [andb].
  by rewrite map_filter_id by (intros i ix; apply Hi).
Qed.

Lemma not_taken c name : taken c name = false -> tables c !! name = None /\ indexes c !! name = None.
Proof.
  unfold taken. rewrite orb_false_iff, !bool_decide_eq_false, !eq_None_not_Some. done.
Qed.

Lemma run_downgrade c :
  closed_catalog c -> existsb (taken c) metadata_names = false ->
  run_ddl downgrade (upgraded c) = Some c.
Proof.
  intros Hc Hn.
  change (existsb (taken c) metadata_names)
    with (taken c n1 || (taken c n2 || (taken c (ix_name ix1) || (taken c (ix_name ix2)
          || (taken c (ix_name ix3) || false))))) in Hn.
  rewrite !orb_false_iff in Hn. destruct Hn as ([H1 _]%not_taken & [H2 _]%not_taken
    & [_ I1]%not_taken & [_ I2]%not_taken & [_ I3]%not_taken & _).
  unfold downgrade, upgraded. cbn [run_ddl].
  change (py "idx_idempotency_records_transaction_id") with (ix_name ix3).
  rewrite drop_index_step by (cbn; by rewrite !lookup_insert_ne by distinct).
  cbn [mbind option_bind]. rewrite drop_table_step.
  2: { cbn [add_index add_table tables]. by rewrite lookup_insert_ne by distinct. }
  2: { cbn [add_index add_table tables]. apply map_Forall_insert_2; [computed|].
       by apply closed_no_reference. }
  2: { cbn [add_index add_table indexes]. apply map_Forall_insert_2; [distinct|].
       apply map_Forall_insert_2; [distinct|]. by apply closed_no_index. }
  cbn [mbind option_bind]. change (py "idx_transactions_status") with (ix_name ix2).
  rewrite drop_index_step by (cbn; by rewrite lookup_insert_ne by distinct).
  cbn [mbind option_bind]. change (py "idx_transactions_merchant_id") with (ix_name ix1).
  rewrite drop_index_step by done. cbn [mbind option_bind].
  by rewrite drop_table_step by (done || by apply closed_no_reference || by apply closed_no_index).
Qed.

(** * Properties *)

(** C21.  The migration creates what the models declare: on any catalog that has none of
    the five names, [upgrade] succeeds and adds exactly the two tables (columns, types,
    nullability, defaults, keys, conditions) and three indexes of [metadata], and
    [downgrade] then restores the catalog as it was.  When one of the names is taken,
    [upgrade] fails and nothing changes. *)
Theorem migration_matches_models (c : catalog) :
  closed_catalog c ->
  if existsb (taken c) metadata_names then migrate upgrade c = (false, c)
  else migrate upgrade c = (true, with_metadata c)
       /\ migrate downgrade (with_metadata c) = (true, c).
Proof.
  intros Hc. unfold migrate. rewrite run_upgrade.
  destruct (existsb (taken c) metadata_names) eqn:Hn; [done|].
  rewrite <- upgraded_metadata. split; [done|]. by rewrite run_downgrade.
Qed.

(** A database with an unrelated table. *)
Definition sample_catalog : catalog :=
  MkCatalog {[ py "alembic_version" :=
                 build_table [sa_Column "version_num" (String_ 32) false;
                              PrimaryKeyConstraint [py "version_num"]] ]} ∅.

Lemma migration_matches_models_witness :
  migrate upgrade sample_catalog = (true, with_metadata sample_catalog)
  /\ migrate downgrade (with_metadata sample_catalog) = (true, sample_catalog).
Proof.
  refine (migration_matches_models sample_catalog _). split; [|apply map_Forall_empty].
  intros n t. unfold sample_catalog. cbn [tables]. intros [_ <-]%lookup_singleton_Some. constructor.
Defined.
