(* ===== verification/Constraints.v ===== *)
(** The check constraints and column types that the tables are declared with, against
    the row checks of Schema.v. *)
From S2P Require Import Prelude PyStr Sha256 Json JsonText Domain Ports Schema Sql Migration.

Open Scope Z_scope.

(** * The conditions mean what Schema.v says *)

Lemma and3_some a b : and3 (Some a) (Some b) = Some (a && b).
Proof. by destruct a, b. Qed.
Lemma or3_some a b : or3 (Some a) (Some b) = Some (a || b).
Proof. by destruct a, b. Qed.

Lemma check_by row text e b :
  parse_condition text = Some e -> eval_sql row e = Some (VBool b) -> check_holds row text = Some b.
Proof. intros Hp He. unfold check_holds. rewrite Hp. cbn [mbind option_bind]. by rewrite He. Qed.

(** ** The forms of conditions *)

Lemma eval_trimmed_length row name s :
  row name = Some (VText s) ->
  eval_sql row (SBetween (SCall (py "length") (SCall (py "btrim") (SColumn name))) (SNumber 1) (SNumber 128))
  = Some (VBool (between 1 128 (Z.of_nat (length (btrim s))))).
Proof.
  intros Hr. cbn [eval_sql]. rewrite Hr. cbn [mbind option_bind].
  change (call (py "btrim") (VText s)) with (Some (VText (btrim s))). cbn [mbind option_bind].
  change (call (py "length") (VText (btrim s))) with (Some (VInt (Z.of_nat (length (btrim s))))).
  cbn [mbind option_bind compare_values]. by rewrite and3_some.
Qed.

Lemma eval_in row e s l :
  eval_sql row e = Some (VText s) ->
  eval_sql row (SIn e (map SText l)) = Some (VBool (str_in s l)).
Proof.
  intros He. cbn [eval_sql]. rewrite He. cbn [mbind option_bind].
  enough (H : foldr (fun a acc => w ← eval_sql row a; x ← compare_values OpEq (VText s) w;
                               y ← acc; Some (or3 x y)) (Some (Some false)) (map SText l)
          = Some (Some (str_in s l))) by (by rewrite H).
  induction l as [|t l IH]; [done|]. cbn [map foldr]. rewrite IH.
  cbn [eval_sql mbind option_bind compare_values]. by rewrite or3_some.
Qed.

Lemma eval_is row column v text :
  row column = Some (VText v) ->
  eval_sql row (SBin OpEq (SColumn column) (SText text)) = Some (VBool (str_eqb v text)).
Proof. intros Hr. cbn [eval_sql]. by rewrite Hr. Qed.

Lemma eval_matches row column s pattern ranges n :
  row column = Some (VText s) -> parse_pattern pattern = Some (ranges, n) ->
  eval_sql row (SBin OpMatch (SColumn column) (SText pattern))
  = Some (VBool (class_run (in_class ranges) n n s)).
Proof.
  intros Hr Hp. cbn [eval_sql]. rewrite Hr. cbn [mbind option_bind apply_op compare_values].
  unfold posix_match. by rewrite Hp.
Qed.

Definition null_value (v : sql_value) : bool := match v with VNull => true | _ => false end.

Lemma eval_null row column v negated :
  row column = Some v ->
  eval_sql row (SIsNull negated (SColumn column)) = Some (VBool (xorb negated (null_value v))).
Proof. intros Hr. cbn [eval_sql]. by rewrite Hr. Qed.

Lemma eval_and row a b x y :
  eval_sql row a = Some (VBool x) -> eval_sql row b = Some (VBool y) ->
  eval_sql row (SBin OpAnd a b) = Some (VBool (x && y)).
Proof. intros Ha Hb. cbn [eval_sql]. rewrite Ha, Hb. cbn -[and3 or3]. by rewrite and3_some. Qed.

Lemma eval_or row a b x y :
  eval_sql row a = Some (VBool x) -> eval_sql row b = Some (VBool y) ->
  eval_sql row (SBin OpOr a b) = Some (VBool (x || y)).
Proof. intros Ha Hb. cbn [eval_sql]. rewrite Ha, Hb. cbn -[and3 or3]. by rewrite or3_some. Qed.

Lemma eval_is_not row column v text :
  row column = Some (VText v) ->
  eval_sql row (SBin OpNe (SColumn column) (SText text)) = Some (VBool (negb (str_eqb v text))).
Proof. intros Hr. cbn [eval_sql]. by rewrite Hr. Qed.

(** [x IS NULL OR ...] where the condition on a null is unknown. *)
Lemma eval_null_or row column b :
  row column = Some VNull -> eval_sql row b = Some VNull ->
  eval_sql row (SBin OpOr (SIsNull false (SColumn column)) b) = Some (VBool true).
Proof. intros Hr Hb. cbn [eval_sql]. by rewrite Hr, Hb. Qed.

Lemma eval_in_null row column t l :
  row column = Some VNull -> eval_sql row (SIn (SColumn column) (map SText (t :: l))) = Some VNull.
Proof.
  intros Hr. cbn [eval_sql]. rewrite Hr. cbn [mbind option_bind].
  enough (H : foldr (fun a acc => w ← eval_sql row a; x ← compare_values OpEq VNull w;
                               y ← acc; Some (or3 x y)) (Some (Some false)) (map SText (t :: l))
          = Some None) by (by rewrite H).
  revert t. induction l as [|u l IH]; intros t; [done|]. cbn [map foldr]. cbn [map foldr] in IH.
  rewrite IH. done.
Qed.

Lemma eval_between row column c lo hi :
  row column = Some (VInt c) ->
  eval_sql row (SBetween (SColumn column) (SNumber lo) (SNumber hi)) = Some (VBool (between lo hi c)).
Proof.
  intros Hr. cbn [eval_sql]. rewrite Hr. cbn [mbind option_bind compare_values]. by rewrite and3_some.
Qed.

Lemma eval_between_null row column lo hi :
  row column = Some VNull ->
  eval_sql row (SBetween (SColumn column) (SNumber lo) (SNumber hi)) = Some VNull.
Proof. intros Hr. cbn [eval_sql]. by rewrite Hr. Qed.

(** A document whose only member can be [key]. *)
Abbreviation only_member column key :=
  (SBin OpAnd (SBin OpEq (SCall (py "jsonb_typeof") (SColumn column)) (SText (py "object")))
     (SBin OpEq (SBin OpMinus (SColumn column) (SText key)) (SCast (SText (py "{}")) (py "jsonb")))).

Lemma eval_only_member row column key fields :
  row column = Some (VJson (JObj fields)) ->
  eval_sql row (only_member column key)
  = Some (VBool (match without_member key fields with [] => true | _ => false end)).
Proof.
  intros Hr. cbn [eval_sql]. rewrite Hr.
  change (cast (VText (py "{}")) (py "jsonb")) with (Some (VJson (JObj []))).
  cbn [mbind option_bind apply_op compare_values]. by destruct (without_member key fields).
Qed.

Lemma eval_only_member_null row column key :
  row column = Some VNull -> eval_sql row (only_member column key) = Some VNull.
Proof. intros Hr. cbn [eval_sql]. by rewrite Hr. Qed.

Lemma class_run_ext f g lo hi s : (forall c, f c = g c) -> class_run f lo hi s = class_run g lo hi s.
Proof.
  intros Hfg. unfold class_run. do 2 f_equal. induction s as [|c s IH]; [done|]. simpl. by rewrite Hfg, IH.
Qed.

(** ** The constraints of [transactions] *)

Section transactions.
Variable r : transaction_row.
Abbreviation row := (transaction_columns r).

Lemma condition_transaction_id :
  check_holds row (py "length(btrim(transaction_id)) BETWEEN 1 AND 128")
  = Some (chk_transactions_transaction_id_trimmed_length r).
Proof. eapply check_by; [|by apply (eval_trimmed_length _ (py "transaction_id"))]. computed. Qed.

Lemma condition_merchant_id :
  check_holds row (py "length(btrim(merchant_id)) BETWEEN 1 AND 128")
  = Some (chk_transactions_merchant_id_trimmed_length r).
Proof. eapply check_by; [|by apply (eval_trimmed_length _ (py "merchant_id"))]. computed. Qed.

Lemma condition_amount :
  check_holds row (py "amount > 0") = Some (chk_transactions_amount_positive r).
Proof. apply (check_by _ _ (SBin OpGt (SColumn (py "amount")) (SNumber 0))); [computed | done]. Qed.

Lemma condition_version :
  check_holds row (py "version >= 0") = Some (chk_transactions_version_non_negative r).
Proof. apply (check_by _ _ (SBin OpGe (SColumn (py "version")) (SNumber 0))); [computed | done]. Qed.

Lemma condition_currency :
  check_holds row (py "currency ~ '^[A-Z]{3}$'") = Some (chk_transactions_currency_format r).
Proof.
  eapply check_by; [computed|].
  etransitivity; [by apply (eval_matches _ _ (t_currency r) _ [(65, 90)%N] 3)|].
  do 2 f_equal. apply class_run_ext. intros c. apply orb_false_r.
Qed.

Lemma condition_status :
  check_holds row (py "status IN ('CREATED', 'AUTHORIZED', 'DECLINED', 'CAPTURED', "
                   ++ py "'REFUNDED', 'PENDING_RECONCILIATION', 'FAILED')")
  = Some (chk_transactions_status_valid r).
Proof.
  eapply check_by; [|by apply (eval_in _ (SColumn (py "status")) (t_status r))]. computed.
Qed.

Lemma condition_pending_operation :
  check_holds row (py "pending_operation IS NULL OR pending_operation IN ('AUTHORIZATION', 'CAPTURE', 'REFUND')")
  = Some (chk_transactions_pending_operation_valid r).
Proof.
  assert (Hc : row (py "pending_operation") = Some (opt_text (t_pending_operation r))) by reflexivity.
  eapply check_by; [computed|]. unfold chk_transactions_pending_operation_valid.
  destruct (t_pending_operation r) as [o|].
  - exact (eval_or _ _ _ _ _ (eval_null _ _ _ false Hc)
             (eval_in _ (SColumn (py "pending_operation")) o
                [py "AUTHORIZATION"; py "CAPTURE"; py "REFUND"] Hc)).
  - apply eval_null_or; [done|].
    exact (eval_in_null _ _ (py "AUTHORIZATION") [py "CAPTURE"; py "REFUND"] Hc).
Qed.

Lemma condition_reconciliation :
  check_holds row (py "((status = 'PENDING_RECONCILIATION' AND pending_operation IS NOT NULL) OR "
                   ++ py "(status != 'PENDING_RECONCILIATION' AND pending_operation IS NULL))")
  = Some (chk_transactions_reconciliation_invariant r).
Proof.
  assert (Hc : row (py "pending_operation") = Some (opt_text (t_pending_operation r))) by reflexivity.
  assert (Hs : row (py "status") = Some (VText (t_status r))) by reflexivity.
  eapply check_by; [computed|].
  etransitivity; [exact (eval_or _ _ _ _ _
    (eval_and _ _ _ _ _ (eval_is _ _ _ (py "PENDING_RECONCILIATION") Hs) (eval_null _ _ _ true Hc))
    (eval_and _ _ _ _ _ (eval_is_not _ _ _ (py "PENDING_RECONCILIATION") Hs) (eval_null _ _ _ false Hc)))|].
  unfold chk_transactions_reconciliation_invariant. by destruct (t_pending_operation r).
Qed.
End transactions.

(** ** The constraints of [idempotency_records] *)

Section records.
Variable r : idempotency_row.
Abbreviation row := (idempotency_columns r).
Abbreviation code := (match i_stored_status_code r with Some c => VInt c | None => VNull end).
Abbreviation body :=
  (match i_stored_response_body r with Some b => VJson (JObj (map_to_list b)) | None => VNull end).
Abbreviation headers :=
  (match i_stored_headers r with Some h => VJson (headers_json h) | None => VNull end).

Lemma hex_class c : in_class [(48, 57)%N; (97, 102)%N] c = is_hex_lower c.
Proof. unfold in_class. cbn [existsb fst snd]. by rewrite orb_false_r. Qed.

Lemma condition_key_hash :
  check_holds row (py "idempotency_key_hash ~ '^[0-9a-f]{64}$'") = Some (chk_idempotency_key_hash_format r).
Proof.
  eapply check_by; [computed|].
  etransitivity; [by apply (eval_matches _ _ (i_idempotency_key_hash r) _ [(48, 57)%N; (97, 102)%N] 64)|].
  do 2 f_equal. apply class_run_ext, hex_class.
Qed.

Lemma condition_fingerprint :
  check_holds row (py "request_fingerprint ~ '^[0-9a-f]{64}$'") = Some (chk_idempotency_fingerprint_format r).
Proof.
  eapply check_by; [computed|].
  etransitivity; [by apply (eval_matches _ _ (i_request_fingerprint r) _ [(48, 57)%N; (97, 102)%N] 64)|].
  do 2 f_equal. apply class_run_ext, hex_class.
Qed.

Lemma condition_processing_status :
  check_holds row (py "processing_status IN ('IN_PROGRESS', 'COMPLETED')")
  = Some (chk_idempotency_status_valid r).
Proof.
  eapply check_by; [|by apply (eval_in _ (SColumn (py "processing_status")) (i_processing_status r))].
  computed.
Qed.

Lemma condition_payload_integrity :
  check_holds row (py "((processing_status = 'COMPLETED' AND stored_status_code IS NOT NULL "
                   ++ py "AND stored_response_body IS NOT NULL) OR "
                   ++ py "(processing_status = 'IN_PROGRESS' AND stored_status_code IS NULL "
                   ++ py "AND stored_response_body IS NULL AND stored_headers IS NULL))")
  = Some (chk_idempotency_payload_integrity r).
Proof.
  assert (Hs : row (py "processing_status") = Some (VText (i_processing_status r))) by reflexivity.
  assert (Hc : row (py "stored_status_code") = Some code) by reflexivity.
  assert (Hb : row (py "stored_response_body") = Some body) by reflexivity.
  assert (Hh : row (py "stored_headers") = Some headers) by reflexivity.
  eapply check_by; [computed|].
  etransitivity; [exact (eval_or _ _ _ _ _
    (eval_and _ _ _ _ _ (eval_and _ _ _ _ _ (eval_is _ _ _ (py "COMPLETED") Hs) (eval_null _ _ _ true Hc))
       (eval_null _ _ _ true Hb))
    (eval_and _ _ _ _ _ (eval_and _ _ _ _ _ (eval_and _ _ _ _ _ (eval_is _ _ _ (py "IN_PROGRESS") Hs)
       (eval_null _ _ _ false Hc)) (eval_null _ _ _ false Hb)) (eval_null _ _ _ false Hh)))|].
  unfold chk_idempotency_payload_integrity, is_null.
  by destruct (i_stored_status_code r), (i_stored_response_body r), (i_stored_headers r).
Qed.

Lemma condition_status_code :
  check_holds row (py "stored_status_code IS NULL OR (stored_status_code BETWEEN 100 AND 599)")
  = Some (chk_idempotency_stored_status_code_range r).
Proof.
  assert (Hc : row (py "stored_status_code") = Some code) by reflexivity.
  eapply check_by; [computed|]. unfold chk_idempotency_stored_status_code_range.
  destruct (i_stored_status_code r) as [c|].
  - exact (eval_or _ _ _ _ _ (eval_null _ _ _ false Hc) (eval_between _ _ c 100 599 Hc)).
  - apply eval_null_or; [done|]. exact (eval_between_null _ _ 100 599 Hc).
Qed.

Lemma only_retry_after h :
  match without_member (py "Retry-After") (map (fun kv => (fst kv, JStr (snd kv))) h) with
  | [] => true | _ => false
  end = forallb (fun kv => str_eqb (fst kv) (py "Retry-After")) h.
Proof.
  unfold without_member. induction h as [|[k v] h IH]; [done|]. cbn [map List.filter forallb fst snd].
  by destruct (str_eqb k (py "Retry-After")).
Qed.

Lemma condition_headers :
  check_holds row (py "stored_headers IS NULL OR ("
                   ++ py "jsonb_typeof(stored_headers) = 'object' AND "
                   ++ py "(stored_headers - 'Retry-After') = '{}'::jsonb)")
  = Some (chk_idempotency_stored_headers_allowlist r).
Proof.
  assert (Hh : row (py "stored_headers") = Some headers) by reflexivity.
  eapply check_by; [computed|]. unfold chk_idempotency_stored_headers_allowlist.
  destruct (i_stored_headers r) as [h|].
  - rewrite <- only_retry_after.
    exact (eval_or _ _ _ _ _ (eval_null _ _ _ false Hh) (eval_only_member _ _ (py "Retry-After") _ Hh)).
  - apply eval_null_or; [done|]. exact (eval_only_member_null _ _ (py "Retry-After") Hh).
Qed.
End records.

(** * Rows against the declared columns *)

(** The value a column of the given type stores; [None] is a data error. *)
Definition store_value (ty : sql_type) (v : sql_value) : option sql_value :=
  match ty, v with
  | _, VNull => Some VNull
  | String_ n, VText s => VText <$> store_varchar n s
  | BigInteger, VInt z => VInt <$> store_bigint z
  | Integer, VInt z => VInt <$> store_integer z
  | JSONB, VJson j => if jsonb_ok j then Some (VJson j) else None
  | _, _ => None
  end.

(** A row as a value per column, in the order of the table. *)
Definition store_row (row : pystr -> option sql_value) (columns : list (pystr * sql_type))
    : option (list (pystr * sql_value)) :=
  mapM (fun nt => v ← row (fst nt); w ← store_value (snd nt) v; Some (fst nt, w)) columns.

Definition is_timestamp (ty : sql_type) : bool := match ty with DateTime _ => true | _ => false end.

(** The columns the program writes. *)
Definition written_columns (t : table_def) : list (pystr * sql_type) :=
  (fun c => (fst c, fst (fst (snd c))))
    <$> List.filter (fun c => negb (is_timestamp (fst (fst (snd c))))) (td_columns t).

Definition check_texts (t : table_def) : list pystr := (td_checks t).*2.

Definition row_values (row : pystr -> option sql_value) (columns : list (pystr * sql_type))
    : option (list (pystr * sql_value)) :=
  mapM (fun nt => v ← row (fst nt); Some (fst nt, v)) columns.

Lemma jsonb_ok_body (b : body_dict) :
  jsonb_ok (JObj (map_to_list b)) = bool_decide (map_Forall (fun k v => text_ok k && jsonb_ok v = true) b).
Proof.
  apply Bool.eq_iff_eq_true. cbn [jsonb_ok]. rewrite forallb_Forall_iff, bool_decide_eq_true.
  rewrite map_Forall_to_list. split; intros H; (eapply Forall_impl; [exact H|]); by intros [k v].
Qed.

Lemma jsonb_ok_headers h :
  jsonb_ok (headers_json h) = forallb (fun kv => text_ok (fst kv) && text_ok (snd kv)) h.
Proof. unfold headers_json. cbn [jsonb_ok]. induction h as [|kv h IH]; [done|]. cbn. by rewrite IH. Qed.

(** One column. *)
Lemma store_cons row n ty cs v o :
  row n = Some v -> store_value ty v = o ->
  store_row row ((n, ty) :: cs) = w ← o; rest ← store_row row cs; Some ((n, w) :: rest).
Proof. intros Hv <-. unfold store_row. cbn. rewrite Hv. cbn. by destruct (store_value ty v). Qed.

Lemma store_option_body o :
  store_value JSONB (match o with Some b => VJson (JObj (map_to_list b)) | None => VNull end)
  = (fun o' : option body_dict => match o' with Some b => VJson (JObj (map_to_list b)) | None => VNull end)
      <$> store_option store_body o.
Proof.
  destruct o as [b|]; [|done]. cbn [store_value store_option]. rewrite jsonb_ok_body. unfold store_body.
  by case_bool_decide.
Qed.

Lemma store_option_headers o :
  store_value JSONB (match o with Some h => VJson (headers_json h) | None => VNull end)
  = (fun o' => match o' with Some h => VJson (headers_json h) | None => VNull end)
      <$> store_option store_headers o.
Proof.
  destruct o as [h|]; [|done]. cbn [store_value store_option]. rewrite jsonb_ok_headers. unfold store_headers.
  by destruct (forallb _ h).
Qed.

Lemma store_option_text n o :
  store_value (String_ n) (match o with Some s => VText s | None => VNull end)
  = (fun o' => match o' with Some s => VText s | None => VNull end) <$> store_opt_varchar n o.
Proof. destruct o as [s|]; [|done]. cbn. by destruct (store_varchar n s). Qed.

Lemma store_option_integer o :
  store_value Integer (match o with Some z => VInt z | None => VNull end)
  = (fun o' => match o' with Some z => VInt z | None => VNull end) <$> store_option store_integer o.
Proof. destruct o as [z|]; [|done]. cbn. by destruct (store_integer z). Qed.

(** Stores the first column that is left, on both sides. *)
Ltac store_column :=
  erewrite store_cons;
    [| reflexivity
     | first [apply store_option_text | apply store_option_integer | apply store_option_body
             | apply store_option_headers | reflexivity]];
  cbn [store_value];
  lazymatch goal with |- ?stored = _ =>
  match stored with
  | context [store_option ?f ?o] => destruct (store_option f o)
  | context [store_opt_varchar ?n ?s] => destruct (store_opt_varchar n s)
  | context [store_varchar ?n ?s] => destruct (store_varchar n s)
  | context [store_bigint ?z] => destruct (store_bigint z)
  | context [store_integer ?z] => destruct (store_integer z)
  end end;
  [cbn [fmap option_fmap option_map mbind option_bind] | reflexivity].

Lemma store_transaction_columns r :
  store_row (transaction_columns r) (written_columns T1)
  = r' ← store_transaction_row r; row_values (transaction_columns r') (written_columns T1).
Proof.
  let w := eval vm_compute in (written_columns T1) in replace (written_columns T1) with w by computed.
  unfold store_transaction_row. do 10 store_column. reflexivity.
Qed.

Lemma store_idempotency_columns r :
  store_row (idempotency_columns r) (written_columns T2)
  = r' ← store_idempotency_row r; row_values (idempotency_columns r') (written_columns T2).
Proof.
  let w := eval vm_compute in (written_columns T2) in replace (written_columns T2) with w by computed.
  unfold store_idempotency_row. do 7 store_column. reflexivity.
Qed.

Lemma checks_cons row t rest a b :
  check_holds row t = Some a -> checks_hold row rest = Some b ->
  checks_hold row (t :: rest) = Some (a && b).
Proof. intros Ht Hr. cbn [checks_hold]. by rewrite Ht, Hr. Qed.

Lemma checks_nil row : checks_hold row [] = Some true.
Proof. done. Qed.

(** The conditions of a table, from the conditions of its constraints in their order. *)
Ltac by_conditions H texts :=
  match type of H with checks_hold _ ?l = _ => replace texts with l by computed end;
  etransitivity; [exact H|].

Lemma transactions_conditions r :
  checks_hold (transaction_columns r) (check_texts T1) = Some (transactions_checks r).
Proof.
  pose proof (checks_cons _ _ _ _ _ (condition_transaction_id r)
    (checks_cons _ _ _ _ _ (condition_merchant_id r)
    (checks_cons _ _ _ _ _ (condition_amount r)
    (checks_cons _ _ _ _ _ (condition_currency r)
    (checks_cons _ _ _ _ _ (condition_version r)
    (checks_cons _ _ _ _ _ (condition_status r)
    (checks_cons _ _ _ _ _ (condition_pending_operation r)
    (checks_cons _ _ _ _ _ (condition_reconciliation r) (checks_nil _))))))))) as H.
  by_conditions H (check_texts T1). unfold transactions_checks. by rewrite !andb_assoc, andb_true_r.
Qed.

Lemma idempotency_conditions r :
  checks_hold (idempotency_columns r) (check_texts T2) = Some (idempotency_checks r).
Proof.
  pose proof (checks_cons _ _ _ _ _ (condition_key_hash r)
    (checks_cons _ _ _ _ _ (condition_fingerprint r)
    (checks_cons _ _ _ _ _ (condition_processing_status r)
    (checks_cons _ _ _ _ _ (condition_payload_integrity r)
    (checks_cons _ _ _ _ _ (condition_status_code r)
    (checks_cons _ _ _ _ _ (condition_headers r) (checks_nil _))))))) as H.
  by_conditions H (check_texts T2). unfold idempotency_checks. by rewrite !andb_assoc, andb_true_r.
Qed.

(** C23.  The row checks and stored values that the model of the statements uses are
    those of the declared tables, for every row: the conditions of the check
    constraints, parsed from the SQL texts of models.py and evaluated with SQL's
    three truth values, hold of a row exactly when the checks of Schema.v accept it,
    and each is defined on it; and storing the row's values into the declared columns,
    by their types, gives the row that Schema.v stores, and fails where it fails. *)
Theorem tables_as_declared (t : transaction_row) (i : idempotency_row) :
  checks_hold (transaction_columns t) (check_texts (build_table transactions_table))
  = Some (transactions_checks t)
  /\ checks_hold (idempotency_columns i) (check_texts (build_table idempotency_records_table))
     = Some (idempotency_checks i)
  /\ store_row (transaction_columns t) (written_columns (build_table transactions_table))
     = (t' ← store_transaction_row t;
        row_values (transaction_columns t') (written_columns (build_table transactions_table)))
  /\ store_row (idempotency_columns i) (written_columns (build_table idempotency_records_table))
     = (i' ← store_idempotency_row i;
        row_values (idempotency_columns i') (written_columns (build_table idempotency_records_table))).
Proof.
  split_and!; [apply transactions_conditions | apply idempotency_conditions
              | apply store_transaction_columns | apply store_idempotency_columns].
Qed.
