(* ===== verification/Effects.v ===== *)
(** Programs with effects.  A coroutine of the source is a tree of the operations it
    awaits: statements of a database session and HTTP calls.  Exceptions are values,
    so [try], [except] and [async with] are functions on such trees.  [eval] runs a
    program alone, on a database that does not fail; [outcome] is every run alone
    that the contract of the database allows, failures included; the interleaved
    runs of several programs are in Concurrency.v. *)
From S2P Require Import Prelude PyStr Json Domain Ports Schema.

Open Scope Z_scope.

(** * Operations *)

(** The body posted by the adapter, and what it is posted to. *)
Record http_request : Type := MkHttpRequest {
  hr_endpoint : pystr;
  hr_json : list (pystr * json);
  hr_headers : header_dict
}.

(** What the adapter uses of [httpx.Response]: the status, the header
    [Retry-After], and the outcome of [.json()]. *)
Inductive json_outcome : Type :=
| JsonValue (j : json)
| JsonValueError       (* JSONDecodeError, UnicodeDecodeError: subclasses of ValueError *)
| JsonOtherError.      (* e.g. RecursionError *)

Record http_response : Type := MkHttpResponse {
  hp_status_code : Z;
  hp_json : json_outcome;
  hp_retry_after : option pystr
}.

Inductive dbop : Type :=
| OpBegin
| OpCommit
| OpRollback
| OpSelectIdempotency (key_hash : pystr)
| OpSelectTransactionId (transaction_id : pystr)
| OpInsertTransaction (r : transaction_row)
| OpInsertIdempotency (r : idempotency_row)
| OpUpdateTransaction (transaction_id : pystr) (version : Z) (v : transaction_values)
| OpUpdateIdempotency (key_hash transaction_id processing_status : pystr) (v : idempotency_values).

Inductive op : Type :=
| Db (q : dbop)
| Post (r : http_request).

(** The value an operation returns when it does not raise. *)
Definition db_val (q : dbop) : Type :=
  match q with
  | OpSelectIdempotency _ => option idempotency_row
  | OpSelectTransactionId _ => option pystr
  | OpUpdateTransaction _ _ _ | OpUpdateIdempotency _ _ _ _ => Z
  | _ => unit
  end.

Definition op_val (o : op) : Type :=
  match o with
  | Db q => db_val q
  | Post _ => http_response
  end.

(** * Programs *)

Inductive prog (A : Type) : Type :=
| Ret (a : A)
| Vis (o : op) (k : res exn (op_val o) -> prog A).
Arguments Ret {A} a.
Arguments Vis {A} o k.

Fixpoint pbind {A B} (p : prog A) (f : A -> prog B) : prog B :=
  match p with
  | Ret a => f a
  | Vis o k => Vis o (fun r => pbind (k r) f)
  end.

(** A coroutine that returns an [A] or raises. *)
Definition io (A : Type) : Type := prog (res exn A).

Definition io_ret {A} (a : A) : io A := Ret (Ok a).
Definition io_raise {A} (e : exn) : io A := Ret (Raise e).
Definition io_lift {A} (r : res exn A) : io A := Ret r.
Definition io_bind {A B} (p : io A) (f : A -> io B) : io B :=
  pbind p (fun r => match r with Ok a => f a | Raise e => io_raise e end).
(** [try: p except: h], where [h] gets every exception. *)
Definition try_except {A} (p : io A) (h : exn -> io A) : io A :=
  pbind p (fun r => match r with Ok a => io_ret a | Raise e => h e end).

Definition await_db (q : dbop) : io (db_val q) := Vis (Db q) Ret.
Definition await_post (r : http_request) : io http_response := Vis (Post r) Ret.

Declare Scope io_scope.
Delimit Scope io_scope with io.
Notation "'let!' x := m 'in' k" := (io_bind m (fun x => k))
  (at level 10, x name, m at level 100, k at level 200) : io_scope.
Notation "m ';!' k" := (io_bind m (fun _ => k))
  (at level 100, k at level 200, right associativity) : io_scope.

Open Scope io_scope.

(** [async with session_factory() as session: async with session.begin(): body]:
    commit when the body returns, roll back and re-raise when it raises. *)
Definition with_transaction {A} (body : io A) : io A :=
  let! _ := await_db OpBegin in
  pbind body (fun r =>
    match r with
    | Ok a => let! _ := await_db OpCommit in io_ret a
    | Raise e => let! _ := await_db OpRollback in io_raise e
    end).

(** * The database *)

(** The committed contents, and the rows written by each open transaction. *)
Record pgstate : Type := MkPg {
  committed : db;
  sessions : gmap nat db
}.

Definition overlay (o d : db) : db :=
  MkDb (transactions o ∪ transactions d) (idempotency_records o ∪ idempotency_records d).

(** What the statements of session [i] see: its own writes over the committed rows. *)
Definition visible (s : pgstate) (i : nat) : db :=
  match sessions s !! i with
  | Some o => overlay o (committed s)
  | None => committed s
  end.

Definition open_session (i : nat) (s : pgstate) : pgstate :=
  MkPg (committed s) (<[i := empty_db]> (sessions s)).
Definition close_session (i : nat) (s : pgstate) : pgstate :=
  MkPg (committed s) (delete i (sessions s)).
Definition commit_session (i : nat) (s : pgstate) : pgstate :=
  MkPg (visible s i) (delete i (sessions s)).
Definition write_session (i : nat) (f : db -> db) (s : pgstate) : pgstate :=
  MkPg (committed s) (alter f i (sessions s)).

(** Rows locked by another open transaction; a statement that would write one waits. *)
Definition transaction_locked (s : pgstate) (i : nat) (tid : pystr) : Prop :=
  exists j o, j <> i /\ sessions s !! j = Some o /\ is_Some (transactions o !! tid).
Definition idempotency_locked (s : pgstate) (i : nat) (key : pystr) : Prop :=
  exists j o, j <> i /\ sessions s !! j = Some o /\ is_Some (idempotency_records o !! key).

(** Failures that are not violations of a constraint: those SQLAlchemy wraps, and
    those it lets through. *)
Definition db_fault (e : exn) : Prop := e = OtherSQLAlchemyError \/ e = OtherError.

(** The answer and the effect of a write that the statement semantics of Schema.v
    accepts; [locked] says that another transaction holds the row. *)
Definition wrote {R V : Type} (value : V) (locked : R -> Prop) (put : R -> db -> db) (row : R)
    (s : pgstate) (i : nat) (r : res exn V) (s' : pgstate) : Prop :=
  r = Ok value /\ s' = write_session i (put row) s /\ ~ locked row.

Definition refused {R V : Type} (out : sql_result R) (s : pgstate) (r : res exn V) (s' : pgstate)
    : Prop :=
  s' = s /\ match out with
            | SqlOk _ => False
            | SqlIntegrityViolation => r = Raise IntegrityError
            | SqlDataError => r = Raise OtherSQLAlchemyError
            end.

Definition tx_locked (s : pgstate) (i : nat) (row : transaction_row) : Prop :=
  transaction_locked s i (t_transaction_id row).
Definition idem_locked (s : pgstate) (i : nat) (row : idempotency_row) : Prop :=
  idempotency_locked s i (i_idempotency_key_hash row).

(** The documented behaviour of one operation of session [i], when nothing fails, at
    isolation level READ COMMITTED (the default): a statement sees the rows committed
    before it and the writes of its own transaction, and a write waits for a row that
    another open transaction has written. *)
Definition pg_nominal (s : pgstate) (i : nat) (q : dbop)
    : res exn (db_val q) -> pgstate -> Prop :=
  match q with
  | OpBegin => fun r s' => r = Ok tt /\ s' = open_session i s
  | OpCommit => fun r s' => r = Ok tt /\ s' = commit_session i s
  | OpRollback => fun r s' => r = Ok tt /\ s' = close_session i s
  | OpSelectIdempotency key => fun r s' =>
      s' = s /\ r = Ok (idempotency_records (visible s i) !! key)
  | OpSelectTransactionId tid => fun r s' =>
      s' = s /\ r = Ok (t_transaction_id <$> transactions (visible s i) !! tid)
  | OpInsertTransaction row => fun r s' =>
      match insert_transaction row (visible s i) with
      | SqlOk row' => wrote tt (tx_locked s i) put_transaction row' s i r s'
      | out => refused out s r s'
      end
  | OpInsertIdempotency row => fun r s' =>
      match insert_idempotency row (visible s i) with
      | SqlOk row' => wrote tt (idem_locked s i) put_idempotency row' s i r s'
      | out => refused out s r s'
      end
  | OpUpdateTransaction tid ver v => fun r s' =>
      match update_transaction tid ver v (visible s i) with
      | SqlOk (Some row') => wrote 1 (tx_locked s i) put_transaction row' s i r s'
      | SqlOk None => r = Ok 0 /\ s' = s
      | out => refused out s r s'
      end
  | OpUpdateIdempotency key tid st v => fun r s' =>
      match update_idempotency key tid st v (visible s i) with
      | SqlOk (Some row') => wrote 1 (idem_locked s i) put_idempotency row' s i r s'
      | SqlOk None => r = Ok 0 /\ s' = s
      | out => refused out s r s'
      end
  end.

(** A failure: any operation may raise, without effect; a commit that raises may still have
    taken effect, and a commit or a rollback that raises has ended the transaction (the
    connection is given up). *)
Definition pg_faulty (s : pgstate) (i : nat) (q : dbop) (r : res exn (db_val q)) (s' : pgstate)
    : Prop :=
  (exists e, db_fault e /\ r = Raise e)
  /\ match q with
     | OpRollback => s' = close_session i s
     | OpCommit => s' = commit_session i s \/ s' = close_session i s
     | _ => s' = s
     end.

Definition pg_contract (s : pgstate) (i : nat) (q : dbop) (r : res exn (db_val q))
    (s' : pgstate) : Prop :=
  pg_nominal s i q r s' \/ pg_faulty s i q r s'.

(** * The network *)

(** What [AsyncClient.post] under [asyncio.timeout] can raise. *)
Definition http_fault (e : exn) : Prop :=
  e = HttpxTimeoutException \/ e = AsyncioTimeoutError \/ e = HttpxTransportError
  \/ e = OtherError.

Definition post_contract (r : res exn http_response) : Prop :=
  forall e, r = Raise e -> http_fault e.

(** * One program running alone *)

(** The database, and the HTTP requests sent so far. *)
Record world : Type := MkWorld {
  w_pg : pgstate;
  w_posts : list http_request
}.

Definition op_contract (w : world) (i : nat) (o : op) : res exn (op_val o) -> world -> Prop :=
  match o with
  | Db q => fun r w' => pg_contract (w_pg w) i q r (w_pg w') /\ w_posts w' = w_posts w
  | Post req => fun r w' =>
      post_contract r /\ w_pg w' = w_pg w /\ w_posts w' = w_posts w ++ [req]
  end.

(** All results the contract allows. *)
Fixpoint outcome {A} (i : nat) (p : prog A) (w : world) (a : A) (w' : world) : Prop :=
  match p with
  | Ret a0 => a0 = a /\ w' = w
  | Vis o k => exists r w1, op_contract w i o r w1 /\ outcome i (k r) w1 a w'
  end.

(** ** Execution alone, without failures *)

(** The contents of the database, the view of the open transaction, and the requests
    sent so far. *)
Record seq_state : Type := MkSeq {
  sq_db : db;
  sq_tx : option db;
  sq_posts : list http_request
}.

(** A network: its answer to the [n]-th request. *)
Definition network : Type := nat -> http_request -> res exn http_response.

Definition sq_view (s : seq_state) : db := default (sq_db s) (sq_tx s).
Definition sq_write (f : db -> db) (s : seq_state) : seq_state :=
  MkSeq (sq_db s) (f <$> sq_tx s) (sq_posts s).

Definition eval_db (q : dbop) (s : seq_state) : res exn (db_val q) * seq_state :=
  match q with
  | OpBegin => (Ok tt, MkSeq (sq_db s) (Some (sq_db s)) (sq_posts s))
  | OpCommit => (Ok tt, MkSeq (sq_view s) None (sq_posts s))
  | OpRollback => (Ok tt, MkSeq (sq_db s) None (sq_posts s))
  | OpSelectIdempotency key => (Ok (idempotency_records (sq_view s) !! key), s)
  | OpSelectTransactionId tid =>
      (Ok (t_transaction_id <$> transactions (sq_view s) !! tid), s)
  | OpInsertTransaction row =>
      match insert_transaction row (sq_view s) with
      | SqlOk row' => (Ok tt, sq_write (put_transaction row') s)
      | SqlIntegrityViolation => (Raise IntegrityError, s)
      | SqlDataError => (Raise OtherSQLAlchemyError, s)
      end
  | OpInsertIdempotency row =>
      match insert_idempotency row (sq_view s) with
      | SqlOk row' => (Ok tt, sq_write (put_idempotency row') s)
      | SqlIntegrityViolation => (Raise IntegrityError, s)
      | SqlDataError => (Raise OtherSQLAlchemyError, s)
      end
  | OpUpdateTransaction tid ver v =>
      match update_transaction tid ver v (sq_view s) with
      | SqlOk (Some row') => (Ok 1, sq_write (put_transaction row') s)
      | SqlOk None => (Ok 0, s)
      | SqlIntegrityViolation => (Raise IntegrityError, s)
      | SqlDataError => (Raise OtherSQLAlchemyError, s)
      end
  | OpUpdateIdempotency key tid st v =>
      match update_idempotency key tid st v (sq_view s) with
      | SqlOk (Some row') => (Ok 1, sq_write (put_idempotency row') s)
      | SqlOk None => (Ok 0, s)
      | SqlIntegrityViolation => (Raise IntegrityError, s)
      | SqlDataError => (Raise OtherSQLAlchemyError, s)
      end
  end.

Section eval.
Context (net : network).

Definition eval_op (o : op) (s : seq_state) : res exn (op_val o) * seq_state :=
  match o with
  | Db q => eval_db q s
  | Post req =>
      (net (length (sq_posts s)) req, MkSeq (sq_db s) (sq_tx s) (sq_posts s ++ [req]))
  end.

Fixpoint eval {A} (p : prog A) (s : seq_state) : A * seq_state :=
  match p with
  | Ret a => (a, s)
  | Vis o k => let '(r, s') := eval_op o s in eval (k r) s'
  end.

Lemma eval_pbind {A B} (p : prog A) (f : A -> prog B) s :
  eval (pbind p f) s = let '(a, s') := eval p s in eval (f a) s'.
Proof.
  revert s. induction p as [a|o k IH]; intros s; [done|].
  cbn [pbind eval]. destruct (eval_op o s) as [r s']. apply IH.
Qed.

Lemma eval_io_bind {A B} (p : io A) (f : A -> io B) s :
  eval (io_bind p f) s =
  match eval p s with
  | (Ok a, s') => eval (f a) s'
  | (Raise e, s') => (Raise e, s')
  end.
Proof. unfold io_bind. rewrite eval_pbind. by destruct (eval p s) as [[a|e] s']. Qed.

Lemma eval_try_except {A} (p : io A) (h : exn -> io A) s :
  eval (try_except p h) s =
  match eval p s with
  | (Ok a, s') => (Ok a, s')
  | (Raise e, s') => eval (h e) s'
  end.
Proof. unfold try_except. rewrite eval_pbind. by destruct (eval p s) as [[a|e] s']. Qed.

(** A short transaction on a closed session: the writes of the body are kept when it
    returns and dropped when it raises. *)
Lemma eval_with_transaction {A} (body : io A) d posts :
  eval (with_transaction body) (MkSeq d None posts) =
  match eval body (MkSeq d (Some d) posts) with
  | (Ok a, s') => (Ok a, MkSeq (sq_view s') None (sq_posts s'))
  | (Raise e, s') => (Raise e, MkSeq (sq_db s') None (sq_posts s'))
  end.
Proof.
  unfold with_transaction. rewrite eval_io_bind. cbn [eval await_db eval_op eval_db sq_db sq_posts].
  rewrite eval_pbind. destruct (eval body _) as [[a|e] s']; done.
Qed.
End eval.

(** * Database engines *)

(** What the program relies on of the server and its driver: whatever an engine does
    is allowed by the contract, and a healthy engine that no other transaction uses
    answers every operation, without failures. *)
Class Engine : Type := {
  engine_state : Type;
  e_abs : engine_state -> pgstate;
  e_exec : engine_state -> nat -> forall q : dbop, option (res exn (db_val q) * engine_state);
  e_healthy : engine_state -> Prop;
  e_sound : forall s i q r s',
    e_exec s i q = Some (r, s') -> pg_contract (e_abs s) i q r (e_abs s');
  e_live : forall s i q,
    e_healthy s -> (forall j, j <> i -> sessions (e_abs s) !! j = None) ->
    exists r s', e_exec s i q = Some (r, s') /\ e_healthy s'
                 /\ pg_nominal (e_abs s) i q r (e_abs s')
}.

Section run.
Context `{Engine} (net : network).

(** Running a program in session [i] of an engine; [None] when it waits for ever. *)
Fixpoint run {A} (i : nat) (p : prog A) (s : engine_state) (posts : list http_request)
    : option (A * (engine_state * list http_request)) :=
  match p with
  | Ret a => Some (a, (s, posts))
  | Vis o k =>
      match o as o' return (res exn (op_val o') -> prog A) -> _ with
      | Db q => fun k' =>
          match e_exec s i q with
          | None => None
          | Some (r, s') => run i (k' r) s' posts
          end
      | Post req => fun k' => run i (k' (net (length posts) req)) s (posts ++ [req])
      end k
  end.

Lemma run_pbind {A B} i (p : prog A) (f : A -> prog B) s posts :
  run i (pbind p f) s posts =
  match run i p s posts with
  | Some (a, (s', posts')) => run i (f a) s' posts'
  | None => None
  end.
Proof.
  revert s posts. induction p as [a|[q|req] k IH]; intros s posts; cbn [pbind run]; [done| |apply IH].
  destruct (e_exec s i q) as [[r s']|]; [apply IH | done].
Qed.
End run.

(** ** Running alone on a healthy engine is [eval] *)

(** The engine state [p], used by session [i] only, stands for [s]. *)
Definition quiet (i : nat) (p : pgstate) (s : seq_state) : Prop :=
  committed p = sq_db s
  /\ match sq_tx s with
     | None => sessions p = ∅
     | Some w => exists o, sessions p = {[i := o]} /\ w = overlay o (sq_db s)
     end.

Lemma overlay_empty d : overlay empty_db d = d.
Proof. unfold overlay. simpl. rewrite !(left_id_L ∅ (∪)). by destruct d. Qed.

Lemma put_transaction_overlay r o d :
  overlay (put_transaction r o) d = put_transaction r (overlay o d).
Proof. unfold overlay, put_transaction. simpl. by rewrite insert_union_l. Qed.

Lemma put_idempotency_overlay r o d :
  overlay (put_idempotency r o) d = put_idempotency r (overlay o d).
Proof. unfold overlay, put_idempotency. simpl. by rewrite insert_union_l. Qed.

Lemma quiet_view i p s : quiet i p s -> visible p i = sq_view s.
Proof.
  intros [Hc Hs]. unfold visible, sq_view. destruct (sq_tx s) as [w|]; simpl.
  - destruct Hs as (o & -> & ->). by rewrite lookup_singleton_eq, Hc.
  - by rewrite Hs, lookup_empty.
Qed.

Lemma quiet_alone i p s j : quiet i p s -> j <> i -> sessions p !! j = None.
Proof.
  intros [_ Hs] Hj. destruct (sq_tx s) as [w|].
  - destruct Hs as (o & -> & _). by rewrite lookup_singleton_ne.
  - by rewrite Hs, lookup_empty.
Qed.

Lemma quiet_write i p s (f : db -> db) :
  (forall o, overlay (f o) (sq_db s) = f (overlay o (sq_db s))) ->
  quiet i p s -> quiet i (write_session i f p) (sq_write f s).
Proof.
  intros Hf [Hc Hs]. split; [done|]. unfold write_session, sq_write. simpl.
  destruct (sq_tx s) as [w|]; simpl.
  - destruct Hs as (o & -> & ->). exists (f o). by rewrite alter_singleton_eq, Hf.
  - rewrite Hs. apply map_eq. intros k. rewrite lookup_alter, !lookup_empty. by case_decide.
Qed.

Lemma quiet_close i p s d posts :
  quiet i p s -> d = committed p -> quiet i (close_session i p) (MkSeq d None posts).
Proof.
  intros [Hc Hs] ->. split; [done|]. simpl. destruct (sq_tx s) as [w|].
  - destruct Hs as (o & -> & _). apply delete_singleton_eq.
  - rewrite Hs. apply delete_empty.
Qed.

Lemma quiet_commit i p s :
  quiet i p s -> quiet i (commit_session i p) (MkSeq (sq_view s) None (sq_posts s)).
Proof.
  intros Hq. pose proof (quiet_close i p s (committed p) (sq_posts s) Hq eq_refl) as [_ Hs].
  split; [by apply quiet_view | done].
Qed.

(** The cases of a write: refused, no row matched, or written. *)
Ltac write_case put_overlay :=
  repeat case_match; unfold wrote, refused; intros H'; destruct_and?; simplify_eq; try done;
  split_and!; [done | | done]; apply quiet_write; [|done]; intros; apply put_overlay.

(** On a quiet database the nominal behaviour is a function, the one [eval] computes. *)
Lemma quiet_step i p s q r p' :
  quiet i p s -> pg_nominal p i q r p' ->
  r = fst (eval_db q s) /\ quiet i p' (snd (eval_db q s)) /\ sq_posts (snd (eval_db q s)) = sq_posts s.
Proof.
  intros Hq. pose proof (quiet_view _ _ _ Hq) as Hv.
  destruct q; cbn [pg_nominal eval_db]; rewrite ?Hv.
  - intros [-> ->]. destruct Hq as [Hc Hs]. split_and!; [done | | done].
    split; [done|]. simpl. exists empty_db. rewrite overlay_empty. split; [|done].
    apply map_eq. intros j. rewrite lookup_insert, lookup_singleton.
    case_decide; [done|]. eapply quiet_alone; [by split | done].
  - intros [-> ->]. split_and!; [done | by apply quiet_commit | done].
  - intros [-> ->]. split_and!; [done | | done]. eapply quiet_close; [done|]. by destruct Hq.
  - intros [-> ->]. done.
  - intros [-> ->]. done.
  - write_case put_transaction_overlay.
  - write_case put_idempotency_overlay.
  - write_case put_transaction_overlay.
  - write_case put_idempotency_overlay.
Qed.

Section adequacy.
Context `{Engine} (net : network).

Lemma run_eval {A} (p : prog A) i st s :
  e_healthy st -> quiet i (e_abs st) s ->
  let '(a, s') := eval net p s in
  exists st', run net i p st (sq_posts s) = Some (a, (st', sq_posts s'))
              /\ e_healthy st' /\ quiet i (e_abs st') s'.
Proof.
  revert st s. induction p as [a|[q|req] k IH]; intros st s Hh Hq; cbn [eval run eval_op].
  - by exists st.
  - destruct (e_live st i q Hh) as (r & st1 & Hx & Hh1 & Hn).
    { intros j. by apply (quiet_alone i _ s). }
    apply (quiet_step i _ s) in Hn as (Hr & Hq1 & Hp); [|done]. subst r. rewrite Hx.
    destruct (eval_db q s) as [r1 s1]. cbn [fst snd] in *. rewrite <- Hp. by apply IH.
  - set (s1 := MkSeq _ _ _).
    apply (IH (net (length (sq_posts s)) req) st s1); [done|]. by destruct Hq.
Qed.

(** A healthy engine that holds [d] and runs no transaction. *)
Definition idle (st : engine_state) (d : db) : Prop := e_healthy st /\ e_abs st = MkPg d ∅.

Lemma run_alone {A} (p : prog A) i st d posts a d' posts' :
  idle st d -> eval net p (MkSeq d None posts) = (a, MkSeq d' None posts') ->
  exists st', run net i p st posts = Some (a, (st', posts')) /\ idle st' d'.
Proof.
  intros [Hh Ha] He.
  assert (Hq : quiet i (e_abs st) (MkSeq d None posts)) by (by rewrite Ha).
  pose proof (run_eval p i st _ Hh Hq) as Hr. rewrite He in Hr.
  destruct Hr as (st' & Hrun & Hh' & [Hc Hs]). exists st'. split; [done|]. split; [done|].
  cbn in *. destruct (e_abs st') as [c ss]. simpl in *. by subst.
Qed.
End adequacy.

(** ** A reference engine *)

(** An engine that executes the contract, with a schedule of failures: each
    operation but a rollback takes one entry. *)
Module ReferenceEngine.

Inductive fault : Set :=
| NoFault
| Wrapped (applied : bool)     (* raises a SQLAlchemyError *)
| Unwrapped (applied : bool).  (* raises another exception *)

Definition locked_by_other {R} (find : db -> option R) (s : pgstate) (i : nat) : bool :=
  existsb (fun jo => negb (fst jo =? i)%nat && bool_decide (is_Some (find (snd jo))))
    (map_to_list (sessions s)).

Definition write {V} (value : V) (locked : bool) (f : db -> db) (s : pgstate) (i : nat)
    : option (res exn V * pgstate) :=
  if locked then None else Some (Ok value, write_session i f s).

(** The nominal answer; [None] while the row is locked. *)
Definition exec (s : pgstate) (i : nat) (q : dbop) : option (res exn (db_val q) * pgstate) :=
  let tx_lock r :=
    locked_by_other (fun o => transactions o !! t_transaction_id r) s i in
  let idem_lock r :=
    locked_by_other (fun o => idempotency_records o !! i_idempotency_key_hash r) s i in
  match q with
  | OpBegin => Some (Ok tt, open_session i s)
  | OpCommit => Some (Ok tt, commit_session i s)
  | OpRollback => Some (Ok tt, close_session i s)
  | OpSelectIdempotency key => Some (Ok (idempotency_records (visible s i) !! key), s)
  | OpSelectTransactionId tid =>
      Some (Ok (t_transaction_id <$> transactions (visible s i) !! tid), s)
  | OpInsertTransaction row =>
      match insert_transaction row (visible s i) with
      | SqlOk r => write tt (tx_lock r) (put_transaction r) s i
      | SqlIntegrityViolation => Some (Raise IntegrityError, s)
      | SqlDataError => Some (Raise OtherSQLAlchemyError, s)
      end
  | OpInsertIdempotency row =>
      match insert_idempotency row (visible s i) with
      | SqlOk r => write tt (idem_lock r) (put_idempotency r) s i
      | SqlIntegrityViolation => Some (Raise IntegrityError, s)
      | SqlDataError => Some (Raise OtherSQLAlchemyError, s)
      end
  | OpUpdateTransaction tid ver v =>
      match update_transaction tid ver v (visible s i) with
      | SqlOk (Some r) => write 1 (tx_lock r) (put_transaction r) s i
      | SqlOk None => Some (Ok 0, s)
      | SqlIntegrityViolation => Some (Raise IntegrityError, s)
      | SqlDataError => Some (Raise OtherSQLAlchemyError, s)
      end
  | OpUpdateIdempotency key tid st v =>
      match update_idempotency key tid st v (visible s i) with
      | SqlOk (Some r) => write 1 (idem_lock r) (put_idempotency r) s i
      | SqlOk None => Some (Ok 0, s)
      | SqlIntegrityViolation => Some (Raise IntegrityError, s)
      | SqlDataError => Some (Raise OtherSQLAlchemyError, s)
      end
  end.

Definition fail {V} (q : dbop) (e : exn) (applied : bool) (s : pgstate) (i : nat)
    : option (res exn V * pgstate) :=
  Some (Raise e, match q with
                 | OpCommit => if applied then commit_session i s else close_session i s
                 | _ => s
                 end).

Definition is_rollback (q : dbop) : bool := match q with OpRollback => true | _ => false end.

Definition exec_faulty (st : pgstate * list fault) (i : nat) (q : dbop)
    : option (res exn (db_val q) * (pgstate * list fault)) :=
  let '(s, faults) := st in
  let answer := match faults with
                | Wrapped b :: _ => if is_rollback q then exec s i q
                                    else fail q OtherSQLAlchemyError b s i
                | Unwrapped b :: _ => if is_rollback q then exec s i q
                                      else fail q OtherError b s i
                | _ => exec s i q
                end in
  (fun a => (fst a, (snd a, tail faults))) <$> answer.

Lemma locked_by_other_spec {R} (find : db -> option R) s i :
  locked_by_other find s i = true <->
  exists j o, j <> i /\ sessions s !! j = Some o /\ is_Some (find o).
Proof.
  unfold locked_by_other. rewrite existsb_exists. split.
  - intros ([j o] & Hin & H). apply andb_true_iff in H as [Hj Ho].
    apply negb_true_iff, Nat.eqb_neq in Hj. apply bool_decide_eq_true in Ho.
    exists j, o. split_and!; [done | | done]. apply elem_of_map_to_list, list_elem_of_In, Hin.
  - intros (j & o & Hj & Hs & Ho). exists (j, o). split.
    + by apply list_elem_of_In, elem_of_map_to_list.
    + apply andb_true_iff. split; [by apply negb_true_iff, Nat.eqb_neq|].
      by apply bool_decide_eq_true.
Qed.

Lemma write_spec {R V} (value : V) (lockedp : R -> Prop) (put : R -> db -> db) row b s i r s' :
  (b = true <-> lockedp row) ->
  write value b (put row) s i = Some (r, s') <-> wrote value lockedp put row s i r s'.
Proof.
  intros Hb. unfold write, wrote. destruct b; split; naive_solver.
Qed.

(** The engine answers what the contract describes, and only that. *)
Lemma exec_nominal s i q r s' : exec s i q = Some (r, s') <-> pg_nominal s i q r s'.
Proof.
  destruct q; cbn [exec pg_nominal]; try naive_solver congruence.
  - repeat case_match; [|unfold refused; naive_solver..].
    apply write_spec, locked_by_other_spec.
  - repeat case_match; [|unfold refused; naive_solver..].
    apply write_spec, locked_by_other_spec.
  - repeat case_match; [|unfold refused; naive_solver..].
    apply write_spec, locked_by_other_spec.
  - repeat case_match; [|unfold refused; naive_solver..].
    apply write_spec, locked_by_other_spec.
Qed.

Lemma exec_faulty_sound st i q r st' :
  exec_faulty st i q = Some (r, st') -> pg_contract (fst st) i q r (fst st').
Proof.
  destruct st as [s faults]. unfold exec_faulty. intros H.
  apply fmap_Some in H as ([r0 s0] & Hx & [= -> ->]). cbn [fst snd].
  assert (Hfail : forall e b, db_fault e -> is_rollback q = false ->
            fail q e b s i = Some (r0, s0) -> pg_contract s i q r0 s0).
  { intros e b He Hq [= <- <-]. right. split; [by exists e|]. destruct q; try done.
    destruct b; [by left | by right]. }
  unfold db_fault in Hfail.
  destruct faults as [|[| |] faults]; [by left; apply exec_nominal..| |];
    (destruct (is_rollback q) eqn:Hq; [by left; apply exec_nominal | eapply Hfail; [|done|exact Hx]; auto]).
Qed.

Lemma not_locked_alone {R} (find : db -> option R) s i :
  (forall j, j <> i -> sessions s !! j = None) -> locked_by_other find s i = false.
Proof.
  intros Ha. apply not_true_is_false. rewrite locked_by_other_spec.
  intros (j & o & Hj & Hs & _). by rewrite Ha in Hs.
Qed.

Lemma exec_alone s i q :
  (forall j, j <> i -> sessions s !! j = None) -> exists r s', exec s i q = Some (r, s').
Proof.
  intros Ha. destruct q; cbn [exec]; unfold write; rewrite ?not_locked_alone by done;
    repeat case_match; try (by eexists _, _); by rewrite not_locked_alone in *.
Qed.

#[export] Program Instance engine : Engine := {|
  engine_state := pgstate * list fault;
  e_abs := fst;
  e_exec := exec_faulty;
  e_healthy st := Forall (fun f => f = NoFault) (snd st);
  e_sound := exec_faulty_sound
|}.
Next Obligation.
  intros [s faults] i q Hh Ha. destruct (exec_alone s i q Ha) as (r & s' & Hx).
  exists r, (s', tail faults). cbn [fst snd] in *. split_and!.
  - unfold exec_faulty. destruct Hh as [|f fs Hf Hfs]; [|subst]; by rewrite Hx.
  - by destruct Hh.
  - by apply exec_nominal.
Qed.

(** A server that never fails, holding [d]. *)
Definition serving (d : db) : pgstate * list fault := (MkPg d ∅, []).
End ReferenceEngine.
