(* ===== verification/Bodies.v ===== *)
(** The texts of JSON bodies: the canonical text behind a fingerprint, and what the
    libraries at both ends of a connection write and read. *)
From S2P Require Import Prelude PyStr Sha256 Json JsonText Domain Ports Idempotency.
From S2P Require Import Schema Effects.

(** * Writing and reading bodies *)

(** What a library that writes JSON promises: a text that decodes to the value.  At the
    reading end, [reader_gives_up] tells of a text that does not decode whether that is
    for another reason than its syntax (nesting too deep, an integer too long). *)
Class BodyRendering : Type := {
  body_text : json -> pystr;
  body_text_decodes : forall j, json_plain j = true -> loads (body_text j) = Some j;
  reader_gives_up : pystr -> bool
}.

Lemma unsorted_text_decodes esc j :
  readable esc -> json_plain j = true -> loads (render esc false j) = Some j.
Proof. intros He Hj. rewrite loads_text by done. by rewrite arranged_as_written. Qed.

(** [json.dumps] with compact separators, without and with [ensure_ascii]. *)
#[export] Instance compact_rendering : BodyRendering := {|
  body_text := render escape_raw false;
  body_text_decodes := fun j => unsorted_text_decodes escape_raw j escape_raw_readable;
  reader_gives_up := fun _ => false
|}.

Definition ascii_rendering : BodyRendering := {|
  body_text := render escape_char false;
  body_text_decodes := fun j => unsorted_text_decodes escape_char j escape_char_readable;
  reader_gives_up := fun _ => false
|}.

(** [response.json()]. *)
Definition response_json (text : pystr) : json_outcome :=
  match loads text with Some j => JsonValue j | None => JsonValueError end.

Lemma response_json_rendered `{BodyRendering} j :
  json_plain j = true -> response_json (body_text j) = JsonValue j.
Proof. intros Hj. unfold response_json. by rewrite body_text_decodes. Qed.

(** * Plain documents *)

Lemma plain_obj fields :
  NoDup fields.*1 -> Forall (fun kv => scalar_str (fst kv) && json_plain (snd kv) = true) fields ->
  json_plain (JObj fields) = true.
Proof.
  intros Hn Hf. cbn [json_plain]. apply andb_true_iff. split; [by apply bool_decide_eq_true|].
  by apply forallb_Forall_iff.
Qed.

Lemma payload_plain a c m p t :
  (Z.abs a < 2 ^ 4000)%Z ->
  scalar_str c = true -> scalar_str m = true -> scalar_str p = true -> scalar_str t = true ->
  json_plain (payload_dict a c m p t) = true.
Proof.
  intros Ha Hc Hm Hp Ht. apply plain_obj.
  - apply (bool_decide_unpack _). vm_compute. exact I.
  - repeat constructor; cbn [fst snd json_plain]; rewrite ?Hc, ?Hm, ?Hp, ?Ht; try reflexivity.
    apply Z.ltb_lt in Ha. by rewrite Ha.
Qed.

Lemma payload_in_order sort a c m p t :
  arranged sort (payload_dict a c m p t) = payload_dict a c m p t.
Proof. by destruct sort. Qed.

(** * Properties *)

(** C33.  The canonical text behind a fingerprint is the request: [json.loads] gives an
    object with the five fields amount, currency, merchant_id, payment_token and
    transaction_id, in this order, each with the value that was passed for it, for every
    amount the interpreter can convert and all texts of Unicode scalar values. *)
Theorem canonical_text_decodes amount currency merchant_id payment_token transaction_id :
  (Z.abs amount < 2 ^ 4000)%Z ->
  Forall (fun s => scalar_str s = true) [currency; merchant_id; payment_token; transaction_id] ->
  response_json (canonical_json amount currency merchant_id payment_token transaction_id)
  = JsonValue (JObj [(py "amount", JInt amount);
                     (py "currency", JStr currency);
                     (py "merchant_id", JStr merchant_id);
                     (py "payment_token", JStr payment_token);
                     (py "transaction_id", JStr transaction_id)]).
Proof.
  intros Ha Hs. rewrite !Forall_cons in Hs. destruct Hs as (Hc & Hm & Hp & Ht & _).
  unfold response_json, canonical_json. rewrite dumps_render, loads_text;
    [by rewrite payload_in_order | apply escape_char_readable | by apply payload_plain].
Qed.

Lemma canonical_text_decodes_witness :
  response_json (canonical_json 2500 (py "USD") (py "m1") (py "tok_test_a" ++ [128512; 10; 34]%N) (py "t1"))
  = JsonValue (JObj [(py "amount", JInt 2500); (py "currency", JStr (py "USD"));
      (py "merchant_id", JStr (py "m1"));
      (py "payment_token", JStr (py "tok_test_a" ++ [128512; 10; 34]%N));
      (py "transaction_id", JStr (py "t1"))]).
Proof.
  apply (canonical_text_decodes 2500 (py "USD") (py "m1") (py "tok_test_a" ++ [128512; 10; 34]%N)
           (py "t1")); [reflexivity | repeat constructor].
Defined.
