(* ===== verification/Adapter.v ===== *)
(** The HTTP adapter of the payment network port (adapters/http_payment_network.py). *)
From S2P Require Import Prelude PyStr Json Domain Ports Schema Effects.

Open Scope Z_scope.
Open Scope io_scope.

(** * Operations *)

Definition parse_retry_after (header_value : option pystr) (default min_value max_value : Z) : Z :=
  match header_value with
  | None | Some [] => default
  | Some v =>
      match py_int (strip v) with
      | Some parsed => if parsed <? 0 then default else Z.max min_value (Z.min parsed max_value)
      | None => default
      end
  end.

(** [parse_retry_after(value)]: the defaults of the signature. *)
Definition parse_retry_after_default (header_value : option pystr) : Z :=
  parse_retry_after header_value 1 1 60.

Record HttpPaymentNetworkAdapter : Type := MkAdapter {
  ad_base_url : pystr
}.

(** [base_url.rstrip("/")]. *)
Fixpoint drop_slashes (s : pystr) : pystr :=
  match s with
  | c :: s' => if (c =? 47)%N then drop_slashes s' else s
  | [] => []
  end.

Definition HttpPaymentNetworkAdapter_init (base_url : pystr) : HttpPaymentNetworkAdapter :=
  MkAdapter (reverse (drop_slashes (reverse base_url))).

(** [isinstance(v, str) and v.strip()], returning [v.strip()]. *)
Definition stripped_field (v : option json) : option pystr :=
  match v with
  | Some (JStr s) => if str_eqb (strip s) [] then None else Some (strip s)
  | _ => None
  end.

Definition is_outcome (v : option json) (name : pystr) : bool :=
  match v with
  | Some (JStr s) => str_eqb s name
  | _ => false
  end.

Definition _handle_response (response : http_response) : res exn PaymentNetworkResult :=
  let status := hp_status_code response in
  if status =? 200 then
    match hp_json response with
    | JsonValueError => Raise PaymentNetworkInvalidResponseError
    | JsonOtherError => Raise OtherError
    | JsonValue (JObj data) =>
        let outcome := dict_get (py "outcome") data in
        if is_outcome outcome (py "AUTHORIZED") then
          match stripped_field (dict_get (py "network_reference") data),
                stripped_field (dict_get (py "authorization_code") data) with
          | Some net_ref, Some auth_code => Ok (PaymentNetworkAuthorizedResult net_ref auth_code)
          | _, _ => Raise PaymentNetworkInvalidResponseError
          end
        else if is_outcome outcome (py "DECLINED") then
          match stripped_field (dict_get (py "decline_code") data) with
          | Some decline_code => Ok (PaymentNetworkDeclinedResult decline_code)
          | None => Raise PaymentNetworkInvalidResponseError
          end
        else Raise PaymentNetworkInvalidResponseError
    | JsonValue _ => Raise PaymentNetworkInvalidResponseError
    end
  else if status =? 429 then
    Raise (PaymentNetworkRateLimitError (parse_retry_after_default (hp_retry_after response)))
  else if status =? 408 then Raise PaymentNetworkTimeoutError
  else if (400 <=? status) && (status <? 500) then Raise PaymentNetworkRejectedError
  else if (500 <=? status) && (status <? 600) then Raise PaymentNetworkUnavailableError
  else Raise PaymentNetworkUnavailableError.

(** The request [self.client.post(endpoint, json=payload, headers=headers)]. *)
Definition authorization_post (self : HttpPaymentNetworkAdapter)
    (request : PaymentNetworkAuthorizationRequest) : http_request :=
  MkHttpRequest (ad_base_url self ++ py "/v1/authorizations")
    [(py "request_id", JStr (pr_transaction_id request));
     (py "merchant_id", JStr (pr_merchant_id request));
     (py "payment_token", JStr (pr_payment_token request));
     (py "amount", JInt (pr_amount request));
     (py "currency", JStr (pr_currency request))]
    [(py "X-Correlation-ID", pr_correlation_id request)].

(** The [except] clauses around the post: the time-out classes first, of which
    [httpx.TimeoutException] is also a transport error. *)
Definition translate_http_exn (e : exn) : exn :=
  match e with
  | HttpxTimeoutException | AsyncioTimeoutError => PaymentNetworkTimeoutError
  | HttpxTransportError => PaymentNetworkUnavailableError
  | e => e
  end.

Definition authorize (self : HttpPaymentNetworkAdapter)
    (request : PaymentNetworkAuthorizationRequest) : io PaymentNetworkResult :=
  let! response := try_except (await_post (authorization_post self request))
                     (fun e => io_raise (translate_http_exn e)) in
  io_lift (_handle_response response).

(** * Lemmas *)

Lemma clamp_bounds d lo hi z :
  lo <= hi -> lo <= d <= hi -> 
  lo <= (if z <? 0 then d else Z.max lo (Z.min z hi)) <= hi.
Proof. destruct (z <? 0); lia. Qed.

Lemma parse_retry_after_bounds v d lo hi :
  lo <= hi -> lo <= d <= hi -> lo <= parse_retry_after v d lo hi <= hi.
Proof.
  intros Hb Hd. unfold parse_retry_after. repeat case_match; try done; by apply clamp_bounds || lia.
Qed.

Lemma stripped_field_some v s :
  stripped_field v = Some s <-> exists t, v = Some (JStr t) /\ s = strip t /\ strip t <> [].
Proof.
  unfold stripped_field. split.
  - destruct v as [[]|]; try done. destruct (str_eqb _ _) eqn:E; [done|]. intros [= <-].
    eexists. split_and!; [done..|]. rewrite <- str_eqb_eq. congruence.
  - intros (t & -> & -> & H). destruct (str_eqb _ _) eqn:E; [by apply str_eqb_eq in E | done].
Qed.

Lemma stripped_field_clean v s : stripped_field v = Some s -> s <> [] /\ trimmed s.
Proof. intros (t & _ & -> & H)%stripped_field_some. split; [done | apply strip_trimmed]. Qed.

Lemma parse_retry_after_int n :
  Z.abs n < 2 ^ 4000 ->
  parse_retry_after_default (Some (py_str_int n)) = if n <? 0 then 1 else Z.max 1 (Z.min n 60).
Proof.
  intros Hn. unfold parse_retry_after_default, parse_retry_after.
  rewrite (strip_id (py_str_int n)) by apply py_str_int_trimmed. rewrite py_int_py_str_int by done.
  destruct (py_str_int n) eqn:E; [|done]. exfalso. unfold py_str_int in E.
  destruct (n <? 0); [done|]. unfold dec_digits in E. by apply dec_fuel_nonempty in E.
Qed.

(** The two well-formed bodies of the network contract, and what they carry. *)
Definition has_text (data : list (pystr * json)) (name value : pystr) : Prop :=
  exists t, dict_get name data = Some (JStr t) /\ value = strip t /\ strip t <> [].

Definition approved_body (r : http_response) (network_reference authorization_code : pystr)
    : Prop :=
  exists data, hp_json r = JsonValue (JObj data)
    /\ dict_get (py "outcome") data = Some (JStr (py "AUTHORIZED"))
    /\ has_text data (py "network_reference") network_reference
    /\ has_text data (py "authorization_code") authorization_code.

Definition declined_body (r : http_response) (decline_code : pystr) : Prop :=
  exists data, hp_json r = JsonValue (JObj data)
    /\ dict_get (py "outcome") data = Some (JStr (py "DECLINED"))
    /\ has_text data (py "decline_code") decline_code.

Lemma is_outcome_spec v name : is_outcome v name = true <-> v = Some (JStr name).
Proof.
  unfold is_outcome. destruct v as [[]|]; try (split; discriminate).
  rewrite str_eqb_eq. split; [by intros -> | by intros [= ->]].
Qed.

Lemma is_outcome_false v name : is_outcome v name = false -> v <> Some (JStr name).
Proof. intros H Hv%is_outcome_spec. congruence. Qed.

(** Every branch of a 200 answer, by the shape of its body. *)
Lemma handle_200 r :
  hp_status_code r = 200 ->
  match _handle_response r with
  | Ok (PaymentNetworkAuthorizedResult n a) => approved_body r n a
  | Ok (PaymentNetworkDeclinedResult d) => declined_body r d
  | Ok UnrecognizedResult => False
  | Raise PaymentNetworkInvalidResponseError =>
      (forall n a, ~ approved_body r n a) /\ (forall d, ~ declined_body r d)
  | Raise e => e = OtherError /\ hp_json r = JsonOtherError
  end.
Proof.
  intros Hs. unfold _handle_response. rewrite Hs. change (200 =? 200) with true. cbv beta iota.
  assert (Hno : (forall data, hp_json r <> JsonValue (JObj data)) ->
    (forall n a, ~ approved_body r n a) /\ (forall d, ~ declined_body r d)).
  { intros H. split; [intros n a (data & Hd & _) | intros d (data & Hd & _)]; by apply (H data). }
  destruct (hp_json r) as [[| | | | | |data]| |] eqn:Hj; try (apply Hno; congruence); [|done].
  clear Hno.
  assert (Ha : forall n a, approved_body r n a ->
    dict_get (py "outcome") data = Some (JStr (py "AUTHORIZED"))
    /\ stripped_field (dict_get (py "network_reference") data) = Some n
    /\ stripped_field (dict_get (py "authorization_code") data) = Some a).
  { intros n a (data' & Hj' & Ho & Hn & Hc). rewrite Hj in Hj'. injection Hj' as <-.
    by rewrite !stripped_field_some. }
  assert (Hd : forall d, declined_body r d ->
    dict_get (py "outcome") data = Some (JStr (py "DECLINED"))
    /\ stripped_field (dict_get (py "decline_code") data) = Some d).
  { intros d (data' & Hj' & Ho & Hn). rewrite Hj in Hj'. injection Hj' as <-.
    by rewrite stripped_field_some. }
  destruct (is_outcome _ (py "AUTHORIZED")) eqn:EA.
  - apply is_outcome_spec in EA.
    destruct (stripped_field (dict_get (py "network_reference") data)) as [n|] eqn:En;
      [destruct (stripped_field (dict_get (py "authorization_code") data)) as [a|] eqn:Ec|].
    1: { apply stripped_field_some in En, Ec. by exists data. }
    all: split; [intros n' a' H%Ha; naive_solver | intros d' H%Hd].
    all: rewrite EA in H; by destruct H as [[=] _].
  - apply is_outcome_false in EA. destruct (is_outcome _ (py "DECLINED")) eqn:ED.
    + apply is_outcome_spec in ED.
      destruct (stripped_field (dict_get (py "decline_code") data)) as [d|] eqn:Ed.
      * apply stripped_field_some in Ed. by exists data.
      * split; [intros n a H%Ha | intros d H%Hd]; naive_solver.
    + apply is_outcome_false in ED. split; [intros n a H%Ha | intros d H%Hd]; naive_solver.
Qed.

(** What a result of [_handle_response] says of the answer it was computed from. *)
Definition answer_meaning (response : http_response) (r : res exn PaymentNetworkResult) : Prop :=
  let status := hp_status_code response in
  match r with
  | Ok (PaymentNetworkAuthorizedResult n a) => status = 200 /\ approved_body response n a
  | Ok (PaymentNetworkDeclinedResult d) => status = 200 /\ declined_body response d
  | Ok UnrecognizedResult => False
  | Raise PaymentNetworkInvalidResponseError =>
      status = 200 /\ (forall n a, ~ approved_body response n a)
      /\ (forall d, ~ declined_body response d)
  | Raise (PaymentNetworkRateLimitError k) => status = 429 /\ 1 <= k <= 60
  | Raise PaymentNetworkTimeoutError => status = 408
  | Raise PaymentNetworkRejectedError => 400 <= status < 500 /\ status <> 408 /\ status <> 429
  | Raise PaymentNetworkUnavailableError => status <> 200 /\ ~ (400 <= status < 500)
  | Raise e => status = 200 /\ hp_json response = JsonOtherError /\ e = OtherError
  end.

Lemma handle_response_meaning response : answer_meaning response (_handle_response response).
Proof.
  unfold answer_meaning. destruct (decide (hp_status_code response = 200)) as [Hs|Hs].
  - pose proof (handle_200 _ Hs) as H.
    destruct (_handle_response response) as [[]|[]]; try done; try tauto.
    all: by destruct H.
  - pose proof (parse_retry_after_bounds (hp_retry_after response) 1 1 60) as Hr.
    unfold _handle_response. apply Z.eqb_neq in Hs as Hs'. rewrite Hs'.
    destruct (Z.eqb_spec (hp_status_code response) 429); [split; [done | apply Hr; lia]|].
    destruct (Z.eqb_spec (hp_status_code response) 408); [done|].
    destruct (Z.leb_spec 400 (hp_status_code response)), (Z.ltb_spec (hp_status_code response) 500);
      simpl; try lia; destruct (_ && _); lia.
Qed.

(** * Properties *)

(** C34.  The Retry-After value taken from an upstream response is always between 1 and
    60 seconds, whatever the header holds.  A header that is a decimal integer (of up
    to 4000 bits) is clamped to that range, except that a negative one counts as 1. *)
Theorem retry_after_sanitised (header : option pystr) (n : Z) :
  1 <= parse_retry_after_default header <= 60
  /\ (Z.abs n < 2 ^ 4000 ->
      parse_retry_after_default (Some (py_str_int n))
      = if n <? 0 then 1 else Z.max 1 (Z.min n 60)).
Proof.
  split; [by apply parse_retry_after_bounds | apply parse_retry_after_int].
Qed.

Lemma retry_after_sanitised_witness :
  1 <= parse_retry_after_default (Some (py "soon")) <= 60
  /\ (Z.abs 120 < 2 ^ 4000 ->
      parse_retry_after_default (Some (py_str_int 120))
      = if 120 <? 0 then 1 else Z.max 1 (Z.min 120 60)).
Proof. apply (retry_after_sanitised (Some (py "soon")) 120). Defined.

(** C32.  How an HTTP answer of the network is read.  A 200 with a well-formed body is
    the approval or the decline it says, with trimmed, non-empty references; any other
    200 is an invalid response; 429 is a rate limit with a Retry-After of 1 to 60
    seconds; 408 is a time-out; the other 4xx are rejections; every remaining status is
    unavailability.  Nothing else is returned or raised, except an error of the JSON
    decoder that is not a [ValueError]. *)
Theorem answer_mapping (response : http_response) :
  answer_meaning response (_handle_response response).
Proof. apply handle_response_meaning. Qed.
