(* ===== verification/Authorize.v ===== *)
(** The authorization service (application/authorize_transaction.py), written
    against the payment network port. *)
From S2P Require Import Prelude PyStr Json Domain Ports Schema Effects Adapter.

Open Scope Z_scope.
Open Scope io_scope.

(** * The port as an interface *)

Class PaymentNetworkPort : Type := {
  pn_authorize : PaymentNetworkAuthorizationRequest -> io PaymentNetworkResult
}.

(** The HTTP adapter implements it. *)
Definition http_port (self : HttpPaymentNetworkAdapter) : PaymentNetworkPort :=
  {| pn_authorize := authorize self |}.

(** * Operations *)

(** A method call on the transaction object; its exception propagates. *)
Definition on_transaction (m : method Transaction domain_exn unit) (t : Transaction)
    : res exn Transaction :=
  match m t with
  | (Ok _, t') => Ok t'
  | (Raise e, _) => Raise (DomainError e)
  end.

Definition result_of (t : Transaction) : AuthorizeTransactionResult := MkResult t None None None.

(** [transaction.mark_pending_reconciliation(AUTHORIZATION)] and its result. *)
Definition outcome_unknown (t : Transaction) : res exn AuthorizeTransactionResult :=
  t' ← on_transaction (mark_pending_reconciliation (POperation AUTHORIZATION)) t;
  Ok (result_of t').

(** The [except] clauses and the result classes of [execute], for the transaction [t]
    and what the port returned or raised. *)
Definition settle (t : Transaction) (answer : res exn PaymentNetworkResult)
    : res exn AuthorizeTransactionResult :=
  match answer with
  | Raise PaymentNetworkTimeoutError => outcome_unknown t
  | Raise PaymentNetworkInvalidResponseError => outcome_unknown t
  | Raise PaymentNetworkUnavailableError => outcome_unknown t
  | Raise (PaymentNetworkRateLimitError retry_after) =>
      t' ← on_transaction (transition_to (PStatus FAILED)) t;
      Raise (DownstreamRateLimitExceededError t' retry_after)
  | Raise PaymentNetworkRejectedError =>
      t' ← on_transaction (transition_to (PStatus FAILED)) t;
      Raise (DownstreamRejectedError t')
  | Raise e => Raise e
  | Ok (PaymentNetworkAuthorizedResult network_reference authorization_code) =>
      t' ← on_transaction (transition_to (PStatus AUTHORIZED)) t;
      Ok (MkResult t' (Some network_reference) (Some authorization_code) None)
  | Ok (PaymentNetworkDeclinedResult decline_code) =>
      t' ← on_transaction (transition_to (PStatus DECLINED)) t;
      Ok (MkResult t' None None (Some decline_code))
  | Ok UnrecognizedResult => outcome_unknown t
  end.

Definition port_request (command : AuthorizeTransactionCommand)
    : PaymentNetworkAuthorizationRequest :=
  MkPaymentRequest (cmd_transaction_id command) (cmd_merchant_id command)
    (cmd_payment_token command) (cmd_amount command) (cmd_currency command)
    (cmd_correlation_id command).

Definition lift_domain {A} (r : res domain_exn A) : res exn A :=
  match r with Ok a => Ok a | Raise e => Raise (DomainError e) end.

Definition execute `{PaymentNetworkPort} (command : AuthorizeTransactionCommand)
    : io AuthorizeTransactionResult :=
  let! transaction := io_lift (lift_domain (new_transaction (cmd_transaction_id command))) in
  pbind (pn_authorize (port_request command)) (fun answer => io_lift (settle transaction answer)).

(** * The specification of the service *)

(** What the platform knows after the call of the network. *)
Inductive verdict : Type :=
| VAuthorized (network_reference authorization_code : pystr)
| VDeclined (decline_code : pystr)
| VRateLimited (retry_after : Z)
| VRejected
| VUnknown
| VCrash (e : exn).   (* an exception the service does not handle *)

Definition verdict_of (answer : res exn PaymentNetworkResult) : verdict :=
  match answer with
  | Ok (PaymentNetworkAuthorizedResult n a) => VAuthorized n a
  | Ok (PaymentNetworkDeclinedResult d) => VDeclined d
  | Ok UnrecognizedResult => VUnknown
  | Raise (PaymentNetworkRateLimitError k) => VRateLimited k
  | Raise PaymentNetworkRejectedError => VRejected
  | Raise PaymentNetworkTimeoutError | Raise PaymentNetworkInvalidResponseError
  | Raise PaymentNetworkUnavailableError => VUnknown
  | Raise e => VCrash e
  end.

(** The entity after one authorization attempt. *)
Definition attempted (tid : pystr) (s : TransactionStatus) (o : option PendingOperation)
    : Transaction := MkTransaction tid s 1 o.

Definition settled (tid : pystr) (v : verdict) : res exn AuthorizeTransactionResult :=
  match v with
  | VAuthorized n a => Ok (MkResult (attempted tid AUTHORIZED None) (Some n) (Some a) None)
  | VDeclined d => Ok (MkResult (attempted tid DECLINED None) None None (Some d))
  | VUnknown =>
      Ok (MkResult (attempted tid PENDING_RECONCILIATION (Some AUTHORIZATION)) None None None)
  | VRateLimited k => Raise (DownstreamRateLimitExceededError (attempted tid FAILED None) k)
  | VRejected => Raise (DownstreamRejectedError (attempted tid FAILED None))
  | VCrash e => Raise e
  end.

Lemma settle_spec tid answer :
  settle (MkTransaction tid CREATED 0 None) answer = settled tid (verdict_of answer).
Proof. by destruct answer as [[]|[]]. Qed.


Lemma eval_execute `{PaymentNetworkPort} net command s :
  strip (cmd_transaction_id command) <> [] ->
  eval net (execute command) s =
  let '(answer, s') := eval net (pn_authorize (port_request command)) s in
  (settled (cmd_transaction_id command) (verdict_of answer), s').
Proof.
  intros Hid. unfold execute. rewrite new_transaction_ok by done.
  rewrite eval_io_bind. cbn [eval io_lift lift_domain]. rewrite eval_pbind.
  destruct (eval net (pn_authorize _) s) as [answer s']. cbn [eval io_lift].
  by rewrite settle_spec.
Qed.

(** The adapter sends exactly one request. *)
Lemma eval_authorize net a request s :
  eval net (authorize a request) s =
  (match net (length (sq_posts s)) (authorization_post a request) with
   | Ok response => _handle_response response
   | Raise e => Raise (translate_http_exn e)
   end, MkSeq (sq_db s) (sq_tx s) (sq_posts s ++ [authorization_post a request])).
Proof.
  unfold authorize. rewrite eval_io_bind, eval_try_except. cbn [eval await_post eval_op].
  by destruct (net _ _) as [response|e].
Qed.

(** The verdict on what the network answered over HTTP. *)
Definition http_verdict (r : res exn http_response) : verdict :=
  match r with
  | Ok response => verdict_of (_handle_response response)
  | Raise e => verdict_of (Raise (translate_http_exn e))
  end.

Lemma eval_execute_http net a command s :
  strip (cmd_transaction_id command) <> [] ->
  eval net (@execute (http_port a) command) s =
  let post := authorization_post a (port_request command) in
  (settled (cmd_transaction_id command) (http_verdict (net (length (sq_posts s)) post)),
   MkSeq (sq_db s) (sq_tx s) (sq_posts s ++ [post])).
Proof.
  intros Hid. rewrite eval_execute by done. cbn [pn_authorize http_port].
  rewrite eval_authorize. by destruct (net _ _).
Qed.

(** * Properties *)

(** An answer after which nobody knows whether the authorization happened. *)
Definition ambiguous_answer (answer : res exn http_response) : Prop :=
  match answer with
  | Raise e => e = HttpxTimeoutException \/ e = AsyncioTimeoutError \/ e = HttpxTransportError
  | Ok r => hp_status_code r = 408
            \/ (hp_status_code r = 200 /\ (forall n a, ~ approved_body r n a)
                /\ (forall d, ~ declined_body r d))
            \/ (hp_status_code r <> 200 /\ ~ (400 <= hp_status_code r < 500))
  end.

(** What the service reports, for each shape of its result. *)
Definition justified (tid : pystr) (answer : res exn http_response)
    (r : res exn AuthorizeTransactionResult) : Prop :=
  match r with
  | Ok result =>
      transaction_id (ar_transaction result) = tid /\ version (ar_transaction result) = 1 /\
      match status (ar_transaction result) with
      | AUTHORIZED => exists resp n a, answer = Ok resp /\ hp_status_code resp = 200
          /\ approved_body resp n a /\ ar_network_reference result = Some n
          /\ ar_authorization_code result = Some a
      | DECLINED => exists resp d, answer = Ok resp /\ hp_status_code resp = 200
          /\ declined_body resp d /\ ar_decline_code result = Some d
      | PENDING_RECONCILIATION =>
          ambiguous_answer answer
          /\ pending_operation (ar_transaction result) = Some AUTHORIZATION
      | _ => False
      end
  | Raise (DownstreamRateLimitExceededError t k) =>
      t = attempted tid FAILED None /\ 1 <= k <= 60
      /\ exists resp, answer = Ok resp /\ hp_status_code resp = 429
  | Raise (DownstreamRejectedError t) =>
      t = attempted tid FAILED None
      /\ exists resp, answer = Ok resp /\ 400 <= hp_status_code resp < 500
                      /\ hp_status_code resp <> 408 /\ hp_status_code resp <> 429
  | Raise e => e = OtherError
               /\ (answer = Raise OtherError
                   \/ exists resp, answer = Ok resp /\ hp_status_code resp = 200
                                   /\ hp_json resp = JsonOtherError)
  end.

Lemma settled_justified tid answer :
  post_contract answer -> justified tid answer (settled tid (http_verdict answer)).
Proof.
  intros Hc. destruct answer as [resp|e]; cbn [http_verdict].
  - pose proof (handle_response_meaning resp) as H. unfold answer_meaning in H.
    destruct (_handle_response resp) as [[]|[]]; cbn in *; naive_solver.
  - destruct (Hc e eq_refl) as [->|[->|[->| ->]]]; cbn; naive_solver.
Qed.

(** C25.  Authorization of one transaction over HTTP sends one request and reports a
    status the answer justifies: AUTHORIZED and DECLINED only for a well-formed 200
    that says so, with its references; FAILED only for a 429 or another explicit 4xx
    (never a 408); and every time-out, transport error, malformed 200, 408, 5xx or
    unexpected status leaves the transaction in PENDING_RECONCILIATION with the pending
    operation AUTHORIZATION.  The only exceptions that escape are an unforeseen one of
    the client and one of the JSON decoder that is not a [ValueError].  The version is 1
    in every case, and the database is not touched. *)
Theorem authorization_justified net adapter command s :
  strip (cmd_transaction_id command) <> [] ->
  (forall n req, post_contract (net n req)) ->
  let post := authorization_post adapter (port_request command) in
  let '(r, s') := eval net (@execute (http_port adapter) command) s in
  justified (cmd_transaction_id command) (net (length (sq_posts s)) post) r
  /\ s' = MkSeq (sq_db s) (sq_tx s) (sq_posts s ++ [post]).
Proof.
  intros Hid Hnet. rewrite eval_execute_http by done. cbv zeta. split; [|done].
  by apply settled_justified.
Qed.

Definition sample_command : AuthorizeTransactionCommand :=
  MkCommand (py "txn_1") (py "merchant_1") (py "tok_test_approved") 2500 (py "USD") (py "corr_1").

Definition sample_adapter : HttpPaymentNetworkAdapter :=
  HttpPaymentNetworkAdapter_init (py "http://localhost:8001/").

(** A network that approves every request. *)
Definition approving_network : network := fun _ _ =>
  Ok (MkHttpResponse 200
        (JsonValue (JObj [(py "outcome", JStr (py "AUTHORIZED"));
                          (py "network_reference", JStr (py " net_1 "));
                          (py "authorization_code", JStr (py "AUTH123"))])) None).

Lemma authorization_justified_witness :
  let post := authorization_post sample_adapter (port_request sample_command) in
  let '(r, s') := eval approving_network (@execute (http_port sample_adapter) sample_command)
                    (MkSeq empty_db None []) in
  justified (py "txn_1") (approving_network 0%nat post) r
  /\ s' = MkSeq empty_db None [post].
Proof.
  apply (authorization_justified approving_network sample_adapter sample_command
           (MkSeq empty_db None [])).
  - discriminate.
  - intros n req e. discriminate.
Defined.
