(* ===== verification/Problem.v ===== *)
(** RFC 7807 problem documents (common/problem_details.py). *)
From S2P Require Import Prelude PyStr Json Ports.

Definition PROBLEM_MEDIA_TYPE : pystr := py "application/problem+json".

Definition SAFE_SCHEMA_FIELDS : list pystr :=
  [py "transaction_id"; py "request_id"; py "merchant_id"; py "payment_token"; py "amount";
   py "currency"; py "body"].

Definition FORBIDDEN_SENSITIVE_FIELDS : list pystr :=
  [py "pan"; py "cvv"; py "card_number"; py "security_code"; py "expiration_date";
   py "cardholder_name"].

Record InvalidParameter : Type := MkInvalidParameter {
  ip_field : pystr;
  ip_reason : pystr
}.

Record ProblemDetail : Type := MkProblem {
  pd_type : pystr;
  pd_title : pystr;
  pd_status : Z;
  pd_detail : pystr;
  pd_invalid_parameters : option (list InvalidParameter)
}.

Definition InvalidParameter_dump (p : InvalidParameter) : json :=
  JObj [(py "field", JStr (ip_field p)); (py "reason", JStr (ip_reason p))].

(** [problem.model_dump(exclude_none=True)]: the fields by name, without the missing list. *)
Definition ProblemDetail_dump (p : ProblemDetail) : body_dict :=
  let base : body_dict :=
    {[ py "type" := JStr (pd_type p); py "title" := JStr (pd_title p);
       py "status" := JInt (pd_status p); py "detail" := JStr (pd_detail p) ]} in
  match pd_invalid_parameters p with
  | None => base
  | Some l => <[py "invalid_parameters" := JArr (InvalidParameter_dump <$> l)]> base
  end.

Definition map_safe_field_name (raw_field : pystr) : pystr :=
  let normalized := lower (strip raw_field) in
  if bool_decide (normalized ∈ SAFE_SCHEMA_FIELDS) then normalized
  else if bool_decide (normalized ∈ FORBIDDEN_SENSITIVE_FIELDS) then py "sensitive_parameter"
  else py "unknown_parameter".

(** The response of the framework. *)
Record JSONResponse : Type := MkJSONResponse {
  jr_status_code : Z;
  jr_content : body_dict;
  jr_headers : header_dict;
  jr_media_type : option pystr
}.

Definition build_problem_response (status_code : Z) (problem_type title detail : pystr)
    (invalid_parameters : option (list InvalidParameter)) (headers : option header_dict)
    : JSONResponse :=
  MkJSONResponse status_code
    (ProblemDetail_dump (MkProblem problem_type title status_code detail invalid_parameters))
    (default [] headers) (Some PROBLEM_MEDIA_TYPE).

(** * Properties *)

(** Decides a closed proposition by evaluation. *)
Ltac evaluate := apply (bool_decide_unpack _); vm_compute; exact I.

(** The labels that can appear in a response. *)
Definition safe_labels : list pystr :=
  SAFE_SCHEMA_FIELDS ++ [py "sensitive_parameter"; py "unknown_parameter"].

Lemma schema_field_not_sensitive s :
  s ∈ SAFE_SCHEMA_FIELDS ->
  ~ (s ∈ FORBIDDEN_SENSITIVE_FIELDS) /\ s <> py "sensitive_parameter".
Proof. revert s. apply Forall_forall. evaluate. Qed.

Lemma map_safe_field_name_label raw_field : map_safe_field_name raw_field ∈ safe_labels.
Proof.
  unfold map_safe_field_name. case_bool_decide as H1; [|case_bool_decide; evaluate].
  unfold safe_labels. apply elem_of_app. by left.
Qed.

(** Field names of a request are not reflected: whatever name a client sends, the
    label reported back is one of nine fixed ones, none of them the name of a card
    data field; a schema field is reported under its own name however it is padded or
    capitalised, a card data field always as sensitive_parameter, and nothing else is. *)
Theorem field_names_not_reflected (raw_field : pystr) :
  (map_safe_field_name raw_field ∈ safe_labels)
  /\ ~ (map_safe_field_name raw_field ∈ FORBIDDEN_SENSITIVE_FIELDS)
  /\ (lower (strip raw_field) ∈ SAFE_SCHEMA_FIELDS <->
      map_safe_field_name raw_field = lower (strip raw_field)
      /\ map_safe_field_name raw_field ∈ SAFE_SCHEMA_FIELDS)
  /\ (lower (strip raw_field) ∈ FORBIDDEN_SENSITIVE_FIELDS <->
      map_safe_field_name raw_field = py "sensitive_parameter").
Proof.
  unfold map_safe_field_name. generalize (lower (strip raw_field)) as n. intros n.
  case_bool_decide as H1; [|case_bool_decide as H2].
  - destruct (schema_field_not_sensitive n H1). unfold safe_labels. rewrite elem_of_app.
    split_and!; [by left | done | done | done].
  - split_and!; [evaluate | evaluate | | tauto]. split; [done|]. by intros [-> ?].
  - split_and!; [evaluate | evaluate | |]; (split; [done|]).
    + intros [<- ?]. done.
    + intros H. exfalso. revert H. evaluate.
Qed.
