(* ===== verification/Coordinator.v ===== *)
(** The unit of work over the two tables
    (infrastructure/idempotency_coordinator.py): reservation of a key and a
    transaction identifier, and completion with the cached response. *)
From S2P Require Import Prelude PyStr Sha256 Json Domain Ports Idempotency Schema Effects.

Open Scope Z_scope.
Open Scope io_scope.

(** * Operations *)

Definition reservation (s : ReservationStatus) : IdempotencyReservation := MkReservation s None.

(** [_classify_existing].  A COMPLETED row without a status code makes the comparison
    with 400 raise; the tables rule out a COMPLETED row without code or body
    ([chk_idempotency_payload_integrity]). *)
Definition _classify_existing (record : idempotency_row) (request_fingerprint : pystr)
    : res exn IdempotencyReservation :=
  if negb (str_eqb (i_request_fingerprint record) request_fingerprint)
  then Ok (reservation IDEMPOTENCY_CONFLICT)
  else if str_eqb (i_processing_status record) (py "IN_PROGRESS")
  then Ok (reservation IN_PROGRESS)
  else if str_eqb (i_processing_status record) (py "COMPLETED")
  then match i_stored_status_code record, i_stored_response_body record with
       | Some code, Some body =>
           Ok (MkReservation COMPLETED
                 (Some (MkEnvelope code body (default [] (i_stored_headers record)) true
                          (Some (if 400 <=? code then py "application/problem+json"
                                 else py "application/json")))))
       | _, _ => Raise OtherError
       end
  else Raise PersistenceError.

Definition reserved_transaction (transaction_id merchant_id : pystr) (amount : Z)
    (currency : pystr) : transaction_row :=
  MkTransactionRow transaction_id merchant_id amount currency (py "CREATED") None 0
    None None None.

Definition reserved_idempotency (key_hash request_fingerprint transaction_id : pystr)
    : idempotency_row :=
  MkIdempotencyRow key_hash request_fingerprint (py "IN_PROGRESS") transaction_id None None None.

(** [except IntegrityError as exc: raise _ReservationIntegrityError(exc)]. *)
Definition carry_integrity_error (e : exn) : io unit :=
  match e with
  | IntegrityError => io_raise ReservationIntegrityError
  | e => io_raise e
  end.

(** The [except] clauses that end both methods: persistence errors pass, other
    SQLAlchemy errors become one. *)
Definition wrap_sqlalchemy {A} (e : exn) : io A :=
  if is_PersistenceError e then io_raise e
  else if is_SQLAlchemyError e then io_raise PersistenceError
  else io_raise e.

(** Step 1 of [reserve], in Short Tx 1. *)
Definition reserve_attempt
    (key_hash request_fingerprint transaction_id merchant_id : pystr) (amount : Z)
    (currency : pystr) : io IdempotencyReservation :=
  with_transaction (
    let! existing := await_db (OpSelectIdempotency key_hash) in
    match existing with
    | Some record => io_lift (_classify_existing record request_fingerprint)
    | None =>
        try_except (
          await_db (OpInsertTransaction
                      (reserved_transaction transaction_id merchant_id amount currency)) ;!
          await_db (OpInsertIdempotency
                      (reserved_idempotency key_hash request_fingerprint transaction_id)))
          carry_integrity_error ;!
        io_ret (reservation ACQUIRED)
    end).

(** Step 2, after a constraint violation: what a fresh transaction finds. *)
Definition reserve_requery (key_hash request_fingerprint transaction_id : pystr)
    : io IdempotencyReservation :=
  let! found := with_transaction (
    let! existing_after := await_db (OpSelectIdempotency key_hash) in
    match existing_after with
    | Some record =>
        let! r := io_lift (_classify_existing record request_fingerprint) in io_ret (Some r)
    | None =>
        let! res_txn := await_db (OpSelectTransactionId transaction_id) in
        match res_txn with
        | Some _ => io_ret (Some (reservation TRANSACTION_ID_CONFLICT))
        | None => io_ret None
        end
    end) in
  match found with
  | Some r => io_ret r
  | None => io_raise PersistenceError
  end.

Definition reserve
    (key_hash request_fingerprint transaction_id merchant_id : pystr) (amount : Z)
    (currency : pystr) : io IdempotencyReservation :=
  try_except
    (reserve_attempt key_hash request_fingerprint transaction_id merchant_id amount currency)
    (fun e =>
       match e with
       | ReservationIntegrityError =>
           try_except (reserve_requery key_hash request_fingerprint transaction_id) wrap_sqlalchemy
       | e => wrap_sqlalchemy e
       end).

(** The header allowlist loop: the value of the last Retry-After header. *)
Definition allowlisted_headers (headers : header_dict) : header_dict :=
  fold_left (fun allowed kv =>
               if str_eqb (lower (fst kv)) (py "retry-after")
               then [(py "Retry-After", snd kv)] else allowed)
    headers [].

(** [allowlisted_headers if allowlisted_headers else None]. *)
Definition persisted_headers (headers : header_dict) : option header_dict :=
  match allowlisted_headers headers with
  | [] => None
  | h => Some h
  end.

Definition completed_transaction (t : Transaction)
    (network_reference authorization_code decline_code : option pystr) : transaction_values :=
  MkTransactionValues (TransactionStatus_value (status t))
    (PendingOperation_value <$> pending_operation t) (version t)
    network_reference authorization_code decline_code.

Definition completed_idempotency (envelope : ResponseEnvelope) : idempotency_values :=
  MkIdempotencyValues (py "COMPLETED") (Some (env_status_code envelope))
    (Some (env_body envelope)) (persisted_headers (env_headers envelope)).

Definition complete (key_hash : pystr) (transaction : Transaction) (expected_version : Z)
    (envelope : ResponseEnvelope)
    (network_reference authorization_code decline_code : option pystr) : io unit :=
  if negb (version transaction =? expected_version + 1)
  then io_raise OptimisticConcurrencyError
  else
    try_except (with_transaction (
      let! rows := await_db (OpUpdateTransaction (transaction_id transaction) expected_version
                               (completed_transaction transaction network_reference
                                  authorization_code decline_code)) in
      (if negb (rows =? 1) then io_raise OptimisticConcurrencyError else io_ret tt) ;!
      let! rows := await_db (OpUpdateIdempotency key_hash (transaction_id transaction)
                               (py "IN_PROGRESS") (completed_idempotency envelope)) in
      if negb (rows =? 1) then io_raise OptimisticConcurrencyError else io_ret tt))
      wrap_sqlalchemy.

(** * What the methods do when they run alone *)

(** After a constraint violation the key is still free, so only a transaction with the
    same identifier explains it. *)
Definition conflict_result (tid : pystr) (d : db) : res exn IdempotencyReservation :=
  match transactions d !! tid with
  | Some _ => Ok (reservation TRANSACTION_ID_CONFLICT)
  | None => Raise PersistenceError
  end.

Definition reserve_result (key fp tid mid : pystr) (amount : Z) (currency : pystr) (d : db)
    : res exn IdempotencyReservation * db :=
  match idempotency_records d !! key with
  | Some record => (_classify_existing record fp, d)
  | None =>
      match insert_transaction (reserved_transaction tid mid amount currency) d with
      | SqlDataError => (Raise PersistenceError, d)
      | SqlIntegrityViolation => (conflict_result tid d, d)
      | SqlOk r =>
          match insert_idempotency (reserved_idempotency key fp tid) (put_transaction r d) with
          | SqlDataError => (Raise PersistenceError, d)
          | SqlIntegrityViolation => (conflict_result tid d, d)
          | SqlOk r' => (Ok (reservation ACQUIRED), put_idempotency r' (put_transaction r d))
          end
      end
  end.

Definition complete_result (key : pystr) (t : Transaction) (expected_version : Z)
    (envelope : ResponseEnvelope) (nref auth decl : option pystr) (d : db) : res exn unit * db :=
  if negb (version t =? expected_version + 1) then (Raise OptimisticConcurrencyError, d)
  else
    match update_transaction (transaction_id t) expected_version
            (completed_transaction t nref auth decl) d with
    | SqlOk None => (Raise OptimisticConcurrencyError, d)
    | SqlOk (Some r) =>
        match update_idempotency key (transaction_id t) (py "IN_PROGRESS")
                (completed_idempotency envelope) (put_transaction r d) with
        | SqlOk None => (Raise OptimisticConcurrencyError, d)
        | SqlOk (Some r') => (Ok tt, put_idempotency r' (put_transaction r d))
        | _ => (Raise PersistenceError, d)
        end
    | _ => (Raise PersistenceError, d)
    end.

Section eval.
Context (net : network) (posts : list http_request).

Lemma classify_raises record fp e :
  _classify_existing record fp = Raise e -> e = PersistenceError \/ e = OtherError.
Proof.
  unfold _classify_existing. repeat case_match; intros H'; simplify_eq; auto.
Qed.

(** Running a short transaction on [d]. *)
Abbreviation closed d := (MkSeq d None posts).
Abbreviation opened d w := (MkSeq d (Some w) posts).

Lemma eval_await_db (q : dbop) s : eval net (await_db q) s = eval_db q s.
Proof. cbn. by destruct (eval_db q s). Qed.

Lemma eval_reserve_attempt key fp tid mid amount currency d :
  eval net (reserve_attempt key fp tid mid amount currency) (closed d) =
  match idempotency_records d !! key with
  | Some record => (_classify_existing record fp, closed d)
  | None =>
      match insert_transaction (reserved_transaction tid mid amount currency) d with
      | SqlDataError => (Raise OtherSQLAlchemyError, closed d)
      | SqlIntegrityViolation => (Raise ReservationIntegrityError, closed d)
      | SqlOk r =>
          match insert_idempotency (reserved_idempotency key fp tid) (put_transaction r d) with
          | SqlDataError => (Raise OtherSQLAlchemyError, closed d)
          | SqlIntegrityViolation => (Raise ReservationIntegrityError, closed d)
          | SqlOk r' => (Ok (reservation ACQUIRED),
                         closed (put_idempotency r' (put_transaction r d)))
          end
      end
  end.
Proof.
  unfold reserve_attempt. rewrite eval_with_transaction, eval_io_bind, eval_await_db.
  cbn [eval_db]. change (sq_view (opened d d)) with d.
  destruct (idempotency_records d !! key) as [record|].
  { cbn [io_lift eval]. by destruct (_classify_existing record fp). }
  rewrite eval_io_bind, eval_try_except, eval_io_bind, eval_await_db.
  cbn [eval_db]. change (sq_view (opened d d)) with d.
  destruct (insert_transaction _ d) as [r| |]; cbn [eval carry_integrity_error io_raise]; [|done..].
  rewrite eval_await_db. cbn [eval_db sq_write sq_db sq_tx sq_posts fmap option_fmap option_map].
  change (sq_view (opened d (put_transaction r d))) with (put_transaction r d).
  by destruct (insert_idempotency _ _) as [r'| |].
Qed.

Lemma eval_reserve_requery key fp tid d :
  idempotency_records d !! key = None ->
  eval net (reserve_requery key fp tid) (closed d) = (conflict_result tid d, closed d).
Proof.
  intros Hkey. unfold reserve_requery, conflict_result.
  rewrite eval_io_bind, eval_with_transaction, eval_io_bind, eval_await_db.
  cbn [eval_db]. change (sq_view (opened d d)) with d. rewrite Hkey.
  rewrite eval_io_bind, eval_await_db. cbn [eval_db]. change (sq_view (opened d d)) with d.
  by destruct (transactions d !! tid).
Qed.

Lemma eval_reserve key fp tid mid amount currency d :
  eval net (reserve key fp tid mid amount currency) (closed d) =
  let '(r, d') := reserve_result key fp tid mid amount currency d in (r, closed d').
Proof.
  unfold reserve, reserve_result. rewrite eval_try_except, eval_reserve_attempt.
  destruct (idempotency_records d !! key) as [record|] eqn:Hkey.
  { destruct (_classify_existing record fp) as [r|e] eqn:Hc; [done|].
    by destruct (classify_raises _ _ _ Hc) as [->| ->]. }
  assert (Hq : eval net (try_except (reserve_requery key fp tid) wrap_sqlalchemy) (closed d)
               = (conflict_result tid d, closed d)).
  { rewrite eval_try_except, eval_reserve_requery by done. unfold conflict_result.
    by destruct (transactions d !! tid). }
  destruct (insert_transaction _ d) as [r| |]; [|exact Hq | done].
  destruct (insert_idempotency _ _) as [r'| |]; [done | exact Hq | done].
Qed.

Lemma eval_complete key t ver envelope nref auth decl d :
  eval net (complete key t ver envelope nref auth decl) (closed d) =
  let '(r, d') := complete_result key t ver envelope nref auth decl d in (r, closed d').
Proof.
  unfold complete, complete_result. destruct (negb (version t =? ver + 1)); [done|].
  rewrite eval_try_except, eval_with_transaction, eval_io_bind, eval_await_db.
  cbn [eval_db]. change (sq_view (opened d d)) with d.
  destruct (update_transaction _ _ _ d) as [[r|]| |]; [|done..].
  rewrite eval_io_bind. cbn [Z.eqb Pos.eqb negb eval io_ret].
  rewrite eval_io_bind, eval_await_db. cbn [eval_db sq_write sq_db sq_tx sq_posts fmap option_fmap option_map].
  change (sq_view (opened d (put_transaction r d))) with (put_transaction r d).
  by destruct (update_idempotency _ _ _ _ _) as [[r'|]| |].
Qed.
End eval.

(** * Storable requests and responses *)

(** Arguments of [reserve] that the columns and the checks accept. *)
Definition storable_request (key fp tid mid : pystr) (amount : Z) (currency : pystr) : bool :=
  digest_format key && digest_format fp && storable_id tid && storable_id mid
  && (0 <? amount) && (amount <? 2 ^ 63) && class_run is_upper_ascii 3 3 currency.

Lemma store_reserved_transaction tid mid amount currency :
  storable_id tid = true -> storable_id mid = true -> 0 < amount < 2 ^ 63 ->
  class_run is_upper_ascii 3 3 currency = true ->
  store_transaction_row (reserved_transaction tid mid amount currency)
  = Some (reserved_transaction tid mid amount currency).
Proof.
  intros Ht Hm Ha Hc. unfold store_transaction_row, reserved_transaction, store_bigint, int_range.
  cbn [t_transaction_id t_merchant_id t_amount t_currency t_status t_pending_operation t_version
       t_network_reference t_authorization_code t_decline_code].
  rewrite (store_storable_id tid), (store_storable_id mid), (store_currency currency) by done.
  cbn [mbind option_bind]. destruct (Z.leb_spec (- 2 ^ (64 - 1)) amount); [|lia].
  by destruct (Z.ltb_spec amount (2 ^ (64 - 1))); [|lia].
Qed.

Lemma store_reserved_idempotency key fp tid :
  digest_format key = true -> digest_format fp = true -> storable_id tid = true ->
  store_idempotency_row (reserved_idempotency key fp tid) = Some (reserved_idempotency key fp tid).
Proof.
  intros Hk Hf Ht. unfold store_idempotency_row, reserved_idempotency, digest_format in *.
  cbn [i_idempotency_key_hash i_request_fingerprint i_processing_status i_transaction_id
       i_stored_status_code i_stored_response_body i_stored_headers].
  by rewrite (store_digest key), (store_digest fp), (store_storable_id tid).
Qed.

Lemma insert_reserved_transaction tid mid amount currency d :
  storable_id tid = true -> storable_id mid = true -> 0 < amount < 2 ^ 63 ->
  class_run is_upper_ascii 3 3 currency = true ->
  insert_transaction (reserved_transaction tid mid amount currency) d =
  match transactions d !! tid with
  | Some _ => SqlIntegrityViolation
  | None => SqlOk (reserved_transaction tid mid amount currency)
  end.
Proof.
  intros Ht Hm Ha Hc. unfold insert_transaction.
  rewrite store_reserved_transaction by done.
  assert (transactions_checks (reserved_transaction tid mid amount currency) = true) as ->.
  { unfold transactions_checks, chk_transactions_transaction_id_trimmed_length,
      chk_transactions_merchant_id_trimmed_length, chk_transactions_amount_positive,
      chk_transactions_currency_format.
    cbn [reserved_transaction t_transaction_id t_merchant_id t_amount t_currency].
    rewrite !storable_id_length_check, Hc by done.
    by destruct (Z.ltb_spec 0 amount); [|lia]. }
  cbn [negb t_transaction_id reserved_transaction].
  destruct (transactions d !! tid); case_bool_decide as H; try done. by destruct H.
Qed.

Lemma insert_reserved_idempotency key fp tid d :
  digest_format key = true -> digest_format fp = true -> storable_id tid = true ->
  idempotency_records d !! key = None -> is_Some (transactions d !! tid) ->
  insert_idempotency (reserved_idempotency key fp tid) d =
  SqlOk (reserved_idempotency key fp tid).
Proof.
  intros Hk Hf Ht Hn Hs. unfold insert_idempotency. rewrite store_reserved_idempotency by done.
  unfold digest_format in *.
  assert (idempotency_checks (reserved_idempotency key fp tid) = true) as ->.
  { unfold idempotency_checks, chk_idempotency_key_hash_format,
      chk_idempotency_fingerprint_format. cbn [reserved_idempotency i_idempotency_key_hash
      i_request_fingerprint]. by rewrite Hk, Hf. }
  cbn [negb i_idempotency_key_hash i_transaction_id reserved_idempotency]. rewrite Hn.
  case_bool_decide as H1; [by destruct H1|]. case_bool_decide as H2; [|done].
  rewrite H2 in Hs. by destruct Hs.
Qed.

Lemma reserve_result_storable key fp tid mid amount currency d :
  storable_request key fp tid mid amount currency = true ->
  reserve_result key fp tid mid amount currency d =
  match idempotency_records d !! key, transactions d !! tid with
  | Some record, _ => (_classify_existing record fp, d)
  | None, Some _ => (Ok (reservation TRANSACTION_ID_CONFLICT), d)
  | None, None =>
      (Ok (reservation ACQUIRED),
       put_idempotency (reserved_idempotency key fp tid)
         (put_transaction (reserved_transaction tid mid amount currency) d))
  end.
Proof.
  unfold storable_request. rewrite !andb_true_iff, !Z.ltb_lt.
  intros ((((((Hk & Hf) & Ht) & Hm) & Ha1) & Ha2) & Hc). unfold reserve_result.
  destruct (idempotency_records d !! key) as [record|] eqn:Ek; [done|].
  rewrite insert_reserved_transaction by done. unfold conflict_result.
  destruct (transactions d !! tid) as [r|]; [done|].
  rewrite insert_reserved_idempotency; try done. simpl. by rewrite lookup_insert_eq.
Qed.

Definition storable_body (b : body_dict) : bool :=
  bool_decide (map_Forall (fun k v => text_ok k && jsonb_ok v = true) b).
Definition storable_headers (h : option header_dict) : bool :=
  match h with
  | None => true
  | Some h => forallb (fun kv => text_ok (fst kv) && text_ok (snd kv)) h
  end.

(** Arguments of [complete] that the columns and the checks accept. *)
Definition storable_response (envelope : ResponseEnvelope) (nref auth decl : option pystr) : bool :=
  storable_opt_text 128 nref && storable_opt_text 128 auth && storable_opt_text 128 decl
  && between 100 599 (env_status_code envelope) && storable_body (env_body envelope)
  && storable_headers (persisted_headers (env_headers envelope)).

(** An entity whose version fits the column and whose pending operation agrees with its
    status. *)
Definition storable_transaction (t : Transaction) : Prop :=
  0 <= version t < 2 ^ 31
  /\ (status t = PENDING_RECONCILIATION <-> is_Some (pending_operation t)).

Lemma reconciliation_check t r :
  (status t = PENDING_RECONCILIATION <-> is_Some (pending_operation t)) ->
  t_status r = TransactionStatus_value (status t) ->
  t_pending_operation r = PendingOperation_value <$> pending_operation t ->
  chk_transactions_reconciliation_invariant r = true.
Proof.
  intros H Hs Hp. unfold chk_transactions_reconciliation_invariant. rewrite Hs, Hp.
  apply valid_cases in H as [(o & -> & ->)|[Hst ->]]; [done|].
  destruct (str_eqb _ _) eqn:E; [|done]. apply str_eqb_eq in E.
  exfalso. by apply Hst, TransactionStatus_value_inj.
Qed.

Lemma update_completed_transaction t ver nref auth decl d r :
  transactions d !! transaction_id t = Some r -> transaction_row_ok (transaction_id t) r ->
  t_version r = ver -> storable_transaction t ->
  storable_opt_text 128 nref = true -> storable_opt_text 128 auth = true ->
  storable_opt_text 128 decl = true ->
  update_transaction (transaction_id t) ver (completed_transaction t nref auth decl) d
  = SqlOk (Some (set_transaction (completed_transaction t nref auth decl) r)).
Proof.
  intros Hl (Hid & Hst & Hck) Hv [Hver Hp] Hn Ha Hd. unfold update_transaction.
  rewrite Hl, Hv, Z.eqb_refl. cbn [negb].
  assert (store_transaction_row (set_transaction (completed_transaction t nref auth decl) r)
          = Some (set_transaction (completed_transaction t nref auth decl) r)) as ->.
  { apply stored_transaction_row in Hst as (H1 & H2 & H3 & H4). unfold store_transaction_row.
    cbn [t_transaction_id t_merchant_id t_amount t_currency t_status t_pending_operation t_version
      t_network_reference t_authorization_code t_decline_code set_transaction completed_transaction
      v_status v_pending_operation v_version v_network_reference v_authorization_code
      v_decline_code].
    rewrite H1, H2, H3, H4, (proj1 (status_value_stored _)), (proj1 (pending_value_stored _)).
    rewrite (store_storable_opt _ nref), (store_storable_opt _ auth), (store_storable_opt _ decl)
      by done.
    unfold store_integer, int_range. cbn [mbind option_bind].
    assert (((- 2 ^ (32 - 1) <=? version t) && (version t <? 2 ^ (32 - 1))) = true) as ->
      by lia.
    done. }
  assert (transactions_checks (set_transaction (completed_transaction t nref auth decl) r) = true)
    as ->; [|done].
  unfold transactions_checks in *. rewrite !andb_true_iff in *.
  destruct Hck as (((((((H1 & H2) & H3) & H4) & H5) & H6) & H7) & H8).
  split_and!; try done.
  - unfold chk_transactions_version_non_negative. simpl. apply Z.leb_le. lia.
  - apply (status_value_stored (status t)).
  - apply (pending_value_stored (pending_operation t)).
  - by apply (reconciliation_check t).
Qed.

Lemma allowlisted_spec h :
  allowlisted_headers h = [] \/ exists v, allowlisted_headers h = [(py "Retry-After", v)].
Proof.
  unfold allowlisted_headers. induction h as [|kv h IH] using rev_ind; [by left|].
  rewrite fold_left_app. simpl. destruct (str_eqb _ _); [|done]. right. by eexists.
Qed.

Lemma update_completed_idempotency key tid envelope d r :
  idempotency_records d !! key = Some r -> idempotency_row_ok key r ->
  i_transaction_id r = tid -> i_processing_status r = py "IN_PROGRESS" ->
  between 100 599 (env_status_code envelope) = true -> storable_body (env_body envelope) = true ->
  storable_headers (persisted_headers (env_headers envelope)) = true ->
  update_idempotency key tid (py "IN_PROGRESS") (completed_idempotency envelope) d
  = SqlOk (Some (set_idempotency (completed_idempotency envelope) r)).
Proof.
  intros Hl (Hk & Hst & Hck) Ht Hp Hc Hb Hh. unfold update_idempotency. rewrite Hl.
  rewrite (proj2 (str_eqb_eq _ _) Ht), (proj2 (str_eqb_eq _ _) Hp). cbn [andb negb].
  assert (store_idempotency_row (set_idempotency (completed_idempotency envelope) r)
          = Some (set_idempotency (completed_idempotency envelope) r)) as ->.
  { apply stored_idempotency_row in Hst as (H1 & H2 & H3). unfold store_idempotency_row.
    cbn [i_idempotency_key_hash i_request_fingerprint i_processing_status i_transaction_id
      i_stored_status_code i_stored_response_body i_stored_headers set_idempotency
      completed_idempotency v_processing_status v_stored_status_code v_stored_response_body
      v_stored_headers].
    rewrite H1, H2, H3. cbn [mbind option_bind].
    change (store_varchar 32 (py "COMPLETED")) with (Some (py "COMPLETED")).
    cbn [mbind option_bind store_option].
    unfold between in Hc. apply andb_true_iff in Hc as [Hc1%Z.leb_le Hc2%Z.leb_le].
    unfold store_integer, int_range.
    destruct (Z.leb_spec (- 2 ^ (32 - 1)) (env_status_code envelope)); [|lia].
    destruct (Z.ltb_spec (env_status_code envelope) (2 ^ (32 - 1))); [|lia].
    cbn [andb fmap option_fmap option_map mbind option_bind].
    unfold store_body. unfold storable_body in Hb. rewrite Hb.
    cbn [andb fmap option_fmap option_map mbind option_bind].
    assert (store_option store_headers (persisted_headers (env_headers envelope))
            = Some (persisted_headers (env_headers envelope))) as ->; [|reflexivity].
    unfold storable_headers in Hh. destruct (persisted_headers _) as [h|]; [|reflexivity].
    unfold store_option, store_headers. by rewrite Hh. }
  assert (idempotency_checks (set_idempotency (completed_idempotency envelope) r) = true) as ->;
    [|done].
  unfold idempotency_checks in *. rewrite !andb_true_iff in *.
  destruct Hck as (((((H1 & H2) & H3) & H4) & H5) & H6). split_and!; try done.
  unfold chk_idempotency_stored_headers_allowlist.
  cbn [i_stored_headers set_idempotency completed_idempotency v_stored_headers].
  unfold persisted_headers.
  by destruct (allowlisted_spec (env_headers envelope)) as [->|[v ->]].
Qed.

(** The rows that [complete] updates: the transaction at the expected version, and the
    key reserved for it and still in progress. *)
Definition completable (d : db) (key tid : pystr) (ver : Z)
    : option (transaction_row * idempotency_row) :=
  match transactions d !! tid, idempotency_records d !! key with
  | Some r, Some r' =>
      if (t_version r =? ver) && str_eqb (i_transaction_id r') tid
         && str_eqb (i_processing_status r') (py "IN_PROGRESS")
      then Some (r, r') else None
  | _, _ => None
  end.

Lemma complete_result_storable key t ver envelope nref auth decl d :
  db_ok d -> storable_transaction t -> storable_response envelope nref auth decl = true ->
  complete_result key t ver envelope nref auth decl d =
  if negb (version t =? ver + 1) then (Raise OptimisticConcurrencyError, d)
  else match completable d key (transaction_id t) ver with
       | None => (Raise OptimisticConcurrencyError, d)
       | Some (r, r') =>
           (Ok tt,
            put_idempotency (set_idempotency (completed_idempotency envelope) r')
              (put_transaction (set_transaction (completed_transaction t nref auth decl) r) d))
       end.
Proof.
  intros (Hdt & Hdi & _) Ht Hr. unfold storable_response in Hr. rewrite !andb_true_iff in Hr.
  destruct Hr as (((((Hn & Ha) & Hd) & Hc) & Hb) & Hh).
  unfold complete_result, completable. destruct (negb (version t =? ver + 1)); [done|].
  destruct (transactions d !! transaction_id t) as [r|] eqn:Er.
  2: { unfold update_transaction. by rewrite Er. }
  destruct (Z.eqb_spec (t_version r) ver) as [Hv|Hv].
  2: { unfold update_transaction. rewrite Er. apply Z.eqb_neq in Hv. rewrite Hv. simpl.
       by destruct (idempotency_records d !! key). }
  rewrite (update_completed_transaction _ _ _ _ _ _ r) by (done || by apply Hdt).
  set (d1 := put_transaction _ d).
  change (idempotency_records d) with (idempotency_records d1) in *.
  destruct (idempotency_records d1 !! key) as [r'|] eqn:Er'.
  2: { unfold update_idempotency. by rewrite Er'. }
  destruct (str_eqb (i_transaction_id r') (transaction_id t)) eqn:Et; cbn [andb].
  2: { unfold update_idempotency. rewrite Er'. by rewrite Et. }
  destruct (str_eqb (i_processing_status r') (py "IN_PROGRESS")) eqn:Ep.
  2: { unfold update_idempotency. rewrite Er'. by rewrite Et, Ep. }
  apply str_eqb_eq in Et, Ep.
  by rewrite (update_completed_idempotency _ _ _ _ r') by (done || by apply Hdi).
Qed.
