(* ===== verification/Ledger.v ===== *)
(** What the idempotency coordinator promises (ports/idempotency_coordinator.py):
    an abstract ledger of keys and transactions, the port as a type class with its
    laws, and the proof that the SQL coordinator implements them. *)
From S2P Require Import Prelude PyStr Sha256 Json Domain Ports Idempotency Schema Effects.
From S2P Require Import Coordinator.

Open Scope Z_scope.

(** * The abstract specification *)

(** A key: the request it was first used for, and the cached response once there is one. *)
Record entry : Type := MkEntry {
  en_fingerprint : pystr;
  en_transaction_id : pystr;
  en_response : option ResponseEnvelope
}.

Record ledger : Type := MkLedger {
  l_keys : gmap pystr entry;
  l_transactions : gmap pystr transaction_row
}.

(** The response that later requests with the key are given. *)
Definition replay_of (envelope : ResponseEnvelope) : ResponseEnvelope :=
  MkEnvelope (env_status_code envelope) (env_body envelope)
    (allowlisted_headers (env_headers envelope)) true
    (Some (if 400 <=? env_status_code envelope then py "application/problem+json"
           else py "application/json")).

Definition ledger_reserve (key fp tid mid : pystr) (amount : Z) (currency : pystr) (l : ledger)
    : IdempotencyReservation * ledger :=
  match l_keys l !! key, l_transactions l !! tid with
  | Some e, _ =>
      (if negb (str_eqb (en_fingerprint e) fp) then reservation IDEMPOTENCY_CONFLICT
       else match en_response e with
            | None => reservation IN_PROGRESS
            | Some envelope => MkReservation COMPLETED (Some envelope)
            end, l)
  | None, Some _ => (reservation TRANSACTION_ID_CONFLICT, l)
  | None, None =>
      (reservation ACQUIRED,
       MkLedger (<[key := MkEntry fp tid None]> (l_keys l))
         (<[tid := reserved_transaction tid mid amount currency]> (l_transactions l)))
  end.

(** A completion is accepted once: for the key that reserved the transaction, while it
    has no response, and at the version the caller has seen. *)
Definition ledger_complete (key : pystr) (t : Transaction) (ver : Z) (envelope : ResponseEnvelope)
    (nref auth decl : option pystr) (l : ledger) : res exn unit * ledger :=
  match l_transactions l !! transaction_id t, l_keys l !! key with
  | Some r, Some (MkEntry fp tid None) =>
      if (version t =? ver + 1) && (t_version r =? ver) && str_eqb tid (transaction_id t)
      then (Ok tt,
            MkLedger (<[key := MkEntry fp tid (Some (replay_of envelope))]> (l_keys l))
              (<[transaction_id t :=
                   set_transaction (completed_transaction t nref auth decl) r]>
                 (l_transactions l)))
      else (Raise OptimisticConcurrencyError, l)
  | _, _ => (Raise OptimisticConcurrencyError, l)
  end.

(** * The abstraction of the tables *)

Definition entry_of (r : idempotency_row) : entry :=
  MkEntry (i_request_fingerprint r) (i_transaction_id r)
    (match i_stored_status_code r, i_stored_response_body r with
     | Some code, Some body =>
         Some (MkEnvelope code body (default [] (i_stored_headers r)) true
                 (Some (if 400 <=? code then py "application/problem+json"
                        else py "application/json")))
     | _, _ => None
     end).

Definition ledger_of (d : db) : ledger :=
  MkLedger (entry_of <$> idempotency_records d) (transactions d).

(** What the checks say of a stored record. *)
Lemma idempotency_row_cases k r :
  idempotency_row_ok k r ->
  (i_processing_status r = py "IN_PROGRESS" /\ i_stored_status_code r = None
   /\ i_stored_response_body r = None /\ i_stored_headers r = None)
  \/ (i_processing_status r = py "COMPLETED"
      /\ exists code body, i_stored_status_code r = Some code
                           /\ i_stored_response_body r = Some body).
Proof.
  intros (_ & _ & Hck). unfold idempotency_checks in Hck. rewrite !andb_true_iff in Hck.
  destruct Hck as (((_ & Hp) & _) & _). unfold chk_idempotency_payload_integrity in Hp.
  apply orb_true_iff in Hp as [Hp|Hp]; rewrite !andb_true_iff, str_eqb_eq in Hp;
    [right|left]; unfold is_null in Hp; destruct (i_stored_status_code r), (i_stored_response_body r),
    (i_stored_headers r); naive_solver.
Qed.

Lemma classify_entry k r fp :
  idempotency_row_ok k r ->
  _classify_existing r fp =
  Ok (if negb (str_eqb (en_fingerprint (entry_of r)) fp) then reservation IDEMPOTENCY_CONFLICT
      else match en_response (entry_of r) with
           | None => reservation IN_PROGRESS
           | Some envelope => MkReservation COMPLETED (Some envelope)
           end).
Proof.
  intros Hr. unfold _classify_existing, entry_of. cbn [en_fingerprint en_response].
  destruct (str_eqb (i_request_fingerprint r) fp); [|done]. cbn [negb].
  apply idempotency_row_cases in Hr as [(-> & -> & _)|(-> & code & body & -> & ->)]; done.
Qed.

Lemma entry_completed envelope r :
  entry_of (set_idempotency (completed_idempotency envelope) r)
  = MkEntry (i_request_fingerprint r) (i_transaction_id r) (Some (replay_of envelope)).
Proof.
  unfold entry_of, replay_of.
  cbn [set_idempotency completed_idempotency i_request_fingerprint i_transaction_id
    i_stored_status_code i_stored_response_body i_stored_headers v_stored_status_code
    v_stored_response_body v_stored_headers].
  unfold persisted_headers. by destruct (allowlisted_headers _).
Qed.

(** Every row a well-formed database holds keeps it well-formed when replaced. *)
Lemma db_ok_reserved r r' d :
  db_ok d -> transaction_row_ok (t_transaction_id r) r ->
  idempotency_row_ok (i_idempotency_key_hash r') r' ->
  is_Some (transactions (put_transaction r d) !! i_transaction_id r') ->
  db_ok (put_idempotency r' (put_transaction r d)).
Proof.
  intros (Ht & Hi & Hf) Hr Hr' Hs. unfold db_ok. split_and!.
  - by apply map_Forall_insert_2.
  - by apply map_Forall_insert_2.
  - intros k rec. cbn [idempotency_records put_idempotency transactions put_transaction].
    intros [[_ <-]|[_ Hk]]%lookup_insert_Some; [exact Hs|].
    apply lookup_insert_is_Some'. right. by eapply Hf.
Qed.

(** An update does not touch the columns it does not set. *)
Lemma updated_idempotency_row k r v r' :
  idempotency_row_ok k r -> store_idempotency_row (set_idempotency v r) = Some r' ->
  i_idempotency_key_hash r' = k /\ i_request_fingerprint r' = i_request_fingerprint r
  /\ i_transaction_id r' = i_transaction_id r.
Proof.
  intros (Hk & Hst & _). apply stored_idempotency_row in Hst as (H1 & H2 & H3).
  unfold store_idempotency_row.
  cbn [set_idempotency i_idempotency_key_hash i_request_fingerprint i_transaction_id
    i_processing_status i_stored_status_code i_stored_response_body i_stored_headers].
  rewrite H1, H2, H3. intros H. bind_some. simplify_option_eq. done.
Qed.

Lemma updated_transaction_row k r v r' :
  transaction_row_ok k r -> store_transaction_row (set_transaction v r) = Some r' ->
  t_transaction_id r' = k /\ t_merchant_id r' = t_merchant_id r
  /\ t_amount r' = t_amount r /\ t_currency r' = t_currency r.
Proof.
  intros (Hk & Hst & _). apply stored_transaction_row in Hst as (H1 & H2 & H3 & H4).
  unfold store_transaction_row.
  cbn [set_transaction t_transaction_id t_merchant_id t_amount t_currency t_status
    t_pending_operation t_version t_network_reference t_authorization_code t_decline_code].
  rewrite H1, H2, H3, H4. intros H. bind_some. simplify_option_eq. done.
Qed.

Lemma reserve_result_ok key fp tid mid amount currency d :
  db_ok d -> db_ok (snd (reserve_result key fp tid mid amount currency d)).
Proof.
  intros Hd. unfold reserve_result. destruct (idempotency_records d !! key); [done|].
  destruct (insert_transaction _ d) as [r| |] eqn:Ht; [|done..].
  destruct (insert_idempotency _ _) as [r'| |] eqn:Hi; [|done..]. cbn [snd].
  apply insert_transaction_ok in Ht as (_ & Hr & _).
  apply insert_idempotency_ok in Hi as (_ & Hr' & _ & Hs). by apply db_ok_reserved.
Qed.

Lemma complete_result_ok key t ver envelope nref auth decl d :
  db_ok d -> db_ok (snd (complete_result key t ver envelope nref auth decl d)).
Proof.
  intros Hd. unfold complete_result. destruct (negb _); [done|].
  destruct (update_transaction _ _ _ d) as [[r|]| |] eqn:Ht; [|done..].
  destruct (update_idempotency _ _ _ _ _) as [[r'|]| |] eqn:Hi; [|done..]. cbn [snd].
  apply update_transaction_row in Ht as (r0 & Hl & _ & _ & Hr).
  apply update_idempotency_row in Hi as (r0' & Hl' & _ & _ & Hst & Hr').
  apply db_ok_reserved; try done. destruct Hd as (_ & Hdi & Hf). cbn in Hl'.
  destruct (updated_idempotency_row _ _ _ _ (Hdi _ _ Hl') Hst) as (_ & _ & ->).
  cbn [transactions put_transaction]. apply lookup_insert_is_Some'. right. by eapply Hf.
Qed.

(** * The SQL coordinator refines the ledger *)

Lemma reserve_refines key fp tid mid amount currency d :
  db_ok d -> storable_request key fp tid mid amount currency = true ->
  let '(r, d') := reserve_result key fp tid mid amount currency d in
  let '(a, l') := ledger_reserve key fp tid mid amount currency (ledger_of d) in
  r = Ok a /\ ledger_of d' = l'.
Proof.
  intros (Ht & Hi & _) Hs. rewrite reserve_result_storable by done. unfold ledger_reserve.
  cbn [ledger_of l_keys l_transactions]. rewrite lookup_fmap.
  destruct (idempotency_records d !! key) as [record|] eqn:Hk; cbn [fmap option_fmap option_map].
  { by rewrite (classify_entry key) by (by apply Hi). }
  destruct (transactions d !! tid) as [r|]; [done|]. split; [done|].
  unfold ledger_of. cbn [put_idempotency put_transaction idempotency_records transactions
    t_transaction_id i_idempotency_key_hash reserved_transaction reserved_idempotency].
  by rewrite fmap_insert.
Qed.

Lemma complete_refines key t ver envelope nref auth decl d :
  db_ok d -> storable_transaction t -> storable_response envelope nref auth decl = true ->
  let '(r, d') := complete_result key t ver envelope nref auth decl d in
  ledger_complete key t ver envelope nref auth decl (ledger_of d) = (r, ledger_of d').
Proof.
  intros Hd Ht Hr. rewrite complete_result_storable by done. unfold ledger_complete, completable.
  cbn [ledger_of l_keys l_transactions]. rewrite lookup_fmap. destruct Hd as (Hdt & Hdi & _).
  destruct (version t =? ver + 1) eqn:Hv; cbn [negb].
  2: { destruct (transactions d !! _), (idempotency_records d !! key) as [r'|]; try done.
       cbn [fmap option_fmap option_map]. by destruct (entry_of r') as [? ? []]. }
  destruct (transactions d !! transaction_id t) as [r|] eqn:Er; [|done].
  destruct (idempotency_records d !! key) as [r'|] eqn:Er'; [|done].
  cbn [fmap option_fmap option_map]. unfold entry_of.
  pose proof (idempotency_row_cases _ _ (Hdi _ _ Er')) as [(-> & -> & _)|(-> & code & body & -> & ->)].
  2: { change (str_eqb (py "COMPLETED") (py "IN_PROGRESS")) with false. by rewrite andb_false_r. }
  change (str_eqb (py "IN_PROGRESS") (py "IN_PROGRESS")) with true. rewrite andb_true_r.
  cbn [andb]. destruct (_ && _); [|done]. unfold ledger_of.
  destruct (Hdi _ _ Er') as [Hkey _]. destruct (Hdt _ _ Er) as [Htid _].
  cbn [put_idempotency put_transaction idempotency_records transactions
    t_transaction_id i_idempotency_key_hash set_transaction set_idempotency].
  by rewrite fmap_insert, entry_completed, Hkey, Htid.
Qed.

(** * The port *)

(** [IdempotencyCoordinatorPort]. *)
Class IdempotencyCoordinatorPort : Type := {
  co_reserve : pystr -> pystr -> pystr -> pystr -> Z -> pystr -> io IdempotencyReservation;
  co_complete : pystr -> Transaction -> Z -> ResponseEnvelope ->
                option pystr -> option pystr -> option pystr -> io unit
}.

(** What a client may rely on when its calls run alone and nothing fails: [holds s l]
    says that the state [s] stands for the ledger [l]. *)
Class CoordinatorLaws `{IdempotencyCoordinatorPort} : Type := {
  holds : seq_state -> ledger -> Prop;
  holds_posts : forall s l posts, holds s l -> holds (MkSeq (sq_db s) (sq_tx s) posts) l;
  reserve_law : forall net s l key fp tid mid amount currency,
    holds s l -> storable_request key fp tid mid amount currency = true ->
    let '(a, l') := ledger_reserve key fp tid mid amount currency l in
    exists s', eval net (co_reserve key fp tid mid amount currency) s = (Ok a, s')
               /\ holds s' l' /\ sq_posts s' = sq_posts s;
  complete_law : forall net s l key t ver envelope nref auth decl,
    holds s l -> storable_transaction t -> storable_response envelope nref auth decl = true ->
    let '(r, l') := ledger_complete key t ver envelope nref auth decl l in
    exists s', eval net (co_complete key t ver envelope nref auth decl) s = (r, s')
               /\ holds s' l' /\ sq_posts s' = sq_posts s;
  (* a reference that does not fit its column *)
  complete_unfit : forall net s l key t ver envelope nref auth decl,
    holds s l ->
    store_opt_varchar 128 nref = None \/ store_opt_varchar 128 auth = None
      \/ store_opt_varchar 128 decl = None ->
    exists e s', eval net (co_complete key t ver envelope nref auth decl) s = (Raise e, s')
                 /\ is_PersistenceError e = true /\ holds s' l /\ sq_posts s' = sq_posts s
}.

#[export] Instance sql_coordinator : IdempotencyCoordinatorPort := {|
  co_reserve := reserve;
  co_complete := complete
|}.

Lemma complete_result_unfit key t ver envelope nref auth decl d :
  store_opt_varchar 128 nref = None \/ store_opt_varchar 128 auth = None
    \/ store_opt_varchar 128 decl = None ->
  exists e, complete_result key t ver envelope nref auth decl d = (Raise e, d)
            /\ is_PersistenceError e = true.
Proof.
  intros Hu. unfold complete_result. destruct (negb _); [by eexists|].
  destruct (update_transaction _ _ _ d) as [[r|]| |] eqn:Ht; try by eexists.
  exfalso. apply update_transaction_row in Ht as (r0 & _ & _ & Hst & _).
  unfold store_transaction_row in Hst. bind_some. cbn in *.
  by destruct Hu as [Hu|[Hu|Hu]]; simplify_eq.
Qed.

#[local] Obligation Tactic := idtac.
#[export] Program Instance sql_laws : CoordinatorLaws := {|
  holds s l := sq_tx s = None /\ db_ok (sq_db s) /\ l = ledger_of (sq_db s)
|}.
Next Obligation. intros [d tx posts] l posts' H. exact H. Qed.
Next Obligation.
  intros net [d tx posts] l key fp tid mid amount currency (Htx & Hd & ->) Hs. cbn in Htx; subst tx.
  cbn [sq_db sq_posts co_reserve sql_coordinator] in *. rewrite eval_reserve.
  pose proof (reserve_refines key fp tid mid amount currency d Hd Hs) as Hr.
  pose proof (reserve_result_ok key fp tid mid amount currency d Hd) as Hok.
  destruct (reserve_result _ _ _ _ _ _ d) as [r d'], (ledger_reserve _ _ _ _ _ _ _) as [a l'].
  destruct Hr as [-> <-]. by eexists.
Qed.
Next Obligation.
  intros net [d tx posts] l key t ver envelope nref auth decl (Htx & Hd & ->) Ht Hs.
  cbn in Htx; subst tx. cbn [sq_db sq_posts co_complete sql_coordinator] in *. rewrite eval_complete.
  pose proof (complete_refines key t ver envelope nref auth decl d Hd Ht Hs) as Hr.
  pose proof (complete_result_ok key t ver envelope nref auth decl d Hd) as Hok.
  destruct (complete_result _ _ _ _ _ _ _ d) as [r d'], (ledger_complete _ _ _ _ _ _ _ _) as [a l'].
  simplify_eq. by eexists.
Qed.
Next Obligation.
  intros net [d tx posts] l key t ver envelope nref auth decl (Htx & Hd & ->) Hu.
  cbn in Htx; subst tx. cbn [sq_db sq_posts co_complete sql_coordinator] in *. rewrite eval_complete.
  destruct (complete_result_unfit key t ver envelope nref auth decl d Hu) as (e & -> & He).
  by eexists _, _.
Qed.

(** * Properties *)

Section properties.
Context `{Engine} (net : network) (i : nat).

(** C17.  [reserve] implements the ledger.  On a healthy engine that runs no other
    transaction, and for a request the tables accept, it always returns; a known key
    gives a conflict when the fingerprint differs, IN_PROGRESS while there is no
    response and the cached response afterwards; a fresh key with a known transaction
    gives TRANSACTION_ID_CONFLICT; only a fresh key with a fresh transaction is
    ACQUIRED, and then exactly the two rows of the reservation are added.  The tables
    stay well-formed, and no HTTP request is sent. *)
Theorem reserve_implements_ledger st d posts key fp tid mid amount currency :
  idle st d -> db_ok d -> storable_request key fp tid mid amount currency = true ->
  let '(a, l') := ledger_reserve key fp tid mid amount currency (ledger_of d) in
  exists st' d', run net i (reserve key fp tid mid amount currency) st posts = Some (Ok a, (st', posts))
                 /\ idle st' d' /\ db_ok d' /\ ledger_of d' = l'.
Proof.
  intros Hst Hd Hs. pose proof (reserve_refines key fp tid mid amount currency d Hd Hs) as Hr.
  pose proof (reserve_result_ok key fp tid mid amount currency d Hd) as Hok.
  pose proof (eval_reserve net posts key fp tid mid amount currency d) as He.
  destruct (reserve_result _ _ _ _ _ _ d) as [r d'], (ledger_reserve _ _ _ _ _ _ _) as [a l'].
  destruct Hr as [-> <-]. destruct (run_alone net _ i st d posts _ _ _ Hst He) as (st' & Hrun & Hi).
  by exists st', d'.
Qed.

(** C18.  [complete] implements the ledger: a completion is accepted exactly when the
    entity is one version past the stored one, the stored version is the expected one,
    and the key was reserved for this transaction and has no response yet; then the
    transaction row and the cached response are written together.  In every other case
    it raises [OptimisticConcurrencyError] and changes nothing. *)
Theorem complete_implements_ledger st d posts key t ver envelope nref auth decl :
  idle st d -> db_ok d -> storable_transaction t ->
  storable_response envelope nref auth decl = true ->
  let '(r, l') := ledger_complete key t ver envelope nref auth decl (ledger_of d) in
  exists st' d', run net i (complete key t ver envelope nref auth decl) st posts
                 = Some (r, (st', posts))
                 /\ idle st' d' /\ db_ok d' /\ ledger_of d' = l'.
Proof.
  intros Hst Hd Ht Hs.
  pose proof (complete_refines key t ver envelope nref auth decl d Hd Ht Hs) as Hr.
  pose proof (complete_result_ok key t ver envelope nref auth decl d Hd) as Hok.
  pose proof (eval_complete net posts key t ver envelope nref auth decl d) as He.
  destruct (complete_result _ _ _ _ _ _ _ d) as [r d'], (ledger_complete _ _ _ _ _ _ _ _) as [a l'].
  simplify_eq. destruct (run_alone net _ i st d posts _ _ _ Hst He) as (st' & Hrun & Hi).
  by exists st', d'.
Qed.
End properties.

Lemma db_ok_empty : db_ok empty_db.
Proof. split_and!; apply map_Forall_empty. Qed.

(** ** Concrete runs *)

Definition sample_key : pystr := replicate 64 97%N.
Definition sample_fingerprint : pystr := replicate 64 98%N.
Definition sample_reserved : db :=
  snd (reserve_result sample_key sample_fingerprint (py "txn_1") (py "merchant_1") 2500 (py "USD")
         empty_db).
Definition sample_attempt : Transaction := MkTransaction (py "txn_1") DECLINED 1 None.
Definition sample_envelope : ResponseEnvelope :=
  MkEnvelope 201 {[ py "status" := JStr (py "DECLINED") ]} [] false (Some (py "application/json")).
(** A network that never answers. *)
Definition silent_network : network := fun _ _ => Raise HttpxTimeoutException.

Lemma serving_idle d : @idle ReferenceEngine.engine (ReferenceEngine.serving d) d.
Proof. split; [constructor | reflexivity]. Qed.

Lemma reserve_implements_ledger_witness :
  let '(a, l') := ledger_reserve sample_key sample_fingerprint (py "txn_1") (py "merchant_1") 2500
                    (py "USD") (ledger_of empty_db) in
  res_status a = ACQUIRED
  /\ exists st' d',
      @run ReferenceEngine.engine silent_network _ 0
        (reserve sample_key sample_fingerprint (py "txn_1") (py "merchant_1") 2500 (py "USD"))
        (ReferenceEngine.serving empty_db) []
      = Some (Ok a, (st', []))
      /\ @idle ReferenceEngine.engine st' d' /\ db_ok d' /\ ledger_of d' = l'.
Proof.
  split; [reflexivity|].
  exact (@reserve_implements_ledger ReferenceEngine.engine silent_network 0
           (ReferenceEngine.serving empty_db) empty_db [] sample_key sample_fingerprint (py "txn_1")
           (py "merchant_1") 2500 (py "USD") (serving_idle empty_db) db_ok_empty eq_refl).
Defined.

Lemma complete_implements_ledger_witness :
  let '(r, l') := ledger_complete sample_key sample_attempt 0 sample_envelope None None None
                    (ledger_of sample_reserved) in
  r = Ok tt
  /\ exists st' d',
      @run ReferenceEngine.engine silent_network _ 0
        (complete sample_key sample_attempt 0 sample_envelope None None None)
        (ReferenceEngine.serving sample_reserved) []
      = Some (r, (st', []))
      /\ @idle ReferenceEngine.engine st' d' /\ db_ok d' /\ ledger_of d' = l'.
Proof.
  split; [vm_compute; reflexivity|].
  refine (@complete_implements_ledger ReferenceEngine.engine silent_network 0
           (ReferenceEngine.serving sample_reserved) sample_reserved [] sample_key sample_attempt 0
           sample_envelope None None None (serving_idle sample_reserved) _ _ _).
  - apply reserve_result_ok, db_ok_empty.
  - split; [cbn; lia|]. split; intros H; [discriminate H | destruct H as [o Ho]; discriminate Ho].
  - vm_compute. reflexivity.
Defined.
