(* ===== verification/Orchestrator.v ===== *)
(** Reservation, authorization and completion of one request
    (application/idempotent_orchestrator.py), against the two ports. *)
From S2P Require Import Prelude PyStr Sha256 Json Domain Ports Idempotency Schema Effects Adapter.
From S2P Require Import Authorize Problem Coordinator Ledger.

Open Scope Z_scope.
Open Scope io_scope.

(** * Operations *)

Definition _make_problem_envelope (status_code : Z) (problem_type title detail : pystr)
    (headers : option header_dict) : ResponseEnvelope :=
  MkEnvelope status_code
    (ProblemDetail_dump (MkProblem problem_type title status_code detail None))
    (default [] headers) false (Some PROBLEM_MEDIA_TYPE).

Definition map_result_to_envelope (result : AuthorizeTransactionResult) : ResponseEnvelope :=
  let txn := ar_transaction result in
  match status txn with
  | AUTHORIZED =>
      MkEnvelope 201
        {[ py "transaction_id" := JStr (transaction_id txn);
           py "status" := JStr (py "AUTHORIZED");
           py "version" := JInt (version txn);
           py "network_reference" := JStr (default [] (ar_network_reference result));
           py "authorization_code" := JStr (default [] (ar_authorization_code result)) ]}
        [] false (Some (py "application/json"))
  | DECLINED =>
      MkEnvelope 201
        {[ py "transaction_id" := JStr (transaction_id txn);
           py "status" := JStr (py "DECLINED");
           py "version" := JInt (version txn);
           py "decline_code" := JStr (default [] (ar_decline_code result)) ]}
        [] false (Some (py "application/json"))
  | _ =>
      MkEnvelope 202
        {[ py "transaction_id" := JStr (transaction_id txn);
           py "status" := JStr (py "PENDING_RECONCILIATION");
           py "version" := JInt (version txn);
           py "pending_operation" := JStr (py "AUTHORIZATION") ]}
        [] false (Some (py "application/json"))
  end.

Definition idempotency_conflict_envelope : ResponseEnvelope :=
  _make_problem_envelope 409 (py "urn:problem-type:idempotency-conflict")
    (py "Idempotency Conflict")
    (py "The request payload does not match the original request for this idempotency key.") None.

Definition in_progress_envelope : ResponseEnvelope :=
  _make_problem_envelope 409 (py "urn:problem-type:idempotency-in-progress")
    (py "Idempotency Request In Progress")
    (py "A request with this idempotency key is currently being processed.")
    (Some [(py "Retry-After", py "1")]).

Definition transaction_id_conflict_envelope : ResponseEnvelope :=
  _make_problem_envelope 409 (py "urn:problem-type:transaction-id-conflict")
    (py "Transaction ID Conflict")
    (py "The provided transaction_id already exists under a different idempotency key.") None.

Definition rate_limited_envelope (retry_after : Z) : ResponseEnvelope :=
  _make_problem_envelope 503 (py "urn:problem-type:provider-rate-limited")
    (py "Downstream rate limit exceeded")
    (py "Downstream payment network rate limit exceeded.")
    (Some [(py "Retry-After", py_str_int retry_after)]).

Definition rejected_envelope : ResponseEnvelope :=
  _make_problem_envelope 502 (py "urn:problem-type:downstream-rejected")
    (py "Payment network request rejected")
    (py "The payment network rejected the authorization request.") None.

(** The local variables that the [try] statement assigns. *)
Record completion : Type := MkCompletion {
  cp_transaction : Transaction;
  cp_envelope : ResponseEnvelope;
  cp_network_reference : option pystr;
  cp_authorization_code : option pystr;
  cp_decline_code : option pystr
}.

Section handle.
Context `{IdempotencyCoordinatorPort, PaymentNetworkPort}.

(** The [try] statement around the service. *)
Definition invoke_service (command : AuthorizeTransactionCommand) : io completion :=
  try_except
    (let! result := execute command in
     io_ret (MkCompletion (ar_transaction result) (map_result_to_envelope result)
               (ar_network_reference result) (ar_authorization_code result)
               (ar_decline_code result)))
    (fun exc =>
       match exc with
       | DownstreamRateLimitExceededError txn retry_after =>
           io_ret (MkCompletion txn (rate_limited_envelope retry_after) None None None)
       | DownstreamRejectedError txn =>
           io_ret (MkCompletion txn rejected_envelope None None None)
       | e => io_raise e
       end).

Definition handle_authorization (command : AuthorizeTransactionCommand) (idempotency_key : pystr)
    : io ResponseEnvelope :=
  let! key_hash := io_lift (compute_key_hash idempotency_key) in
  let! request_fingerprint := io_lift (compute_request_fingerprint
      (cmd_amount command) (cmd_currency command) (cmd_merchant_id command)
      (cmd_payment_token command) (cmd_transaction_id command)) in
  let! reservation := co_reserve key_hash request_fingerprint (cmd_transaction_id command)
      (cmd_merchant_id command) (cmd_amount command) (cmd_currency command) in
  match res_status reservation with
  | COMPLETED =>
      match res_stored_envelope reservation with
      | Some envelope => io_ret envelope
      | None => io_raise AssertionError
      end
  | IDEMPOTENCY_CONFLICT => io_ret idempotency_conflict_envelope
  | IN_PROGRESS => io_ret in_progress_envelope
  | TRANSACTION_ID_CONFLICT => io_ret transaction_id_conflict_envelope
  | ACQUIRED =>
      let! c := invoke_service command in
      co_complete key_hash (cp_transaction c) 0 (cp_envelope c) (cp_network_reference c)
        (cp_authorization_code c) (cp_decline_code c) ;!
      io_ret (cp_envelope c)
  end.
End handle.

(** * What a first request is answered *)

(** The completion of each verdict of the network, or the exception that escapes. *)
Definition completion_of (tid : pystr) (v : verdict) : res exn completion :=
  match v with
  | VAuthorized n a =>
      Ok (MkCompletion (attempted tid AUTHORIZED None)
            (map_result_to_envelope
               (MkResult (attempted tid AUTHORIZED None) (Some n) (Some a) None))
            (Some n) (Some a) None)
  | VDeclined d =>
      Ok (MkCompletion (attempted tid DECLINED None)
            (map_result_to_envelope (MkResult (attempted tid DECLINED None) None None (Some d)))
            None None (Some d))
  | VUnknown =>
      Ok (MkCompletion (attempted tid PENDING_RECONCILIATION (Some AUTHORIZATION))
            (map_result_to_envelope
               (MkResult (attempted tid PENDING_RECONCILIATION (Some AUTHORIZATION))
                  None None None))
            None None None)
  | VRateLimited k =>
      Ok (MkCompletion (attempted tid FAILED None) (rate_limited_envelope k) None None None)
  | VRejected => Ok (MkCompletion (attempted tid FAILED None) rejected_envelope None None None)
  | VCrash e => Raise e
  end.

(** Exceptions the service lets through are not its own. *)
Definition foreign (v : verdict) : Prop :=
  match v with
  | VCrash (DownstreamRateLimitExceededError _ _) | VCrash (DownstreamRejectedError _) => False
  | _ => True
  end.

Lemma eval_invoke_service net a command s :
  strip (cmd_transaction_id command) <> [] ->
  let post := authorization_post a (port_request command) in
  let v := http_verdict (net (length (sq_posts s)) post) in
  foreign v ->
  eval net (@invoke_service (http_port a) command) s =
  (completion_of (cmd_transaction_id command) v,
   MkSeq (sq_db s) (sq_tx s) (sq_posts s ++ [post])).
Proof.
  intros Hid post v Hf. unfold invoke_service. rewrite eval_try_except, eval_io_bind.
  rewrite eval_execute_http by done. cbv zeta. fold post v.
  destruct v as [n x|d|k| | |e]; try done. by destruct e.
Qed.

(** ** Responses the tables can cache *)

(** The texts of the network that are stored. *)
Definition fits (v : verdict) : bool :=
  match v with
  | VAuthorized n a => storable_text 128 n && storable_text 128 a
  | VDeclined d => storable_text 128 d
  | _ => true
  end.

Lemma text_ok_py_str_int z : text_ok (py_str_int z) = true.
Proof.
  apply forallb_Forall_iff.
  assert (Hd : forall n, Forall (fun c => negb (c =? 0)%N && is_scalar c = true) (dec_digits n)).
  { intros n. eapply Forall_impl; [apply dec_fuel_ascii|]. intros c. cbn beta.
    unfold is_digit_ascii, is_scalar, in_range.
    rewrite !andb_true_iff, !negb_true_iff, andb_false_iff, !N.leb_le, !N.leb_gt, N.eqb_neq. lia. }
  unfold py_str_int. destruct (z <? 0)%Z; [|apply Hd]. constructor; [done | apply Hd].
Qed.

Lemma storable_body_insert k v b :
  text_ok k && jsonb_ok v = true -> storable_body b = true -> storable_body (<[k := v]> b) = true.
Proof.
  unfold storable_body. rewrite !bool_decide_eq_true. intros Hv Hb. by apply map_Forall_insert_2.
Qed.

Lemma storable_body_singleton k v :
  text_ok k && jsonb_ok v = true -> storable_body {[ k := v ]} = true.
Proof. unfold storable_body. rewrite bool_decide_eq_true, map_Forall_singleton. done. Qed.

(** Closes the storability of a body from that of its texts. *)
Ltac store_body :=
  repeat apply storable_body_insert; try apply storable_body_singleton;
  cbn [jsonb_ok default]; rewrite ?andb_true_r; first [assumption | vm_compute; reflexivity].

Lemma completion_storable tid v c :
  text_ok tid = true -> fits v = true -> completion_of tid v = Ok c ->
  storable_transaction (cp_transaction c)
  /\ storable_response (cp_envelope c) (cp_network_reference c) (cp_authorization_code c)
       (cp_decline_code c) = true.
Proof.
  intros Ht Hf Hc. split.
  { destruct v; cbn in Hc; simplify_eq; (split; [cbn; lia|]); cbn; split; (done || by intros [? [=]]). }
  assert (Htid : text_ok (py "transaction_id") && text_ok tid = true) by (by rewrite Ht).
  destruct v as [n a|d|k| | |e]; cbn in Hf, Hc; try discriminate; apply Ok_inj in Hc; subst c;
    unfold storable_response; cbn [cp_envelope cp_network_reference cp_authorization_code
      cp_decline_code storable_opt_text].
  - apply andb_true_iff in Hf as [Hn Ha]. rewrite Hn, Ha.
    apply storable_text_spec in Hn as [Hn _], Ha as [Ha _]. cbn [andb storable_opt_text].
    apply andb_true_iff; split; [|reflexivity].
    apply andb_true_iff; split; [reflexivity|]. unfold map_result_to_envelope.
    cbn [env_body status transaction_id version attempted ar_transaction ar_network_reference
      ar_authorization_code]. store_body.
  - rewrite Hf. apply storable_text_spec in Hf as [Hf _]. cbn [andb storable_opt_text].
    apply andb_true_iff; split; [|reflexivity].
    apply andb_true_iff; split; [reflexivity|]. unfold map_result_to_envelope.
    cbn [env_body status transaction_id version attempted ar_transaction ar_decline_code].
    store_body.
  - apply andb_true_iff; split; [vm_compute; reflexivity|].
    change (persisted_headers (env_headers (rate_limited_envelope k)))
      with (Some [(py "Retry-After", py_str_int k)]).
    cbn [storable_headers forallb fst snd]. by rewrite text_ok_py_str_int.
  - vm_compute. reflexivity.
  - cbn [andb]. apply andb_true_iff; split; [|reflexivity].
    apply andb_true_iff; split; [reflexivity|]. unfold map_result_to_envelope.
    cbn [env_body status transaction_id version attempted ar_transaction]. store_body.
Qed.

(** A trimmed text that does not fit is refused, not cut. *)
Lemma unfit_rejected n s :
  trimmed s -> storable_text n s = false -> store_varchar n s = None.
Proof.
  intros [_ Hlast]. unfold storable_text, store_varchar. destruct (text_ok s); [|done]. cbn [andb negb].
  destruct (Nat.leb_spec (length s) n) as [|Hlen]; [done|]. intros _.
  destruct (forallb _ (drop n s)) eqn:Hsp; [|done]. exfalso.
  apply forallb_Forall_iff in Hsp.
  destruct (drop n s) as [|c t] eqn:Ed using rev_ind.
  { apply (f_equal length) in Ed. rewrite length_drop in Ed. simpl in Ed. lia. }
  apply Forall_app in Hsp as [_ Hsp]. inversion Hsp as [|? ? Hc _]; subst.
  rewrite <- (take_drop n s), Ed, app_assoc, last_snoc in Hlast.
  apply N.eqb_eq in Hc. subst c. by specialize (Hlast _ eq_refl).
Qed.

(** What the network adapter guarantees of a verdict. *)
Lemma http_verdict_clean answer :
  post_contract answer ->
  match http_verdict answer with
  | VAuthorized n a => trimmed n /\ trimmed a
  | VDeclined d => trimmed d
  | VRateLimited k => 1 <= k <= 60
  | VCrash e => e = OtherError
  | _ => True
  end.
Proof.
  intros Hc. destruct answer as [resp|e]; cbn [http_verdict].
  - pose proof (handle_response_meaning resp) as H. unfold answer_meaning in H.
    assert (Ht : forall data name t, has_text data name t -> trimmed t).
    { intros data name t (u & _ & -> & _). apply strip_trimmed. }
    destruct (_handle_response resp) as [[]|[]]; cbn in *; try done; try tauto.
    + destruct H as [_ (data & _ & _ & H1 & H2)]. by eauto.
    + destruct H as [_ (data & _ & _ & H1)]. by eauto.
  - by destruct (Hc e eq_refl) as [->|[->|[->| ->]]].
Qed.

(** The response to a request that is not the first with its key and identifier. *)
Definition immediate (a : IdempotencyReservation) : ResponseEnvelope :=
  match res_status a with
  | COMPLETED => default in_progress_envelope (res_stored_envelope a)
  | IDEMPOTENCY_CONFLICT => idempotency_conflict_envelope
  | IN_PROGRESS => in_progress_envelope
  | _ => transaction_id_conflict_envelope
  end.

(** The ledger step of a reservation, by status. *)
Lemma ledger_reserve_cases key fp tid mid amount currency l :
  let '(a, l1) := ledger_reserve key fp tid mid amount currency l in
  match res_status a with
  | ACQUIRED =>
      l_keys l !! key = None /\ l_transactions l !! tid = None
      /\ l_keys l1 = <[key := MkEntry fp tid None]> (l_keys l)
      /\ l_transactions l1
         = <[tid := reserved_transaction tid mid amount currency]> (l_transactions l)
  | COMPLETED => l1 = l /\ is_Some (res_stored_envelope a)
  | _ => l1 = l
  end.
Proof.
  unfold ledger_reserve. destruct (l_keys l !! key) as [[fp' tid' [e|]]|];
    [| |by destruct (l_transactions l !! tid)]; cbn [en_fingerprint en_response];
    by destruct (str_eqb fp' fp).
Qed.

(** The completion of a fresh reservation is accepted. *)
Lemma ledger_complete_reserved key fp tid mid amount currency l c v :
  let '(a, l1) := ledger_reserve key fp tid mid amount currency l in
  res_status a = ACQUIRED -> completion_of tid v = Ok c ->
  exists l2,
    ledger_complete key (cp_transaction c) 0 (cp_envelope c) (cp_network_reference c)
      (cp_authorization_code c) (cp_decline_code c) l1 = (Ok tt, l2)
    /\ l_keys l2 !! key = Some (MkEntry fp tid (Some (replay_of (cp_envelope c)))).
Proof.
  pose proof (ledger_reserve_cases key fp tid mid amount currency l) as H.
  destruct (ledger_reserve _ _ _ _ _ _ l) as [a l1]. intros Ha Hc. rewrite Ha in H.
  destruct H as (_ & _ & Hk & Ht). unfold ledger_complete.
  assert (transaction_id (cp_transaction c) = tid /\ version (cp_transaction c) = 1) as [-> ->].
  { destruct v; cbn in Hc; try discriminate; apply Ok_inj in Hc; by subst c. }
  rewrite Hk, Ht, !lookup_insert_eq. cbn [t_version reserved_transaction].
  rewrite (proj2 (str_eqb_eq tid tid) eq_refl). cbn [Z.eqb Z.add Pos.eqb andb].
  eexists. split; [reflexivity|]. cbn [l_keys]. by rewrite lookup_insert_eq.
Qed.

Section behaviour.
Context `{CoordinatorLaws} (net : network) (adapter : HttpPaymentNetworkAdapter).
Hypothesis net_contract : forall n req, post_contract (net n req).

(** A request whose parts the tables accept, and its two digests. *)
Definition well_formed (command : AuthorizeTransactionCommand) (raw_key key fp : pystr) : Prop :=
  strip (cmd_transaction_id command) <> []
  /\ compute_key_hash raw_key = Ok key
  /\ compute_request_fingerprint (cmd_amount command) (cmd_currency command)
       (cmd_merchant_id command) (cmd_payment_token command) (cmd_transaction_id command) = Ok fp
  /\ storable_request key fp (cmd_transaction_id command) (cmd_merchant_id command)
       (cmd_amount command) (cmd_currency command) = true.

Abbreviation reserve_of command key fp l :=
  (ledger_reserve key fp (cmd_transaction_id command) (cmd_merchant_id command)
     (cmd_amount command) (cmd_currency command) l).
Abbreviation handle command raw_key :=
  (@handle_authorization _ (http_port adapter) command raw_key).
Abbreviation complete_of key c l :=
  (ledger_complete key (cp_transaction c) 0 (cp_envelope c) (cp_network_reference c)
     (cp_authorization_code c) (cp_decline_code c) l).

(** Everything up to the reservation. *)
Lemma eval_handle_reserve command raw_key key fp s l :
  holds s l -> well_formed command raw_key key fp ->
  let '(a, l1) := reserve_of command key fp l in
  exists s1, holds s1 l1 /\ sq_posts s1 = sq_posts s
  /\ eval net (handle command raw_key) s =
     match res_status a with
     | ACQUIRED =>
         eval net (let! c := @invoke_service (http_port adapter) command in
                   co_complete key (cp_transaction c) 0 (cp_envelope c) (cp_network_reference c)
                     (cp_authorization_code c) (cp_decline_code c) ;!
                   io_ret (cp_envelope c)) s1
     | _ => (Ok (immediate a), s1)
     end.
Proof.
  intros Hs (Hid & Hk & Hf & Hst).
  pose proof (reserve_law net s l _ _ _ _ _ _ Hs Hst) as Hr.
  pose proof (ledger_reserve_cases key fp (cmd_transaction_id command) (cmd_merchant_id command)
                (cmd_amount command) (cmd_currency command) l) as Hcases.
  destruct (ledger_reserve _ _ _ _ _ _ l) as [a l1]. destruct Hr as (s1 & He & Hs1 & Hp).
  exists s1. split; [done|]. split; [done|]. unfold handle_authorization.
  rewrite eval_io_bind. cbn [io_lift eval]. rewrite Hk, eval_io_bind. cbn [io_lift eval]. rewrite Hf.
  rewrite eval_io_bind, He. unfold immediate. destruct (res_status a); try reflexivity.
  destruct Hcases as [_ [e ->]]. reflexivity.
Qed.

(** What handling one request does, on every branch: from the ledger [l] with [posts]
    sent, the result [r], the ledger [l'] and the requests [posts'] sent. *)
Definition handled (command : AuthorizeTransactionCommand) (key fp : pystr)
    (l : ledger) (posts : list http_request) (r : res exn ResponseEnvelope)
    (l' : ledger) (posts' : list http_request) : Prop :=
  let post := authorization_post adapter (port_request command) in
  let v := http_verdict (net (length posts) post) in
  let '(a, l1) := reserve_of command key fp l in
  match res_status a with
  | ACQUIRED =>
      posts' = posts ++ [post]
      /\ match completion_of (cmd_transaction_id command) v with
         | Raise e => r = Raise e /\ e = OtherError /\ l' = l1
         | Ok c =>
             if fits v then r = Ok (cp_envelope c) /\ complete_of key c l1 = (Ok tt, l')
             else (exists e, r = Raise e /\ is_PersistenceError e = true) /\ l' = l1
         end
  | _ => r = Ok (immediate a) /\ l' = l /\ posts' = posts
  end.

Lemma eval_handle command raw_key key fp s l :
  holds s l -> well_formed command raw_key key fp ->
  let '(r, s') := eval net (handle command raw_key) s in
  exists l', holds s' l' /\ handled command key fp l (sq_posts s) r l' (sq_posts s').
Proof.
  intros Hs Hwf. unfold handled. set (post := authorization_post adapter (port_request command)).
  set (v := http_verdict (net (length (sq_posts s)) post)).
  pose proof (eval_handle_reserve command raw_key key fp s l Hs Hwf) as Hr.
  pose proof (ledger_reserve_cases key fp (cmd_transaction_id command) (cmd_merchant_id command)
                (cmd_amount command) (cmd_currency command) l) as Hcases.
  pose proof (fun c => ledger_complete_reserved key fp (cmd_transaction_id command)
                (cmd_merchant_id command) (cmd_amount command) (cmd_currency command) l c v) as Hcpl.
  destruct (ledger_reserve _ _ _ _ _ _ l) as [a l1]. destruct Hr as (s1 & Hs1 & Hp & ->).
  destruct Hwf as (Hid & _ & _ & Hst).
  assert (Htid : text_ok (cmd_transaction_id command) = true).
  { unfold storable_request in Hst. rewrite !andb_true_iff in Hst.
    destruct Hst as ((((((_ & _) & Ht) & _) & _) & _) & _).
    by apply andb_true_iff in Ht as [[Ht _]%storable_text_spec _]. }
  pose proof (http_verdict_clean _ (net_contract (length (sq_posts s)) post)) as Hclean. fold v in Hclean.
  assert (Hother : res_status a <> ACQUIRED -> l1 = l).
  { destruct (res_status a); try done. by intros _; destruct Hcases. }
  destruct (res_status a) eqn:Ha; [|rewrite Hother in Hs1 by done; by exists l..].
  rewrite eval_io_bind, eval_invoke_service, Hp; [|done|rewrite Hp; fold post v; destruct v; try done; by subst].
  fold post v. rewrite <- Hp in *.
  set (s2 := MkSeq _ _ _). assert (Hs2 : holds s2 l1) by (by apply holds_posts).
  destruct (completion_of (cmd_transaction_id command) v) as [c|e] eqn:Hc; cycle 1.
  { exists l1. cbn. split; [done|]. split; [by rewrite Hp|]. destruct v; try discriminate.
    cbn in Hc. by simplify_eq. }
  rewrite eval_io_bind. destruct (fits v) eqn:Hfit.
  - destruct (completion_storable _ _ _ Htid Hfit Hc) as [Ht2 Hr2].
    destruct (Hcpl c eq_refl eq_refl) as (l2 & Hl2 & _).
    pose proof (complete_law net s2 l1 key (cp_transaction c) 0 _ _ _ _ Hs2 Ht2 Hr2) as Hcl.
    rewrite Hl2 in Hcl. destruct Hcl as (s3 & -> & Hs3 & Hp3). cbn. rewrite Hp3. by exists l2.
  - destruct (complete_unfit net s2 l1 key (cp_transaction c) 0 (cp_envelope c)
                (cp_network_reference c) (cp_authorization_code c) (cp_decline_code c) Hs2)
      as (e & s3 & -> & He & Hs3 & Hp3).
    { destruct v; cbn in Hc, Hfit, Hclean; try discriminate; apply Ok_inj in Hc; subst c; cbn.
      - destruct Hclean. apply andb_false_iff in Hfit as [Hu|Hu]; apply unfit_rejected in Hu;
          try done; rewrite Hu; auto.
      - apply unfit_rejected in Hfit; [|done]. rewrite Hfit. auto. }
    cbn. rewrite Hp3. exists l1. eauto 6.
Qed.
End behaviour.

(** ** On a database engine *)

(** The orchestrator over SQL and HTTP. *)
Abbreviation orchestrate adapter command raw_key :=
  (@handle_authorization sql_coordinator (http_port adapter) command raw_key).

Lemma run_handle `{Engine} net adapter i st d posts command raw_key key fp :
  (forall n req, post_contract (net n req)) ->
  idle st d -> db_ok d -> well_formed command raw_key key fp ->
  exists r st' d' posts',
    run net i (orchestrate adapter command raw_key) st posts = Some (r, (st', posts'))
    /\ idle st' d' /\ db_ok d'
    /\ handled net adapter command key fp (ledger_of d) posts r (ledger_of d') posts'.
Proof.
  intros Hnet Hst Hd Hwf.
  pose proof (eval_handle net adapter Hnet command raw_key key fp (MkSeq d None posts) (ledger_of d))
    as He.
  destruct (eval net _ _) as [r [d' tx posts']] eqn:Heval.
  destruct He as (l' & (Htx & Hd' & ->) & Hh); [done|done|]. cbn in Htx, Hd', Hh. subst tx.
  destruct (run_alone net _ i st d posts _ _ _ Hst Heval) as (st' & Hrun & Hi).
  exists r, st', d', posts'. done.
Qed.

(** The same response, marked as a replay. *)
Definition as_replay (envelope : ResponseEnvelope) : ResponseEnvelope :=
  MkEnvelope (env_status_code envelope) (env_body envelope) (env_headers envelope) true
    (env_media_type envelope).

(** A first response is cached whole. *)
Lemma replay_of_completion tid v c :
  completion_of tid v = Ok c ->
  replay_of (cp_envelope c) = as_replay (cp_envelope c) /\ env_status_code (cp_envelope c) <> 409.
Proof. destruct v; cbn; try discriminate; intros Hc%Ok_inj; subst c; done. Qed.

(** The same logical request; the correlation identifier may differ. *)
Definition same_payload (c c' : AuthorizeTransactionCommand) : Prop :=
  cmd_transaction_id c = cmd_transaction_id c' /\ cmd_merchant_id c = cmd_merchant_id c'
  /\ cmd_payment_token c = cmd_payment_token c' /\ cmd_amount c = cmd_amount c'
  /\ cmd_currency c = cmd_currency c'.

Lemma well_formed_same c c' raw_key key fp :
  same_payload c c' -> well_formed c raw_key key fp -> well_formed c' raw_key key fp.
Proof. intros (H1 & H2 & H3 & H4 & H5). unfold well_formed. by rewrite H1, H2, H3, H4, H5. Qed.

(** A COMPLETED reservation carries the response recorded under the key. *)
Lemma reserved_completed d key fp tid mid amount currency a l1 :
  ledger_reserve key fp tid mid amount currency (ledger_of d) = (a, l1) ->
  res_status a = COMPLETED ->
  exists tid', l_keys (ledger_of d) !! key
               = Some (MkEntry fp tid' (Some (as_replay (immediate a)))).
Proof.
  unfold ledger_reserve. cbn [l_keys l_transactions ledger_of]. rewrite lookup_fmap.
  destruct (idempotency_records d !! key) as [rec|]; cbn [fmap option_fmap option_map].
  2: { destruct (transactions d !! tid); intros [= <- <-]; discriminate. }
  unfold entry_of. cbn [en_fingerprint en_response].
  destruct (str_eqb (i_request_fingerprint rec) fp) eqn:Hfp; [|by intros [= <- <-]].
  apply str_eqb_eq in Hfp. cbn [negb].
  destruct (i_stored_status_code rec), (i_stored_response_body rec);
    intros [= <- <-]; try discriminate. intros _. subst fp. by eexists.
Qed.

(** After a response that is not a conflict, the key is recorded with that response. *)
Lemma handled_cached net adapter command key fp d posts envelope d' posts' :
  db_ok d ->
  handled net adapter command key fp (ledger_of d) posts (Ok envelope) (ledger_of d') posts' ->
  env_status_code envelope <> 409 ->
  exists tid, l_keys (ledger_of d') !! key = Some (MkEntry fp tid (Some (as_replay envelope))).
Proof.
  intros Hd Hh Hne. unfold handled in Hh.
  set (v := http_verdict _) in Hh.
  pose proof (fun c => ledger_complete_reserved key fp (cmd_transaction_id command)
                (cmd_merchant_id command) (cmd_amount command) (cmd_currency command)
                (ledger_of d) c v) as Hcpl.
  destruct (ledger_reserve _ _ _ _ _ _ _) as [a l1] eqn:Hres.
  destruct (res_status a) eqn:Ha; try (destruct Hh as (Hr & _); apply Ok_inj in Hr;
    unfold immediate in Hr; rewrite Ha in Hr; by subst envelope).
  - destruct Hh as [_ Hh]. destruct (completion_of _ v) as [c|e] eqn:Hc; [|by destruct Hh].
    destruct (fits v); [|destruct Hh as [(e & [=] & _) _]].
    destruct Hh as [Hr Hl]. apply Ok_inj in Hr. subst envelope.
    destruct (Hcpl c eq_refl eq_refl) as (l2 & Hl2 & Hk). rewrite Hl in Hl2. simplify_eq.
    destruct (replay_of_completion _ _ _ Hc) as [<- _]. by eexists.
  - destruct Hh as (Hr & -> & _). apply Ok_inj in Hr. subst envelope.
    by eapply reserved_completed.
Qed.

(** A retry of an answered request. *)
Lemma run_retry `{Engine} net net' adapter adapter' i i' st d posts
    command command' raw_key key fp envelope st1 posts1 :
  (forall n req, post_contract (net n req)) -> (forall n req, post_contract (net' n req)) ->
  idle st d -> db_ok d -> well_formed command raw_key key fp -> same_payload command command' ->
  run net i (orchestrate adapter command raw_key) st posts = Some (Ok envelope, (st1, posts1)) ->
  env_status_code envelope <> 409 ->
  exists st2 d1,
    idle st1 d1
    /\ run net' i' (orchestrate adapter' command' raw_key) st1 posts1
       = Some (Ok (as_replay envelope), (st2, posts1))
    /\ exists d2, idle st2 d2 /\ ledger_of d2 = ledger_of d1.
Proof.
  intros Hnet Hnet' Hst Hd Hwf Hsame Hrun Hne.
  destruct (run_handle net adapter i st d posts _ _ _ _ Hnet Hst Hd Hwf)
    as (r & st1' & d1 & posts1' & Hrun1 & Hi1 & Hd1 & Hh1).
  rewrite Hrun in Hrun1. simplify_eq.
  destruct (handled_cached _ _ _ _ _ _ _ _ _ _ Hd Hh1 Hne) as (tid & Hk).
  destruct (run_handle net' adapter' i' st1' d1 posts1' command' raw_key key fp Hnet' Hi1 Hd1)
    as (r2 & st2 & d2 & posts2 & Hrun2 & Hi2 & _ & Hh2); [by eapply well_formed_same|].
  unfold handled, ledger_reserve in Hh2. rewrite Hk in Hh2. cbn [en_fingerprint en_response] in Hh2.
  rewrite (proj2 (str_eqb_eq fp fp) eq_refl) in Hh2. cbn [negb res_status] in Hh2.
  destruct Hh2 as (-> & Hl & ->). exists st2, d1. split; [done|]. split; [exact Hrun2|].
  by exists d2.
Qed.

(** * Properties *)

(** C9.  Handling one authorization request, on a healthy engine that runs no other
    transaction, always ends, keeps the tables well-formed and acts as the ledger
    prescribes.  A request whose key or identifier is already known is answered from
    the ledger (replay, conflict, in progress) without contacting the network and
    without changing anything.  A first request sends exactly one HTTP request; the
    answer is mapped to its response, which is cached together with the new state of
    the transaction.  Only when the references of the network do not fit their columns,
    or the HTTP client fails in an unforeseen way, does it raise, and then the
    reservation stays in progress. *)
Theorem request_handling `{Engine} net adapter i st d posts command raw_key key fp :
  (forall n req, post_contract (net n req)) ->
  idle st d -> db_ok d -> well_formed command raw_key key fp ->
  exists r st' d' posts',
    run net i (orchestrate adapter command raw_key) st posts = Some (r, (st', posts'))
    /\ idle st' d' /\ db_ok d'
    /\ handled net adapter command key fp (ledger_of d) posts r (ledger_of d') posts'.
Proof. apply run_handle. Qed.

(** A retry gets the first response: once a request was answered with anything but
    a 409 conflict, the same logical request under the same key (with any correlation
    identifier, whatever the network would now answer) is given the same status, body,
    headers and media type, marked as a replay; the network is not contacted and the
    tables do not change. *)
Theorem retry_replays_first_response `{Engine} net net' adapter adapter' i i' st d posts
    command command' raw_key key fp envelope st1 posts1 :
  (forall n req, post_contract (net n req)) -> (forall n req, post_contract (net' n req)) ->
  idle st d -> db_ok d -> well_formed command raw_key key fp -> same_payload command command' ->
  run net i (orchestrate adapter command raw_key) st posts = Some (Ok envelope, (st1, posts1)) ->
  env_status_code envelope <> 409 ->
  exists st2 d1,
    idle st1 d1
    /\ run net' i' (orchestrate adapter' command' raw_key) st1 posts1
       = Some (Ok (as_replay envelope), (st2, posts1))
    /\ exists d2, idle st2 d2 /\ ledger_of d2 = ledger_of d1.
Proof. apply run_retry. Qed.

(** ** Concrete runs *)

Definition sample_raw_key : pystr := py "key-1".
Definition sample_digests : res exn (pystr * pystr) :=
  k ← compute_key_hash sample_raw_key;
  f ← compute_request_fingerprint 2500 (py "USD") (py "merchant_1") (py "tok_test_approved")
        (py "txn_1");
  mret (k, f).
Definition sample_key_hash : pystr :=
  Eval vm_compute in match sample_digests with Ok (k, _) => k | Raise _ => [] end.
Definition sample_request_fingerprint : pystr :=
  Eval vm_compute in match sample_digests with Ok (_, f) => f | Raise _ => [] end.

Lemma sample_well_formed :
  well_formed sample_command sample_raw_key sample_key_hash sample_request_fingerprint.
Proof. split_and!; [discriminate | vm_compute; reflexivity..]. Qed.

Lemma approving_contract n req : post_contract (approving_network n req).
Proof. intros e. discriminate. Qed.

Lemma silent_contract n req : post_contract (silent_network n req).
Proof. intros e [= <-]. by left. Qed.

Lemma request_handling_witness :
  exists r st' d' posts',
    @run ReferenceEngine.engine approving_network _ 0
      (orchestrate sample_adapter sample_command sample_raw_key)
      (ReferenceEngine.serving empty_db) [] = Some (r, (st', posts'))
    /\ @idle ReferenceEngine.engine st' d' /\ db_ok d'
    /\ handled approving_network sample_adapter sample_command sample_key_hash
         sample_request_fingerprint (ledger_of empty_db) [] r (ledger_of d') posts'.
Proof.
  exact (@request_handling ReferenceEngine.engine approving_network sample_adapter 0
           (ReferenceEngine.serving empty_db) empty_db [] sample_command sample_raw_key
           sample_key_hash sample_request_fingerprint approving_contract
           (serving_idle empty_db) db_ok_empty sample_well_formed).
Defined.

(** The parts of a run that returned. *)
Definition run_response {S} (o : option (res exn ResponseEnvelope * S)) : ResponseEnvelope :=
  match o with Some (Ok e, _) => e | _ => in_progress_envelope end.
Definition run_state {R S} (default : S) (o : option (R * (S * list http_request))) : S :=
  match o with Some (_, (st, _)) => st | None => default end.
Definition run_posts {R S} (o : option (R * (S * list http_request))) : list http_request :=
  match o with Some (_, (_, posts)) => posts | None => [] end.

(** The first request, approved, and then retried while the network is silent. *)
Definition sample_run : option (res exn ResponseEnvelope
    * ((pgstate * list ReferenceEngine.fault) * list http_request)) :=
  Eval vm_compute in
  @run ReferenceEngine.engine approving_network _ 0
    (orchestrate sample_adapter sample_command sample_raw_key)
    (ReferenceEngine.serving empty_db) [].
Definition sample_response : ResponseEnvelope := run_response sample_run.
Definition sample_state : pgstate * list ReferenceEngine.fault :=
  run_state (ReferenceEngine.serving empty_db) sample_run.
Definition sample_posts : list http_request := run_posts sample_run.
Definition sample_retry : AuthorizeTransactionCommand :=
  MkCommand (py "txn_1") (py "merchant_1") (py "tok_test_approved") 2500 (py "USD") (py "corr_2").

Lemma sample_run_computed :
  @run ReferenceEngine.engine approving_network _ 0
    (orchestrate sample_adapter sample_command sample_raw_key)
    (ReferenceEngine.serving empty_db) []
  = Some (Ok sample_response, (sample_state, sample_posts)).
Proof. vm_compute. reflexivity. Qed.

Lemma sample_response_created : env_status_code sample_response = 201.
Proof. reflexivity. Qed.

Lemma retry_replays_first_response_witness :
  env_status_code sample_response = 201
  /\ exists st2 d1,
    @idle ReferenceEngine.engine sample_state d1
    /\ @run ReferenceEngine.engine silent_network _ 1
         (orchestrate sample_adapter sample_retry sample_raw_key) sample_state sample_posts
       = Some (Ok (as_replay sample_response), (st2, sample_posts))
    /\ exists d2, @idle ReferenceEngine.engine st2 d2 /\ ledger_of d2 = ledger_of d1.
Proof.
  split; [exact sample_response_created|].
  refine (@retry_replays_first_response ReferenceEngine.engine approving_network silent_network
           sample_adapter sample_adapter 0 1 (ReferenceEngine.serving empty_db) empty_db []
           sample_command sample_retry sample_raw_key sample_key_hash sample_request_fingerprint
           sample_response sample_state sample_posts approving_contract silent_contract
           (serving_idle empty_db) db_ok_empty sample_well_formed _ sample_run_computed _).
  - repeat split.
  - rewrite sample_response_created. discriminate.
Defined.
