(* ===== verification/Faults.v ===== *)
(** One request on a database that may fail at any operation (the contract of
    Effects.v without the assumption of a healthy engine): what is left in the tables
    and what the caller learns. *)
From S2P Require Import Prelude PyStr Sha256 Json Domain Ports Idempotency Schema Effects Adapter.
From S2P Require Import Authorize Problem Coordinator Ledger Orchestrator.

Open Scope Z_scope.
Open Scope io_scope.

(** * Runs with failures on a quiet database *)

(** One operation: it does what it should, or it raises; a commit that raises may have
    taken effect, and a rollback that raises has ended the transaction all the same. *)
Definition may_db (q : dbop) (s : seq_state) (r : res exn (db_val q)) (s' : seq_state) : Prop :=
  (r, s') = eval_db q s
  \/ (exists e, db_fault e /\ r = Raise e)
     /\ match q with
        | OpRollback => s' = snd (eval_db OpRollback s)
        | OpCommit => s' = snd (eval_db OpCommit s) \/ s' = snd (eval_db OpRollback s)
        | _ => s' = s
        end.

Definition may_op (o : op) (s : seq_state) : res exn (op_val o) -> seq_state -> Prop :=
  match o with
  | Db q => may_db q s
  | Post req => fun r s' => post_contract r /\ s' = MkSeq (sq_db s) (sq_tx s) (sq_posts s ++ [req])
  end.

Fixpoint may {A} (p : prog A) (s : seq_state) (a : A) (s' : seq_state) : Prop :=
  match p with
  | Ret a0 => a0 = a /\ s' = s
  | Vis o k => exists r s1, may_op o s r s1 /\ may (k r) s1 a s'
  end.

(** Every run that the contract allows is one of these. *)
Lemma quiet_contract i p s q r p' :
  quiet i p s -> pg_contract p i q r p' ->
  exists s', may_db q s r s' /\ quiet i p' s' /\ sq_posts s' = sq_posts s.
Proof.
  intros Hq [Hn|[Hf Hs]].
  - destruct (quiet_step i p s q r p' Hq Hn) as (-> & Hq' & Hp).
    exists (snd (eval_db q s)). split_and!; [|done..]. left. by destruct (eval_db q s).
  - destruct q; try (exists s; split_and!; [by right | by subst p' | done]).
    + destruct Hs as [->| ->].
      * exists (snd (eval_db OpCommit s)). split_and!; [by right; auto | by apply quiet_commit | done].
      * exists (snd (eval_db OpRollback s)). split_and!; [by right; auto | | done].
        eapply quiet_close; [done|]. by destruct Hq.
    + subst p'. exists (snd (eval_db OpRollback s)). split_and!; [by right; auto | | done].
      eapply quiet_close; [done|]. by destruct Hq.
Qed.

Lemma outcome_may {A} i (p : prog A) w s a w' :
  quiet i (w_pg w) s -> sq_posts s = w_posts w -> outcome i p w a w' ->
  exists s', may p s a s' /\ quiet i (w_pg w') s' /\ sq_posts s' = w_posts w'.
Proof.
  revert w s. induction p as [a0|[q|req] k IH]; intros w s Hq Hp; cbn [outcome op_contract].
  - intros [-> ->]. by exists s.
  - intros (r & w1 & [Hc Hp1] & Ho).
    destruct (quiet_contract i _ s q r _ Hq Hc) as (s1 & Hm & Hq1 & Hps).
    destruct (IH r w1 s1 Hq1) as (s' & Hm' & Hq' & Hp'); [congruence|done|].
    exists s'. split_and!; [|done..]. by exists r, s1.
  - intros (r & w1 & (Hc & Hg & Hp1) & Ho). set (s1 := MkSeq (sq_db s) (sq_tx s) (sq_posts s ++ [req])).
    destruct (IH r w1 s1) as (s' & Hm' & Hq' & Hp'); [by rewrite Hg | | done |].
    { cbn. by rewrite Hp1, Hp. }
    exists s'. split_and!; [|done..]. by exists r, s1.
Qed.

Lemma may_pbind {A B} (p : prog A) (f : A -> prog B) s b s' :
  may (pbind p f) s b s' <-> exists a s1, may p s a s1 /\ may (f a) s1 b s'.
Proof.
  revert s. induction p as [a|o k IH]; intros s; cbn [pbind may].
  - split; [intros H; by exists a, s | by intros (a1 & s1 & [<- ->] & H)].
  - setoid_rewrite IH. naive_solver.
Qed.

Lemma may_io_bind {A B} (p : io A) (f : A -> io B) s b s' :
  may (io_bind p f) s b s' <->
  exists r s1, may p s r s1 /\ match r with
                               | Ok a => may (f a) s1 b s'
                               | Raise e => b = Raise e /\ s' = s1
                               end.
Proof.
  unfold io_bind. rewrite may_pbind. split.
  - intros ([a|e] & s1 & Hp & Hf); [by exists (Ok a), s1|].
    exists (Raise e), s1. split; [done|]. by destruct Hf as [<- ->].
  - intros ([a|e] & s1 & Hp & Hf); [by exists (Ok a), s1|].
    exists (Raise e), s1. split; [done|]. by destruct Hf as [-> ->].
Qed.

Lemma may_try_except {A} (p : io A) (h : exn -> io A) s b s' :
  may (try_except p h) s b s' <->
  exists r s1, may p s r s1 /\ match r with
                               | Ok a => b = Ok a /\ s' = s1
                               | Raise e => may (h e) s1 b s'
                               end.
Proof.
  unfold try_except. rewrite may_pbind. split.
  - intros ([a|e] & s1 & Hp & Hf); [|by exists (Raise e), s1].
    exists (Ok a), s1. split; [done|]. by destruct Hf as [<- ->].
  - intros ([a|e] & s1 & Hp & Hf); [|by exists (Raise e), s1].
    exists (Ok a), s1. split; [done|]. by destruct Hf as [-> ->].
Qed.

Lemma may_await (q : dbop) s r s' : may (await_db q) s r s' <-> may_db q s r s'.
Proof.
  cbn. split; [by intros (r1 & s1 & Hm & -> & ->) | intros H; by exists r, s'].
Qed.

(** * Transactions *)

Section transactions.
Context (net : network).

(** The statements of a transaction: they do what they should or a failure is
    raised; the committed tables and the requests sent stay as they are. *)
Definition statements {A} (p : io A) : Prop :=
  forall s r s', may p s r s' ->
    sq_db s' = sq_db s /\ sq_posts s' = sq_posts s
    /\ ((r, s') = eval net p s \/ exists e, db_fault e /\ r = Raise e).

Definition is_statement (q : dbop) : bool :=
  match q with OpBegin | OpCommit | OpRollback => false | _ => true end.

Lemma eval_statement q s :
  is_statement q = true ->
  sq_db (snd (eval_db q s)) = sq_db s /\ sq_posts (snd (eval_db q s)) = sq_posts s.
Proof. destruct q; try done; intros _; cbn [eval_db]; by repeat case_match. Qed.

Lemma statements_await q : is_statement q = true -> statements (await_db q).
Proof.
  intros Hq s r s' H%may_await. pose proof (eval_statement q s Hq) as [Hd Hp].
  rewrite eval_await_db. destruct H as [H|[He Hs]].
  - rewrite <- H in Hd, Hp. auto.
  - assert (s' = s) as -> by (by destruct q). auto.
Qed.

Lemma statements_lift {A} (r0 : res exn A) : statements (io_lift r0).
Proof. intros s r s' [<- ->]. cbn. auto. Qed.

Lemma statements_bind {A B} (p : io A) (f : A -> io B) :
  statements p -> (forall a, statements (f a)) -> statements (io_bind p f).
Proof.
  intros Hp Hf s b s' H. apply may_io_bind in H as (r & s1 & H1 & H2).
  destruct (Hp _ _ _ H1) as (Hd & Hps & Hr). rewrite eval_io_bind.
  destruct r as [a|e].
  - destruct (Hf _ _ _ _ H2) as (Hd2 & Hps2 & Hr2). split_and!; [congruence..|].
    destruct Hr as [<-|(e & _ & ?)]; [|done]. done.
  - destruct H2 as [-> ->]. split_and!; [done..|].
    destruct Hr as [<-|(e' & He & [= ->])]; [by left|]. right. eauto.
Qed.

Lemma statements_try {A} (p : io A) (h : exn -> io A) :
  statements p -> (forall e, statements (h e)) -> (forall e, db_fault e -> h e = io_raise e) ->
  statements (try_except p h).
Proof.
  intros Hp Hh Hf s b s' H. apply may_try_except in H as (r & s1 & H1 & H2).
  destruct (Hp _ _ _ H1) as (Hd & Hps & Hr). rewrite eval_try_except.
  destruct r as [a|e].
  - destruct H2 as [-> ->]. split_and!; [done..|].
    destruct Hr as [<-|(e' & _ & ?)]; [by left | done].
  - destruct (Hh _ _ _ _ H2) as (Hd2 & Hps2 & Hr2). split_and!; [congruence..|].
    destruct Hr as [<-|(e' & He & [= <-])]; [done|].
    rewrite Hf in H2 by done. destruct H2 as [<- ->]. right. eauto.
Qed.

(** What is left after a transaction that was meant to give [r0] and the tables [d0]:
    that, or a failure with no effect, or a failure after all effects. *)
Definition all_or_nothing {A} (d d0 : db) (r0 r : res exn A) (d' : db) : Prop :=
  (r = r0 /\ d' = d0)
  \/ exists e, db_fault e /\ r = Raise e /\ (d' = d \/ (exists a, r0 = Ok a) /\ d' = d0).

Abbreviation closed d posts := (MkSeq d None posts).

Lemma may_with_transaction {A} (body : io A) d posts r s' r0 d0 :
  statements body -> may (with_transaction body) (closed d posts) r s' ->
  eval net (with_transaction body) (closed d posts) = (r0, closed d0 posts) ->
  exists d', s' = closed d' posts /\ all_or_nothing d d0 r0 r d'.
Proof.
  intros Hb H. rewrite eval_with_transaction. unfold with_transaction in H.
  apply may_io_bind in H as (rb & s1 & H1%may_await & H2).
  destruct H1 as [H1|[(e & He & ->) ->]]; cbn [eval_db] in *; cycle 1.
  { destruct H2 as [-> ->]. intros _. exists d. split; [done|]. right. eauto. }
  injection H1 as -> ->. cbn [sq_db sq_posts] in H2.
  apply may_pbind in H2 as (ra & s2 & H2 & H3).
  destruct (Hb _ _ _ H2) as (Hd & Hp & Hr). cbn [sq_db sq_posts] in Hd, Hp.
  destruct ra as [a|e].
  - destruct Hr as [<-|(e & _ & ?)]; [|done]. intros He0. cbn [sq_posts] in He0.
    injection He0 as <- <- _.
    apply may_io_bind in H3 as (rc & s3 & H3%may_await & H4).
    destruct H3 as [H3|[(e & He & ->) Hs]]; cbn [eval_db snd] in *.
    + injection H3 as -> ->. destruct H4 as [<- ->]. rewrite Hp.
      exists (sq_view s2). split; [done|]. by left.
    + destruct H4 as [-> ->]. destruct Hs as [->| ->]; rewrite Hp.
      * exists (sq_view s2). split; [done|]. right. exists e. eauto 6.
      * exists (sq_db s2). split; [done|]. rewrite Hd. right. eauto 6.
  - intros He0. apply may_io_bind in H3 as (rc & s3 & H3%may_await & H4).
    destruct H3 as [H3|[(e' & He' & ->) H3]]; cbn [eval_db snd] in H3; cycle 1.
    { subst s3. destruct H4 as [-> ->]. rewrite Hp, Hd. exists d. split; [done|]. right. eauto 6. }
    injection H3 as -> ->. destruct H4 as [<- ->]. rewrite Hp, Hd. exists d. split; [done|].
    destruct Hr as [Hr|(e' & He' & [= <-])]; [|right; eauto 6].
    rewrite <- Hr in He0. injection He0 as <- <- _. left. by rewrite Hd.
Qed.

(** * Reservation and completion *)

Lemma statements_reserve key fp tid mid amount currency :
  statements (
    let! existing := await_db (OpSelectIdempotency key) in
    match existing with
    | Some record => io_lift (_classify_existing record fp)
    | None =>
        try_except (
          await_db (OpInsertTransaction (reserved_transaction tid mid amount currency)) ;!
          await_db (OpInsertIdempotency (reserved_idempotency key fp tid)))
          carry_integrity_error ;!
        io_ret (reservation ACQUIRED)
    end).
Proof.
  apply statements_bind; [by apply statements_await|]. intros [record|]; [apply statements_lift|].
  apply statements_bind; [|intros _; apply (statements_lift (Ok _))].
  apply statements_try.
  - apply statements_bind; [by apply statements_await|]. intros _. by apply statements_await.
  - intros e. destruct e; apply (statements_lift (Raise _)).
  - by intros e [->| ->].
Qed.

Lemma statements_requery key fp tid :
  statements (
    let! existing_after := await_db (OpSelectIdempotency key) in
    match existing_after with
    | Some record => let! r := io_lift (_classify_existing record fp) in io_ret (Some r)
    | None =>
        let! res_txn := await_db (OpSelectTransactionId tid) in
        match res_txn with
        | Some _ => io_ret (Some (reservation TRANSACTION_ID_CONFLICT))
        | None => io_ret None
        end
    end).
Proof.
  apply statements_bind; [by apply statements_await|]. intros [record|].
  - apply statements_bind; [apply statements_lift|]. intros r. apply (statements_lift (Ok _)).
  - apply statements_bind; [by apply statements_await|].
    intros [t|]; apply (statements_lift (Ok _)).
Qed.

Lemma statements_complete key t ver envelope nref auth decl :
  statements (
    let! rows := await_db (OpUpdateTransaction (transaction_id t) ver
                             (completed_transaction t nref auth decl)) in
    (if negb (rows =? 1) then io_raise OptimisticConcurrencyError else io_ret tt) ;!
    let! rows := await_db (OpUpdateIdempotency key (transaction_id t)
                             (py "IN_PROGRESS") (completed_idempotency envelope)) in
    if negb (rows =? 1) then io_raise OptimisticConcurrencyError else io_ret tt).
Proof.
  assert (Hr : forall n : Z, statements
            (if negb (n =? 1) then io_raise OptimisticConcurrencyError else io_ret tt)).
  { intros n. destruct (negb (n =? 1)); apply statements_lift. }
  apply statements_bind; [by apply statements_await|]. intros n.
  apply statements_bind; [apply Hr|]. intros _.
  apply statements_bind; [by apply statements_await|]. intros m. apply Hr.
Qed.

(** What the caller of the coordinator can be told of a failure. *)
Definition persistence_failure (e : exn) : Prop := e = PersistenceError \/ e = OtherError.

Lemma wrap_fault {A} e s (r : res exn A) s' :
  db_fault e -> may (wrap_sqlalchemy e) s r s' ->
  s' = s /\ exists e', persistence_failure e' /\ r = Raise e'.
Proof.
  unfold persistence_failure.
  intros [->| ->]; cbn; intros [<- ->]; split; try done; eauto.
Qed.

(** A coordinator call is all or nothing: [r0] and [d0] are its result and the tables
    after it when nothing fails. *)
Definition atomic {A} (d d0 : db) (r0 r : res exn A) (d' : db) : Prop :=
  (r = r0 /\ d' = d0)
  \/ exists e, persistence_failure e /\ r = Raise e /\ (d' = d \/ (exists a, r0 = Ok a) /\ d' = d0).

Lemma may_requery key fp tid d posts r s' :
  idempotency_records d !! key = None ->
  may (try_except (reserve_requery key fp tid) wrap_sqlalchemy) (closed d posts) r s' ->
  s' = closed d posts /\ (r = conflict_result tid d \/ exists e, persistence_failure e /\ r = Raise e).
Proof.
  intros Hk H. apply may_try_except in H as (r1 & s1 & H1 & H2).
  unfold reserve_requery in H1. apply may_io_bind in H1 as (r2 & s2 & H1 & H3).
  set (body := io_bind (await_db (OpSelectIdempotency key)) _) in H1.
  assert (He : eval net (with_transaction body) (closed d posts)
               = (Ok ((fun _ => reservation TRANSACTION_ID_CONFLICT) <$> (transactions d !! tid)), closed d posts)).
  { rewrite eval_with_transaction. subst body. rewrite eval_io_bind, eval_await_db.
    cbn [eval_db]. change (sq_view (MkSeq d (Some d) posts)) with d. rewrite Hk.
    rewrite eval_io_bind, eval_await_db. cbn [eval_db].
    change (sq_view (MkSeq d (Some d) posts)) with d. by destruct (transactions d !! tid). }
  destruct (may_with_transaction _ _ _ _ _ _ _ (statements_requery key fp tid) H1 He)
    as (d' & -> & [[-> ->]|(e & Hf & -> & Hd)]).
  - unfold conflict_result. destruct (transactions d !! tid); cbn in H3; destruct H3 as [<- ->];
      cbn in H2; destruct H2 as [? ->]; subst; auto.
  - destruct H3 as [-> ->]. assert (d' = d) as -> by (by destruct Hd as [|[_ ?]]).
    apply wrap_fault in H2 as [-> ?]; auto.
Qed.

(** The handler of the first transaction. *)
Abbreviation on_exception key fp tid := (fun e =>
  match e with
  | ReservationIntegrityError => try_except (reserve_requery key fp tid) wrap_sqlalchemy
  | e => wrap_sqlalchemy e
  end).

(** From the result [ra] of the first transaction to the result [r0] of the call: what
    the handler does without failures is known. *)
Lemma may_reserved key fp tid d d0 d1 posts (ra r0 r1 r : res exn IdempotencyReservation) s' :
  all_or_nothing d d0 ra r1 d1 ->
  match r1 with
  | Ok a => r = Ok a /\ s' = closed d1 posts
  | Raise e => may (on_exception key fp tid e) (closed d1 posts) r s'
  end ->
  match ra with
  | Ok a => r0 = Ok a
  | Raise e => forall r s', may (on_exception key fp tid e) (closed d0 posts) r s' ->
                 s' = closed d0 posts /\ (r = r0 \/ exists e, persistence_failure e /\ r = Raise e)
  end ->
  d0 = d \/ (exists a, ra = Ok a) ->
  exists d', s' = closed d' posts /\ atomic d d0 r0 r d'.
Proof.
  intros [[-> ->]|(e & Hf & -> & Hd)] H H0 Hd0.
  - exists d0. destruct ra as [a|e]; [destruct H as [-> ->]; subst r0; split; [done|]; by left|].
    apply H0 in H as [-> [->|(e' & He' & ->)]]; (split; [done|]); [by left|]. right.
    exists e'. split_and!; [done..|]. left. by destruct Hd0 as [|[a ?]].
  - exists d1. assert (Hm : may (@wrap_sqlalchemy IdempotencyReservation e) (closed d1 posts) r s').
    { by destruct Hf as [->| ->]. }
    apply wrap_fault in Hm as [-> (e' & He' & ->)]; [|done]. split; [done|]. right. exists e'.
    split_and!; [done..|]. destruct Hd as [->|[[a ->] ->]]; [by left|]. right. subst r0. eauto.
Qed.

Lemma may_reserve key fp tid mid amount currency d posts r s' :
  may (reserve key fp tid mid amount currency) (closed d posts) r s' ->
  let '(r0, d0) := reserve_result key fp tid mid amount currency d in
  exists d', s' = closed d' posts /\ atomic d d0 r0 r d'.
Proof.
  intros H. unfold reserve in H. apply may_try_except in H as (r1 & s1 & H1 & H2).
  pose proof (eval_reserve_attempt net posts key fp tid mid amount currency d) as He.
  pose proof (fun r0 d0 => may_with_transaction _ d posts r1 s1 r0 d0
                (statements_reserve key fp tid mid amount currency) H1) as Ha.
  change (with_transaction _) with (reserve_attempt key fp tid mid amount currency) in Ha.
  rewrite He in Ha. clear He H1. unfold reserve_result.
  destruct (idempotency_records d !! key) as [record|] eqn:Hk.
  { destruct (Ha _ _ eq_refl) as (d1 & -> & Hn). eapply may_reserved; [exact Hn | exact H2 | | by left].
    destruct (_classify_existing record fp) as [a|e] eqn:Hc; [done|].
    destruct (classify_raises _ _ _ Hc) as [->| ->]; intros r' s1' [<- ->]; auto. }
  assert (Hq : forall r s', may (on_exception key fp tid ReservationIntegrityError) (closed d posts) r s' ->
      s' = closed d posts /\ (r = conflict_result tid d \/ exists e, persistence_failure e /\ r = Raise e)).
  { intros r' s1'. by apply may_requery. }
  assert (Hw : forall r s', may (on_exception key fp tid OtherSQLAlchemyError) (closed d posts) r s' ->
      s' = closed d posts /\ (r = Raise PersistenceError \/ exists e, persistence_failure e /\ r = Raise e)).
  { intros r' s1' [<- ->]. auto. }
  destruct (insert_transaction _ d) as [row| |];
    [|destruct (Ha _ _ eq_refl) as (d1 & -> & Hn); eapply may_reserved;
      [exact Hn | exact H2 | done | by left]..].
  destruct (insert_idempotency _ _) as [row'| |];
    (destruct (Ha _ _ eq_refl) as (d1 & -> & Hn); eapply may_reserved;
      [exact Hn | exact H2 | done | by eauto]).
Qed.

Lemma may_complete key t ver envelope nref auth decl d posts r s' :
  may (complete key t ver envelope nref auth decl) (closed d posts) r s' ->
  let '(r0, d0) := complete_result key t ver envelope nref auth decl d in
  exists d', s' = closed d' posts /\ atomic d d0 r0 r d'.
Proof.
  intros H. pose proof (eval_complete net posts key t ver envelope nref auth decl d) as He.
  destruct (complete_result _ _ _ _ _ _ _ d) as [r0 d0]. unfold complete in H, He.
  destruct (negb (version t =? ver + 1)).
  { destruct H as [<- ->]. injection He as <- <-. exists d. split; [done|]. by left. }
  apply may_try_except in H as (r1 & s1 & H1 & H2). rewrite eval_try_except in He.
  destruct (eval net (with_transaction _) (closed d posts)) as [ra sa] eqn:Ht.
  assert (sa = closed d0 posts
          /\ forall s r s', match ra with
                            | Ok a => r = Ok a /\ s' = s
                            | Raise e => may (wrap_sqlalchemy e) s r s'
                            end -> r = r0 /\ s' = s) as [-> Hn].
  { destruct ra as [a|e].
    - injection He as <- <-. split; [done|]. by intros ? ? ? [-> ->].
    - unfold wrap_sqlalchemy in *. repeat case_match; injection He as <- <-; (split; [done|]);
        by intros ? ? ? [<- ->]. }
  destruct (may_with_transaction _ _ _ _ _ _ _ (statements_complete key t ver envelope nref auth decl) H1 Ht)
    as (d1 & -> & [[-> ->]|(e & Hf & -> & Hd)]).
  - exists d0. apply Hn in H2 as [-> ->]. split; [done|]. by left.
  - exists d1. apply wrap_fault in H2 as [-> (e' & He' & ->)]; [|done]. split; [done|]. right. exists e'.
    split_and!; [done..|]. destruct Hd as [->|[[a ->] ->]]; [by left|]. right. split; [|done].
    exists a. by destruct (Hn (closed d0 posts) (Ok a) (closed d0 posts)) as [-> _].
Qed.
End transactions.

Lemma complete_result_raises key t ver envelope nref auth decl d e d0 :
  complete_result key t ver envelope nref auth decl d = (Raise e, d0) ->
  d0 = d /\ (persistence_failure e \/ e = OptimisticConcurrencyError).
Proof.
  unfold complete_result, persistence_failure. repeat case_match; intros H'; simplify_eq; auto.
Qed.

(** Everything but a new reservation leaves the tables as they are. *)
Lemma reserve_result_cases key fp tid mid amount currency d :
  let '(r, d0) := reserve_result key fp tid mid amount currency d in
  match r with
  | Ok a => match res_status a with
            | ACQUIRED => True
            | COMPLETED => d0 = d /\ is_Some (res_stored_envelope a)
            | _ => d0 = d
            end
  | Raise e => d0 = d /\ persistence_failure e
  end.
Proof.
  assert (Hc : forall o : option transaction_row,
            match match o with
                  | Some _ => Ok (reservation TRANSACTION_ID_CONFLICT)
                  | None => Raise PersistenceError
                  end with
            | Ok a => match res_status a with
                      | ACQUIRED => True
                      | COMPLETED => d = d /\ is_Some (res_stored_envelope a)
                      | _ => d = d
                      end
            | Raise e => d = d /\ persistence_failure e
            end) by (intros [|]; cbn; auto; unfold persistence_failure; auto).
  unfold reserve_result, conflict_result. destruct (idempotency_records d !! key) as [record|].
  { destruct (_classify_existing record fp) as [a|e] eqn:Hr; [|by apply classify_raises in Hr].
    unfold _classify_existing in Hr. repeat case_match; simplify_eq; cbn in *; simplify_eq; eauto. }
  destruct (insert_transaction _ d) as [r| |]; [|apply Hc | by unfold persistence_failure; auto].
  destruct (insert_idempotency _ _) as [r'| |]; [done | apply Hc | by unfold persistence_failure; auto].
Qed.

(** * One request *)

Section request.
Context (adapter : HttpPaymentNetworkAdapter) (command : AuthorizeTransactionCommand).
Abbreviation post := (authorization_post adapter (port_request command)).
Abbreviation with_posts s l := (MkSeq (sq_db s) (sq_tx s) l).

Lemma may_authorize s r s' :
  may (authorize adapter (port_request command)) s r s' ->
  s' = with_posts s (sq_posts s ++ [post])
  /\ exists answer, post_contract answer
     /\ r = match answer with
            | Ok response => _handle_response response
            | Raise e => Raise (translate_http_exn e)
            end.
Proof.
  unfold authorize. intros H. apply may_io_bind in H as (r1 & s1 & H1 & H2).
  apply may_try_except in H1 as (answer & s2 & H0 & H1).
  destruct H0 as (a0 & s0 & (Hc & ->) & <- & ->). destruct a0 as [response|e].
  - destruct H1 as [-> ->]. destruct H2 as [<- ->]. split; [done|]. by exists (Ok response).
  - destruct H1 as [<- ->]. destruct H2 as [-> ->]. split; [done|]. by exists (Raise e).
Qed.

Lemma may_invoke_service s r s' :
  strip (cmd_transaction_id command) <> [] ->
  may (@invoke_service (http_port adapter) command) s r s' ->
  s' = with_posts s (sq_posts s ++ [post])
  /\ exists answer, post_contract answer
     /\ r = completion_of (cmd_transaction_id command) (http_verdict answer).
Proof.
  intros Hid H. unfold invoke_service in H. apply may_try_except in H as (r1 & s1 & H1 & H2).
  apply may_io_bind in H1 as (r2 & s2 & H0 & H1). unfold execute in H0.
  rewrite new_transaction_ok in H0 by done.
  apply may_io_bind in H0 as (t & s3 & [<- ->] & H0). apply may_pbind in H0 as (r3 & s4 & H0 & H3).
  apply may_authorize in H0 as [-> (answer & Hc & ->)]. destruct H3 as [<- ->].
  rewrite settle_spec in H1.
  set (v := verdict_of _) in H1. assert (Hv : v = http_verdict answer) by (by destruct answer).
  clearbody v. subst v. pose proof (http_verdict_clean _ Hc) as Hclean. split.
  - destruct (http_verdict answer); cbn in H1; destruct H1 as [? ->]; subst;
      cbn in H2; destruct H2 as [_ ->]; done.
  - exists answer. split; [done|].
    destruct (http_verdict answer); cbn in H1; destruct H1 as [? ->]; subst; cbn in H2;
      by destruct H2 as [? _].
Qed.

(** What a request can leave behind when any operation may fail: [d] and [posts] are
    the tables and the requests sent before it, [d'] and [posts'] those after it, and
    [r] is what its caller gets. *)
Inductive left_behind (key fp : pystr) (d : db) (posts : list http_request)
    : res exn ResponseEnvelope -> db -> list http_request -> Prop :=
| left_answered a :
    (* no new reservation: an answer from what the tables hold *)
    fst (reserve_result key fp (cmd_transaction_id command) (cmd_merchant_id command)
           (cmd_amount command) (cmd_currency command) d) = Ok a ->
    res_status a <> ACQUIRED -> left_behind key fp d posts (Ok (immediate a)) d posts
| left_untouched e :
    persistence_failure e -> left_behind key fp d posts (Raise e) d posts
| left_reserved d1 e :
    (* the reservation is durable, but its commit was not acknowledged *)
    reserve_result key fp (cmd_transaction_id command) (cmd_merchant_id command)
      (cmd_amount command) (cmd_currency command) d = (Ok (reservation ACQUIRED), d1) ->
    persistence_failure e -> left_behind key fp d posts (Raise e) d1 posts
| left_in_progress d1 answer e :
    (* the network was asked, its outcome is not recorded *)
    reserve_result key fp (cmd_transaction_id command) (cmd_merchant_id command)
      (cmd_amount command) (cmd_currency command) d = (Ok (reservation ACQUIRED), d1) ->
    post_contract answer -> persistence_failure e \/ e = OptimisticConcurrencyError ->
    left_behind key fp d posts (Raise e) d1 (posts ++ [post])
| left_completed d1 d2 answer c r :
    reserve_result key fp (cmd_transaction_id command) (cmd_merchant_id command)
      (cmd_amount command) (cmd_currency command) d = (Ok (reservation ACQUIRED), d1) ->
    post_contract answer ->
    completion_of (cmd_transaction_id command) (http_verdict answer) = Ok c ->
    complete_result key (cp_transaction c) 0 (cp_envelope c) (cp_network_reference c)
      (cp_authorization_code c) (cp_decline_code c) d1 = (Ok tt, d2) ->
    r = Ok (cp_envelope c) \/ (exists e, persistence_failure e /\ r = Raise e) ->
    left_behind key fp d posts r d2 (posts ++ [post]).

Lemma reserve_result_acquired key fp tid mid amount currency d a d0 :
  reserve_result key fp tid mid amount currency d = (Ok a, d0) -> res_status a = ACQUIRED ->
  a = reservation ACQUIRED.
Proof.
  unfold reserve_result, conflict_result, _classify_existing.
  repeat case_match; intros H'; simplify_eq; done.
Qed.

Abbreviation reserved_of key fp d :=
  (reserve_result key fp (cmd_transaction_id command) (cmd_merchant_id command)
     (cmd_amount command) (cmd_currency command) d).

(** A request that holds the reservation. *)
Lemma may_finish key fp d d0 posts r s' :
  strip (cmd_transaction_id command) <> [] ->
  reserved_of key fp d = (Ok (reservation ACQUIRED), d0) ->
  may (let! c := @invoke_service (http_port adapter) command in
       co_complete key (cp_transaction c) 0 (cp_envelope c) (cp_network_reference c)
         (cp_authorization_code c) (cp_decline_code c) ;!
       io_ret (cp_envelope c)) (MkSeq d0 None posts) r s' ->
  exists d' posts', s' = MkSeq d' None posts' /\ left_behind key fp d posts r d' posts'.
Proof.
  intros Hid Hres H. apply may_io_bind in H as (rc & s2 & H1 & H).
  apply may_invoke_service in H1 as [-> (answer & Hans & ->)]; [|done]. cbn [sq_db sq_tx sq_posts] in H.
  destruct (completion_of _ _) as [c|e] eqn:Hc; cycle 1.
  { destruct H as [-> ->]. exists d0, (posts ++ [post]). split; [done|].
    eapply left_in_progress; [done..|]. left. right.
    pose proof (http_verdict_clean _ Hans). destruct (http_verdict answer); try discriminate.
    cbn in Hc. by simplify_eq. }
  apply may_io_bind in H as (rf & s3 & H1 & H). cbn [co_complete sql_coordinator] in H1.
  apply (may_complete silent_network) in H1.
  destruct (complete_result _ _ _ _ _ _ _ d0) as [r0 d2] eqn:Hcpl.
  destruct H1 as (d3 & -> & [[-> ->]|(e & He & -> & Hd)]).
  - exists d2, (posts ++ [post]). destruct r0 as [[]|e].
    + destruct H as [<- ->]. split; [done|]. eapply left_completed; eauto.
    + destruct H as [-> ->]. split; [done|]. apply complete_result_raises in Hcpl as [-> He]. by eapply left_in_progress.
  - destruct H as [-> ->]. exists d3, (posts ++ [post]). split; [done|].
    destruct Hd as [->|[[[] ->] ->]]; [by eapply left_in_progress; auto|].
    eapply left_completed; eauto.
Qed.

Lemma may_handle raw_key key fp d posts r s' :
  strip (cmd_transaction_id command) <> [] -> compute_key_hash raw_key = Ok key ->
  compute_request_fingerprint (cmd_amount command) (cmd_currency command)
    (cmd_merchant_id command) (cmd_payment_token command) (cmd_transaction_id command) = Ok fp ->
  may (orchestrate adapter command raw_key) (MkSeq d None posts) r s' ->
  exists d' posts', s' = MkSeq d' None posts' /\ left_behind key fp d posts r d' posts'.
Proof.
  intros Hid Hk Hf H. unfold handle_authorization in H.
  apply may_io_bind in H as (r1 & s1 & [<- ->] & H). rewrite Hk in H.
  apply may_io_bind in H as (r1 & s1 & [<- ->] & H). rewrite Hf in H.
  apply may_io_bind in H as (r1 & s1 & H1 & H). cbn [co_reserve sql_coordinator] in H1.
  apply (may_reserve silent_network) in H1.
  pose proof (reserve_result_cases key fp (cmd_transaction_id command) (cmd_merchant_id command)
                (cmd_amount command) (cmd_currency command) d) as Hcases.
  destruct (reserved_of key fp d) as [r0 d0] eqn:Hres.
  destruct H1 as (d1 & -> & [[-> ->]|(e & He & -> & Hd)]); cycle 1.
  { destruct H as [-> ->]. exists d1, posts. split; [done|].
    destruct Hd as [->|[[a ->] ->]]; [by apply left_untouched|].
    destruct (res_status a) eqn:Ha; cycle 1.
    1-4: assert (d0 = d) as -> by tauto; by apply left_untouched.
    apply reserve_result_acquired in Hres as Hacq; [|done]. subst a. by eapply left_reserved. }
  destruct r0 as [a|e]; cycle 1.
  { destruct H as [-> ->], Hcases as [-> He]. exists d, posts. split; [done|]. by apply left_untouched. }
  assert (Hother : res_status a <> ACQUIRED ->
            r = Ok (immediate a) /\ s' = MkSeq d0 None posts /\ d0 = d).
  { intros Hne. unfold immediate. destruct (res_status a) eqn:Ha; try done;
      try (by destruct H as [<- ->]).
    destruct Hcases as [-> [envelope Hs]]. rewrite Hs in H |- *. by destruct H as [<- ->]. }
  destruct (decide (res_status a = ACQUIRED)) as [Ha|Hne]; cycle 1.
  { destruct (Hother Hne) as (-> & -> & ->). exists d, posts. split; [done|].
    apply left_answered; [by rewrite Hres | done]. }
  clear Hother Hcases. rewrite Ha in H.
  apply reserve_result_acquired in Hres as Hacq; [|done]. subst a.
  by eapply may_finish.
Qed.
End request.

(** * Properties *)

(** A run from an idle database ends with an idle database. *)
Lemma outcome_idle {A} i (p : prog A) d posts a w' (P : db -> list http_request -> Prop) :
  outcome i p (MkWorld (MkPg d ∅) posts) a w' ->
  (forall s', may p (MkSeq d None posts) a s' -> exists d' posts', s' = MkSeq d' None posts' /\ P d' posts') ->
  exists d' posts', w' = MkWorld (MkPg d' ∅) posts' /\ P d' posts'.
Proof.
  intros Ho HP.
  assert (Hq : quiet i (MkPg d ∅) (MkSeq d None posts)) by done.
  destruct (outcome_may i p (MkWorld _ posts) _ a w' Hq eq_refl Ho) as (s' & Hm & [Hc Hs] & Hp).
  destruct (HP s' Hm) as (d' & posts' & -> & H). exists d', posts'. split; [|done].
  destruct w' as [[c ss] ps]. cbn in *. by subst.
Qed.

(** What an engine does, healthy or not, is allowed. *)
Lemma run_outcome `{Engine} {A} net i (p : prog A) st posts a st' posts' :
  (forall n req, post_contract (net n req)) ->
  run net i p st posts = Some (a, (st', posts')) ->
  outcome i p (MkWorld (e_abs st) posts) a (MkWorld (e_abs st') posts').
Proof.
  intros Hnet. revert st posts. induction p as [a0|[q|req] k IH]; intros st posts; cbn [run outcome].
  - by intros [= -> -> ->].
  - destruct (e_exec st i q) as [[r st1]|] eqn:Hx; [|done]. intros Hr. apply e_sound in Hx.
    exists r, (MkWorld (e_abs st1) posts). split; [by split | by apply IH].
  - intros Hr. exists (net (length posts) req), (MkWorld (e_abs st) (posts ++ [req])).
    split; [split; [apply Hnet | done] | by apply IH].
Qed.

(** C19.  A reservation is all or nothing, whatever fails.  In every run the contract of
    the database allows (a failure at any statement, or at a commit with or without
    effect), the tables afterwards are those of the run without failures or those of
    before, no transaction is left open, and nothing is sent; the caller gets the
    result of the run without failures, or a [PersistenceError] or an error that is
    not SQLAlchemy's, and the effects of a call that reports a failure are those of
    a call that would have succeeded. *)
Theorem reserve_atomic i d posts key fp tid mid amount currency r w' :
  outcome i (reserve key fp tid mid amount currency) (MkWorld (MkPg d ∅) posts) r w' ->
  let '(r0, d0) := reserve_result key fp tid mid amount currency d in
  exists d', w' = MkWorld (MkPg d' ∅) posts /\ atomic d d0 r0 r d'.
Proof.
  intros H. destruct (reserve_result _ _ _ _ _ _ d) as [r0 d0] eqn:Hr.
  destruct (outcome_idle _ _ _ _ _ _ (fun d' posts' => posts' = posts /\ atomic d d0 r0 r d') H)
    as (d' & ? & -> & -> & Ha); [|by exists d'].
  intros s' Hm. apply (may_reserve silent_network) in Hm. rewrite Hr in Hm.
  destruct Hm as (d' & -> & Ha). by exists d', posts.
Qed.

(** C20.  So is a completion: the transaction and its key are written together or not at
    all. *)
Theorem complete_atomic i d posts key t ver envelope nref auth decl r w' :
  outcome i (complete key t ver envelope nref auth decl) (MkWorld (MkPg d ∅) posts) r w' ->
  let '(r0, d0) := complete_result key t ver envelope nref auth decl d in
  exists d', w' = MkWorld (MkPg d' ∅) posts /\ atomic d d0 r0 r d'.
Proof.
  intros H. destruct (complete_result _ _ _ _ _ _ _ d) as [r0 d0] eqn:Hr.
  destruct (outcome_idle _ _ _ _ _ _ (fun d' posts' => posts' = posts /\ atomic d d0 r0 r d') H)
    as (d' & ? & -> & -> & Ha); [|by exists d'].
  intros s' Hm. apply (may_complete silent_network) in Hm. rewrite Hr in Hm.
  destruct Hm as (d' & -> & Ha). by exists d', posts.
Qed.

(** C14.  What one request leaves behind when any operation of the database may fail and
    the network may answer anything.  Either nothing has changed and nothing was
    sent; or its reservation is durable, alone, with or without the one authorization
    request sent, and the caller gets an error; or reservation and completion are both
    durable with the one request sent, and the caller gets the recorded response or an
    error.  So a response is only given when it is recorded (or was found recorded),
    no transaction is left open, and every error is a [PersistenceError], an
    [OptimisticConcurrencyError], or an error that is not SQLAlchemy's. *)
Theorem failing_request adapter command raw_key key fp i d posts r w' :
  strip (cmd_transaction_id command) <> [] -> compute_key_hash raw_key = Ok key ->
  compute_request_fingerprint (cmd_amount command) (cmd_currency command)
    (cmd_merchant_id command) (cmd_payment_token command) (cmd_transaction_id command) = Ok fp ->
  outcome i (orchestrate adapter command raw_key) (MkWorld (MkPg d ∅) posts) r w' ->
  exists d' posts', w' = MkWorld (MkPg d' ∅) posts'
    /\ left_behind adapter command key fp d posts r d' posts'.
Proof.
  intros Hid Hk Hf H. eapply outcome_idle; [exact H|]. intros s' Hm. by eapply may_handle.
Qed.

(** ** A commit whose acknowledgement is lost *)

(** A run computed by the virtual machine. *)
Ltac by_run := match goal with |- _ = ?r => vm_cast_no_check (eq_refl r) end.

Definition lost_commit (n : nat) : list ReferenceEngine.fault :=
  replicate n ReferenceEngine.NoFault ++ [ReferenceEngine.Wrapped true].

Definition failing_state {R} (o : option (R * ((pgstate * list ReferenceEngine.fault) * list http_request)))
    : world :=
  match o with
  | Some (_, ((s, _), posts)) => MkWorld s posts
  | None => MkWorld (MkPg empty_db ∅) []
  end.

Abbreviation run_failing p n :=
  (@run ReferenceEngine.engine approving_network _ 0 p (MkPg empty_db ∅, lost_commit n) []).

Abbreviation sample_reserve :=
  (reserve sample_key sample_fingerprint (py "txn_1") (py "merchant_1") 2500 (py "USD")).
Definition reserved_world : world := Eval vm_compute in failing_state (run_failing sample_reserve 4).

Lemma sample_reserve_outcome :
  outcome 0 sample_reserve (MkWorld (MkPg empty_db ∅) []) (Raise PersistenceError) reserved_world.
Proof.
  apply (@run_outcome ReferenceEngine.engine _ approving_network 0 sample_reserve
           (MkPg empty_db ∅, lost_commit 4) [] _ (w_pg reserved_world, []) [] approving_contract).
  by_run.
Qed.

Lemma reserve_atomic_witness :
  let '(r0, d0) := reserve_result sample_key sample_fingerprint (py "txn_1") (py "merchant_1") 2500
                     (py "USD") empty_db in
  exists d', reserved_world = MkWorld (MkPg d' ∅) []
             /\ atomic empty_db d0 r0 (Raise PersistenceError) d'.
Proof. exact (reserve_atomic _ _ _ _ _ _ _ _ _ _ _ sample_reserve_outcome). Defined.

(** The completion of that reservation, its commit lost too. *)
Abbreviation sample_complete := (complete sample_key sample_attempt 0 sample_envelope None None None).
Definition completed_world : world :=
  Eval vm_compute in
  failing_state (@run ReferenceEngine.engine approving_network _ 0 sample_complete
                   (MkPg sample_reserved ∅, lost_commit 3) []).

Lemma sample_complete_outcome :
  outcome 0 sample_complete (MkWorld (MkPg sample_reserved ∅) []) (Raise PersistenceError)
    completed_world.
Proof.
  apply (@run_outcome ReferenceEngine.engine _ approving_network 0 sample_complete
           (MkPg sample_reserved ∅, lost_commit 3) [] _ (w_pg completed_world, []) [] approving_contract).
  by_run.
Qed.

Lemma complete_atomic_witness :
  let '(r0, d0) := complete_result sample_key sample_attempt 0 sample_envelope None None None
                     sample_reserved in
  exists d', completed_world = MkWorld (MkPg d' ∅) []
             /\ atomic sample_reserved d0 r0 (Raise PersistenceError) d'.
Proof. exact (complete_atomic _ _ _ _ _ _ _ _ _ _ _ _ sample_complete_outcome). Defined.

(** A whole request whose last commit is lost: it is recorded as authorized, and its
    caller gets an error. *)
Abbreviation sample_request := (orchestrate sample_adapter sample_command sample_raw_key).
Definition unacknowledged_world : world :=
  Eval vm_compute in failing_state (run_failing sample_request 8).

Lemma sample_request_outcome :
  outcome 0 sample_request (MkWorld (MkPg empty_db ∅) []) (Raise PersistenceError)
    unacknowledged_world.
Proof.
  apply (@run_outcome ReferenceEngine.engine _ approving_network 0 sample_request
           (MkPg empty_db ∅, lost_commit 8) [] _
           (w_pg unacknowledged_world, []) (w_posts unacknowledged_world) approving_contract).
  by_run.
Qed.

Lemma failing_request_witness :
  length (w_posts unacknowledged_world) = 1%nat
  /\ exists d' posts', unacknowledged_world = MkWorld (MkPg d' ∅) posts'
     /\ left_behind sample_adapter sample_command sample_key_hash sample_request_fingerprint
          empty_db [] (Raise PersistenceError) d' posts'.
Proof.
  split; [reflexivity|].
  refine (failing_request sample_adapter sample_command sample_raw_key sample_key_hash
            sample_request_fingerprint 0 empty_db [] _ _ _ _ _ sample_request_outcome);
    apply sample_well_formed.
Defined.
