(* ===== verification/Protocol.v ===== *)
(** The protocol that one request follows while others run: which operations it may
    perform next, as a weakest-precondition calculus over its program, and the proof
    that the orchestrator keeps to it whatever the database and the network answer. *)
From S2P Require Import Prelude PyStr Sha256 Json Domain Ports Idempotency Schema Effects Adapter.
From S2P Require Import Authorize Problem Coordinator Ledger Orchestrator.

Open Scope Z_scope.

(** * Ghost state of a request *)

(** What the open transaction of the request has written. *)
Inductive tstate : Type :=
| Closed
| Fresh
| InsTx (r : transaction_row)
| InsBoth (r : transaction_row) (r' : idempotency_row)
| UpdTx (r : transaction_row)
| UpdBoth (r : transaction_row) (r' : idempotency_row).

(** What the request is entitled to: to contact the network for the transaction it
    reserved, or to complete that transaction. *)
Inductive right : Type :=
| NoRight
| MayPost (key tid : pystr)
| HasPosted (key tid : pystr).

Record ghost : Type := Gh { gt : tstate; gr : right }.

Definition idle_ghost : ghost := Gh Closed NoRight.

(** The identifier a request is sent for. *)
Definition posted_id (req : http_request) : option json := dict_get (py "request_id") (hr_json req).

(** A transaction in one of the states an authorization attempt ends in. *)
Definition settled_status (s : pystr) : Prop :=
  exists st, s = TransactionStatus_value st /\ st <> CREATED.

(** The cached response tells the state of the transaction. *)
Definition truthful (st : pystr) (code : option Z) (body : option body_dict) : Prop :=
  ((st = py "AUTHORIZED" \/ st = py "DECLINED") /\ code = Some 201
   /\ exists b, body = Some b /\ b !! py "status" = Some (JStr st))
  \/ (st = py "PENDING_RECONCILIATION" /\ code = Some 202
      /\ exists b, body = Some b /\ b !! py "status" = Some (JStr st))
  \/ (st = py "FAILED" /\ (code = Some 502 \/ code = Some 503)).

(** * The rules *)

(** When an operation is allowed. *)
Definition db_pre (g : ghost) (q : dbop) : Prop :=
  match q with
  | OpBegin => gt g = Closed
  | OpCommit =>
      match gt g with Fresh | InsBoth _ _ | UpdBoth _ _ => True | _ => False end
  | OpRollback => gt g <> Closed
  | OpSelectIdempotency _ | OpSelectTransactionId _ => gt g = Fresh
  | OpInsertTransaction row =>
      g = Gh Fresh NoRight /\ exists tid mid amount currency,
        row = reserved_transaction tid mid amount currency
  | OpInsertIdempotency row => exists r key fp tid,
      g = Gh (InsTx r) NoRight /\ row = reserved_idempotency key fp tid
      /\ store_varchar 128 tid = Some (t_transaction_id r)
  | OpUpdateTransaction tid ver v => exists key,
      g = Gh Fresh (HasPosted key tid) /\ v_version v = 1 /\ settled_status (v_status v)
  | OpUpdateIdempotency key tid st v => exists r,
      g = Gh (UpdTx r) (HasPosted key tid) /\ st = py "IN_PROGRESS"
      /\ v_processing_status v = py "COMPLETED"
      /\ truthful (t_status r) (v_stored_status_code v) (v_stored_response_body v)
  end.

Definition pre (g : ghost) (o : op) : Prop :=
  match o with
  | Db q => db_pre g q
  | Post req => exists key tid, g = Gh Closed (MayPost key tid) /\ posted_id req = Some (JStr tid)
  end.

(** The right that a committed transaction gives. *)
Definition committed_right (g : ghost) : right :=
  match gt g with
  | InsBoth r r' => MayPost (i_idempotency_key_hash r') (t_transaction_id r)
  | UpdBoth _ _ => NoRight
  | _ => gr g
  end.

(** What an operation leaves behind, for each answer. *)
Definition db_post (g : ghost) (q : dbop) : res exn (db_val q) -> ghost -> Prop :=
  match q with
  | OpBegin => fun r g' => match r with Ok _ => g' = Gh Fresh (gr g) | Raise _ => g' = g end
  | OpCommit => fun r g' =>
      g' = Gh Closed (match r with Ok _ => committed_right g | Raise _ => NoRight end)
  | OpRollback => fun r g' =>
      g' = Gh Closed (gr g) /\ match r with Ok _ => True | Raise e => db_fault e end
  | OpSelectIdempotency _ | OpSelectTransactionId _ => fun r g' => g' = g
  | OpInsertTransaction row => fun r g' =>
      match r with
      | Ok _ => exists r', store_transaction_row row = Some r' /\ g' = Gh (InsTx r') NoRight
      | Raise _ => g' = g
      end
  | OpInsertIdempotency row => fun r g' =>
      match r with
      | Ok _ => exists r0 r', gt g = InsTx r0 /\ store_idempotency_row row = Some r'
                              /\ g' = Gh (InsBoth r0 r') NoRight
      | Raise _ => g' = g
      end
  | OpUpdateTransaction tid ver v => fun r g' =>
      match r with
      | Ok n => if n =? 1
                then exists r0 r', store_transaction_row (set_transaction v r0) = Some r'
                                /\ t_status r' = v_status v /\ g' = Gh (UpdTx r') (gr g)
                else g' = g
      | Raise _ => g' = g
      end
  | OpUpdateIdempotency key tid st v => fun r g' =>
      match r with
      | Ok n => if n =? 1
                then exists r0 rec r', gt g = UpdTx r0
                     /\ store_idempotency_row (set_idempotency v rec) = Some r'
                     /\ g' = Gh (UpdBoth r0 r') (gr g)
                else g' = g
      | Raise _ => g' = g
      end
  end.

Definition post (g : ghost) (o : op) : res exn (op_val o) -> ghost -> Prop :=
  match o with
  | Db q => db_post g q
  | Post req => fun r g' =>
      post_contract r
      /\ match gr g with
         | MayPost key tid => g' = Gh Closed (HasPosted key tid)
         | _ => False
         end
  end.

(** The program keeps to the rules and ends in a state described by [Q]. *)
Fixpoint wp {A} (g : ghost) (p : prog A) (Q : A -> ghost -> Prop) : Prop :=
  match p with
  | Ret a => Q a g
  | Vis o k => pre g o /\ forall r g', post g o r g' -> wp g' (k r) Q
  end.

Lemma wp_mono {A} (p : prog A) g (Q Q' : A -> ghost -> Prop) :
  (forall a g', Q a g' -> Q' a g') -> wp g p Q -> wp g p Q'.
Proof.
  intros HQ. revert g. induction p as [a|o k IH]; intros g; cbn [wp]; [apply HQ|].
  intros [Hp Hk]. split; [done|]. intros r g' Hpost. by apply IH, Hk.
Qed.

Lemma wp_pbind {A B} (p : prog A) (f : A -> prog B) g Q :
  wp g p (fun a g' => wp g' (f a) Q) -> wp g (pbind p f) Q.
Proof.
  revert g. induction p as [a|o k IH]; intros g; cbn [wp pbind]; [done|].
  intros [Hp Hk]. split; [done|]. intros r g' Hpost. by apply IH, Hk.
Qed.

Lemma wp_io_bind {A B} (p : io A) (f : A -> io B) g (Q : res exn B -> ghost -> Prop) :
  wp g p (fun r g' => match r with Ok a => wp g' (f a) Q | Raise e => Q (Raise e) g' end) ->
  wp g (io_bind p f) Q.
Proof.
  intros H. apply wp_pbind. revert H. apply wp_mono. by intros [a|e] g'.
Qed.

Lemma wp_try_except {A} (p : io A) (h : exn -> io A) g (Q : res exn A -> ghost -> Prop) :
  wp g p (fun r g' => match r with Ok a => Q (Ok a) g' | Raise e => wp g' (h e) Q end) ->
  wp g (try_except p h) Q.
Proof.
  intros H. apply wp_pbind. revert H. apply wp_mono. by intros [a|e] g'.
Qed.

Lemma wp_await_db q g (Q : res exn (db_val q) -> ghost -> Prop) :
  db_pre g q -> (forall r g', db_post g q r g' -> Q r g') -> wp g (await_db q) Q.
Proof. intros Hp HQ. split; [done|]. intros r g' Hpost. by apply HQ. Qed.

(** A short transaction: its body starts on a fresh session; a body that returns must
    have written both rows or none. *)
Lemma wp_with_transaction {A} (body : io A) rt (Q : res exn A -> ghost -> Prop) :
  wp (Gh Fresh rt) body (fun r g' =>
    match r with
    | Ok a => db_pre g' OpCommit /\ Q (Ok a) (Gh Closed (committed_right g'))
              /\ (forall e, Q (Raise e) idle_ghost)
    | Raise _ => gt g' <> Closed /\ forall e, Q (Raise e) (Gh Closed (gr g'))
    end) ->
  (forall e, Q (Raise e) (Gh Closed rt)) ->
  wp (Gh Closed rt) (with_transaction body) Q.
Proof.
  intros Hbody Hbegin. apply wp_io_bind, wp_await_db; [done|]. intros [u|e] g' Hg; cbn in Hg; subst g'.
  2: apply Hbegin.
  apply wp_pbind. revert Hbody. apply wp_mono. intros [a|e] g' H.
  - destruct H as (Hp & HQ & He). apply wp_io_bind, wp_await_db; [done|].
    intros [u'|e] g2 ->; [done | apply He].
  - destruct H as [Hp HQ]. apply wp_io_bind, wp_await_db; [done|]. intros [x|e'] g2 [-> _]; apply HQ.
Qed.

(** * The programs keep to the protocol *)

(** A request that has no session open and no right left. *)
Definition released (g : ghost) : Prop := g = idle_ghost.

Lemma classify_status record fp a :
  _classify_existing record fp = Ok a -> res_status a <> ACQUIRED.
Proof. unfold _classify_existing. repeat case_match; intros H'; simplify_eq; done. Qed.

Lemma stored_ids row r' :
  store_transaction_row row = Some r' -> store_varchar 128 (t_transaction_id row) = Some (t_transaction_id r').
Proof. unfold store_transaction_row. intros H. bind_some. by simplify_eq. Qed.

Lemma stored_keys row r' :
  store_idempotency_row row = Some r' ->
  store_varchar 64 (i_idempotency_key_hash row) = Some (i_idempotency_key_hash r').
Proof. unfold store_idempotency_row. intros H. bind_some. by simplify_eq. Qed.

Lemma store_short n s s' : (length s <= n)%nat -> store_varchar n s = Some s' -> s' = s.
Proof.
  intros Hl. unfold store_varchar. destruct (text_ok s); [|done]. cbn [negb].
  apply Nat.leb_le in Hl. rewrite Hl. by intros [= <-].
Qed.

(** After a reservation: the right to post, exactly when it was acquired. *)
Definition after_reserve (key tid : pystr) (r : res exn IdempotencyReservation) (g : ghost) : Prop :=
  match r with
  | Ok a => if decide (res_status a = ACQUIRED) then g = Gh Closed (MayPost key tid)
            else g = idle_ghost
  | Raise _ => g = idle_ghost
  end.

Lemma wp_reserve_attempt key fp tid mid amount currency :
  (length key <= 64)%nat -> (length tid <= 128)%nat ->
  wp idle_ghost (reserve_attempt key fp tid mid amount currency) (after_reserve key tid).
Proof.
  intros Hkey Htid. apply wp_with_transaction; [|done].
  apply wp_io_bind, wp_await_db; [done|]. intros [[record|]|e] g' Hg; cbn in Hg; subst g'.
  - cbn [io_lift wp]. destruct (_classify_existing record fp) as [a|e] eqn:Ha; [|done].
    apply classify_status in Ha. split_and!; [done | | done]. cbn. by rewrite decide_False.
  - apply wp_io_bind, wp_try_except, wp_io_bind, wp_await_db.
    { split; [done|]. by eexists _, _, _, _. }
    intros [[]|e] g' Hg; cbn in Hg.
    + destruct Hg as (r' & Hst & ->). pose proof (stored_ids _ _ Hst) as Hid. cbn in Hid.
      apply wp_await_db. { by eexists r', _, _, _. }
      intros [[]|e] g' Hg; cbn in Hg.
      * destruct Hg as (r0 & r2 & [= <-] & Hst2 & ->). cbn [wp io_ret].
        pose proof (stored_keys _ _ Hst2) as Hk. cbn in Hk.
        apply store_short in Hid, Hk; [|done..]. cbn. by rewrite Hid, Hk.
      * subst g'. by destruct e.
    + subst g'. by destruct e.
  - done.
Qed.

Lemma wp_reserve_requery key fp tid :
  wp idle_ghost (reserve_requery key fp tid) (after_reserve key tid).
Proof.
  apply wp_io_bind.
  apply wp_mono with (fun (r : res exn (option IdempotencyReservation)) g =>
    g = idle_ghost /\ match r with Ok (Some a) => res_status a <> ACQUIRED | _ => True end).
  { intros [[a|]|e] g [-> Ha]; [|done..]. cbn. by rewrite decide_False. }
  apply wp_with_transaction; [|done].
  apply wp_io_bind, wp_await_db; [done|]. intros [[record|]|e] g' Hg; cbn in Hg; subst g'; [| |done].
  - cbn [io_lift]. apply wp_io_bind. cbn [wp].
    destruct (_classify_existing record fp) as [a|e] eqn:Ha; [|done].
    apply classify_status in Ha. done.
  - apply wp_io_bind, wp_await_db; [done|].
    by intros [[t|]|e] g' Hg; cbn in Hg; subst g'.
Qed.

Lemma wp_reserve key fp tid mid amount currency :
  (length key <= 64)%nat -> (length tid <= 128)%nat ->
  wp idle_ghost (reserve key fp tid mid amount currency) (after_reserve key tid).
Proof.
  intros Hkey Htid. apply wp_try_except. eapply wp_mono; [|by apply wp_reserve_attempt].
  intros [a|e] g Hg; [done|]. cbn in Hg. subst g.
  assert (Hw : forall e, wp idle_ghost (wrap_sqlalchemy e) (after_reserve key tid)).
  { intros e'. unfold wrap_sqlalchemy. by destruct (is_PersistenceError e'), (is_SQLAlchemyError e'). }
  destruct e; try apply Hw. apply wp_try_except. eapply wp_mono; [|apply wp_reserve_requery].
  intros [a|e] g Hg; [done|]. cbn in Hg. subst g. apply Hw.
Qed.

Lemma new_transaction_cases tid :
  new_transaction tid = Ok (MkTransaction tid CREATED 0 None)
  \/ exists e, new_transaction tid = Raise e.
Proof.
  destruct (decide (strip tid = [])) as [Hs|Hs]; [right|left; by apply new_transaction_ok].
  unfold new_transaction, Transaction_init, check_transaction_id.
  rewrite (proj2 (str_eqb_eq _ _) Hs). by eexists.
Qed.

(** The service posts once, with the right to do so. *)
Lemma wp_invoke_service adapter command key :
  wp (Gh Closed (MayPost key (cmd_transaction_id command)))
    (@invoke_service (http_port adapter) command)
    (fun r g =>
       gt g = Closed
       /\ match r with
          | Ok c => g = Gh Closed (HasPosted key (cmd_transaction_id command))
                    /\ exists v, completion_of (cmd_transaction_id command) v = Ok c
          | Raise _ => True
          end).
Proof.
  set (tid := cmd_transaction_id command).
  apply wp_try_except, wp_io_bind. unfold execute. fold tid. apply wp_io_bind. cbn [io_lift wp].
  destruct (new_transaction_cases tid) as [->|[e ->]]; cbn [lift_domain]; [|by split].
  apply wp_pbind. cbn [pn_authorize http_port]. unfold authorize. apply wp_io_bind, wp_try_except.
  cbn [await_post wp]. split; [by eexists _, _|]. intros r g' [Hr Hg]. cbn in Hg. subst g'.
  pose proof (http_verdict_clean r Hr) as Hclean.
  assert (Hs : forall answer,
    verdict_of answer = http_verdict r ->
    settle (MkTransaction tid CREATED 0 None) answer = settled tid (http_verdict r)).
  { intros answer Ha. by rewrite settle_spec, Ha. }
  destruct r as [response|e]; cbn [wp io_lift io_raise]; rewrite Hs by done;
    destruct (http_verdict _) as [n x|d|k| | |e'] eqn:Hv; cbn; try (subst e'; by split);
    split_and!; try done;
    match type of Hv with ?v = _ => exists v; rewrite Hv; reflexivity end.
Qed.

(** What a completion writes is what the protocol asks for. *)
Lemma completion_values tid v c :
  completion_of tid v = Ok c ->
  transaction_id (cp_transaction c) = tid
  /\ let w := completed_transaction (cp_transaction c) (cp_network_reference c)
                (cp_authorization_code c) (cp_decline_code c) in
     v_version w = 1 /\ settled_status (v_status w)
     /\ truthful (v_status w) (Some (env_status_code (cp_envelope c)))
          (Some (env_body (cp_envelope c))).
Proof.
  destruct v; cbn [completion_of]; try discriminate; intros Hc%Ok_inj; subst c;
    cbn [cp_transaction cp_envelope attempted transaction_id completed_transaction v_version v_status
      version status map_result_to_envelope env_status_code env_body ar_transaction rejected_envelope
      rate_limited_envelope _make_problem_envelope ar_network_reference ar_authorization_code
      ar_decline_code];
    (split; [reflexivity|]); cbv zeta; (split; [reflexivity|]);
    (split; [eexists; split; [reflexivity|discriminate]|]); unfold truthful.
  - left. split_and!; [by left | done |]. eexists; split; reflexivity.
  - left. split_and!; [by right | done |]. eexists; split; reflexivity.
  - right; right. split; [done | by right].
  - right; right. split; [done | by left].
  - right; left. split_and!; [done..|]. eexists; split; reflexivity.
Qed.

Lemma wp_complete key tid t envelope nref auth decl :
  transaction_id t = tid -> version t = 1 ->
  settled_status (TransactionStatus_value (status t)) ->
  truthful (TransactionStatus_value (status t)) (Some (env_status_code envelope))
    (Some (env_body envelope)) ->
  wp (Gh Closed (HasPosted key tid)) (complete key t 0 envelope nref auth decl)
    (fun _ g => gt g = Closed).
Proof.
  intros Hid Hv Hs Htr. unfold complete. rewrite Hv. cbn [Z.add Z.eqb Pos.eqb negb].
  apply wp_try_except. eapply wp_mono with (fun _ g => gt g = Closed).
  { intros [a|e] g Hg; [done|]. unfold wrap_sqlalchemy.
    by destruct (is_PersistenceError e), (is_SQLAlchemyError e). }
  apply wp_with_transaction; [|done]. apply wp_io_bind, wp_await_db.
  { cbn. rewrite Hid. by eexists. }
  intros [n|e] g' Hg; cbn in Hg; [|by subst]. destruct (n =? 1) eqn:Hn.
  2: { subst g'. apply wp_io_bind. done. }
  destruct Hg as (r0 & r' & _ & Hst & ->). apply wp_io_bind. cbn [wp negb io_ret].
  apply wp_io_bind, wp_await_db.
  { cbn. exists r'. rewrite Hid, Hst. done. }
  intros [m|e] g' Hg; cbn in Hg; [|by subst]. destruct (m =? 1) eqn:Hm; cbn.
  - by destruct Hg as (r1 & rec & r2 & _ & _ & ->).
  - by subst g'.
Qed.

(** A request keeps to the protocol from its arrival to its end. *)
Lemma wp_handle adapter command raw_key :
  (length (cmd_transaction_id command) <= 128)%nat ->
  wp idle_ghost (orchestrate adapter command raw_key) (fun _ g => gt g = Closed).
Proof.
  intros Htid. apply wp_io_bind. cbn [io_lift wp].
  destruct (compute_key_hash raw_key) as [key|e] eqn:Hk; [|done].
  assert (Hlen : (length key <= 64)%nat).
  { unfold compute_key_hash, sha256_of_str in Hk. destruct (utf8_encode raw_key); [|discriminate].
    apply Ok_inj in Hk. subst key. rewrite (proj1 (sha256_hex_format _)). lia. }
  apply wp_io_bind. cbn [io_lift wp]. destruct (compute_request_fingerprint _ _ _ _ _) as [fp|e]; [|done].
  apply wp_io_bind. cbn [co_reserve sql_coordinator].
  eapply wp_mono; [|by apply wp_reserve]. intros [a|e] g Hg; cbn in Hg; [|by subst].
  case_decide as Ha.
  2: { subst g. destruct (res_status a); try done. by destruct (res_stored_envelope a). }
  subst g. rewrite Ha. apply wp_io_bind. eapply wp_mono; [|apply wp_invoke_service].
  intros [c|e] g [Hcl Hg]; [|done]. destruct Hg as (-> & v & Hv).
  apply completion_values in Hv as (Hid & Hver & Hs & Htr). apply wp_io_bind.
  cbn [co_complete sql_coordinator]. eapply wp_mono; [|by apply wp_complete].
  by intros [u|e] g Hg.
Qed.

(** * How long a request takes *)

(** At most [n] operations, whatever they answer. *)
Fixpoint within {A} (n : nat) (p : prog A) {struct p} : Prop :=
  match p with
  | Ret _ => True
  | Vis o k => match n with O => False | S m => forall r, within m (k r) end
  end.

Lemma within_mono {A} (p : prog A) n m : (n <= m)%nat -> within n p -> within m p.
Proof.
  revert n m. induction p as [a|o k IH]; intros n m Hle; cbn; [done|].
  destruct n as [|n]; [done|]. destruct m as [|m]; [lia|]. intros Hk r.
  apply (IH r n m); [lia | apply Hk].
Qed.

Lemma within_pbind {A B} (p : prog A) (f : A -> prog B) n m :
  within n p -> (forall a, within m (f a)) -> within (n + m) (pbind p f).
Proof.
  intros Hp Hf. revert n Hp. induction p as [a|o k IH]; intros n Hp; cbn [pbind].
  - apply (within_mono _ m); [lia | apply Hf].
  - destruct n as [|n]; [done|]. intros r. apply IH, Hp.
Qed.

Lemma within_await_db q n : within (S n) (await_db q).
Proof. by intros r. Qed.

Lemma within_io_bind {A B} (p : io A) (f : A -> io B) n m :
  within n p -> (forall a, within m (f a)) -> within (n + m) (io_bind p f).
Proof. intros Hp Hf. apply within_pbind; [done|]. by intros [a|e]. Qed.

Lemma within_try_except {A} (p : io A) (h : exn -> io A) n m :
  within n p -> (forall e, within m (h e)) -> within (n + m) (try_except p h).
Proof. intros Hp Hf. apply within_pbind; [done|]. by intros [a|e]. Qed.

Lemma within_with_transaction {A} (body : io A) n :
  within n body -> within (1 + (n + 1)) (with_transaction body).
Proof.
  intros Hb. apply within_io_bind; [apply within_await_db|]. intros _. apply within_pbind; [done|].
  intros [a|e]; apply (within_io_bind _ _ 1 0); done || apply within_await_db.
Qed.

Lemma within_wrap {A} e : within 0 (@wrap_sqlalchemy A e).
Proof. unfold wrap_sqlalchemy. by destruct (is_PersistenceError e), (is_SQLAlchemyError e). Qed.

Lemma within_reserve key fp tid mid amount currency :
  within 9 (reserve key fp tid mid amount currency).
Proof.
  apply (within_try_except _ _ 5 4).
  - apply (within_with_transaction _ 3), (within_io_bind _ _ 1 2); [done|]. intros [record|].
    + by destruct (_classify_existing record fp).
    + apply (within_io_bind _ _ 2 0); [|done]. apply (within_try_except _ _ 2 0).
      * by apply (within_io_bind _ _ 1 1).
      * by intros [].
  - assert (Hw : forall e, within 4 (@wrap_sqlalchemy IdempotencyReservation e)).
    { intros e. apply (within_mono _ 0); [lia | apply within_wrap]. }
    assert (Hr : within 4 (try_except (reserve_requery key fp tid) wrap_sqlalchemy)).
    { apply (within_try_except _ _ 4 0); [|apply within_wrap].
      apply (within_io_bind _ _ 4 0); [|by intros [a|]].
      apply (within_with_transaction _ 2), (within_io_bind _ _ 1 1); [done|]. intros [record|].
      + apply (within_io_bind _ _ 0 1); [|done]. by destruct (_classify_existing record fp).
      + apply (within_io_bind _ _ 1 0); [done|]. by intros [t|]. }
    by intros [].
Qed.

Lemma within_complete key t ver envelope nref auth decl :
  within 4 (complete key t ver envelope nref auth decl).
Proof.
  unfold complete. destruct (negb _); [done|].
  apply (within_try_except _ _ 4 0); [|apply within_wrap].
  apply (within_with_transaction _ 2), (within_io_bind _ _ 1 1); [done|]. intros n.
  apply (within_io_bind _ _ 0 1); [by destruct (negb _)|]. intros _.
  apply (within_io_bind _ _ 1 0); [done|]. intros m. by destruct (negb _).
Qed.

Lemma within_invoke_service adapter command : within 1 (@invoke_service (http_port adapter) command).
Proof.
  apply (within_try_except _ _ 1 0); [|by intros []].
  apply (within_io_bind _ _ 1 0); [|done]. unfold execute. apply (within_io_bind _ _ 0 1); [done|].
  intros t. apply (within_pbind _ _ 1 0); [|done]. unfold pn_authorize, http_port, authorize.
  apply (within_io_bind _ _ 1 0).
  - apply (within_try_except _ _ 1 0); [done|]. intros e. by destruct (translate_http_exn e).
  - done.
Qed.

(** A request performs at most fourteen operations. *)
Lemma within_handle adapter command raw_key : within 14 (orchestrate adapter command raw_key).
Proof.
  unfold orchestrate, handle_authorization. apply (within_io_bind _ _ 0 14); [done|]. intros key.
  apply (within_io_bind _ _ 0 14); [done|]. intros fp. apply (within_io_bind _ _ 9 5); [apply within_reserve|].
  intros a. destruct (res_status a); try done.
  - apply (within_io_bind _ _ 1 4); [apply within_invoke_service|]. intros c.
    apply (within_io_bind _ _ 4 0); [apply within_complete | done].
  - by destruct (res_stored_envelope a).
Qed.
