(* ===== verification/Coherence.v ===== *)
(** The two tables as concurrent requests see them: which pairs of rows are coherent,
    what a request knows of the rows it has reserved or locked, and how the committed
    rows may evolve. *)
From S2P Require Import Prelude PyStr Sha256 Json Domain Ports Idempotency Schema Effects Adapter.
From S2P Require Import Authorize Problem Coordinator Ledger Orchestrator Protocol.

Open Scope Z_scope.

(** * Coherence of the tables *)

(** A reserved transaction with its record, and a finished one with its response. *)
Definition pair_ok (r : transaction_row) (rec : idempotency_row) : Prop :=
  (i_processing_status rec = py "IN_PROGRESS" /\ t_status r = py "CREATED" /\ t_version r = 0)
  \/ (i_processing_status rec = py "COMPLETED" /\ t_version r = 1 /\ settled_status (t_status r)
      /\ truthful (t_status r) (i_stored_status_code rec) (i_stored_response_body rec)).

(** Transactions and keys correspond one to one, in matching states. *)
Record coherent (d : db) : Prop := MkCoherent {
  co_pair : forall key rec, idempotency_records d !! key = Some rec ->
    exists r, transactions d !! i_transaction_id rec = Some r /\ pair_ok r rec;
  co_onto : forall tid r, transactions d !! tid = Some r ->
    exists key rec, idempotency_records d !! key = Some rec /\ i_transaction_id rec = tid;
  co_inj : forall k k' rec rec',
    idempotency_records d !! k = Some rec -> idempotency_records d !! k' = Some rec' ->
    i_transaction_id rec = i_transaction_id rec' -> k = k'
}.

Lemma coherent_empty : coherent empty_db.
Proof. by constructor. Qed.

(** * What a request knows of the tables *)

Definition overlay_of (t : tstate) : option db :=
  match t with
  | Closed => None
  | Fresh => Some empty_db
  | InsTx r | UpdTx r => Some (put_transaction r empty_db)
  | InsBoth r r' | UpdBoth r r' => Some (put_idempotency r' (put_transaction r empty_db))
  end.

(** The rows an open transaction has locked. *)
Definition tx_of (t : tstate) : option pystr :=
  match t with
  | InsTx r | UpdTx r | InsBoth r _ | UpdBoth r _ => Some (t_transaction_id r)
  | _ => None
  end.
Definition key_of (t : tstate) : option pystr :=
  match t with
  | InsBoth _ r' | UpdBoth _ r' => Some (i_idempotency_key_hash r')
  | _ => None
  end.
Definition right_of (r : right) : option pystr :=
  match r with NoRight => None | MayPost _ tid | HasPosted _ tid => Some tid end.

Definition reserved (d : db) (key tid : pystr) : Prop :=
  exists rec, idempotency_records d !! key = Some rec /\ i_transaction_id rec = tid
              /\ i_processing_status rec = py "IN_PROGRESS".

Definition fresh_tx (d : db) (r : transaction_row) : Prop :=
  transaction_row_ok (t_transaction_id r) r /\ t_status r = py "CREATED" /\ t_version r = 0
  /\ transactions d !! t_transaction_id r = None.
Definition fresh_key (d : db) (r : transaction_row) (r' : idempotency_row) : Prop :=
  idempotency_row_ok (i_idempotency_key_hash r') r' /\ i_processing_status r' = py "IN_PROGRESS"
  /\ i_transaction_id r' = t_transaction_id r
  /\ idempotency_records d !! i_idempotency_key_hash r' = None.

(** An update keeps what identifies the transaction and the request. *)
Definition same_transaction (r r' : transaction_row) : Prop :=
  t_merchant_id r' = t_merchant_id r /\ t_amount r' = t_amount r /\ t_currency r' = t_currency r.
Definition done_tx (d : db) (tid : pystr) (r : transaction_row) : Prop :=
  transaction_row_ok tid r /\ t_version r = 1 /\ settled_status (t_status r)
  /\ exists r0, transactions d !! tid = Some r0 /\ same_transaction r0 r.
Definition done_key (d : db) (key tid : pystr) (r : transaction_row) (r' : idempotency_row) : Prop :=
  idempotency_row_ok key r' /\ i_processing_status r' = py "COMPLETED" /\ i_transaction_id r' = tid
  /\ truthful (t_status r) (i_stored_status_code r') (i_stored_response_body r')
  /\ exists rec, idempotency_records d !! key = Some rec
                 /\ i_request_fingerprint r' = i_request_fingerprint rec.

Definition right_ok (d : db) (ids : list (option json)) (rt : right) : Prop :=
  match rt with
  | NoRight => True
  | MayPost key tid => reserved d key tid /\ ~ (Some (JStr tid) ∈ ids)
  | HasPosted key tid => reserved d key tid
  end.

Definition tstate_ok (d : db) (g : ghost) : Prop :=
  match gt g with
  | Closed | Fresh => True
  | InsTx r => gr g = NoRight /\ fresh_tx d r
  | InsBoth r r' => gr g = NoRight /\ fresh_tx d r /\ fresh_key d r r'
  | UpdTx r => exists key tid, gr g = HasPosted key tid /\ done_tx d tid r
  | UpdBoth r r' => exists key tid, gr g = HasPosted key tid /\ done_tx d tid r
                                    /\ done_key d key tid r r'
  end.

Definition ghost_ok (d : db) (ids : list (option json)) (g : ghost) : Prop :=
  right_ok d ids (gr g) /\ tstate_ok d g.

(** Two requests do not hold the same lock, nor a right to the same transaction. *)
Definition apart (g g' : ghost) : Prop :=
  (forall t, right_of (gr g) = Some t -> right_of (gr g') <> Some t)
  /\ (forall t, tx_of (gt g) = Some t -> tx_of (gt g') <> Some t)
  /\ (forall k, key_of (gt g) = Some k -> key_of (gt g') <> Some k).

Definition ids (posts : list http_request) : list (option json) := posted_id <$> posts.

(** Every request sent is for a transaction on record, and no two are for the same. *)
Definition posts_ok (d : db) (posts : list http_request) : Prop :=
  NoDup (ids posts)
  /\ Forall (fun x => exists tid, x = Some (JStr tid) /\ is_Some (transactions d !! tid)) (ids posts).

Definition upd (γ : nat -> ghost) (i : nat) (g : ghost) : nat -> ghost :=
  fun j => if decide (j = i) then g else γ j.

Lemma upd_eq γ i g : upd γ i g i = g.
Proof. unfold upd. by rewrite decide_True. Qed.
Lemma upd_ne γ i j g : j <> i -> upd γ i g j = γ j.
Proof. intros. unfold upd. by rewrite decide_False. Qed.

Lemma apart_sym g g' : apart g g' -> apart g' g.
Proof.
  intros (H1 & H2 & H3).
  split_and!; intros t Ht Ht'; [by eapply H1 | by eapply H2 | by eapply H3].
Qed.

Lemma apart_idle g : apart idle_ghost g.
Proof. done. Qed.

Lemma upd_apart γ i g' :
  (forall j j', j <> j' -> apart (γ j) (γ j')) -> (forall j, j <> i -> apart g' (γ j)) ->
  forall j j', j <> j' -> apart (upd γ i g' j) (upd γ i g' j').
Proof.
  intros Ha Hi j j' Hne. unfold upd. repeat case_decide; subst; try done; [by apply Hi | | by apply Ha].
  by apply apart_sym, Hi.
Qed.

Lemma tx_of_overlay t o tid :
  overlay_of t = Some o -> (is_Some (transactions o !! tid) <-> tx_of t = Some tid).
Proof.
  destruct t; intros [= <-]; cbn; rewrite ?lookup_empty, ?lookup_insert_is_Some', ?lookup_empty;
    rewrite ?is_Some_alt; naive_solver.
Qed.

Lemma key_of_overlay t o key :
  overlay_of t = Some o -> (is_Some (idempotency_records o !! key) <-> key_of t = Some key).
Proof.
  destruct t; intros [= <-]; cbn; rewrite ?lookup_empty, ?lookup_insert_is_Some', ?lookup_empty;
    rewrite ?is_Some_alt; naive_solver.
Qed.

(** * Stored rows *)

Lemma stored_reserved_transaction tid mid amount currency r' :
  store_transaction_row (reserved_transaction tid mid amount currency) = Some r' ->
  t_status r' = py "CREATED" /\ t_version r' = 0.
Proof.
  unfold store_transaction_row, reserved_transaction.
  cbn [t_transaction_id t_merchant_id t_amount t_currency t_status t_pending_operation t_version
    t_network_reference t_authorization_code t_decline_code]. intros H. bind_some.
  repeat match goal with
  | H : store_varchar 32 _ = Some _ |- _ => vm_compute in H; injection H as <-
  | H : store_integer 0 = Some _ |- _ => vm_compute in H; injection H as <-
  end. simplify_eq. done.
Qed.

Lemma stored_reserved_idempotency key fp tid r' :
  store_idempotency_row (reserved_idempotency key fp tid) = Some r' ->
  i_processing_status r' = py "IN_PROGRESS" /\ store_varchar 128 tid = Some (i_transaction_id r').
Proof.
  unfold store_idempotency_row, reserved_idempotency.
  cbn [i_idempotency_key_hash i_request_fingerprint i_processing_status i_transaction_id
    i_stored_status_code i_stored_response_body i_stored_headers]. intros H. bind_some.
  repeat match goal with
  | H : store_varchar 32 _ = Some _ |- _ => vm_compute in H; injection H as <-
  end. simplify_eq. done.
Qed.

Lemma stored_settled v r r' :
  store_transaction_row (set_transaction v r) = Some r' -> settled_status (v_status v) ->
  t_status r' = v_status v /\ t_version r' = v_version v.
Proof.
  intros H (st & Hst & _). unfold store_transaction_row in H.
  cbn [set_transaction t_transaction_id t_merchant_id t_amount t_currency t_status
    t_pending_operation t_version t_network_reference t_authorization_code t_decline_code] in H.
  rewrite Hst, (proj1 (status_value_stored st)) in H. bind_some. simplify_eq. cbn.
  split; [done|].
  match goal with H : store_integer _ = Some _ |- _ => unfold store_integer in H; by case_match; simplify_eq end.
Qed.

Lemma store_option_test {A} (test : A -> bool) (f : A -> option A) o o' :
  (forall a, f a = if test a then Some a else None) -> store_option f o = Some o' -> o' = o.
Proof.
  intros Hf. destruct o as [a|]; cbn; [|by intros [= <-]]. rewrite Hf. by destruct (test a); intros [= <-].
Qed.

Lemma stored_completed w rec r' :
  store_idempotency_row (set_idempotency w rec) = Some r' ->
  v_processing_status w = py "COMPLETED" ->
  i_processing_status r' = py "COMPLETED" /\ i_stored_status_code r' = v_stored_status_code w
  /\ i_stored_response_body r' = v_stored_response_body w.
Proof.
  intros H Hw. unfold store_idempotency_row in H.
  cbn [set_idempotency i_idempotency_key_hash i_request_fingerprint i_processing_status
    i_transaction_id i_stored_status_code i_stored_response_body i_stored_headers] in H.
  rewrite Hw in H. bind_some. simplify_eq. cbn [i_processing_status i_stored_status_code i_stored_response_body].
  repeat match goal with
  | H : store_varchar 32 _ = Some _ |- _ => vm_compute in H; injection H as <-
  | H : store_option store_integer _ = Some _ |- _ =>
      apply (store_option_test (int_range 32)) in H; [|done]
  | H : store_option store_body _ = Some _ |- _ =>
      apply (store_option_test (fun b => bool_decide
        (map_Forall (fun k v => text_ok k && jsonb_ok v = true) b))) in H; [|done]
  end. by subst.
Qed.

(** The headers too are stored as they are given. *)
Lemma stored_as_completed w rec r' :
  store_idempotency_row (set_idempotency w rec) = Some r' ->
  v_processing_status w = py "COMPLETED" -> r' = set_idempotency w r'.
Proof.
  intros Hs Hw. destruct (stored_completed _ _ _ Hs Hw) as (Hp & Hc & Hb).
  assert (Hh : i_stored_headers r' = v_stored_headers w).
  { unfold store_idempotency_row in Hs. bind_some. simplify_eq. cbn [i_stored_headers].
    match goal with H : store_option store_headers _ = Some _ |- _ =>
      by apply (store_option_test (fun h => forallb (fun kv => text_ok (fst kv) && text_ok (snd kv)) h)) in H
    end. }
  destruct r'. cbn in *. unfold set_idempotency. f_equal; congruence.
Qed.

(** A text without surrounding spaces is stored as it is or refused. *)
Lemma store_trimmed n s s' : trimmed s -> store_varchar n s = Some s' -> s' = s.
Proof.
  intros Ht Hs. destruct (storable_text n s) eqn:Hst.
  - rewrite (store_storable _ _ Hst) in Hs. congruence.
  - rewrite (unfit_rejected _ _ Ht Hst) in Hs. discriminate.
Qed.

Definition trimmed_opt (o : option pystr) : Prop := match o with Some s => trimmed s | None => True end.

Lemma store_trimmed_opt n o o' : trimmed_opt o -> store_opt_varchar n o = Some o' -> o' = o.
Proof.
  destruct o as [s|]; cbn; [|by intros _ [= <-]].
  intros Ht (s' & Hs & ->)%fmap_Some. by rewrite (store_trimmed _ _ _ Ht Hs).
Qed.

Lemma stored_as_settled t nref auth decl r r' :
  let v := completed_transaction t nref auth decl in
  store_transaction_row (set_transaction v r) = Some r' ->
  trimmed_opt nref -> trimmed_opt auth -> trimmed_opt decl -> r' = set_transaction v r'.
Proof.
  cbv zeta. intros Hs Hn Ha Hd. unfold store_transaction_row in Hs.
  cbn [set_transaction completed_transaction v_status v_pending_operation v_version v_network_reference
    v_authorization_code v_decline_code t_transaction_id t_merchant_id t_amount t_currency t_status
    t_pending_operation t_version t_network_reference t_authorization_code t_decline_code] in Hs.
  rewrite (proj1 (status_value_stored _)), (proj1 (pending_value_stored _)) in Hs. bind_some. simplify_eq.
  repeat match goal with
  | H : store_opt_varchar 128 _ = Some _ |- _ => apply store_trimmed_opt in H; [|done]
  | H : store_integer _ = Some _ |- _ =>
      unfold store_integer in H; destruct (int_range 32 _); [injection H as H | discriminate]
  end. by subst.
Qed.

(** * Changes of a pair *)

Lemma overlay_both r r' d :
  overlay (put_idempotency r' (put_transaction r empty_db)) d = put_idempotency r' (put_transaction r d).
Proof. by rewrite put_idempotency_overlay, put_transaction_overlay, overlay_empty. Qed.

(** A pair of rows that is new keeps the tables coherent. *)
Lemma coherent_insert d r r' :
  coherent d -> fresh_tx d r -> fresh_key d r r' ->
  coherent (put_idempotency r' (put_transaction r d)).
Proof.
  intros [C1 C2 C3] (_ & Hs & Hv & Hnt) (_ & Hp & Hid & Hnk). constructor; cbn.
  - intros key rec [[<- <-]|[Hne Hk]]%lookup_insert_Some.
    + exists r. rewrite Hid, lookup_insert_eq. split; [done|]. by left.
    + destruct (C1 _ _ Hk) as (r0 & Hr0 & Hpair). exists r0. split; [|done].
      rewrite lookup_insert_ne; [done|]. congruence.
  - intros tid r0 [[<- <-]|[Hne Ht]]%lookup_insert_Some.
    + exists (i_idempotency_key_hash r'), r'. by rewrite lookup_insert_eq.
    + destruct (C2 _ _ Ht) as (key & rec & Hk & Hid'). exists key, rec. split; [|done].
      rewrite lookup_insert_ne; [done|]. congruence.
  - intros k k' rec rec' [[<- <-]|[Hne Hk]]%lookup_insert_Some [[<- <-]|[Hne' Hk']]%lookup_insert_Some Heq.
    + done.
    + exfalso. destruct (C1 _ _ Hk') as (r0 & Hr0 & _). congruence.
    + exfalso. destruct (C1 _ _ Hk) as (r0 & Hr0 & _). congruence.
    + by eapply C3.
Qed.

(** Finishing a reserved pair keeps the tables coherent. *)
Lemma coherent_update d r r' key tid :
  coherent d -> reserved d key tid -> done_tx d tid r -> done_key d key tid r r' ->
  coherent (put_idempotency r' (put_transaction r d)).
Proof.
  intros [C1 C2 C3] (rec0 & Hrec0 & Htid0 & _) ((Hid & _) & Hv & Hs & (r1 & Hr1 & _))
    ((Hkey & _) & Hp & Hid' & Htr & _).
  assert (Hother : forall k rec, idempotency_records d !! k = Some rec -> k <> key ->
            i_transaction_id rec <> tid).
  { intros k rec Hk Hne Heq. apply Hne, (C3 k key rec rec0); congruence. }
  constructor; cbn; rewrite ?Hid, ?Hkey.
  - intros k rec [[<- <-]|[Hne Hk]]%lookup_insert_Some.
    + exists r. rewrite Hid', lookup_insert_eq. split; [done|]. by right.
    + destruct (C1 _ _ Hk) as (r0 & Hr0 & Hpair). exists r0. split; [|done].
      rewrite lookup_insert_ne; [done|]. by intros ->; eapply Hother.
  - intros t r0 Ht. destruct (decide (t = tid)) as [->|Hne].
    + exists key, r'. by rewrite lookup_insert_eq.
    + rewrite lookup_insert_ne in Ht by done. destruct (C2 _ _ Ht) as (k & rec & Hk & Hi).
      exists k, rec. split; [|done]. rewrite lookup_insert_ne; [done|]. congruence.
  - intros k k' rec rec' [[<- <-]|[Hne Hk]]%lookup_insert_Some [[<- <-]|[Hne' Hk']]%lookup_insert_Some Heq.
    + done.
    + exfalso. eapply (Hother k' rec'); [done | done | congruence].
    + exfalso. eapply (Hother k rec); [done | done | congruence].
    + by eapply C3.
Qed.

(** The key and the identifier a right is about. *)
Definition right_pair (rt : right) : option (pystr * pystr) :=
  match rt with NoRight => None | MayPost key tid | HasPosted key tid => Some (key, tid) end.

(** What is known of a request depends only on the rows it has a right to or has locked. *)
Lemma ghost_ok_frame d d' ids g :
  (forall k t, right_pair (gr g) = Some (k, t) ->
     idempotency_records d' !! k = idempotency_records d !! k
     /\ transactions d' !! t = transactions d !! t) ->
  (forall t, tx_of (gt g) = Some t -> gr g = NoRight -> transactions d' !! t = transactions d !! t) ->
  (forall k, key_of (gt g) = Some k -> gr g = NoRight ->
     idempotency_records d' !! k = idempotency_records d !! k) ->
  ghost_ok d ids g -> ghost_ok d' ids g.
Proof.
  intros Hr Ht Hk [Hrt Hts]. destruct g as [t rt]. cbn [gt gr] in *.
  unfold ghost_ok, tstate_ok in *. cbn [gt gr] in *. split.
  - destruct rt as [|k tid|k tid]; cbn in *; [done|..]; destruct (Hr _ _ eq_refl) as [Hkk _];
      unfold reserved in *; by rewrite Hkk.
  - destruct t as [| |r|r r'|r|r r']; try done.
    + destruct Hts as [-> Hf]. split; [done|]. unfold fresh_tx in *. by rewrite Ht.
    + destruct Hts as (-> & Hf & Hf'). split; [done|]. unfold fresh_tx, fresh_key in *.
      by rewrite Ht, Hk.
    + destruct Hts as (k & tid & -> & Hd). exists k, tid. split; [done|].
      unfold done_tx in *. by destruct (Hr _ _ eq_refl) as [_ ->].
    + destruct Hts as (k & tid & -> & Hd & Hd'). exists k, tid. split; [done|].
      unfold done_tx, done_key in *. by destruct (Hr _ _ eq_refl) as [-> ->].
Qed.

Lemma reserved_tx d key tid : coherent d -> reserved d key tid -> is_Some (transactions d !! tid).
Proof. intros Hc (rec & Hk & <- & _). destruct (co_pair _ Hc _ _ Hk) as (r & -> & _). done. Qed.

Lemma right_reserved d ids g k t :
  ghost_ok d ids g -> right_pair (gr g) = Some (k, t) -> reserved d k t.
Proof. intros [Hr _]. destruct (gr g); cbn in *; intros [= <- <-]; [apply Hr | done]. Qed.

Lemma right_of_pair rt k t : right_pair rt = Some (k, t) -> right_of rt = Some t.
Proof. by destruct rt; cbn; intros [= <- <-]. Qed.

(** The other requests do not notice that a fresh pair was committed. *)
Lemma ghost_ok_insert d ids r r' g g' :
  coherent d -> fresh_tx d r -> fresh_key d r r' -> gt g = InsBoth r r' -> apart g g' ->
  ghost_ok d ids g' -> ghost_ok (put_idempotency r' (put_transaction r d)) ids g'.
Proof.
  intros Hc (_ & _ & _ & Hnt) (_ & _ & _ & Hnk) Hg (_ & Hat & Hak) Hok. rewrite Hg in Hat, Hak.
  apply (ghost_ok_frame d); [| | |done]; cbn.
  - intros k t Hp. pose proof (right_reserved _ _ _ _ _ Hok Hp) as Hres.
    destruct (reserved_tx _ _ _ Hc Hres) as [r0 Hr0]. destruct Hres as (rec & Hk & _).
    rewrite !lookup_insert_ne; [done | congruence..].
  - intros t Ht _. rewrite lookup_insert_ne; [done|]. intros <-. by eapply Hat.
  - intros k Hk _. rewrite lookup_insert_ne; [done|]. intros <-. by eapply Hak.
Qed.

(** Nor that another one finished its own pair. *)
Lemma ghost_ok_update d ids r r' key tid g g' :
  coherent d -> reserved d key tid -> done_tx d tid r -> done_key d key tid r r' ->
  gr g = HasPosted key tid -> apart g g' ->
  ghost_ok d ids g' -> ghost_ok (put_idempotency r' (put_transaction r d)) ids g'.
Proof.
  intros Hc (rec0 & Hrec0 & Htid0 & _) ((Hid & _) & _ & _ & (r1 & Hr1 & _)) ((Hkey & _) & _)
    Hg (Hra & _ & _) Hok. rewrite Hg in Hra. cbn in Hra.
  assert (Hfr : gr g' = NoRight -> forall t, tx_of (gt g') = Some t -> transactions d !! t = None).
  { intros Hn t. destruct Hok as [_ Hts]. unfold tstate_ok in Hts. rewrite Hn in Hts.
    destruct (gt g') as [| |r2|r2 r3|r2|r2 r3]; cbn; intros [= <-]; [by apply Hts|by apply Hts|..];
      by destruct Hts as (? & ? & [=] & _). }
  assert (Hfk : gr g' = NoRight -> forall k, key_of (gt g') = Some k -> idempotency_records d !! k = None).
  { intros Hn k. destruct Hok as [_ Hts]. unfold tstate_ok in Hts. rewrite Hn in Hts.
    destruct (gt g') as [| |r2|r2 r3|r2|r2 r3]; cbn; intros [= <-]; [by apply Hts|..];
      by destruct Hts as (? & ? & [=] & _). }
  apply (ghost_ok_frame d); [| | |done]; cbn; rewrite ?Hid, ?Hkey.
  - intros k t Hp. pose proof (right_reserved _ _ _ _ _ Hok Hp) as (rec & Hk & Ht & _).
    assert (t <> tid) by (intros ->; by eapply Hra, right_of_pair).
    rewrite !lookup_insert_ne; [done | congruence..].
  - intros t Ht Hn. specialize (Hfr Hn t Ht). rewrite lookup_insert_ne; [done | congruence].
  - intros k Hk Hn. specialize (Hfk Hn k Hk). rewrite lookup_insert_ne; [done | congruence].
Qed.

(** Rights are kept, given up, or created with a new key. *)
Definition rights_from (d : db) (γ γ' : nat -> ghost) : Prop :=
  forall i k t, right_pair (gr (γ' i)) = Some (k, t) ->
    right_pair (gr (γ i)) = Some (k, t) \/ idempotency_records d !! k = None.

Lemma rights_upd d γ i g' :
  (forall k t, right_pair (gr g') = Some (k, t) ->
     right_pair (gr (γ i)) = Some (k, t) \/ idempotency_records d !! k = None) ->
  rights_from d γ (upd γ i g').
Proof.
  intros H j k t. unfold upd. case_decide as Hj; [subst j; apply H | by left].
Qed.

Lemma rights_kept d γ i g' :
  gr g' = gr (γ i) \/ gr g' = NoRight -> rights_from d γ (upd γ i g').
Proof. intros H. apply rights_upd. intros k t. destruct H as [-> | ->]; [by left | done]. Qed.

(** * How the tables evolve *)

(** Nothing recorded is forgotten or altered: keys keep their request and transaction,
    transactions their merchant, amount and currency; a finished pair is final. *)
Record evolves (d d' : db) : Prop := MkEvolves {
  ev_records : forall key rec, idempotency_records d !! key = Some rec ->
    exists rec', idempotency_records d' !! key = Some rec'
      /\ i_request_fingerprint rec' = i_request_fingerprint rec
      /\ i_transaction_id rec' = i_transaction_id rec
      /\ (i_processing_status rec = py "COMPLETED" -> rec' = rec);
  ev_transactions : forall tid r, transactions d !! tid = Some r ->
    exists r', transactions d' !! tid = Some r' /\ same_transaction r r'
      /\ (r' = r \/ t_version r = 0 /\ t_version r' = 1)
}.

#[export] Instance evolves_preorder : PreOrder evolves.
Proof.
  split.
  - intros d. constructor; [intros key rec Hk; by exists rec|]. intros tid r Hr. exists r.
    split_and!; [done | by split_and! | by left].
  - intros d1 d2 d3 [R1 T1] [R2 T2]. constructor.
    + intros key rec Hk. destruct (R1 _ _ Hk) as (rec2 & Hk2 & Hf & Ht & Hc).
      destruct (R2 _ _ Hk2) as (rec3 & Hk3 & Hf3 & Ht3 & Hc3). exists rec3.
      split_and!; [done | congruence.. |]. intros Hs. rewrite Hc3; [by apply Hc|]. by rewrite Hc.
    + intros tid r Hr. destruct (T1 _ _ Hr) as (r2 & Hr2 & Hs & Hv).
      destruct (T2 _ _ Hr2) as (r3 & Hr3 & Hs3 & Hv3). exists r3. split; [done|]. split.
      * unfold same_transaction in *. intuition congruence.
      * destruct Hv as [->|[Hv0 Hv1]]; [done|]. destruct Hv3 as [->|[? ?]]; [by right | lia].
Qed.

Lemma evolves_insert d r r' :
  transactions d !! t_transaction_id r = None ->
  idempotency_records d !! i_idempotency_key_hash r' = None ->
  evolves d (put_idempotency r' (put_transaction r d)).
Proof.
  intros Ht Hk. constructor; cbn.
  - intros key rec Hrec. exists rec. rewrite lookup_insert_ne by congruence. done.
  - intros tid r0 Hr. exists r0. rewrite lookup_insert_ne by congruence.
    split_and!; [done | by split_and! | by left].
Qed.

Lemma evolves_update d r r' key tid :
  coherent d -> reserved d key tid -> done_tx d tid r -> done_key d key tid r r' ->
  evolves d (put_idempotency r' (put_transaction r d)).
Proof.
  intros Hc (rec0 & Hrec0 & Htid0 & Hst0) ((Hid & _) & Hv & _ & (r1 & Hr1 & Hsame))
    ((Hkey & _) & _ & Hid' & _ & (rec1 & Hrec1 & Hfp)).
  destruct (co_pair _ Hc _ _ Hrec0) as (r2 & Hr2 & Hpair). constructor; cbn; rewrite ?Hid, ?Hkey.
  - intros k rec Hk. destruct (decide (k = key)) as [->|Hne].
    + exists r'. rewrite lookup_insert_eq. simplify_eq. split_and!; [done..|].
      intros Hs. rewrite Hs in Hst0. discriminate.
    + exists rec. by rewrite lookup_insert_ne.
  - intros t r0 Hr. destruct (decide (t = tid)) as [->|Hne].
    + exists r. rewrite lookup_insert_eq. simplify_eq. split_and!; [done..|]. right.
      destruct Hpair as [(_ & _ & Hv0)|(Hcs & _)]; [done|]. rewrite Hcs in Hst0. discriminate.
    + exists r0. rewrite lookup_insert_ne by done. split_and!; [done | by split_and! | by left].
Qed.

(** Only a commit changes the committed rows. *)
Lemma nominal_committed pg i q r pg' :
  q <> OpCommit -> pg_contract pg i q r pg' -> committed pg' = committed pg.
Proof.
  intros Hq [Hn|[_ Hf]]; [|destruct q; try done; by subst].
  destruct q; cbn in Hn; try done; repeat case_match; unfold wrote, refused in Hn;
    destruct_and?; by subst.
Qed.
