(* ===== verification/System.v ===== *)
(** Any number of requests at once: their operations interleave in every way the
    database allows, any operation may fail, the network may answer anything, and a
    request may be lost at any point. *)
From S2P Require Import Prelude PyStr Sha256 Json Domain Ports Idempotency Schema Effects Adapter.
From S2P Require Import Authorize Problem Coordinator Ledger Orchestrator Protocol Coherence.

Open Scope Z_scope.

(** * Workloads *)

(** What clients may ask, and the program that serves a request; whatever the database
    and the network answer, it keeps to the protocol, closes its session,
    and performs a bounded number of operations. *)
Class Workload : Type := MkWorkload {
  wl_request : Type;
  wl_answer : Type;
  wl_admits : wl_request -> bool;
  wl_serve : wl_request -> prog wl_answer;
  wl_bound : nat;
  wl_protocol : forall rq, wl_admits rq = true ->
    wp idle_ghost (wl_serve rq) (fun _ g => gt g = Closed);
  wl_bounded : forall rq, within wl_bound (wl_serve rq)
}.

Section system.
Context `{Workload}.

(** * The system *)

(** The database, the HTTP requests sent, and what remains of each live request. *)
Record system : Type := MkSystem {
  sy_pg : pgstate;
  sy_posts : list http_request;
  sy_threads : gmap nat (prog wl_answer)
}.

(** What can be seen of a step. *)
Inductive label : Type :=
| Arrives (i : nat) (rq : wl_request)
| Operates (i : nat)
| Posts (i : nat) (req : http_request)
| Returns (i : nat) (a : wl_answer)
| Vanishes (i : nat).

Inductive lstep (sy : system) : label -> system -> Prop :=
| step_arrive i rq :
    sy_threads sy !! i = None -> wl_admits rq = true ->
    lstep sy (Arrives i rq)
      (MkSystem (sy_pg sy) (sy_posts sy) (<[i := wl_serve rq]> (sy_threads sy)))
| step_db i q k r pg' :
    sy_threads sy !! i = Some (Vis (Db q) k) -> pg_contract (sy_pg sy) i q r pg' ->
    lstep sy (Operates i) (MkSystem pg' (sy_posts sy) (<[i := k r]> (sy_threads sy)))
| step_post i req k r :
    sy_threads sy !! i = Some (Vis (Post req) k) -> post_contract r ->
    lstep sy (Posts i req)
      (MkSystem (sy_pg sy) (sy_posts sy ++ [req]) (<[i := k r]> (sy_threads sy)))
| step_return i r :
    sy_threads sy !! i = Some (Ret r) ->
    lstep sy (Returns i r) (MkSystem (sy_pg sy) (sy_posts sy) (delete i (sy_threads sy)))
| step_lost i p :
    sy_threads sy !! i = Some p ->
    lstep sy (Vanishes i)
      (MkSystem (close_session i (sy_pg sy)) (sy_posts sy) (delete i (sy_threads sy))).

Definition step (sy sy' : system) : Prop := exists l, lstep sy l sy'.

Definition initial : system := MkSystem (MkPg empty_db ∅) [] ∅.
Definition reachable (sy : system) : Prop := rtc step initial sy.

(** * The invariant *)

Record inv (sy : system) (γ : nat -> ghost) : Prop := MkInv {
  inv_db : db_ok (committed (sy_pg sy));
  inv_coherent : coherent (committed (sy_pg sy));
  inv_sessions : forall i, sessions (sy_pg sy) !! i = overlay_of (gt (γ i));
  inv_ghosts : forall i, ghost_ok (committed (sy_pg sy)) (ids (sy_posts sy)) (γ i);
  inv_apart : forall i j, i <> j -> apart (γ i) (γ j);
  inv_wp : forall i p, sy_threads sy !! i = Some p -> wp (γ i) p (fun _ g => gt g = Closed);
  inv_absent : forall i, sy_threads sy !! i = None -> γ i = idle_ghost;
  inv_posts : posts_ok (committed (sy_pg sy)) (sy_posts sy)
}.

(** * Operations that do not commit *)

(** A change of one request that leaves the committed rows alone. *)
Record local_step (sy : system) (γ : nat -> ghost) (i : nat) (g' : ghost) (pg' : pgstate) : Prop :=
  MkLocal {
    lo_committed : committed pg' = committed (sy_pg sy);
    lo_sessions : forall j, sessions pg' !! j = overlay_of (gt (upd γ i g' j));
    lo_ghost : ghost_ok (committed (sy_pg sy)) (ids (sy_posts sy)) g';
    lo_apart : forall j, j <> i -> apart g' (γ j);
    lo_right : gr g' = gr (γ i) \/ gr g' = NoRight
  }.

Lemma inv_local sy γ i g' pg' p :
  inv sy γ -> local_step sy γ i g' pg' -> is_Some (sy_threads sy !! i) ->
  wp g' p (fun _ g => gt g = Closed) ->
  inv (MkSystem pg' (sy_posts sy) (<[i := p]> (sy_threads sy))) (upd γ i g').
Proof.
  intros [H1 H2 H3 H4 H5 H6 H7 H8] [L1 L2 L3 L4 _] Hi Hp. constructor; cbn [sy_pg sy_posts sy_threads].
  1,2,8: by rewrite L1.
  - exact L2.
  - intros j. rewrite L1. unfold upd. case_decide; [done | apply H4].
  - by apply upd_apart.
  - intros j q. unfold upd. case_decide as Hj.
    + subst j. rewrite lookup_insert_eq. by intros [= <-].
    + rewrite lookup_insert_ne by done. apply H6.
  - intros j. unfold upd. case_decide as Hj.
    + subst j. by rewrite lookup_insert_eq.
    + rewrite lookup_insert_ne by done. apply H7.
Qed.

(** The views and the locks, through the ghost state. *)
Lemma visible_ghost sy γ i o :
  inv sy γ -> overlay_of (gt (γ i)) = Some o ->
  visible (sy_pg sy) i = overlay o (committed (sy_pg sy)).
Proof. intros Hinv Ho. unfold visible. by rewrite (inv_sessions _ _ Hinv), Ho. Qed.

Lemma not_locked_tx sy γ i tid :
  inv sy γ -> ~ transaction_locked (sy_pg sy) i tid -> forall j, j <> i -> tx_of (gt (γ j)) <> Some tid.
Proof.
  intros Hinv Hl j Hj Ht. apply Hl. destruct (overlay_of (gt (γ j))) as [o|] eqn:Ho.
  - exists j, o. rewrite (inv_sessions _ _ Hinv). split_and!; [done..|].
    by apply (tx_of_overlay _ _ _ Ho).
  - by destruct (gt (γ j)).
Qed.

Lemma not_locked_key sy γ i key :
  inv sy γ -> ~ idempotency_locked (sy_pg sy) i key -> forall j, j <> i -> key_of (gt (γ j)) <> Some key.
Proof.
  intros Hinv Hl j Hj Ht. apply Hl. destruct (overlay_of (gt (γ j))) as [o|] eqn:Ho.
  - exists j, o. rewrite (inv_sessions _ _ Hinv). split_and!; [done..|].
    by apply (key_of_overlay _ _ _ Ho).
  - by destruct (gt (γ j)).
Qed.

(** A step that changes nothing. *)
Lemma local_refl sy γ i : inv sy γ -> local_step sy γ i (γ i) (sy_pg sy).
Proof.
  intros Hinv. constructor; [done | | by apply (inv_ghosts _ _ Hinv) | | by left].
  - intros j. unfold upd. rewrite (inv_sessions _ _ Hinv). case_decide; by subst.
  - intros j Hj. by apply (inv_apart _ _ Hinv).
Qed.

(** A write to the session of [i]. *)
Lemma local_write sy γ i f o o' t' :
  inv sy γ -> overlay_of (gt (γ i)) = Some o -> f o = o' -> overlay_of t' = Some o' ->
  tstate_ok (committed (sy_pg sy)) (Gh t' (gr (γ i))) ->
  (forall j, j <> i -> forall t, tx_of t' = Some t -> tx_of (gt (γ j)) <> Some t) ->
  (forall j, j <> i -> forall k, key_of t' = Some k -> key_of (gt (γ j)) <> Some k) ->
  local_step sy γ i (Gh t' (gr (γ i))) (write_session i f (sy_pg sy)).
Proof.
  intros Hinv Ho Hf Ho' Hst Ht Hk. constructor; [done | | | | by left].
  - intros j. cbn [write_session sessions]. unfold upd. case_decide as Hj.
    + subst j. cbn [gt]. rewrite lookup_alter_eq, (inv_sessions _ _ Hinv), Ho, Ho'. cbn. by rewrite Hf.
    + rewrite lookup_alter_ne by done. apply (inv_sessions _ _ Hinv).
  - split; [apply (inv_ghosts _ _ Hinv) | exact Hst].
  - intros j Hj. destruct (inv_apart _ _ Hinv i j) as (Hr & _ & _); [done|].
    split_and!; [exact Hr | by apply Ht | by apply Hk].
Qed.

(** Closing the session of [i], whatever becomes of its right. *)
Lemma local_close sy γ i rt :
  inv sy γ -> rt = gr (γ i) \/ rt = NoRight ->
  local_step sy γ i (Gh Closed rt) (close_session i (sy_pg sy)).
Proof.
  intros Hinv Hrt. constructor; [done | | | | done].
  - intros j. cbn [close_session sessions]. unfold upd. case_decide as Hj.
    + subst j. by rewrite lookup_delete_eq.
    + rewrite lookup_delete_ne by done. apply (inv_sessions _ _ Hinv).
  - split; [|done]. destruct Hrt as [-> | ->]; [apply (inv_ghosts _ _ Hinv) | done].
  - intros j Hj. destruct (inv_apart _ _ Hinv i j) as (Hr & _ & _); [done|].
    split_and!; [|done..]. destruct Hrt as [-> | ->]; [exact Hr | done].
Qed.

Lemma local_open sy γ i :
  inv sy γ -> gt (γ i) = Closed ->
  local_step sy γ i (Gh Fresh (gr (γ i))) (open_session i (sy_pg sy)).
Proof.
  intros Hinv Hc. constructor; [done | | | | by left].
  - intros j. cbn [open_session sessions]. unfold upd. case_decide as Hj.
    + subst j. by rewrite lookup_insert_eq.
    + rewrite lookup_insert_ne by done. apply (inv_sessions _ _ Hinv).
  - split; [apply (inv_ghosts _ _ Hinv) | done].
  - intros j Hj. destruct (inv_apart _ _ Hinv i j) as (Hr & _ & _); [done|]. by split_and!.
Qed.

Lemma local_insert_transaction sy γ i row r pg' :
  inv sy γ -> db_pre (γ i) (OpInsertTransaction row) -> pg_nominal (sy_pg sy) i (OpInsertTransaction row) r pg' ->
  exists g', db_post (γ i) (OpInsertTransaction row) r g' /\ local_step sy γ i g' pg'.
Proof.
  intros Hinv Hpre Hn. cbn [pg_nominal db_pre] in *.
  destruct Hpre as (Hg & tid & mid & amount & currency & ->).
  rewrite (visible_ghost sy γ i empty_db), overlay_empty in Hn by (done || by rewrite Hg).
  destruct (insert_transaction _ _) as [row'| |] eqn:Hins; cycle 1.
  1,2: destruct Hn as [-> ->]; exists (γ i); (split; [done | by apply local_refl]).
  destruct Hn as (-> & -> & Hl). apply insert_transaction_ok in Hins as (Hst & Hok & Hnone).
  destruct (stored_reserved_transaction _ _ _ _ _ Hst) as [Hs Hv].
  exists (Gh (InsTx row') (gr (γ i))). split; [rewrite Hg; by exists row'|].
  eapply local_write; [done | by rewrite Hg | done | done | | |].
  - rewrite Hg. done.
  - intros j Hj t [= <-]. by eapply not_locked_tx.
  - done.
Qed.

Lemma local_insert_idempotency sy γ i row r pg' :
  inv sy γ -> db_pre (γ i) (OpInsertIdempotency row) -> pg_nominal (sy_pg sy) i (OpInsertIdempotency row) r pg' ->
  exists g', db_post (γ i) (OpInsertIdempotency row) r g' /\ local_step sy γ i g' pg'.
Proof.
  intros Hinv Hpre Hn. cbn [pg_nominal db_pre] in *.
  destruct Hpre as (r0 & key & fp & tid & Hg & -> & Hid).
  rewrite (visible_ghost sy γ i (put_transaction r0 empty_db)) in Hn by (done || by rewrite Hg).
  destruct (insert_idempotency _ _) as [row'| |] eqn:Hins; cycle 1.
  1,2: destruct Hn as [-> ->]; exists (γ i); (split; [done | by apply local_refl]).
  destruct Hn as (-> & -> & Hl). apply insert_idempotency_ok in Hins as (Hst & Hok & Hnone & _).
  destruct (stored_reserved_idempotency _ _ _ _ Hst) as [Hs Hid']. rewrite Hid in Hid'.
  cbn in Hnone. rewrite lookup_union, lookup_empty, (left_id_L None _) in Hnone.
  destruct (inv_ghosts _ _ Hinv i) as [_ Hts]. unfold tstate_ok in Hts. rewrite Hg in Hts. cbn in Hts.
  exists (Gh (InsBoth r0 row') (gr (γ i))). split; [rewrite Hg; by exists r0, row'|].
  eapply local_write; [done | by rewrite Hg | done | done | | |].
  - rewrite Hg. split; [done|]. split; [apply Hts|]. split_and!; try done. by injection Hid'.
  - intros j Hj t [= <-]. destruct (inv_apart _ _ Hinv i j) as (_ & Ha & _); [done|].
    apply Ha. by rewrite Hg.
  - intros j Hj k [= <-]. by eapply not_locked_key.
Qed.

Lemma local_update_transaction sy γ i tid ver v r pg' :
  inv sy γ -> db_pre (γ i) (OpUpdateTransaction tid ver v) -> pg_nominal (sy_pg sy) i (OpUpdateTransaction tid ver v) r pg' ->
  exists g', db_post (γ i) (OpUpdateTransaction tid ver v) r g' /\ local_step sy γ i g' pg'.
Proof.
  intros Hinv Hpre Hn. cbn [pg_nominal db_pre] in *.
  destruct Hpre as (key & Hg & Hv & Hs).
  rewrite (visible_ghost sy γ i empty_db), overlay_empty in Hn by (done || by rewrite Hg).
  destruct (update_transaction _ _ _ _) as [[row'|]| |] eqn:Hup; cycle 1.
  1-3: destruct Hn as [-> ->]; exists (γ i); (split; [done | by apply local_refl]).
  destruct Hn as (-> & -> & Hl). apply update_transaction_row in Hup as (r0 & H0 & _ & Hst & Hok).
  destruct (inv_db _ _ Hinv) as (Hdt & _ & _).
  destruct (updated_transaction_row _ _ _ _ (Hdt _ _ H0) Hst) as (Hid & Hsame).
  destruct (stored_settled _ _ _ Hst Hs) as [Hs' Hv'].
  exists (Gh (UpdTx row') (gr (γ i))). split; [by exists r0, row'|].
  eapply local_write; [done | by rewrite Hg | done | done | | |].
  - rewrite Hg. exists key, tid. split; [done|]. rewrite Hid in Hok. split_and!; try done.
    + congruence.
    + by rewrite Hs'.
    + by exists r0.
  - intros j Hj t [= <-]. by eapply not_locked_tx.
  - done.
Qed.

Lemma local_update_idempotency sy γ i key tid st v r pg' :
  inv sy γ -> db_pre (γ i) (OpUpdateIdempotency key tid st v) -> pg_nominal (sy_pg sy) i (OpUpdateIdempotency key tid st v) r pg' ->
  exists g', db_post (γ i) (OpUpdateIdempotency key tid st v) r g' /\ local_step sy γ i g' pg'.
Proof.
  intros Hinv Hpre Hn. cbn [pg_nominal db_pre] in *.
  destruct Hpre as (r0 & Hg & -> & Hw & Htr).
  rewrite (visible_ghost sy γ i (put_transaction r0 empty_db)) in Hn by (done || by rewrite Hg).
  destruct (update_idempotency _ _ _ _ _) as [[row'|]| |] eqn:Hup; cycle 1.
  1-3: destruct Hn as [-> ->]; exists (γ i); (split; [done | by apply local_refl]).
  destruct Hn as (-> & -> & Hl).
  apply update_idempotency_row in Hup as (rec & H0 & Htid & _ & Hst & Hok).
  cbn in H0. rewrite lookup_union, lookup_empty, (left_id_L None _) in H0.
  destruct (inv_db _ _ Hinv) as (_ & Hdi & _).
  destruct (updated_idempotency_row _ _ _ _ (Hdi _ _ H0) Hst) as (Hk & Hfp & Htid').
  destruct (stored_completed _ _ _ Hst Hw) as (Hc & Hcode & Hbody).
  destruct (inv_ghosts _ _ Hinv i) as [_ Hts]. unfold tstate_ok in Hts. rewrite Hg in Hts.
  destruct Hts as (key' & tid' & [= <- <-] & Hts).
  exists (Gh (UpdBoth r0 row') (gr (γ i))). split; [rewrite Hg; by exists r0, rec, row'|].
  eapply local_write; [done | by rewrite Hg | done | done | | |].
  - rewrite Hg. exists key, tid. split; [done|]. split; [done|]. rewrite Hk in Hok.
    split_and!; try done; [congruence | by rewrite Hcode, Hbody | by exists rec].
  - intros j Hj t [= <-]. destruct (inv_apart _ _ Hinv i j) as (_ & Ha & _); [done|].
    apply Ha. by rewrite Hg.
  - intros j Hj k [= <-]. by eapply not_locked_key.
Qed.

(** Every operation but a commit, nominal or failed, is a local step that follows the
    protocol. *)
Lemma db_local sy γ i q r pg' :
  inv sy γ -> q <> OpCommit -> db_pre (γ i) q -> pg_contract (sy_pg sy) i q r pg' ->
  exists g', db_post (γ i) q r g' /\ local_step sy γ i g' pg'.
Proof.
  intros Hinv Hq Hpre [Hn|[(e & He & ->) Hf]]; cycle 1.
  { destruct q; try done; try (subst pg'; exists (γ i); (split; [done | by apply local_refl])).
    subst pg'. eexists. split; [by split|]. apply local_close; auto. }
  destruct q as [| | |key|tid|row|row|tid ver v|key tid st v]; try done.
  - destruct Hn as [-> ->]. eexists. split; [done|]. by apply local_open.
  - destruct Hn as [-> ->]. eexists. split; [done|]. apply local_close; auto.
  - destruct Hn as [-> ->]. exists (γ i). split; [done | by apply local_refl].
  - destruct Hn as [-> ->]. exists (γ i). split; [done | by apply local_refl].
  - by apply local_insert_transaction.
  - by apply local_insert_idempotency.
  - by apply local_update_transaction.
  - by apply local_update_idempotency.
Qed.

(** * Commits *)

(** What a commit that makes [d'] the committed rows must preserve. *)
Lemma inv_commit sy γ i d' rt p :
  inv sy γ -> is_Some (sy_threads sy !! i) ->
  visible (sy_pg sy) i = d' -> db_ok d' -> coherent d' ->
  (forall j, j <> i -> ghost_ok d' (ids (sy_posts sy)) (γ j)) ->
  right_ok d' (ids (sy_posts sy)) rt ->
  (forall j, j <> i -> forall t, right_of rt = Some t -> right_of (gr (γ j)) <> Some t) ->
  (forall tid, is_Some (transactions (committed (sy_pg sy)) !! tid) -> is_Some (transactions d' !! tid)) ->
  wp (Gh Closed rt) p (fun _ g => gt g = Closed) ->
  inv (MkSystem (commit_session i (sy_pg sy)) (sy_posts sy) (<[i := p]> (sy_threads sy)))
    (upd γ i (Gh Closed rt)).
Proof.
  intros [H1 H2 H3 H4 H5 H6 H7 H8] Hi Hv Hd Hc Hg Hrt Hra Hdom Hp.
  constructor; cbn [sy_pg sy_posts sy_threads commit_session committed sessions]; rewrite ?Hv; try done.
  - intros j. unfold upd. case_decide as Hj.
    + subst j. by rewrite lookup_delete_eq.
    + by rewrite lookup_delete_ne.
  - intros j. unfold upd. case_decide as Hj; [by split | by apply Hg].
  - apply upd_apart; [done|]. intros j Hj. split_and!; [by apply Hra | done | done].
  - intros j q. unfold upd. case_decide as Hj.
    + subst j. rewrite lookup_insert_eq. by intros [= <-].
    + rewrite lookup_insert_ne by done. apply H6.
  - intros j. unfold upd. case_decide as Hj.
    + subst j. by rewrite lookup_insert_eq.
    + rewrite lookup_insert_ne by done. apply H7.
  - destruct H8 as [Hn Hf]. split; [done|]. eapply Forall_impl; [exact Hf|].
    intros x (tid & -> & Ht). eauto.
Qed.

Lemma commit_insert sy γ i r r' rt p :
  inv sy γ -> is_Some (sy_threads sy !! i) -> gt (γ i) = InsBoth r r' ->
  rt = NoRight \/ rt = MayPost (i_idempotency_key_hash r') (t_transaction_id r) ->
  wp (Gh Closed rt) p (fun _ g => gt g = Closed) ->
  inv (MkSystem (commit_session i (sy_pg sy)) (sy_posts sy) (<[i := p]> (sy_threads sy)))
    (upd γ i (Gh Closed rt)).
Proof.
  intros Hinv Hi Hg Hrt Hp. destruct (inv_ghosts _ _ Hinv i) as [_ Hts].
  unfold tstate_ok in Hts. rewrite Hg in Hts. destruct Hts as (Hgr & Hft & Hfk).
  pose proof (inv_coherent _ _ Hinv) as Hc. set (d := committed (sy_pg sy)) in *.
  assert (Htid : transactions d !! t_transaction_id r = None) by apply Hft.
  eapply (inv_commit sy γ i (put_idempotency r' (put_transaction r d))); try done.
  - rewrite (visible_ghost sy γ i (put_idempotency r' (put_transaction r empty_db)) Hinv);
      [apply overlay_both | by rewrite Hg].
  - apply db_ok_reserved; [apply (inv_db _ _ Hinv) | apply Hft | apply Hfk |].
    destruct Hfk as (_ & _ & -> & _). cbn. by rewrite lookup_insert_eq.
  - by apply coherent_insert.
  - intros j Hj. eapply (ghost_ok_insert _ _ _ _ (γ i)); [done..| |apply (inv_ghosts _ _ Hinv)].
    by apply (inv_apart _ _ Hinv).
  - destruct Hrt as [->| ->]; [done|]. split.
    + exists r'. cbn. rewrite lookup_insert_eq. split; [done|]. split; apply Hfk.
    + intros Hin. destruct (inv_posts _ _ Hinv) as [_ Hf]. rewrite Forall_forall in Hf.
      destruct (Hf _ Hin) as (tid & [= <-] & [r0 Hr0]). fold d in Hr0. congruence.
  - intros j Hj t Ht Hj'. destruct Hrt as [->| ->]; [done|]. injection Ht as <-.
    destruct (right_pair (gr (γ j))) as [[k t']|] eqn:Hpair; [|by destruct (gr (γ j))].
    pose proof (right_of_pair _ _ _ Hpair) as Heq. rewrite Hj' in Heq. injection Heq as <-.
    pose proof (right_reserved _ _ _ _ _ (inv_ghosts _ _ Hinv j) Hpair) as Hres.
    apply reserved_tx in Hres as [r0 Hr0]; [|done]. fold d in Hr0. congruence.
  - intros t Ht. cbn. by apply lookup_insert_is_Some'; right.
Qed.

Lemma commit_update sy γ i r r' p :
  inv sy γ -> is_Some (sy_threads sy !! i) -> gt (γ i) = UpdBoth r r' ->
  wp idle_ghost p (fun _ g => gt g = Closed) ->
  inv (MkSystem (commit_session i (sy_pg sy)) (sy_posts sy) (<[i := p]> (sy_threads sy)))
    (upd γ i idle_ghost).
Proof.
  intros Hinv Hi Hg Hp. destruct (inv_ghosts _ _ Hinv i) as [Hr Hts].
  unfold tstate_ok in Hts. rewrite Hg in Hts. destruct Hts as (key & tid & Hgr & Hdt & Hdk).
  rewrite Hgr in Hr. cbn in Hr.
  pose proof (inv_coherent _ _ Hinv) as Hc. set (d := committed (sy_pg sy)) in *.
  assert (Hid : t_transaction_id r = tid) by apply Hdt.
  assert (Hkey : i_idempotency_key_hash r' = key) by apply Hdk.
  eapply (inv_commit sy γ i (put_idempotency r' (put_transaction r d))); try done.
  - rewrite (visible_ghost sy γ i (put_idempotency r' (put_transaction r empty_db)) Hinv);
      [apply overlay_both | by rewrite Hg].
  - apply db_ok_reserved; [apply (inv_db _ _ Hinv) | rewrite Hid; apply Hdt | rewrite Hkey; apply Hdk |].
    destruct Hdk as (_ & _ & -> & _). cbn. by rewrite Hid, lookup_insert_eq.
  - by eapply coherent_update.
  - intros j Hj. eapply (ghost_ok_update _ _ _ _ key tid (γ i)); [done..| |apply (inv_ghosts _ _ Hinv)].
    by apply (inv_apart _ _ Hinv).
  - intros t Ht. cbn. by apply lookup_insert_is_Some'; right.
Qed.

(** A commit without writes. *)
Lemma commit_fresh sy γ i rt p :
  inv sy γ -> is_Some (sy_threads sy !! i) -> gt (γ i) = Fresh -> rt = gr (γ i) \/ rt = NoRight ->
  wp (Gh Closed rt) p (fun _ g => gt g = Closed) ->
  inv (MkSystem (commit_session i (sy_pg sy)) (sy_posts sy) (<[i := p]> (sy_threads sy)))
    (upd γ i (Gh Closed rt)).
Proof.
  intros Hinv Hi Hg Hrt Hp.
  assert (commit_session i (sy_pg sy) = close_session i (sy_pg sy)) as ->.
  { unfold commit_session, close_session.
    rewrite (visible_ghost sy γ i empty_db), overlay_empty; [done | done | by rewrite Hg]. }
  apply inv_local; [done | by apply local_close | done | done].
Qed.

(** The ghost state that a commit leaves, whether or not it is acknowledged. *)
Definition after_commit (g : ghost) (r : res exn unit) : ghost :=
  Gh Closed (match r with Ok _ => committed_right g | Raise _ => NoRight end).

Lemma commit_step sy γ i k r pg' :
  inv sy γ -> sy_threads sy !! i = Some (Vis (Db OpCommit) k) ->
  pg_contract (sy_pg sy) i OpCommit r pg' ->
  let γ' := upd γ i (after_commit (γ i) r) in
  inv (MkSystem pg' (sy_posts sy) (<[i := k r]> (sy_threads sy))) γ'
  /\ rights_from (committed (sy_pg sy)) γ γ'.
Proof.
  intros Hinv Hi Hc. destruct (inv_wp _ _ Hinv _ _ Hi) as [Hpre Hk]. cbn in Hpre.
  assert (Hs : is_Some (sy_threads sy !! i)) by (by eexists).
  assert (Hk' : wp (after_commit (γ i) r) (k r) (fun _ g => gt g = Closed)) by (by apply Hk).
  unfold after_commit in *.
  destruct Hc as [[-> ->]|[(e & He & ->) [->| ->]]]; unfold committed_right in *.
  - destruct (gt (γ i)) as [| |r|r r'|r|r r'] eqn:Hg; try done; cbv zeta.
    + split; [eapply commit_fresh; [done..| |exact Hk']; by left | apply rights_kept; by left].
    + split; [eapply commit_insert; [done..| |exact Hk']; by right|].
      apply rights_upd. intros k' t [= <- <-]. right.
      destruct (inv_ghosts _ _ Hinv i) as [_ Hts]. unfold tstate_ok in Hts. rewrite Hg in Hts.
      apply Hts.
    + split; [by eapply commit_update | apply rights_kept; by right].
  - destruct (gt (γ i)) as [| |r|r r'|r|r r'] eqn:Hg; try done; cbv zeta.
    + split; [eapply commit_fresh; [done..| |exact Hk']; by right | apply rights_kept; by right].
    + split; [eapply commit_insert; [done..| |exact Hk']; by left | apply rights_kept; by right].
    + split; [by eapply commit_update | apply rights_kept; by right].
  - split; [|apply rights_kept; by right].
    apply inv_local; [done | apply local_close; [done | by right] | done | exact Hk'].
Qed.

(** * The invariant holds in every reachable state *)

Lemma post_step sy γ i req k r :
  inv sy γ -> sy_threads sy !! i = Some (Vis (Post req) k) -> post_contract r ->
  exists key tid, γ i = Gh Closed (MayPost key tid) /\ posted_id req = Some (JStr tid)
    /\ let γ' := upd γ i (Gh Closed (HasPosted key tid)) in
       inv (MkSystem (sy_pg sy) (sy_posts sy ++ [req]) (<[i := k r]> (sy_threads sy))) γ'
       /\ rights_from (committed (sy_pg sy)) γ γ'.
Proof.
  intros Hinv Hi Hr. destruct (inv_wp _ _ Hinv _ _ Hi) as [Hpre Hk].
  destruct Hpre as (key & tid & Hg & Hreq). exists key, tid. do 2 (split; [done|]). cbv zeta.
  assert (Hk' : wp (Gh Closed (HasPosted key tid)) (k r) (fun _ g => gt g = Closed)).
  { apply Hk. split; [done|]. by rewrite Hg. }
  destruct (inv_ghosts _ _ Hinv i) as [Hri _]. rewrite Hg in Hri. destruct Hri as [Hres Hnin].
  destruct Hinv as [H1 H2 H3 H4 H5 H6 H7 H8].
  split; [|apply rights_upd; intros k' t Ht; left; by rewrite Hg].
  assert (Hids : ids (sy_posts sy ++ [req]) = ids (sy_posts sy) ++ [Some (JStr tid)]).
  { unfold ids. by rewrite fmap_app, <- Hreq. }
  constructor; cbn [sy_pg sy_posts sy_threads]; try done; rewrite ?Hids.
  - intros j. rewrite H3. unfold upd. case_decide as Hj; [|done]. subst j. by rewrite Hg.
  - intros j. unfold upd. case_decide as Hj; [by split|]. destruct (H4 j) as [Hrj Htj].
    split; [|done]. destruct (gr (γ j)) as [|k' t'|k' t'] eqn:Hgj; cbn in *; [done| |done].
    destruct Hrj as [Hrj Hnj]. split; [done|]. rewrite elem_of_app, list_elem_of_singleton.
    intros [?|[= <-]]; [done|]. destruct (H5 i j) as (Ha & _); [done|].
    apply (Ha t'); [by rewrite Hg | by rewrite Hgj].
  - apply upd_apart; [done|]. intros j Hj. destruct (H5 i j) as (Ha & _ & _); [done|].
    split_and!; [|done..]. rewrite Hg in Ha. exact Ha.
  - intros j q. unfold upd. case_decide as Hj.
    + subst j. rewrite lookup_insert_eq. by intros [= <-].
    + rewrite lookup_insert_ne by done. apply H6.
  - intros j. unfold upd. case_decide as Hj.
    + subst j. by rewrite lookup_insert_eq.
    + rewrite lookup_insert_ne by done. apply H7.
  - destruct H8 as [Hn Hf]. split; rewrite Hids.
    + apply NoDup_app. split_and!; [done| |apply NoDup_singleton].
      intros x Hx ->%list_elem_of_singleton. done.
    + apply Forall_app. split; [done|]. apply Forall_singleton. exists tid. split; [done|].
      by eapply reserved_tx.
Qed.

Lemma remove_thread sy γ i pg' :
  inv sy γ -> local_step sy γ i idle_ghost pg' ->
  inv (MkSystem pg' (sy_posts sy) (delete i (sy_threads sy))) (upd γ i idle_ghost).
Proof.
  intros [H1 H2 H3 H4 H5 H6 H7 H8] [L1 L2 L3 L4 _]. constructor; cbn [sy_pg sy_posts sy_threads].
  1,2,8: by rewrite L1.
  - exact L2.
  - intros j. rewrite L1. unfold upd. case_decide; [done | apply H4].
  - by apply upd_apart.
  - intros j q. unfold upd. case_decide as Hj.
    + subst j. by rewrite lookup_delete_eq.
    + rewrite lookup_delete_ne by done. apply H6.
  - intros j. unfold upd. case_decide as Hj; [done|]. rewrite lookup_delete_ne by done. apply H7.
Qed.

Lemma arrive_step sy γ i rq :
  inv sy γ -> sy_threads sy !! i = None -> wl_admits rq = true ->
  inv (MkSystem (sy_pg sy) (sy_posts sy) (<[i := wl_serve rq]> (sy_threads sy))) γ.
Proof.
  intros [H1 H2 H3 H4 H5 H6 H7 H8] Hi Ha. constructor; try done; cbn [sy_threads].
  - intros j p. destruct (decide (j = i)) as [->|Hj].
    + rewrite lookup_insert_eq. intros [= <-]. rewrite H7 by done. by apply wl_protocol.
    + rewrite lookup_insert_ne by done. apply H6.
  - intros j. destruct (decide (j = i)) as [->|Hj]; [by rewrite lookup_insert_eq|].
    rewrite lookup_insert_ne by done. apply H7.
Qed.

Lemma db_step sy γ i q k r pg' :
  inv sy γ -> sy_threads sy !! i = Some (Vis (Db q) k) -> pg_contract (sy_pg sy) i q r pg' ->
  exists g', db_post (γ i) q r g'
    /\ inv (MkSystem pg' (sy_posts sy) (<[i := k r]> (sy_threads sy))) (upd γ i g')
    /\ rights_from (committed (sy_pg sy)) γ (upd γ i g').
Proof.
  intros Hinv Hi Hc. destruct (inv_wp _ _ Hinv _ _ Hi) as [Hpre Hk]. cbn in Hpre.
  assert (q = OpCommit \/ q <> OpCommit) as [->|Hq] by (destruct q; auto).
  { eexists. split; [reflexivity|]. by eapply commit_step. }
  destruct (db_local sy γ i q r pg' Hinv Hq Hpre Hc) as (g' & Hpost & Hl).
  exists g'. split_and!; [done | | apply rights_kept, Hl].
  apply inv_local; [done..| |by apply Hk]. by eexists.
Qed.

Lemma return_step sy γ i r :
  inv sy γ -> sy_threads sy !! i = Some (Ret r) ->
  inv (MkSystem (sy_pg sy) (sy_posts sy) (delete i (sy_threads sy))) (upd γ i idle_ghost).
Proof.
  intros Hinv Hi. apply remove_thread; [done|].
  pose proof (inv_wp _ _ Hinv _ _ Hi) as Hg. cbn in Hg.
  assert (sy_pg sy = close_session i (sy_pg sy)) as ->; [|by apply local_close; auto].
  unfold close_session. rewrite delete_id; [by destruct (sy_pg sy)|].
  by rewrite (inv_sessions _ _ Hinv), Hg.
Qed.

Lemma lost_step sy γ i :
  inv sy γ ->
  inv (MkSystem (close_session i (sy_pg sy)) (sy_posts sy) (delete i (sy_threads sy)))
    (upd γ i idle_ghost).
Proof. intros Hinv. apply remove_thread; [done|]. apply local_close; auto. Qed.

Lemma inv_step sy γ sy' : inv sy γ -> step sy sy' ->
  exists γ', inv sy' γ' /\ rights_from (committed (sy_pg sy)) γ γ'.
Proof.
  intros Hinv Hstep. destruct Hstep as [l [i rq Hi Ha|i q k r pg' Hi Hc
    |i req k r Hi Hr|i r Hi|i p Hi]].
  - exists γ. split; [by apply arrive_step | by left].
  - destruct (db_step _ _ _ _ _ _ _ Hinv Hi Hc) as (g' & _ & Hs). by eexists.
  - destruct (post_step _ _ _ _ _ _ Hinv Hi Hr) as (key & tid & _ & _ & Hs). by eexists.
  - eexists. split; [by eapply return_step | apply rights_kept; by right].
  - eexists. split; [by apply lost_step | apply rights_kept; by right].
Qed.

Lemma inv_initial : inv initial (fun _ => idle_ghost).
Proof.
  constructor; cbn; try done. split; [apply NoDup_nil_2 | constructor].
Qed.

Lemma reachable_inv sy : reachable sy -> exists γ, inv sy γ.
Proof.
  revert sy. refine (rtc_ind_r _ _ _ _); [eexists; apply inv_initial|].
  intros sy sy' _ Hstep [γ Hinv]. destruct (inv_step _ _ _ Hinv Hstep) as (γ' & Hinv' & _).
  by exists γ'.
Qed.

Lemma commit_evolves sy γ i :
  inv sy γ -> db_pre (γ i) OpCommit -> evolves (committed (sy_pg sy)) (visible (sy_pg sy) i).
Proof.
  intros Hinv Hpre. cbn in Hpre. destruct (inv_ghosts _ _ Hinv i) as [Hr Hts]. unfold tstate_ok in Hts.
  destruct (gt (γ i)) as [| |r|r r'|r|r r'] eqn:Hg; try done.
  - rewrite (visible_ghost sy γ i empty_db), overlay_empty; [reflexivity | done | by rewrite Hg].
  - rewrite (visible_ghost sy γ i (put_idempotency r' (put_transaction r empty_db)) Hinv), overlay_both
      by (by rewrite Hg).
    destruct Hts as (_ & Hft & Hfk). apply evolves_insert; [apply Hft | apply Hfk].
  - rewrite (visible_ghost sy γ i (put_idempotency r' (put_transaction r empty_db)) Hinv), overlay_both
      by (by rewrite Hg).
    destruct Hts as (key & tid & Hgr & Hdt & Hdk). rewrite Hgr in Hr.
    eapply evolves_update; [apply (inv_coherent _ _ Hinv) | done..].
Qed.

Lemma step_evolves sy γ sy' :
  inv sy γ -> step sy sy' -> evolves (committed (sy_pg sy)) (committed (sy_pg sy')).
Proof.
  intros Hinv Hstep. destruct Hstep as [l [i rq Hi Ha|i q k r pg' Hi Hc
    |i req k r Hi Hr|i r Hi|i p Hi]]; try reflexivity. cbn [sy_pg].
  assert (q = OpCommit \/ q <> OpCommit) as [->|Hq] by (destruct q; auto).
  2: { by rewrite (nominal_committed _ _ _ _ _ Hq Hc). }
  pose proof (commit_evolves sy γ i Hinv (proj1 (inv_wp _ _ Hinv _ _ Hi))) as Hev.
  destruct Hc as [[-> ->]|[_ [->| ->]]]; [exact Hev | exact Hev | reflexivity].
Qed.

(** * After a restart *)

(** No live request has a right to the transaction of the key. *)
Definition orphaned (sy : system) (γ : nat -> ghost) (key : pystr) : Prop :=
  inv sy γ /\ forall i t, right_pair (gr (γ i)) <> Some (key, t).

Lemma orphaned_step sy γ sy' key rec :
  orphaned sy γ key -> idempotency_records (committed (sy_pg sy)) !! key = Some rec ->
  step sy sy' ->
  exists γ', orphaned sy' γ' key
             /\ idempotency_records (committed (sy_pg sy')) !! key = Some rec
             /\ (Some (JStr (i_transaction_id rec)) ∈ ids (sy_posts sy') ->
                 Some (JStr (i_transaction_id rec)) ∈ ids (sy_posts sy)).
Proof.
  intros [Hinv Ho] Hk Hstep. destruct (inv_step _ _ _ Hinv Hstep) as (γ' & Hinv' & Hr).
  exists γ'. split_and!.
  - split; [done|]. intros i t Hp. destruct (Hr _ _ _ Hp) as [Hp'|Hn]; [by eapply Ho | congruence].
  - pose proof (step_evolves _ _ _ Hinv Hstep) as Hev.
    destruct Hstep as [l [i rq Hi Ha|i q k r pg' Hi Hc
      |i req k r Hi Hr'|i r Hi|i p Hi]]; try done. cbn [sy_pg] in *.
    assert (q = OpCommit \/ q <> OpCommit) as [->|Hq] by (destruct q; auto).
    2: { by rewrite (nominal_committed _ _ _ _ _ Hq Hc). }
    assert (Hvis : idempotency_records (visible (sy_pg sy) i) !! key = Some rec).
    { unfold visible. rewrite (inv_sessions _ _ Hinv).
      destruct (inv_ghosts _ _ Hinv i) as [_ Hts]. unfold tstate_ok in Hts.
      destruct (gt (γ i)) as [| |r0|r0 r1|r0|r0 r1] eqn:Hg; cbn; try done;
        try (by rewrite lookup_union, lookup_empty, (left_id_L None _)).
      - destruct Hts as (_ & _ & (_ & _ & _ & Hn)). rewrite lookup_union, lookup_insert_ne, lookup_empty
          by congruence. by rewrite (left_id_L None _).
      - destruct Hts as (key' & tid & Hgr & _ & ((Hkey & _) & _)).
        assert (key' <> key). { intros ->. eapply (Ho i). by rewrite Hgr. }
        rewrite lookup_union, lookup_insert_ne, lookup_empty by congruence.
        by rewrite (left_id_L None _). }
    destruct Hc as [[-> ->]|[_ [->| ->]]]; done.
  - destruct Hstep as [l [| |i req k r Hi Hr'| |]]; try done. cbn [sy_posts]. unfold ids.
    rewrite fmap_app, elem_of_app. intros [Hin|Hin%list_elem_of_singleton]; [done|]. exfalso.
    destruct (inv_wp _ _ Hinv _ _ Hi) as [(key' & tid & Hg & Hreq) _]. rewrite Hreq in Hin.
    injection Hin as <-.
    assert (Hres : reserved (committed (sy_pg sy)) key' (i_transaction_id rec)).
    { eapply right_reserved; [apply (inv_ghosts _ _ Hinv i)|]. by rewrite Hg. }
    destruct Hres as (rec' & Hk' & Ht & _).
    assert (key = key') as <- by (by eapply (co_inj _ (inv_coherent _ _ Hinv))).
    eapply (Ho i). by rewrite Hg.
Qed.

Lemma orphaned_steps sy γ sy' key rec :
  orphaned sy γ key -> idempotency_records (committed (sy_pg sy)) !! key = Some rec ->
  rtc step sy sy' ->
  idempotency_records (committed (sy_pg sy')) !! key = Some rec
  /\ (Some (JStr (i_transaction_id rec)) ∈ ids (sy_posts sy') ->
      Some (JStr (i_transaction_id rec)) ∈ ids (sy_posts sy)).
Proof.
  intros Ho Hk Hr. revert γ Ho Hk. induction Hr as [sy|sy sy1 sy2 Hs _ IH]; intros γ Ho Hk; [done|].
  destruct (orphaned_step _ _ _ _ _ Ho Hk Hs) as (γ' & Ho' & Hk' & Hp).
  destruct (IH γ' Ho' Hk') as [Hk2 Hp2]. auto.
Qed.

(** * Observations *)

(** The system with what its clients see of it: the requests they wait for, and the
    answers they were given. *)
Record observed : Type := MkObserved {
  ob_system : system;
  ob_live : gmap nat wl_request;
  ob_answered : list (wl_request * wl_answer)
}.

Definition observe (l : label) (sy' : system) (o : observed) : observed :=
  match l with
  | Arrives i rq => MkObserved sy' (<[i := rq]> (ob_live o)) (ob_answered o)
  | Returns i a =>
      MkObserved sy' (delete i (ob_live o))
        (match ob_live o !! i with
         | Some rq => ob_answered o ++ [(rq, a)]
         | None => ob_answered o
         end)
  | Vanishes i => MkObserved sy' (delete i (ob_live o)) (ob_answered o)
  | Operates _ | Posts _ _ => MkObserved sy' (ob_live o) (ob_answered o)
  end.

Inductive ostep (o : observed) : observed -> Prop :=
| ostep_intro l sy' : lstep (ob_system o) l sy' -> ostep o (observe l sy' o).

Definition ob_initial : observed := MkObserved initial ∅ [].

Lemma observe_system l sy' o : ob_system (observe l sy' o) = sy'.
Proof. by destruct l. Qed.

Lemma observed_reachable o : rtc ostep ob_initial o -> reachable (ob_system o).
Proof.
  revert o. refine (rtc_ind_r _ _ _ _); [apply rtc_refl|]. intros o o' _ [l sy' Hs] Hr.
  eapply rtc_r; [exact Hr|]. exists l. by rewrite observe_system.
Qed.

(** * Schedules *)

(** A schedule: a request arrives, takes its next step (a post is given [answer]), or is
    lost. *)
Inductive event : Type :=
| Arrive (i : nat) (rq : wl_request)
| Next (i : nat) (answer : http_response)
| Lose (i : nat).

Definition advance (sy : system) (e : event) : option (label * system) :=
  match e with
  | Arrive i rq =>
      match sy_threads sy !! i with
      | Some _ => None
      | None =>
          if wl_admits rq
          then Some (Arrives i rq,
                     MkSystem (sy_pg sy) (sy_posts sy) (<[i := wl_serve rq]> (sy_threads sy)))
          else None
      end
  | Next i answer =>
      match sy_threads sy !! i with
      | Some (Vis o k) =>
          match o as o' return (res exn (op_val o') -> prog wl_answer) -> option (label * system) with
          | Db q => fun k' =>
              match ReferenceEngine.exec (sy_pg sy) i q with
              | Some (r, pg') =>
                  Some (Operates i, MkSystem pg' (sy_posts sy) (<[i := k' r]> (sy_threads sy)))
              | None => None
              end
          | Post req => fun k' =>
              Some (Posts i req, MkSystem (sy_pg sy) (sy_posts sy ++ [req])
                                   (<[i := k' (Ok answer)]> (sy_threads sy)))
          end k
      | Some (Ret r) => Some (Returns i r, MkSystem (sy_pg sy) (sy_posts sy) (delete i (sy_threads sy)))
      | None => None
      end
  | Lose i =>
      match sy_threads sy !! i with
      | Some _ => Some (Vanishes i, MkSystem (close_session i (sy_pg sy)) (sy_posts sy)
                                      (delete i (sy_threads sy)))
      | None => None
      end
  end.

Lemma advance_step sy e l sy' : advance sy e = Some (l, sy') -> lstep sy l sy'.
Proof.
  destruct e as [i rq|i answer|i]; cbn [advance];
    destruct (sy_threads sy !! i) as [p|] eqn:Hi; try discriminate.
  - destruct (wl_admits rq) eqn:Ha; [|discriminate].
    intros [= <- <-]. by apply step_arrive.
  - destruct p as [r|[q|req] k].
    + intros [= <- <-]. by apply step_return.
    + destruct (ReferenceEngine.exec _ _ _) as [[r pg']|] eqn:He; [|discriminate].
      intros [= <- <-]. eapply step_db; [done|]. left. by apply ReferenceEngine.exec_nominal.
    + intros [= <- <-]. eapply step_post; [done|]. by intros e [=].
  - intros [= <- <-]. by eapply step_lost.
Qed.

Lemma advance_posts sy e i req sy' :
  advance sy e = Some (Posts i req, sy') ->
  exists k answer, e = Next i answer /\ sy_threads sy !! i = Some (Vis (Post req) k)
    /\ sy_threads sy' !! i = Some (k (Ok answer)).
Proof.
  destruct e as [j rq|j answer|j]; cbn [advance];
    destruct (sy_threads sy !! j) as [p|] eqn:Hj; try discriminate.
  - by destruct (wl_admits rq).
  - destruct p as [r|[q|req'] k]; [discriminate | by destruct (ReferenceEngine.exec _ _ _) as [[]|] |].
    intros [= -> -> <-]. exists k, answer. split_and!; [done..|]. by rewrite <- (lookup_insert_eq (sy_threads sy) i).
Qed.

(** A schedule is followed as far as it can be. *)
Fixpoint follow (sy : system) (l : list event) : system :=
  match l with
  | [] => sy
  | e :: l' => match advance sy e with Some (_, sy') => follow sy' l' | None => follow sy l' end
  end.

Lemma follow_steps sy l : rtc step sy (follow sy l).
Proof.
  revert sy. induction l as [|e l IH]; intros sy; cbn; [done|].
  destruct (advance sy e) as [[lb sy']|] eqn:He; [|apply IH].
  eapply rtc_l; [eexists; by eapply advance_step | apply IH].
Qed.

(** The same, with what the clients see. *)
Fixpoint watch (o : observed) (l : list event) : observed :=
  match l with
  | [] => o
  | e :: l' =>
      match advance (ob_system o) e with
      | Some (lb, sy') => watch (observe lb sy' o) l'
      | None => watch o l'
      end
  end.

Lemma watch_steps o l : rtc ostep o (watch o l).
Proof.
  revert o. induction l as [|e l IH]; intros o; cbn; [apply rtc_refl|].
  destruct (advance (ob_system o) e) as [[lb sy']|] eqn:He; [|apply IH].
  eapply rtc_l; [constructor; by eapply advance_step | apply IH].
Qed.

Lemma follow_reachable l : reachable (follow initial l).
Proof. apply follow_steps. Qed.

End system.

(** What the emulator answers to an approved token. *)
Definition approval : http_response :=
  MkHttpResponse 200
    (JsonValue (JObj [(py "outcome", JStr (py "AUTHORIZED"));
                      (py "network_reference", JStr (py "net_1"));
                      (py "authorization_code", JStr (py "AUTH123"))])) None.
