(* ===== verification/Progress.v ===== *)
(** Progress of the system of System.v: it cannot deadlock, and when nothing fails any
    more every live request is answered within a bounded number of steps. *)
From S2P Require Import Prelude PyStr Sha256 Json Domain Ports Idempotency Schema Effects Adapter.
From S2P Require Import Authorize Problem Coordinator Ledger Orchestrator Protocol Coherence System.

Open Scope Z_scope.

Section budgets.
Context `{Workload}.

(** * Every step uses up some of what the live requests may do *)

(** The operations each live request may still perform. *)
Record budget (sy : system) (b : gmap nat nat) : Prop := MkBudget {
  bg_within : forall i p, sy_threads sy !! i = Some p -> exists n, b !! i = Some n /\ within n p;
  bg_live : forall i n, b !! i = Some n -> is_Some (sy_threads sy !! i) /\ (n <= wl_bound)%nat
}.

(** The steps that remain, a return included for each. *)
Definition steps_left (b : gmap nat nat) : nat := map_fold (fun _ n acc => S n + acc)%nat 0%nat b.

Lemma steps_left_insert b i n :
  b !! i = None -> steps_left (<[i := n]> b) = (S n + steps_left b)%nat.
Proof. intros Hi. unfold steps_left. rewrite map_fold_insert_L; [done | intros; lia | done]. Qed.

Lemma steps_left_delete b i n :
  b !! i = Some n -> steps_left b = (S n + steps_left (delete i b))%nat.
Proof.
  intros Hi. rewrite <- (steps_left_insert _ _ _ (lookup_delete_eq b i)).
  by rewrite insert_delete_id.
Qed.

Lemma steps_left_decrease b i n m :
  b !! i = Some n -> (m < n)%nat -> (steps_left (<[i := m]> b) < steps_left b)%nat.
Proof.
  intros Hi Hm. rewrite (steps_left_delete b i n Hi).
  rewrite (steps_left_delete (<[i := m]> b) i m) by apply lookup_insert_eq.
  rewrite delete_insert_eq. lia.
Qed.

Lemma steps_left_bound sy b :
  budget sy b -> (steps_left b <= S wl_bound * size (sy_threads sy))%nat.
Proof.
  intros [Hw Hl].
  assert (Hsize : size (sy_threads sy) = size b).
  { rewrite <- !size_dom. f_equal. apply set_eq. intros i. rewrite !elem_of_dom. split.
    - intros [p Hp]. destruct (Hw _ _ Hp) as (n & -> & _). done.
    - intros [n Hn]. by destruct (Hl _ _ Hn). }
  rewrite Hsize. assert (Hb : forall i n, b !! i = Some n -> (n <= wl_bound)%nat) by (intros i n Hn; by destruct (Hl _ _ Hn)).
  clear Hw Hl Hsize. induction b as [|i n b Hi IH] using map_ind; [unfold steps_left; rewrite map_fold_empty; lia|].
  rewrite steps_left_insert, map_size_insert_None by done.
  assert (n <= wl_bound)%nat by (apply (Hb i); apply lookup_insert_eq).
  assert (steps_left b <= S wl_bound * size b)%nat; [|lia].
  apply IH. intros j m Hj. apply (Hb j). rewrite lookup_insert_ne; [done | congruence].
Qed.

Lemma budget_insert sy b i n p pg posts :
  budget sy b -> b !! i = Some (S n) -> within n p ->
  budget (MkSystem pg posts (<[i := p]> (sy_threads sy))) (<[i := n]> b).
Proof.
  intros [Hw Hl] Hi Hp. constructor; cbn.
  - intros j q. destruct (decide (j = i)) as [->|Hne].
    + rewrite !lookup_insert_eq. intros [= <-]. by exists n.
    + rewrite !lookup_insert_ne by done. apply Hw.
  - intros j m. destruct (decide (j = i)) as [->|Hne].
    + rewrite !lookup_insert_eq. intros [= <-]. destruct (Hl _ _ Hi). split; [done | lia].
    + rewrite !lookup_insert_ne by done. apply Hl.
Qed.

Lemma budget_delete sy b i pg posts :
  budget sy b -> budget (MkSystem pg posts (delete i (sy_threads sy))) (delete i b).
Proof.
  intros [Hw Hl]. constructor; cbn.
  - intros j q [Hne Hj]%lookup_delete_Some. rewrite lookup_delete_ne by done. by apply Hw.
  - intros j m [Hne Hj]%lookup_delete_Some. rewrite lookup_delete_ne by done. by apply Hl.
Qed.

Lemma budget_operation sy b i o k :
  budget sy b -> sy_threads sy !! i = Some (Vis o k) ->
  exists n, b !! i = Some (S n) /\ forall r, within n (k r).
Proof.
  intros [Hw _] Hi. destruct (Hw _ _ Hi) as (n & Hn & Hin). destruct n as [|n]; [done|]. by exists n.
Qed.

(** No arrival. *)
Definition no_arrival (l : label) : Prop := match l with Arrives _ _ => False | _ => True end.

Lemma step_decreases sy b l sy' :
  budget sy b -> lstep sy l sy' -> no_arrival l ->
  exists b', budget sy' b' /\ (steps_left b' < steps_left b)%nat.
Proof.
  intros Hb Hs Hn. destruct Hs as [i rq Hi Ha|i q k r pg' Hi Hc|i req k r Hi Hr|i r Hi|i p Hi]; [done|..].
  - destruct (budget_operation _ _ _ _ _ Hb Hi) as (n & Hn' & Hk). exists (<[i := n]> b).
    split; [by apply budget_insert | apply (steps_left_decrease b i (S n)); [done | lia]].
  - destruct (budget_operation _ _ _ _ _ Hb Hi) as (n & Hn' & Hk). exists (<[i := n]> b).
    split; [by apply budget_insert | apply (steps_left_decrease b i (S n)); [done | lia]].
  - destruct (bg_within _ _ Hb _ _ Hi) as (n & Hn' & _). exists (delete i b).
    split; [by apply budget_delete | rewrite (steps_left_delete b i n Hn'); lia].
  - destruct (bg_within _ _ Hb _ _ Hi) as (n & Hn' & _). exists (delete i b).
    split; [by apply budget_delete | rewrite (steps_left_delete b i n Hn'); lia].
Qed.

Lemma budget_step sy b l sy' : budget sy b -> lstep sy l sy' -> exists b', budget sy' b'.
Proof.
  intros Hb Hs. destruct l as [i rq|i|i req|i a|i];
    try (destruct (step_decreases _ _ _ _ Hb Hs I) as (b' & Hb' & _); by exists b').
  inversion Hs as [i' rq' Hi Ha| | | |]; subst. exists (<[i := wl_bound]> b). destruct Hb as [Hw Hl].
  constructor; cbn.
  - intros j q. destruct (decide (j = i)) as [->|Hne].
    + rewrite !lookup_insert_eq. intros [= <-]. eexists. split; [done | apply wl_bounded].
    + rewrite !lookup_insert_ne by done. apply Hw.
  - intros j m. destruct (decide (j = i)) as [->|Hne].
    + rewrite !lookup_insert_eq. by intros [= <-].
    + rewrite !lookup_insert_ne by done. apply Hl.
Qed.

Lemma reachable_budget sy : reachable sy -> exists b, budget sy b.
Proof.
  revert sy. refine (rtc_ind_r _ _ _ _); [exists ∅; by constructor|].
  intros sy sy' _ [l Hs] [b Hb]. by eapply budget_step.
Qed.

(** * Clients that wait *)

(** A client waits exactly as long as its request is live. *)
Definition tended (o : observed) : Prop :=
  forall i, is_Some (ob_live o !! i) <-> is_Some (sy_threads (ob_system o) !! i).

Lemma tended_step o o' : tended o -> ostep o o' -> tended o'.
Proof.
  intros Ht [l sy' Hs] j. specialize (Ht j).
  destruct Hs as [i rq Hi Ha|i q k r pg' Hi Hc|i req k r Hi Hr|i r Hi|i p Hi]; cbn in *;
    (destruct (decide (j = i)) as [->|Hne];
      [rewrite ?lookup_insert_eq, ?lookup_delete_eq | rewrite ?lookup_insert_ne, ?lookup_delete_ne by done]);
    rewrite ?Hi in Ht; try done.
  all: rewrite ?Ht; split; intros _; by eexists.
Qed.

Lemma tended_reachable o : rtc ostep ob_initial o -> tended o.
Proof.
  revert o. refine (rtc_ind_r _ _ _ _); [|intros o o' _ Hs Ht; by eapply tended_step].
  intros i. cbn. by rewrite !lookup_empty.
Qed.

Lemma tended_size o : tended o -> size (ob_live o) = size (sy_threads (ob_system o)).
Proof.
  intros Ht. rewrite <- !size_dom. f_equal. apply set_eq. intros i. rewrite !elem_of_dom. apply Ht.
Qed.

Lemma tended_empty o : tended o -> sy_threads (ob_system o) = ∅ -> ob_live o = ∅.
Proof.
  intros Ht He. apply map_empty. intros i. apply eq_None_not_Some. intros Hs%Ht.
  rewrite He, lookup_empty in Hs. by destruct Hs.
Qed.

End budgets.

Section progress.
Context `{Workload}.

(** The connections of the pool: a transaction begins when one is free. *)
Variable capacity : nat.
Hypothesis some_connection : (0 < capacity)%nat.

(** * No deadlock *)

Definition connection_free (sy : system) (q : dbop) : Prop :=
  q = OpBegin -> (size (sessions (sy_pg sy)) < capacity)%nat.

(** Request [i] can take its next step without a failure. *)
Definition can_proceed (sy : system) (i : nat) : Prop :=
  match sy_threads sy !! i with
  | None => False
  | Some (Vis (Db q) _) => connection_free sy q /\ exists r pg', pg_nominal (sy_pg sy) i q r pg'
  | Some _ => True
  end.

(** An operation waits only for a row that another request has written. *)
Lemma nominal_unless_locked pg i q :
  match q with
  | OpInsertTransaction _ | OpUpdateTransaction _ _ _ => forall tid, ~ transaction_locked pg i tid
  | OpInsertIdempotency _ | OpUpdateIdempotency _ _ _ _ => forall key, ~ idempotency_locked pg i key
  | _ => True
  end ->
  exists r pg', pg_nominal pg i q r pg'.
Proof.
  intros Hl. destruct q; cbn [pg_nominal]; try (by eexists _, _); repeat case_match;
    unfold wrote, refused, tx_locked, idem_locked; try (by eexists _, _).
  all: eexists _, _; split_and!; try reflexivity; apply Hl.
Qed.

Lemma locked_tx_ghost sy γ i tid :
  inv sy γ -> transaction_locked (sy_pg sy) i tid -> exists j, tx_of (gt (γ j)) = Some tid.
Proof.
  intros Hinv (j & o & _ & Ho & Ht). rewrite (inv_sessions _ _ Hinv) in Ho. exists j.
  by apply (tx_of_overlay _ _ _ Ho).
Qed.

Lemma locked_key_ghost sy γ i key :
  inv sy γ -> idempotency_locked (sy_pg sy) i key -> exists j, key_of (gt (γ j)) = Some key.
Proof.
  intros Hinv (j & o & _ & Ho & Hk). rewrite (inv_sessions _ _ Hinv) in Ho. exists j.
  by apply (key_of_overlay _ _ _ Ho).
Qed.

(** A request whose locks are the most advanced can proceed. *)
Lemma proceed_most_advanced sy γ i :
  inv sy γ -> is_Some (sy_threads sy !! i) ->
  (key_of (gt (γ i)) = None -> forall j, key_of (gt (γ j)) = None) ->
  (tx_of (gt (γ i)) = None -> forall j, tx_of (gt (γ j)) = None) ->
  (gt (γ i) = Closed -> forall j, gt (γ j) = Closed) ->
  can_proceed sy i.
Proof.
  intros Hinv [p Hi] Hk Ht Ho. unfold can_proceed. rewrite Hi. destruct p as [r|[q|req] k]; [done| |done].
  destruct (inv_wp _ _ Hinv _ _ Hi) as [Hpre _]. cbn in Hpre. split.
  { intros ->. cbn in Hpre. specialize (Ho Hpre).
    assert (sessions (sy_pg sy) = ∅) as ->; [|by rewrite map_size_empty].
    apply map_empty. intros j. by rewrite (inv_sessions _ _ Hinv), Ho. }
  apply nominal_unless_locked.
  destruct q; cbn in Hpre; try done.
  - destruct Hpre as (Hg & _). rewrite Hg in Ht. intros tid Hl.
    destruct (locked_tx_ghost _ _ _ _ Hinv Hl) as [j Hj]. rewrite Ht in Hj; done.
  - destruct Hpre as (r0 & key & fp & tid & Hg & _). rewrite Hg in Hk. intros key' Hl.
    destruct (locked_key_ghost _ _ _ _ Hinv Hl) as [j Hj]. rewrite Hk in Hj; done.
  - destruct Hpre as (key & Hg & _). rewrite Hg in Ht. intros tid Hl.
    destruct (locked_tx_ghost _ _ _ _ Hinv Hl) as [j Hj]. rewrite Ht in Hj; done.
  - destruct Hpre as (r0 & Hg & _). rewrite Hg in Hk. intros key' Hl.
    destruct (locked_key_ghost _ _ _ _ Hinv Hl) as [j Hj]. rewrite Hk in Hj; done.
Qed.

(** Some live request holds a lock of the kind [f], or none does. *)
Lemma lock_holder {A} (f : tstate -> option A) sy γ :
  f Closed = None -> inv sy γ ->
  (exists i, is_Some (sy_threads sy !! i) /\ is_Some (f (gt (γ i)))) \/ forall i, f (gt (γ i)) = None.
Proof.
  intros Hf Hinv.
  destruct (decide (set_Exists (fun i => is_Some (f (gt (γ i)))) (dom (sy_threads sy)))) as [He|He].
  - left. destruct He as (i & Hi%elem_of_dom & Hs). by exists i.
  - right. intros i. destruct (sy_threads sy !! i) as [p|] eqn:Hi.
    + apply eq_None_not_Some. intros Hs. apply He. exists i. split; [by apply elem_of_dom_2 in Hi | done].
    + by rewrite (inv_absent _ _ Hinv).
Qed.

Lemma key_lock_has_tx t : is_Some (key_of t) -> is_Some (tx_of t).
Proof. destruct t; cbn; by intros [? [=]]. Qed.

Definition open_of (t : tstate) : option unit := match t with Closed => None | _ => Some tt end.

Lemma open_of_closed t : open_of t = None <-> t = Closed.
Proof. by destruct t. Qed.

Lemma some_request_proceeds sy γ :
  inv sy γ -> sy_threads sy <> ∅ -> exists i, can_proceed sy i.
Proof.
  intros Hinv Hne.
  destruct (lock_holder key_of sy γ) as [(i & Hi & Hs)|Hk]; [done..| |].
  { exists i. eapply proceed_most_advanced; [done..| | |].
    - destruct Hs as [k Hs]. congruence.
    - apply key_lock_has_tx in Hs as [t Hs]. congruence.
    - intros Hc. by rewrite Hc in Hs; destruct Hs. }
  destruct (lock_holder tx_of sy γ) as [(i & Hi & [t Hs])|Ht]; [done..| |].
  { exists i. eapply proceed_most_advanced; [done..| |]; [congruence|]. intros Hc. by rewrite Hc in Hs. }
  destruct (lock_holder open_of sy γ) as [(i & Hi & [t Hs])|Ho]; [done..| |].
  { exists i. eapply proceed_most_advanced; [done..|]. intros Hc. by rewrite Hc in Hs. }
  apply map_choose in Hne as (i & p & Hi). exists i. eapply proceed_most_advanced; [done..|].
  intros _ j. by apply open_of_closed.
Qed.

(** * Healthy steps *)

(** Steps in which nothing fails and nothing is lost, over a pool with a free connection
    for every transaction that begins. *)
Inductive healthy (sy : system) : label -> system -> Prop :=
| healthy_db i q k r pg' :
    sy_threads sy !! i = Some (Vis (Db q) k) -> connection_free sy q ->
    pg_nominal (sy_pg sy) i q r pg' ->
    healthy sy (Operates i) (MkSystem pg' (sy_posts sy) (<[i := k r]> (sy_threads sy)))
| healthy_post i req k response :
    sy_threads sy !! i = Some (Vis (Post req) k) ->
    healthy sy (Posts i req)
      (MkSystem (sy_pg sy) (sy_posts sy ++ [req]) (<[i := k (Ok response)]> (sy_threads sy)))
| healthy_return i r :
    sy_threads sy !! i = Some (Ret r) ->
    healthy sy (Returns i r) (MkSystem (sy_pg sy) (sy_posts sy) (delete i (sy_threads sy))).

Lemma healthy_lstep sy l sy' : healthy sy l sy' -> lstep sy l sy'.
Proof.
  intros [i q k r pg' Hi _ Hn|i req k response Hi|i r Hi].
  - eapply step_db; [done | by left].
  - eapply step_post; [done | by intros e [=]].
  - by apply step_return.
Qed.

Lemma healthy_step_exists sy γ :
  inv sy γ -> sy_threads sy <> ∅ -> exists l sy', healthy sy l sy'.
Proof.
  intros Hinv Hne. destruct (some_request_proceeds sy γ Hinv Hne) as [i Hi]. unfold can_proceed in Hi.
  destruct (sy_threads sy !! i) as [[a|[q|req] k]|] eqn:Ht; [| | |done].
  - eexists _, _. by eapply healthy_return.
  - destruct Hi as (Hf & r & pg' & Hn). eexists _, _. by eapply healthy_db.
  - eexists _, _. by eapply (healthy_post _ _ _ _ approval).
Qed.

(** Requests do not block each other for ever. *)
Lemma no_deadlock sy :
  reachable sy -> sy_threads sy <> ∅ -> exists l sy', healthy sy l sy' /\ lstep sy l sy'.
Proof.
  intros [γ Hinv]%reachable_inv Hne. destruct (healthy_step_exists _ _ Hinv Hne) as (l & sy' & Hs).
  exists l, sy'. split; [done | by apply healthy_lstep].
Qed.

(** * Draining *)

Inductive healthy_ostep (o : observed) : observed -> Prop :=
| healthy_ostep_intro l sy' : healthy (ob_system o) l sy' -> healthy_ostep o (observe l sy' o).

(** A step of the requests that are live. *)
Inductive closing_ostep (o : observed) : observed -> Prop :=
| closing_ostep_intro l sy' :
    lstep (ob_system o) l sy' -> no_arrival l -> closing_ostep o (observe l sy' o).

(** A healthy step keeps every client waiting or gives it its answer. *)
Lemma healthy_waits o l sy' :
  tended o -> healthy (ob_system o) l sy' ->
  (forall x, x ∈ ob_answered o -> x ∈ ob_answered (observe l sy' o))
  /\ forall i rq, ob_live o !! i = Some rq ->
       ob_live (observe l sy' o) !! i = Some rq \/ exists a, (rq, a) ∈ ob_answered (observe l sy' o).
Proof.
  intros Ht Hs. destruct Hs as [i q k r pg' Hi _ Hn|i req k response Hi|i r Hi]; cbn [observe ob_answered ob_live];
    [by auto..|].
  assert (Hs : is_Some (ob_live o !! i)) by (apply Ht; by eexists). destruct Hs as [rq Hrq]. rewrite Hrq. split.
  - intros x Hx. apply elem_of_app. by left.
  - intros j rq' Hj. destruct (decide (j = i)) as [->|Hne].
    + right. exists r. rewrite Hrq in Hj. injection Hj as ->. apply elem_of_app. right. by left.
    + left. by rewrite lookup_delete_ne.
Qed.

Lemma healthy_no_arrival sy l sy' : healthy sy l sy' -> no_arrival l.
Proof. by destruct 1. Qed.

Lemma drains m o γ b :
  inv (ob_system o) γ -> budget (ob_system o) b -> tended o -> steps_left b = m ->
  exists n o', nsteps healthy_ostep n o o' /\ (n <= m)%nat /\ ob_live o' = ∅
    /\ (forall x, x ∈ ob_answered o -> x ∈ ob_answered o')
    /\ forall i rq, ob_live o !! i = Some rq -> exists a, (rq, a) ∈ ob_answered o'.
Proof.
  revert o γ b. induction m as [m IH] using lt_wf_ind. intros o γ b Hinv Hb Ht Hm.
  destruct (decide (sy_threads (ob_system o) = ∅)) as [He|Hne].
  { exists 0%nat, o. pose proof (tended_empty _ Ht He) as Hl. split_and!; [constructor | lia | done | done |].
    intros i rq. by rewrite Hl. }
  destruct (healthy_step_exists _ _ Hinv Hne) as (l & sy' & Hs).
  pose proof (healthy_lstep _ _ _ Hs) as Hls.
  destruct (step_decreases _ _ _ _ Hb Hls (healthy_no_arrival _ _ _ Hs)) as (b' & Hb' & Hlt).
  destruct (inv_step _ γ sy' Hinv) as (γ' & Hinv' & _); [by exists l|].
  destruct (healthy_waits _ _ _ Ht Hs) as [Hkeep Hwait].
  assert (Ht' : tended (observe l sy' o)) by (eapply tended_step; [done | by constructor]).
  rewrite <- (observe_system l sy' o) in Hinv', Hb'.
  destruct (IH (steps_left b') ltac:(lia) _ γ' b' Hinv' Hb' Ht' eq_refl) as (n & o' & Hn & Hle & Hl & Hk & Ha).
  exists (S n), o'. split_and!; [by eapply nsteps_l; [constructor|] | lia | done | by auto |].
  intros i rq Hi. destruct (Hwait _ _ Hi) as [Hi'|[a Ha']]; [by eapply Ha | exists a; by apply Hk].
Qed.

Lemma closing_bound n o b o' :
  budget (ob_system o) b -> nsteps closing_ostep n o o' -> (n <= steps_left b)%nat.
Proof.
  intros Hb Hn. revert b Hb. induction Hn as [o|n o o1 o2 [l sy' Hs Hl] _ IH]; intros b Hb; [lia|].
  destruct (step_decreases _ _ _ _ Hb Hs Hl) as (b' & Hb' & Hlt). rewrite <- (observe_system l sy' o) in Hb'.
  specialize (IH b' Hb'). lia.
Qed.

(** The requests that were live at [o] have all been answered at [o']. *)
Definition all_answered (o o' : observed) : Prop :=
  ob_live o' = ∅ /\ forall i rq, ob_live o !! i = Some rq -> exists a, (rq, a) ∈ ob_answered o'.

Lemma healthy_ostep_ostep o o' : healthy_ostep o o' -> ostep o o'.
Proof. intros [l sy' Hs]. by constructor; apply healthy_lstep. Qed.

Lemma healthy_ostep_waits o o' :
  rtc healthy_ostep o o' -> tended o ->
  tended o' /\ (forall x, x ∈ ob_answered o -> x ∈ ob_answered o')
  /\ forall i rq, ob_live o !! i = Some rq ->
       ob_live o' !! i = Some rq \/ exists a, (rq, a) ∈ ob_answered o'.
Proof.
  induction 1 as [o|o o1 o' [l sy' Hs] _ IH]; intros Ht; [by auto|].
  destruct (healthy_waits _ _ _ Ht Hs) as [Hk Hw].
  destruct IH as (Ht' & Hk' & Hw'); [eapply tended_step; [done | by constructor; apply healthy_lstep]|].
  split_and!; [done | by auto|]. intros i rq Hi.
  destruct (Hw _ _ Hi) as [Hi'|[a Ha]]; [by apply Hw' | right; exists a; by apply Hk'].
Qed.

(** A schedule without failures that cannot go on has answered everything. *)
Lemma healthy_stuck o o' :
  rtc ostep ob_initial o -> rtc healthy_ostep o o' -> (forall o2, ~ healthy_ostep o' o2) ->
  all_answered o o'.
Proof.
  intros Hr Hh Hstuck. destruct (healthy_ostep_waits _ _ Hh (tended_reachable _ Hr)) as (Ht & _ & Hw).
  assert (Hl : ob_live o' = ∅).
  { destruct (decide (sy_threads (ob_system o') = ∅)) as [He|Hne]; [by apply tended_empty|].
    assert (Hr' : rtc ostep ob_initial o').
    { etransitivity; [done|]. by eapply rtc_subrel, Hh; apply healthy_ostep_ostep. }
    destruct (no_deadlock _ (observed_reachable _ Hr') Hne) as (l & sy' & Hs & _).
    exfalso. eapply Hstuck. by constructor. }
  split; [done|]. intros i rq Hi. destruct (Hw _ _ Hi) as [Hi'|Ha]; [|done].
  by rewrite Hl, lookup_empty in Hi'.
Qed.

(** From any reachable state. *)
Lemma requests_drain o :
  rtc ostep ob_initial o ->
  (exists n o', nsteps healthy_ostep n o o' /\ (n <= S wl_bound * size (ob_live o))%nat
     /\ all_answered o o')
  /\ forall n o', nsteps closing_ostep n o o' -> (n <= S wl_bound * size (ob_live o))%nat.
Proof.
  intros Hr. pose proof (tended_reachable _ Hr) as Ht. apply observed_reachable in Hr.
  destruct (reachable_inv _ Hr) as [γ Hinv]. destruct (reachable_budget _ Hr) as [b Hb].
  pose proof (steps_left_bound _ _ Hb) as Hbound. rewrite <- (tended_size _ Ht) in Hbound. split.
  - destruct (drains _ _ _ _ Hinv Hb Ht eq_refl) as (n & o' & Hn & Hle & Hl & _ & Ha).
    exists n, o'. split_and!; [done | lia | by split].
  - intros n o' Hn. pose proof (closing_bound _ _ _ _ Hb Hn). lia.
Qed.

(** * Connections *)

(** A request that waits for the network, or that has its answer, holds no connection;
    and only live requests hold one. *)
Lemma connections_released sy :
  reachable sy ->
  (forall i req k, sy_threads sy !! i = Some (Vis (Post req) k) -> sessions (sy_pg sy) !! i = None)
  /\ (forall i a, sy_threads sy !! i = Some (Ret a) -> sessions (sy_pg sy) !! i = None)
  /\ (forall i, is_Some (sessions (sy_pg sy) !! i) -> is_Some (sy_threads sy !! i)).
Proof.
  intros [γ Hinv]%reachable_inv. split_and!.
  - intros i req k Hi. destruct (inv_wp _ _ Hinv _ _ Hi) as [(key & tid & Hg & _) _].
    by rewrite (inv_sessions _ _ Hinv), Hg.
  - intros i a Hi. pose proof (inv_wp _ _ Hinv _ _ Hi) as Hg. cbn in Hg.
    by rewrite (inv_sessions _ _ Hinv), Hg.
  - intros i. rewrite (inv_sessions _ _ Hinv). destruct (sy_threads sy !! i) eqn:Hi; [done|].
    rewrite (inv_absent _ _ Hinv) by done. by intros [? [=]].
Qed.

End progress.
