(* ===== verification/Fairness.v ===== *)
(** Fairness: in every infinite run of the system of System.v in which a request that can
    go on again and again does go on, each request is answered or lost, whatever fails
    and however many others keep arriving. *)
From Stdlib Require Import Classical.
From S2P Require Import Prelude PyStr Sha256 Json Domain Ports Idempotency Schema Effects Adapter.
From S2P Require Import Authorize Problem Coordinator Ledger Orchestrator Protocol Coherence System Progress.

Open Scope Z_scope.

Section fairness.
Context `{Workload}.

(** The connections of the pool. *)
Variable capacity : nat.
Hypothesis some_connection : (0 < capacity)%nat.

(** * Locks *)

(** What a statement may have to wait for. *)
Inductive lock : Type :=
| TransactionLock (tid : pystr)
| KeyLock (key : pystr).

Definition has_lock (o : db) (x : lock) : Prop :=
  match x with
  | TransactionLock tid => is_Some (transactions o !! tid)
  | KeyLock key => is_Some (idempotency_records o !! key)
  end.

Definition holds (pg : pgstate) (j : nat) (x : lock) : Prop :=
  exists o, sessions pg !! j = Some o /\ has_lock o x.

(** The lock of the row that a statement writes. *)
Definition wanted (q : dbop) : option lock :=
  match q with
  | OpInsertTransaction row => TransactionLock ∘ t_transaction_id <$> store_transaction_row row
  | OpUpdateTransaction tid _ _ => Some (TransactionLock tid)
  | OpInsertIdempotency row => KeyLock ∘ i_idempotency_key_hash <$> store_idempotency_row row
  | OpUpdateIdempotency key _ _ _ => Some (KeyLock key)
  | _ => None
  end.

(** Locks are taken in order: a transaction first, then its key. *)
Definition level (x : lock) : nat := match x with TransactionLock _ => 2 | KeyLock _ => 3 end.

Definition rank (t : tstate) : nat :=
  match t with
  | Closed => 0
  | Fresh => 1
  | InsTx _ | UpdTx _ => 2
  | InsBoth _ _ | UpdBoth _ _ => 3
  end.

Lemma holds_ghost sy γ j x :
  inv sy γ -> holds (sy_pg sy) j x ->
  match x with
  | TransactionLock tid => tx_of (gt (γ j)) = Some tid
  | KeyLock key => key_of (gt (γ j)) = Some key
  end.
Proof.
  intros Hinv (o & Ho & Hx). rewrite (inv_sessions _ _ Hinv) in Ho.
  destruct x; cbn in Hx; [by apply (tx_of_overlay _ _ _ Ho) | by apply (key_of_overlay _ _ _ Ho)].
Qed.

Lemma holds_rank sy γ j x :
  inv sy γ -> holds (sy_pg sy) j x -> (level x <= rank (gt (γ j)))%nat.
Proof.
  intros Hinv Hx. apply (holds_ghost _ _ _ _ Hinv) in Hx.
  destruct x, (gt (γ j)); cbn in *; try discriminate; lia.
Qed.

Lemma holds_unique sy γ i j x :
  inv sy γ -> holds (sy_pg sy) i x -> holds (sy_pg sy) j x -> i = j.
Proof.
  intros Hinv Hi Hj. destruct (decide (i = j)) as [|Hne]; [done|]. exfalso.
  destruct (inv_apart _ _ Hinv i j Hne) as (_ & Ht & Hk).
  apply (holds_ghost _ _ _ _ Hinv) in Hi, Hj. destruct x; [by eapply Ht | by eapply Hk].
Qed.

(** A statement that waits for no lock goes on. *)
Lemma nominal_unless_wanted sy γ i q :
  inv sy γ -> db_pre (γ i) q ->
  (forall x j, wanted q = Some x -> j <> i -> ~ holds (sy_pg sy) j x) ->
  exists r pg', pg_nominal (sy_pg sy) i q r pg'.
Proof.
  intros Hinv Hpre Hw.
  assert (Ht : forall tid, wanted q = Some (TransactionLock tid) -> ~ transaction_locked (sy_pg sy) i tid).
  { intros tid Hq (j & o & Hj & Ho & Hx). apply (Hw _ _ Hq Hj). by exists o. }
  assert (Hk : forall key, wanted q = Some (KeyLock key) -> ~ idempotency_locked (sy_pg sy) i key).
  { intros key Hq (j & o & Hj & Ho & Hx). apply (Hw _ _ Hq Hj). by exists o. }
  clear Hw. destruct q as [| | |key|tid|row|row|tid ver v|key tid st v]; cbn [pg_nominal wanted] in *;
    try (by eexists _, _).
  - destruct (insert_transaction _ _) as [row'| |] eqn:Hins; try (by eexists _, _).
    apply insert_transaction_ok in Hins as (Hst & _). rewrite Hst in Ht.
    eexists _, _. unfold wrote. split_and!; [done..|]. by apply Ht.
  - destruct (insert_idempotency _ _) as [row'| |] eqn:Hins; try (by eexists _, _).
    apply insert_idempotency_ok in Hins as (Hst & _). rewrite Hst in Hk.
    eexists _, _. unfold wrote. split_and!; [done..|]. by apply Hk.
  - destruct (update_transaction _ _ _ _) as [[row'|]| |] eqn:Hup; try (by eexists _, _).
    destruct Hpre as (key & Hg & _). rewrite (visible_ghost sy γ i empty_db Hinv), overlay_empty in Hup by (by rewrite Hg).
    apply update_transaction_row in Hup as (r0 & H0 & _ & Hst & _).
    destruct (inv_db _ _ Hinv) as (Hdt & _ & _).
    destruct (updated_transaction_row _ _ _ _ (Hdt _ _ H0) Hst) as (Hid & _).
    eexists _, _. unfold wrote. split_and!; [done..|]. unfold tx_locked. rewrite Hid. by apply Ht.
  - destruct (update_idempotency _ _ _ _ _) as [[row'|]| |] eqn:Hup; try (by eexists _, _).
    destruct Hpre as (r0 & Hg & _). rewrite (visible_ghost sy γ i (put_transaction r0 empty_db) Hinv) in Hup by (by rewrite Hg).
    apply update_idempotency_row in Hup as (rec & H0 & _ & _ & Hst & _).
    cbn in H0. rewrite lookup_union, lookup_empty, (left_id_L None _) in H0.
    destruct (inv_db _ _ Hinv) as (_ & Hdi & _).
    destruct (updated_idempotency_row _ _ _ _ (Hdi _ _ H0) Hst) as (Hkey & _).
    eexists _, _. unfold wrote. split_and!; [done..|]. unfold idem_locked. rewrite Hkey. by apply Hk.
Qed.

(** Why a request cannot go on: no connection is free, or another request holds a lock
    that comes after all those it holds itself. *)
Inductive waits (sy : system) (t : tstate) (q : dbop) : Prop :=
| waits_connection :
    t = Closed -> wanted q = None -> (capacity <= size (sessions (sy_pg sy)))%nat -> waits sy t q
| waits_lock x j :
    wanted q = Some x -> (rank t < level x)%nat -> holds (sy_pg sy) j x -> waits sy t q.

Lemma why_waiting sy γ i p :
  inv sy γ -> sy_threads sy !! i = Some p -> ~ can_proceed capacity sy i ->
  exists q k, p = Vis (Db q) k /\ waits sy (gt (γ i)) q.
Proof.
  intros Hinv Hi Hc. unfold can_proceed in Hc. rewrite Hi in Hc.
  destruct p as [a|[q|req] k]; try tauto. exists q, k. split; [done|].
  destruct (inv_wp _ _ Hinv _ _ Hi) as [Hpre _]. cbn in Hpre.
  destruct (classic (connection_free capacity sy q)) as [Hf|Hf]; cycle 1.
  { unfold connection_free in Hf. apply imply_to_and in Hf as [-> Hf].
    apply waits_connection; [done | done | lia]. }
  destruct (classic (exists x j, wanted q = Some x /\ j <> i /\ holds (sy_pg sy) j x)) as [(x & j & Hq & _ & Hx)|Hn].
  - eapply waits_lock; [done| |done]. destruct q; cbn in Hq, Hpre; try discriminate.
    + destruct Hpre as (-> & _). destruct (store_transaction_row _); [|done]. injection Hq as <-. cbn. lia.
    + destruct Hpre as (? & ? & ? & ? & -> & _). destruct (store_idempotency_row _); [|done]. injection Hq as <-. cbn. lia.
    + destruct Hpre as (? & -> & _). injection Hq as <-. cbn. lia.
    + destruct Hpre as (? & -> & _). injection Hq as <-. cbn. lia.
  - exfalso. apply Hc. split; [done|]. eapply nominal_unless_wanted; [done..|].
    intros x j Hq Hj Hx. apply Hn. eauto.
Qed.

(** * What a step does to the others *)

Definition subject (l : label) : nat :=
  match l with
  | Arrives i _ | Operates i | Posts i _ | Returns i _ | Vanishes i => i
  end.

Lemma others_keep sy l sy' j :
  lstep sy l sy' -> subject l <> j ->
  sy_threads sy' !! j = sy_threads sy !! j /\ sessions (sy_pg sy') !! j = sessions (sy_pg sy) !! j.
Proof.
  intros Hs Hj. destruct Hs as [i rq Hi _|i q k r pg' Hi Hc|i req k r Hi _|i r Hi|i p Hi]; cbn in *;
    rewrite ?lookup_insert_ne, ?lookup_delete_ne by done; split; try done.
  destruct Hc as [Hn|[_ Hf]].
  - destruct q; cbn [pg_nominal] in Hn; unfold wrote, refused in Hn; repeat case_match; destruct_and?; subst;
      cbn; rewrite ?lookup_insert_ne, ?lookup_delete_ne, ?lookup_alter_ne by done; done.
  - destruct q; try (by subst); [destruct Hf as [->| ->] | subst]; cbn; by rewrite lookup_delete_ne.
Qed.

(** A write keeps the locks that are held, and only the end of a transaction gives them
    up. *)
Lemma written_keeps pg i f j o :
  (forall d x, has_lock d x -> has_lock (f d) x) -> sessions pg !! j = Some o ->
  exists o', sessions (write_session i f pg) !! j = Some o' /\ forall x, has_lock o x -> has_lock o' x.
Proof.
  intros Hf Ho. cbn. destruct (decide (i = j)) as [->|Hne].
  - rewrite lookup_alter_eq, Ho. cbn. eexists. split; [done|]. intros x. apply Hf.
  - rewrite lookup_alter_ne by done. by exists o.
Qed.

Lemma put_transaction_keeps r d x : has_lock d x -> has_lock (put_transaction r d) x.
Proof. destruct x; cbn; [|done]. intros Hx. apply lookup_insert_is_Some'. by right. Qed.

Lemma put_idempotency_keeps r d x : has_lock d x -> has_lock (put_idempotency r d) x.
Proof. destruct x; cbn; [done|]. intros Hx. apply lookup_insert_is_Some'. by right. Qed.

Lemma session_step sy γ l sy' j o :
  inv sy γ -> lstep sy l sy' -> sessions (sy_pg sy) !! j = Some o ->
  (exists o', sessions (sy_pg sy') !! j = Some o' /\ forall x, has_lock o x -> has_lock o' x)
  \/ sessions (sy_pg sy') = delete j (sessions (sy_pg sy)).
Proof.
  intros Hinv Hs Ho. destruct (decide (subject l = j)) as [Hj|Hne]; cycle 1.
  { left. destruct (others_keep _ _ _ _ Hs Hne) as [_ He]. exists o. by rewrite He. }
  assert (Hsame : forall pg, pg = sy_pg sy -> exists o', sessions pg !! j = Some o' /\ forall x, has_lock o x -> has_lock o' x)
    by (intros pg ->; by exists o).
  destruct Hs as [i rq Hi _|i q k r pg' Hi Hc|i req k r Hi _|i r Hi|i p Hi]; cbn in Hj; subst i;
    cbn [sy_pg]; auto.
  destruct Hc as [Hn|[_ Hf]]; cycle 1.
  { destruct q; auto; [destruct Hf as [->| ->] | subst pg']; by right. }
  destruct (inv_wp _ _ Hinv _ _ Hi) as [Hpre _]. cbn in Hpre.
  destruct q; cbn [pg_nominal] in Hn; unfold wrote, refused in Hn; repeat case_match; destruct_and?; subst; auto.
  - exfalso. rewrite (inv_sessions _ _ Hinv), Hpre in Ho. discriminate.
  - left. apply written_keeps; [apply put_transaction_keeps | done].
  - left. apply written_keeps; [apply put_idempotency_keeps | done].
  - left. apply written_keeps; [apply put_transaction_keeps | done].
  - left. apply written_keeps; [apply put_idempotency_keeps | done].
Qed.

(** A lock that is given up is free for a moment. *)
Lemma holds_step sy γ l sy' j x :
  inv sy γ -> lstep sy l sy' -> holds (sy_pg sy) j x ->
  holds (sy_pg sy') j x \/ forall j', ~ holds (sy_pg sy') j' x.
Proof.
  intros Hinv Hs Hj. pose proof Hj as (o & Ho & Hx).
  destruct (session_step _ _ _ _ _ _ Hinv Hs Ho) as [(o' & Ho' & Hk)|He].
  - left. exists o'. auto.
  - right. intros j' (o' & Ho' & Hx'). rewrite He in Ho'. apply lookup_delete_Some in Ho' as [Hne Ho'].
    apply Hne. eapply holds_unique; [done..|]. by exists o'.
Qed.

(** * Infinite runs *)

(** What happens at each moment of a run; at some, nothing. *)
Definition next (o : observed) (l : option label) (o' : observed) : Prop :=
  match l with
  | Some l => exists sy', lstep (ob_system o) l sy' /\ o' = observe l sy' o
  | None => o' = o
  end.

(** Requests arrive and are lost and operations fail as they may, but the pool never
    lends more connections than it has. *)
Record run (σ : nat -> observed) (labels : nat -> option label) : Prop := MkRun {
  run_start : σ 0%nat = ob_initial;
  run_next : forall n, next (σ n) (labels n) (σ (S n));
  run_pooled : forall n, (size (sessions (sy_pg (ob_system (σ n)))) <= capacity)%nat
}.

(** Strong fairness: a request that can go on again and again takes a step. *)
Definition fair (σ : nat -> observed) (labels : nat -> option label) : Prop :=
  forall i n,
    (forall m, (n <= m)%nat -> exists k, (m <= k)%nat /\ can_proceed capacity (ob_system (σ k)) i) ->
    exists m, (n <= m)%nat /\ subject <$> labels m = Some i.

(** The request is answered or lost. *)
Definition leaves (i : nat) (l : option label) : Prop :=
  l = Some (Vanishes i) \/ exists a, l = Some (Returns i a).

Section run.
Context (σ : nat -> observed) (labels : nat -> option label).
Hypothesis Hrun : run σ labels.
Hypothesis Hfair : fair σ labels.

Abbreviation system_at n := (ob_system (σ n)).
Abbreviation thread_at n i := (sy_threads (ob_system (σ n)) !! i).

Lemma run_reachable n : rtc ostep ob_initial (σ n).
Proof.
  induction n as [|n IH]; [by rewrite (run_start _ _ Hrun)|].
  pose proof (run_next _ _ Hrun n) as Hn. unfold next in Hn. destruct (labels n) as [l|]; [|by rewrite Hn].
  destruct Hn as (sy' & Hs & ->). eapply rtc_r; [exact IH | by constructor].
Qed.

Lemma run_inv n : exists γ, inv (system_at n) γ.
Proof. apply reachable_inv, observed_reachable, run_reachable. Qed.

(** What is kept by every step of a run is kept for ever. *)
Lemma run_persists (P : nat -> Prop) m :
  P m -> (forall k, (m <= k)%nat -> P k -> P (S k)) -> forall k, (m <= k)%nat -> P k.
Proof. intros Hm Hs k Hk. induction Hk; auto. Qed.

Lemma run_others n i :
  subject <$> labels n <> Some i ->
  thread_at (S n) i = thread_at n i /\ ob_live (σ (S n)) !! i = ob_live (σ n) !! i.
Proof.
  intros Hi. pose proof (run_next _ _ Hrun n) as Hn. unfold next in Hn.
  destruct (labels n) as [l|]; [|by rewrite Hn]. cbn in Hi.
  assert (Hl : subject l <> i) by congruence. destruct Hn as (sy' & Hs & ->). rewrite observe_system.
  split; [by apply (others_keep _ _ _ _ Hs)|].
  destruct l; cbn in *; rewrite ?lookup_insert_ne, ?lookup_delete_ne by done; done.
Qed.

Lemma run_lasts n i m :
  (n <= m)%nat -> (forall k, (n <= k < m)%nat -> subject <$> labels k <> Some i) ->
  thread_at m i = thread_at n i /\ ob_live (σ m) !! i = ob_live (σ n) !! i.
Proof.
  intros Hm. induction Hm as [|m Hm IH]; intros Hk; [done|].
  destruct IH as [<- <-]; [intros k ?; apply Hk; lia|]. apply run_others, Hk. lia.
Qed.

(** A request that never goes on again, nor could. *)
Definition stalled (i m : nat) : Prop :=
  is_Some (thread_at m i)
  /\ forall k, (m <= k)%nat -> subject <$> labels k <> Some i /\ ~ can_proceed capacity (system_at k) i.

Lemma first_move n m i :
  (n <= m)%nat -> subject <$> labels m = Some i ->
  exists m', (n <= m')%nat /\ subject <$> labels m' = Some i
    /\ forall k, (n <= k < m')%nat -> subject <$> labels k <> Some i.
Proof.
  intros Hm Hi. remember (m - n)%nat as d eqn:Hd. revert n Hm Hd.
  induction d as [|d IH]; intros n Hm Hd; destruct (decide (subject <$> labels n = Some i)) as [Hn|Hn].
  1,3: exists n; split_and!; [done..|]; intros k Hk; lia.
  - exists m. split_and!; [done..|]. intros k Hk. lia.
  - destruct (IH (S n)) as (m' & Hm' & Hi' & Hb); [|lia|].
    { destruct (decide (n = m)) as [->|]; [done | lia]. }
    exists m'. split_and!; [lia | done|]. intros k Hk.
    destruct (decide (k = n)) as [->|]; [done | apply Hb; lia].
Qed.

(** Every request leaves, or is stalled in the end: each of its steps uses up some of the
    operations it may perform. *)
Lemma leaves_or_stalls b n i p :
  thread_at n i = Some p -> within b p ->
  (exists m, (n <= m)%nat /\ leaves i (labels m) /\ ob_live (σ m) !! i = ob_live (σ n) !! i)
  \/ exists m, (n <= m)%nat /\ stalled i m.
Proof.
  revert n p. induction b as [b IH] using lt_wf_ind. intros n p Hp Hb.
  destruct (classic (exists m, (n <= m)%nat /\ subject <$> labels m = Some i)) as [(m0 & Hm0 & Hi0)|Hn]; cycle 1.
  { right. destruct (not_all_ex_not _ _ (fun Hc => Hn (Hfair i n Hc))) as [m Hm].
    apply imply_to_and in Hm as [Hm Hk]. exists m. split; [done|].
    assert (Hquiet : forall k, (n <= k)%nat -> subject <$> labels k <> Some i) by (intros k Hk' He; eauto).
    split.
    - destruct (run_lasts n i m Hm) as [-> _]; [intros k Hk'; apply Hquiet; lia | by eexists].
    - intros k Hk'. split; [apply Hquiet; lia|]. intros Hc. apply Hk. eauto. }
  destruct (first_move _ _ _ Hm0 Hi0) as (m & Hm & Hi & Hb').
  destruct (run_lasts n i m Hm Hb') as [Ht Hl]. rewrite Hp in Ht.
  pose proof (run_next _ _ Hrun m) as Hnext. unfold next in Hnext.
  destruct (labels m) as [l|] eqn:Hlab; [|done]. injection Hi as Hi. destruct Hnext as (sy' & Hs & He).
  assert (Hgo : forall p' c, (c < b)%nat -> within c p' -> thread_at (S m) i = Some p' ->
            ob_live (σ (S m)) !! i = ob_live (σ m) !! i ->
            (exists m, (n <= m)%nat /\ leaves i (labels m) /\ ob_live (σ m) !! i = ob_live (σ n) !! i)
            \/ exists m, (n <= m)%nat /\ stalled i m).
  { intros p' c Hc Hw Ht' Hl'. destruct (IH c Hc _ _ Ht' Hw) as [(m' & Hm' & Hleave & Hlive)|(m' & Hm' & Hst)].
    - left. exists m'. split_and!; [lia | done | congruence].
    - right. exists m'. split; [lia | done]. }
  destruct Hs as [j rq Hj _|j q k r pg' Hj Hc|j req k r Hj _|j r Hj|j q Hj]; cbn in Hi; subst j;
    rewrite Hj in Ht; simplify_eq.
  - destruct b as [|c]; [done|]. apply (Hgo (k r) c); [lia | apply Hb | by rewrite He; cbn; rewrite lookup_insert_eq | by rewrite He].
  - destruct b as [|c]; [done|]. apply (Hgo (k r) c); [lia | apply Hb | by rewrite He; cbn; rewrite lookup_insert_eq | by rewrite He].
  - left. exists m. split_and!; [done | right; by exists r | done].
  - left. exists m. split_and!; [done | by left | done].
Qed.

(** A request that leaves has no session any more. *)
Lemma leaves_closes m i γ :
  leaves i (labels m) -> inv (system_at (S m)) γ -> sessions (sy_pg (system_at (S m))) !! i = None.
Proof.
  intros Hl Hinv. rewrite (inv_sessions _ _ Hinv), (inv_absent _ _ Hinv); [done|].
  pose proof (run_next _ _ Hrun m) as Hn. unfold next in Hn.
  destruct Hl as [Hl|[a Hl]]; rewrite Hl in Hn; destruct Hn as (sy' & Hs & ->); rewrite observe_system;
    inversion Hs; subst; cbn; by rewrite lookup_delete_eq.
Qed.

(** ** Nothing stays stalled *)

(** A request whose session stays open for ever is stalled in the end. *)
Lemma open_stalls m j :
  (forall k, (m <= k)%nat -> is_Some (sessions (sy_pg (system_at k)) !! j)) ->
  exists m', (m <= m')%nat /\ stalled j m'.
Proof.
  intros Ho. destruct (run_inv m) as [γ Hinv].
  assert (Hs : is_Some (thread_at m j)).
  { apply (connections_released (system_at m)); [apply observed_reachable, run_reachable | by apply Ho]. }
  destruct Hs as [p Hp].
  destruct (reachable_budget (system_at m)) as [b Hb]; [apply observed_reachable, run_reachable|].
  destruct (bg_within _ _ Hb _ _ Hp) as (n & _ & Hw).
  destruct (leaves_or_stalls n m j p Hp Hw) as [(m' & Hm' & Hl & _)|]; [|done].
  exfalso. destruct (run_inv (S m')) as [γ' Hinv']. pose proof (leaves_closes _ _ _ Hl Hinv') as Hc.
  destruct (Ho (S m')) as [o Ho']; [lia|]. congruence.
Qed.

(** Why a request is stalled. *)
Lemma stalled_waits m i k :
  stalled i m -> (m <= k)%nat ->
  thread_at k i = thread_at m i
  /\ forall γ, inv (system_at k) γ ->
       exists q c, thread_at k i = Some (Vis (Db q) c) /\ waits (system_at k) (gt (γ i)) q.
Proof.
  intros [Hs Hq] Hk. destruct (run_lasts m i k Hk) as [Ht _]; [intros j Hj; apply Hq; lia|].
  split; [done|]. intros γ Hinv. destruct Hs as [p Hp]. rewrite <- Ht in Hp.
  destruct (why_waiting _ _ _ _ Hinv Hp (proj2 (Hq k Hk))) as (q & c & -> & Hw). by exists q, c.
Qed.

(** A lock that somebody waits for at every moment has one holder. *)
Lemma lock_kept m x j :
  (forall k, (m <= k)%nat -> exists j, holds (sy_pg (system_at k)) j x) ->
  holds (sy_pg (system_at m)) j x ->
  forall k, (m <= k)%nat -> holds (sy_pg (system_at k)) j x.
Proof.
  intros Hall Hj. apply run_persists; [done|]. intros k Hk Hh.
  pose proof (run_next _ _ Hrun k) as Hn. unfold next in Hn.
  destruct (labels k) as [l|]; [|by rewrite Hn]. destruct Hn as (sy' & Hs & He).
  destruct (run_inv k) as [γ Hinv]. destruct (holds_step _ _ _ _ _ _ Hinv Hs Hh) as [Hh'|Hno].
  - by rewrite He, observe_system.
  - exfalso. destruct (Hall (S k)) as [j' Hj']; [lia|]. rewrite He, observe_system in Hj'. by eapply Hno.
Qed.

Lemma lock_wait_ends d m i q c x :
  stalled i m -> thread_at m i = Some (Vis (Db q) c) -> wanted q = Some x -> (4 <= level x + d)%nat -> False.
Proof.
  revert m i q c x. induction d as [|d IH]; intros m i q c x Hst Hi Hx Hd; [destruct x; cbn in Hd; lia|].
  assert (Hall : forall k, (m <= k)%nat -> exists j, holds (sy_pg (system_at k)) j x).
  { intros k Hk. destruct (stalled_waits _ _ _ Hst Hk) as [Ht Hw]. destruct (run_inv k) as [γ Hinv].
    destruct (Hw γ Hinv) as (q' & c' & Hi' & [Hw'|x' j Hx' _ Hj]); rewrite Ht, Hi in Hi'; simplify_eq. by exists j. }
  destruct (Hall m (le_n m)) as [j Hj]. pose proof (lock_kept _ _ _ Hall Hj) as Hkept.
  destruct (open_stalls m j) as (m' & Hm' & Hst').
  { intros k Hk. destruct (Hkept k Hk) as (o & Ho & _). by eexists. }
  destruct (stalled_waits _ _ _ Hst' (le_n m')) as [_ Hw]. destruct (run_inv m') as [γ Hinv].
  pose proof (holds_rank _ _ _ _ Hinv (Hkept m' Hm')) as Hr.
  destruct (Hw γ Hinv) as (q' & c' & Hi' & [Hg _ _|x' j' Hx' Hr' _]).
  - rewrite Hg in Hr. destruct x; cbn in Hr; lia.
  - eapply (IH m' j q' c' x'); [done..|lia].
Qed.

Lemma connection_wait_ends m i q c :
  stalled i m -> thread_at m i = Some (Vis (Db q) c) -> wanted q = None -> False.
Proof.
  intros Hst Hi Hq.
  assert (Hfull : forall k, (m <= k)%nat -> (capacity <= size (sessions (sy_pg (system_at k))))%nat).
  { intros k Hk. destruct (stalled_waits _ _ _ Hst Hk) as [Ht Hw]. destruct (run_inv k) as [γ Hinv].
    destruct (Hw γ Hinv) as (q' & c' & Hi' & [_ _ Hf|x' j Hx' _ _]); [done|].
    rewrite Ht, Hi in Hi'. by simplify_eq. }
  destruct (map_choose (sessions (sy_pg (system_at m)))) as (j & o & Hj).
  { intros He. pose proof (Hfull m (le_n m)) as Hf. rewrite He, map_size_empty in Hf. lia. }
  assert (Hopen : forall k, (m <= k)%nat -> is_Some (sessions (sy_pg (system_at k)) !! j)).
  { apply run_persists; [by eexists|]. intros k Hk [o' Ho'].
    pose proof (run_next _ _ Hrun k) as Hn. unfold next in Hn.
    destruct (labels k) as [l|]; [|by rewrite Hn]. destruct Hn as (sy' & Hs & He).
    destruct (run_inv k) as [γ Hinv].
    destruct (session_step _ _ _ _ _ _ Hinv Hs Ho') as [(o2 & Ho2 & _)|Hd].
    - rewrite He, observe_system. by eexists.
    - exfalso. pose proof (Hfull (S k) ltac:(lia)) as Hf. rewrite He, observe_system, Hd in Hf.
      rewrite map_size_delete_Some in Hf by (by eexists). pose proof (run_pooled _ _ Hrun k). lia. }
  destruct (open_stalls m j Hopen) as (m' & Hm' & Hst').
  destruct (stalled_waits _ _ _ Hst' (le_n m')) as [_ Hw]. destruct (run_inv m') as [γ Hinv].
  destruct (Hw γ Hinv) as (q' & c' & Hi' & [Hg _ _|x' j' Hx' _ _]).
  - destruct (Hopen m' Hm') as [o' Ho']. rewrite (inv_sessions _ _ Hinv), Hg in Ho'. discriminate.
  - eapply (lock_wait_ends 4); [done..|lia].
Qed.

Lemma never_stalled i m : ~ stalled i m.
Proof.
  intros Hst. destruct (run_inv m) as [γ Hinv].
  destruct (proj2 (stalled_waits _ _ _ Hst (le_n m)) γ Hinv) as (q & c & Hi & _).
  destruct (wanted q) as [x|] eqn:Hq; [by eapply (lock_wait_ends 4); [..|lia] | by eapply connection_wait_ends].
Qed.

(** A live request leaves: it is lost, or its client is given an answer. *)
Lemma live_leaves n i rq :
  ob_live (σ n) !! i = Some rq ->
  exists m, (n <= m)%nat
    /\ (labels m = Some (Vanishes i)
        \/ exists a, labels m = Some (Returns i a) /\ (rq, a) ∈ ob_answered (σ (S m))).
Proof.
  intros Hl. assert (Hp : is_Some (thread_at n i)) by (apply (tended_reachable _ (run_reachable n)); by eexists).
  destruct Hp as [p Hp].
  destruct (reachable_budget (system_at n)) as [b Hb]; [apply observed_reachable, run_reachable|].
  destruct (bg_within _ _ Hb _ _ Hp) as (c & _ & Hw).
  destruct (leaves_or_stalls c n i p Hp Hw) as [(m & Hm & Hleave & Hlive)|(m & _ & Hst)];
    [|by apply never_stalled in Hst].
  exists m. split; [done|]. destruct Hleave as [Hv|[a Ha]]; [by left|]. right. exists a. split; [done|].
  pose proof (run_next _ _ Hrun m) as Hn. unfold next in Hn. rewrite Ha in Hn. destruct Hn as (sy' & _ & ->).
  cbn. rewrite Hlive, Hl. apply elem_of_app. right. by left.
Qed.

End run.
End fairness.

(** * Schedules as runs *)

Section schedules.
Context `{Workload} (capacity : nat).

Abbreviation run := (run capacity).
Abbreviation fair := (fair capacity).

(** A schedule of finitely many events, after which nothing happens. *)
Definition play (es : list event) (n : nat) : observed := watch ob_initial (take n es).
Definition played (es : list event) (n : nat) : option label :=
  match es !! n with
  | Some e => fst <$> advance (ob_system (play es n)) e
  | None => None
  end.

Fixpoint within_pool (o : observed) (es : list event) : bool :=
  (size (sessions (sy_pg (ob_system o))) <=? capacity)%nat
  && match es with
     | [] => true
     | e :: es' =>
         match advance (ob_system o) e with
         | Some (l, sy') => within_pool (observe l sy' o) es'
         | None => within_pool o es'
         end
     end.

Lemma watch_app o es es' : watch o (es ++ es') = watch (watch o es) es'.
Proof.
  revert o. induction es as [|e es IH]; intros o; [done|]. cbn.
  destruct (advance (ob_system o) e) as [[l sy']|]; apply IH.
Qed.

Lemma play_next es n : next (play es n) (played es n) (play es (S n)).
Proof.
  unfold played. destruct (es !! n) as [e|] eqn:He.
  - unfold play at 3. rewrite (take_S_r _ _ _ He), watch_app. cbn [watch]. fold (play es n).
    destruct (advance _ e) as [[l sy']|] eqn:Ha; [|done]. exists sy'. split; [by eapply advance_step | done].
  - apply lookup_ge_None in He. cbn. unfold play. by rewrite !take_ge by lia.
Qed.

Lemma within_pool_play o es n :
  within_pool o es = true ->
  (size (sessions (sy_pg (ob_system (watch o (take n es))))) <= capacity)%nat.
Proof.
  revert o n. induction es as [|e es IH]; intros o n [Hs Hp]%andb_true_iff; apply Nat.leb_le in Hs.
  - by rewrite take_nil.
  - destruct n as [|n]; [done|]. cbn. by destruct (advance (ob_system o) e) as [[l sy']|]; apply IH.
Qed.

Lemma play_run es : within_pool ob_initial es = true -> run (play es) (played es).
Proof. intros Hp. constructor; [done | apply play_next | intros n; by apply within_pool_play]. Qed.

(** A schedule that leaves no request behind is fair. *)
Lemma play_fair es : sy_threads (ob_system (watch ob_initial es)) = ∅ -> fair (play es) (played es).
Proof.
  intros He i n Hi. destruct (Hi (n `max` length es)%nat) as (k & Hk & Hc); [lia|]. exfalso.
  unfold can_proceed, play in Hc. by rewrite take_ge, He, lookup_empty in Hc by lia.
Qed.

End schedules.
