(* ===== verification/Concurrency.v ===== *)
(** The system of System.v with requests to the orchestrator: what holds in every
    reachable state, whatever is interleaved, fails or is lost. *)
From S2P Require Import Prelude PyStr Sha256 Json Domain Ports Idempotency Schema Effects Adapter.
From S2P Require Import Authorize Problem Coordinator Ledger Orchestrator Protocol.
From S2P Require Import Coherence System Progress.

Open Scope Z_scope.

(** Requests to the orchestrator, each over an adapter of its own; the schema of the API
    limits identifiers to 128 characters. *)
Record submission : Type := MkSubmission {
  sb_adapter : HttpPaymentNetworkAdapter;
  sb_command : AuthorizeTransactionCommand;
  sb_raw_key : pystr
}.

Definition admitted (s : submission) : bool :=
  (length (cmd_transaction_id (sb_command s)) <=? 128)%nat.

Definition handled_by_orchestrator (s : submission) : prog (res exn ResponseEnvelope) :=
  orchestrate (sb_adapter s) (sb_command s) (sb_raw_key s).

Lemma orchestrator_protocol s :
  admitted s = true -> wp idle_ghost (handled_by_orchestrator s) (fun _ g => gt g = Closed).
Proof. intros Ha%Nat.leb_le. by apply wp_handle. Qed.

#[local] Instance orchestrator_workload : Workload :=
  MkWorkload submission (res exn ResponseEnvelope) admitted handled_by_orchestrator 14
    orchestrator_protocol (fun s => within_handle (sb_adapter s) (sb_command s) (sb_raw_key s)).

(** * Properties *)

(** C7.  The network is asked at most once for a transaction, whatever happens: with any
    number of concurrent requests and retries, any interleaving, any failure of the
    database (a commit whose outcome is unknown included), any answer of the network and
    any request lost half-way, no two HTTP requests carry the same transaction
    identifier; and each one belongs to a recorded transaction that was reserved under
    exactly one idempotency key, so no key ever causes two. *)
Theorem network_asked_at_most_once (sy : system) :
  reachable sy ->
  (forall n m req req', sy_posts sy !! n = Some req -> sy_posts sy !! m = Some req' ->
     posted_id req = posted_id req' -> n = m)
  /\ (forall req, req ∈ sy_posts sy ->
      exists tid key rec, posted_id req = Some (JStr tid)
        /\ idempotency_records (committed (sy_pg sy)) !! key = Some rec /\ i_transaction_id rec = tid
        /\ forall key' rec', idempotency_records (committed (sy_pg sy)) !! key' = Some rec' ->
             i_transaction_id rec' = tid -> key' = key).
Proof.
  intros [γ Hinv]%reachable_inv. destruct (inv_posts _ _ Hinv) as [Hn Hf]. split.
  - intros n m req req' H1 H2 Heq. eapply (NoDup_lookup _ n m (posted_id req) Hn).
    + unfold ids. by rewrite list_lookup_fmap, H1.
    + unfold ids. rewrite list_lookup_fmap, H2. by rewrite Heq.
  - intros req Hin. rewrite Forall_forall in Hf.
    destruct (Hf (posted_id req)) as (tid & Hreq & [r Hr]); [by apply list_elem_of_fmap_2|].
    destruct (co_onto _ (inv_coherent _ _ Hinv) _ _ Hr) as (key & rec & Hk & Ht).
    exists tid, key, rec. split_and!; [done..|]. intros key' rec' Hk' Ht'.
    eapply (co_inj _ (inv_coherent _ _ Hinv)); [done..|]. congruence.
Qed.

(** C8.  In every reachable state the committed tables satisfy all their constraints and
    are coherent: keys and transactions correspond one to one; a key in progress belongs
    to an untouched CREATED transaction of version 0; a completed one belongs to a
    transaction of version 1 in a final or pending state, and the cached response tells
    that state (201 with the status in the body for AUTHORIZED and DECLINED, 202 for
    PENDING_RECONCILIATION, 502 or 503 for FAILED). *)
Theorem tables_stay_coherent (sy : system) :
  reachable sy -> db_ok (committed (sy_pg sy)) /\ coherent (committed (sy_pg sy)).
Proof. intros [γ Hinv]%reachable_inv. by split; [apply (inv_db _ _ Hinv) | apply (inv_coherent _ _ Hinv)]. Qed.

(** C15.  Nothing recorded is forgotten or altered by whatever happens later: a key keeps
    its fingerprint and its transaction, a transaction its merchant, amount and currency;
    the cached response and the transaction of a completed key never change again. *)
Theorem records_are_final (sy sy' : system) :
  reachable sy -> rtc step sy sy' -> evolves (committed (sy_pg sy)) (committed (sy_pg sy')).
Proof.
  intros [γ Hinv]%reachable_inv Hr. revert γ Hinv. induction Hr as [sy|sy sy1 sy2 Hs _ IH];
    intros γ Hinv; [reflexivity|].
  destruct (inv_step _ _ _ Hinv Hs) as (γ' & Hinv' & _).
  etransitivity; [by eapply step_evolves | by eapply IH].
Qed.

(** C16.  A restart is safe: once all live requests are gone, a key left in progress is
    never touched again by any later request (retries are answered from the record),
    and the network is not asked for its transaction if it had not been asked before;
    only an operator can resolve it. *)
Theorem interrupted_requests_are_never_resumed (sy sy' : system) key rec :
  reachable sy -> sy_threads sy = ∅ ->
  idempotency_records (committed (sy_pg sy)) !! key = Some rec -> rtc step sy sy' ->
  idempotency_records (committed (sy_pg sy')) !! key = Some rec
  /\ (Some (JStr (i_transaction_id rec)) ∈ ids (sy_posts sy') ->
      Some (JStr (i_transaction_id rec)) ∈ ids (sy_posts sy)).
Proof.
  intros [γ Hinv]%reachable_inv He Hk Hr. apply (orphaned_steps sy γ); [|done..].
  split; [done|]. intros i t. rewrite (inv_absent _ _ Hinv); [done|]. by rewrite He, lookup_empty.
Qed.

(** ** Concrete executions *)

Definition sample_submission : submission := MkSubmission sample_adapter sample_command sample_raw_key.
Definition retried_submission : submission := MkSubmission sample_adapter sample_retry sample_raw_key.

(** Two concurrent requests with the same key, step by step in turn, to their end. *)
Definition race : list event :=
  [Arrive 0 sample_submission; Arrive 1 retried_submission]
  ++ concat (replicate 30 [Next 0 approval; Next 1 approval]).
Definition raced : system := follow initial race.

(** A request that is lost after it has contacted the network. *)
Definition interrupted : system :=
  follow initial ([Arrive 0 sample_submission] ++ replicate 6 (Next 0 approval) ++ [Lose 0]).

(** The state of the race in which the first request holds both locks. *)
Definition contended : system := follow initial (take 10 race).

Lemma race_facts :
  length (sy_posts raced) = 1%nat
  /\ (i_processing_status <$> idempotency_records (committed (sy_pg raced)) !! sample_key_hash)
     = Some (py "COMPLETED").
Proof. vm_compute. done. Qed.

Lemma network_asked_at_most_once_witness :
  length (sy_posts raced) = 1%nat
  /\ (forall n m req req', sy_posts raced !! n = Some req -> sy_posts raced !! m = Some req' ->
        posted_id req = posted_id req' -> n = m)
  /\ (forall req, req ∈ sy_posts raced ->
      exists tid key rec, posted_id req = Some (JStr tid)
        /\ idempotency_records (committed (sy_pg raced)) !! key = Some rec /\ i_transaction_id rec = tid
        /\ forall key' rec', idempotency_records (committed (sy_pg raced)) !! key' = Some rec' ->
             i_transaction_id rec' = tid -> key' = key).
Proof.
  split; [apply race_facts|]. exact (network_asked_at_most_once raced (follow_reachable race)).
Defined.

Lemma tables_stay_coherent_witness :
  db_ok (committed (sy_pg raced)) /\ coherent (committed (sy_pg raced)).
Proof. exact (tables_stay_coherent raced (follow_reachable race)). Defined.

Lemma records_are_final_witness :
  evolves (committed (sy_pg contended)) (committed (sy_pg (follow contended (drop 10 race)))).
Proof.
  exact (records_are_final contended (follow contended (drop 10 race)) (follow_reachable (take 10 race))
           (follow_steps contended (drop 10 race))).
Defined.

(** The record of the interrupted request. *)
Definition interrupted_record : idempotency_row :=
  reserved_idempotency sample_key_hash sample_request_fingerprint (py "txn_1").

Lemma interrupted_idle : sy_threads interrupted = ∅.
Proof. vm_compute. reflexivity. Qed.
Lemma interrupted_recorded :
  idempotency_records (committed (sy_pg interrupted)) !! sample_key_hash = Some interrupted_record.
Proof. vm_compute. reflexivity. Qed.

Lemma interrupted_requests_are_never_resumed_witness :
  let sy' := follow interrupted ([Arrive 1 retried_submission]
                                   ++ replicate 10 (Next 1 approval)) in
  idempotency_records (committed (sy_pg sy')) !! sample_key_hash = Some interrupted_record
  /\ (Some (JStr (py "txn_1")) ∈ ids (sy_posts sy') -> Some (JStr (py "txn_1")) ∈ ids (sy_posts interrupted)).
Proof.
  exact (interrupted_requests_are_never_resumed interrupted
           (follow interrupted ([Arrive 1 retried_submission] ++ replicate 10 (Next 1 approval)))
           sample_key_hash interrupted_record
           (follow_reachable ([Arrive 0 sample_submission] ++ replicate 6 (Next 0 approval)
                                ++ [Lose 0]))
           interrupted_idle interrupted_recorded
           (follow_steps interrupted ([Arrive 1 retried_submission]
                                        ++ replicate 10 (Next 1 approval)))).
Defined.
