(* ===== verification/Requests.v ===== *)
(** The request models of the transaction API (api/schemas.py) and of the emulator
    (emulator/schemas.py): their field validators, and what pydantic makes of them. *)
From S2P Require Import Prelude PyStr Json Ports Effects Adapter Authorize Problem.

Open Scope Z_scope.

(** * Field validators *)

(** A validator returns the value or raises [ValueError] with a message. *)
Abbreviation checked A := (res pystr A).

(** [validate_stripped_nonblank_string], of both models. *)
Definition validate_stripped_nonblank_string (field_name : pystr) (v : json) : checked pystr :=
  match v with
  | JStr s =>
      let stripped := strip s in
      if str_eqb stripped [] then Raise (field_name ++ py " must not be blank")
      else if (128 <? length stripped)%nat then Raise (field_name ++ py " must not exceed 128 characters")
      else Ok stripped
  | _ => Raise (field_name ++ py " must be a string")
  end.

Definition validate_payment_token (v : json) : checked pystr :=
  match v with
  | JStr s =>
      let stripped := strip s in
      if str_eqb stripped [] then Raise (py "payment_token must not be blank")
      else if (128 <? length stripped)%nat then Raise (py "payment_token must not exceed 128 characters")
      else if negb (startswith stripped (py "tok_test_"))
      then Raise (py "payment_token must be a synthetic test token starting with tok_test_")
      else Ok stripped
  | _ => Raise (py "payment_token must be a string")
  end.

Definition CURRENCY_FORMAT_REGEX (s : pystr) : bool := re_match_class is_upper_ascii 3 3 s.

(** Runs after the declared type [str] was checked. *)
Definition validate_currency_format (v : pystr) : checked pystr :=
  if CURRENCY_FORMAT_REGEX v then Ok v
  else Raise (py "currency must be exactly three uppercase ASCII letters (ISO 4217 format)").

(** [bool] is a subclass of [int]. *)
Definition validate_amount (v : json) : checked Z :=
  match v with
  | JInt z => if z <=? 0 then Raise (py "amount must be greater than zero") else Ok z
  | _ => Raise (py "amount must be an integer")
  end.

(** * The models *)

Record CreateTransactionRequest : Type := MkCreateTransactionRequest {
  rq_transaction_id : pystr;
  rq_merchant_id : pystr;
  rq_payment_token : pystr;
  rq_amount : Z;
  rq_currency : pystr
}.

Record AuthorizationRequest : Type := MkAuthorizationRequest {
  az_request_id : pystr;
  az_merchant_id : pystr;
  az_payment_token : pystr;
  az_amount : Z;
  az_currency : pystr
}.

(** One entry of [ValidationError.errors()]; a part of a location is a name or an index. *)
Inductive loc_part : Type := LocName (s : pystr) | LocIndex (i : Z).

Record validation_error : Type := MkValidationError {
  ve_type : pystr;
  ve_loc : list loc_part;
  ve_msg : option pystr
}.

(** What a field declares: the raw value goes through the [before] validator, the type
    check and the [after] validator; errors carry pydantic's type and message. *)
Definition value_error (m : pystr) : pystr * pystr := (py "value_error", py "Value error, " ++ m).

Definition before {A} (validator : json -> checked A) (v : json) : res (pystr * pystr) A :=
  match validator v with Ok a => Ok a | Raise m => Raise (value_error m) end.

Definition after_str {A} (validator : pystr -> checked A) (v : json) : res (pystr * pystr) A :=
  match v with
  | JStr s => match validator s with Ok a => Ok a | Raise m => Raise (value_error m) end
  | _ => Raise (py "string_type", py "Input should be a valid string")
  end.

Definition transaction_id_field := before (validate_stripped_nonblank_string (py "transaction_id")).
Definition request_id_field := before (validate_stripped_nonblank_string (py "request_id")).
Definition merchant_id_field := before (validate_stripped_nonblank_string (py "merchant_id")).
Definition payment_token_field := before validate_payment_token.
Definition emulator_token_field := before (validate_stripped_nonblank_string (py "payment_token")).
Definition amount_field := before validate_amount.
Definition currency_field := after_str validate_currency_format.

Definition request_fields : list pystr :=
  [py "transaction_id"; py "merchant_id"; py "payment_token"; py "amount"; py "currency"].
Definition authorization_fields : list pystr :=
  [py "request_id"; py "merchant_id"; py "payment_token"; py "amount"; py "currency"].

(** The value of a field of the body. *)
Definition field_is {A} (fields : list (pystr * json)) (name : pystr)
    (check : json -> res (pystr * pystr) A) (a : A) : Prop :=
  exists v, dict_get name fields = Some v /\ check v = Ok a.

(** [extra="forbid"]. *)
Definition no_extra (names : list pystr) (fields : list (pystr * json)) : Prop :=
  Forall (fun kv => fst kv ∈ names) fields.

(** The bodies a model accepts, and the instance it builds. *)
Definition CreateTransactionRequest_accepts (body : json) (r : CreateTransactionRequest) : Prop :=
  exists fields, body = JObj fields /\ no_extra request_fields fields
    /\ field_is fields (py "transaction_id") transaction_id_field (rq_transaction_id r)
    /\ field_is fields (py "merchant_id") merchant_id_field (rq_merchant_id r)
    /\ field_is fields (py "payment_token") payment_token_field (rq_payment_token r)
    /\ field_is fields (py "amount") amount_field (rq_amount r)
    /\ field_is fields (py "currency") currency_field (rq_currency r).

Definition AuthorizationRequest_accepts (body : json) (r : AuthorizationRequest) : Prop :=
  exists fields, body = JObj fields /\ no_extra authorization_fields fields
    /\ field_is fields (py "request_id") request_id_field (az_request_id r)
    /\ field_is fields (py "merchant_id") merchant_id_field (az_merchant_id r)
    /\ field_is fields (py "payment_token") emulator_token_field (az_payment_token r)
    /\ field_is fields (py "amount") amount_field (az_amount r)
    /\ field_is fields (py "currency") currency_field (az_currency r).

(** * Pydantic *)

(** The errors pydantic documents for these models: the body is not an object, a field
    is missing, a field is not declared, or a field is refused. *)
Inductive body_error (names : list pystr) (refuses : pystr -> json -> option (pystr * pystr))
    (body : json) : validation_error -> Prop :=
| body_not_object :
    (forall fields, body <> JObj fields) ->
    body_error names refuses body
      (MkValidationError (py "model_attributes_type") [LocName (py "body")]
         (Some (py "Input should be a valid dictionary or object to extract fields from")))
| field_missing fields name :
    body = JObj fields -> name ∈ names -> dict_get name fields = None ->
    body_error names refuses body
      (MkValidationError (py "missing") [LocName (py "body"); LocName name] (Some (py "Field required")))
| field_extra fields name :
    body = JObj fields -> name ∈ fields.*1 -> ~ (name ∈ names) ->
    body_error names refuses body
      (MkValidationError (py "extra_forbidden") [LocName (py "body"); LocName name]
         (Some (py "Extra inputs are not permitted")))
| field_refused fields name v ty msg :
    body = JObj fields -> name ∈ names -> dict_get name fields = Some v -> refuses name v = Some (ty, msg) ->
    body_error names refuses body
      (MkValidationError ty [LocName (py "body"); LocName name] (Some msg)).

(** What the library promises for a model: it builds the instance of an accepted body,
    and otherwise reports at least one of the documented errors. *)
Class Pydantic {A} (accepts : json -> A -> Prop) (names : list pystr)
    (refuses : pystr -> json -> option (pystr * pystr)) : Type := {
  model_validate : json -> res (list validation_error) A;
  model_validate_ok : forall body a, model_validate body = Ok a <-> accepts body a;
  model_validate_errors : forall body errors, model_validate body = Raise errors ->
    errors <> [] /\ Forall (body_error names refuses body) errors
}.

Definition refusal {A} (r : res (pystr * pystr) A) : option (pystr * pystr) :=
  match r with Ok _ => None | Raise e => Some e end.

Definition request_refuses (name : pystr) (v : json) : option (pystr * pystr) :=
  if str_eqb name (py "transaction_id") then refusal (transaction_id_field v)
  else if str_eqb name (py "merchant_id") then refusal (merchant_id_field v)
  else if str_eqb name (py "payment_token") then refusal (payment_token_field v)
  else if str_eqb name (py "amount") then refusal (amount_field v)
  else if str_eqb name (py "currency") then refusal (currency_field v)
  else None.

Definition authorization_refuses (name : pystr) (v : json) : option (pystr * pystr) :=
  if str_eqb name (py "request_id") then refusal (request_id_field v)
  else if str_eqb name (py "merchant_id") then refusal (merchant_id_field v)
  else if str_eqb name (py "payment_token") then refusal (emulator_token_field v)
  else if str_eqb name (py "amount") then refusal (amount_field v)
  else if str_eqb name (py "currency") then refusal (currency_field v)
  else None.

(** * What the validators guarantee *)

(** A name field of an accepted request. *)
Definition name_ok (s : pystr) : Prop := trimmed s /\ s <> [] /\ (length s <= 128)%nat.

Lemma stripped_nonblank_ok f v s :
  validate_stripped_nonblank_string f v = Ok s <->
  exists t, v = JStr t /\ s = strip t /\ s <> [] /\ (length s <= 128)%nat.
Proof.
  unfold validate_stripped_nonblank_string.
  destruct v as [| | | |t| |]; try (split; [discriminate | by intros (? & [=] & _)]).
  destruct (str_eqb (strip t) []) eqn:E.
  { apply str_eqb_eq in E. split; [discriminate|]. intros (? & [= <-] & -> & H & _). by rewrite E in H. }
  destruct (Nat.ltb_spec 128 (length (strip t))) as [Hl|Hl].
  { split; [discriminate|]. intros (? & [= <-] & -> & _ & H). lia. }
  split.
  - intros H%Ok_inj. subst s. exists t. split_and!; [done..| |lia].
    intros Hn. apply not_true_iff_false in E. apply E. by apply str_eqb_eq.
  - intros (? & [= <-] & -> & _). done.
Qed.

Lemma name_ok_strip t : strip t <> [] -> (length (strip t) <= 128)%nat -> name_ok (strip t).
Proof. intros H1 H2. split_and!; [apply strip_trimmed | done..]. Qed.

(** An accepted name is accepted as it is. *)
Lemma stripped_nonblank_again f s : name_ok s -> validate_stripped_nonblank_string f (JStr s) = Ok s.
Proof.
  intros (Ht & Hn & Hl). apply stripped_nonblank_ok. exists s. by rewrite strip_id.
Qed.

Lemma payment_token_ok v s :
  validate_payment_token v = Ok s ->
  name_ok s /\ startswith s (py "tok_test_") = true.
Proof.
  unfold validate_payment_token. destruct v as [| | | |t| |]; try discriminate.
  destruct (str_eqb (strip t) []) eqn:E; [discriminate|].
  destruct (Nat.ltb_spec 128 (length (strip t))) as [Hl|Hl]; [discriminate|].
  destruct (startswith (strip t) _) eqn:Ep; [|discriminate]. intros H%Ok_inj. subst s.
  split; [|done]. apply name_ok_strip; [|lia].
  intros Hn. apply not_true_iff_false in E. apply E. by apply str_eqb_eq.
Qed.

Lemma payment_token_again s :
  name_ok s -> startswith s (py "tok_test_") = true -> validate_payment_token (JStr s) = Ok s.
Proof.
  intros (Ht & Hn & Hl) Hp. unfold validate_payment_token. rewrite strip_id by done.
  destruct (str_eqb s []) eqn:E; [by apply str_eqb_eq in E|].
  destruct (Nat.ltb_spec 128 (length s)); [lia|]. by rewrite Hp.
Qed.

Lemma before_ok {A} (validator : json -> checked A) v a : before validator v = Ok a <-> validator v = Ok a.
Proof. unfold before. destruct (validator v) as [a'|m]; split; congruence. Qed.

Lemma amount_ok v z : validate_amount v = Ok z <-> v = JInt z /\ 0 < z.
Proof.
  unfold validate_amount. destruct v; try (split; [discriminate | by intros [[=] _]]).
  destruct (Z.leb_spec z0 0) as [H|H].
  - split; [discriminate|]. intros [[= <-] ?]. lia.
  - split; [intros Hz%Ok_inj; by subst | by intros [[= <-] _]].
Qed.

Lemma currency_ok v s : currency_field v = Ok s <-> v = JStr s /\ CURRENCY_FORMAT_REGEX s = true.
Proof.
  unfold currency_field, after_str, validate_currency_format.
  destruct v as [| | | |t| |]; try (split; [discriminate | by intros [[=] _]]).
  destruct (CURRENCY_FORMAT_REGEX t) eqn:E.
  - split; [intros H%Ok_inj; by subst | by intros [[= <-] _]].
  - split; [discriminate | intros [[= <-] H]; congruence].
Qed.

(** A request as the model leaves it. *)
Record request_ok (r : CreateTransactionRequest) : Prop := MkRequestOk {
  rqo_transaction_id : name_ok (rq_transaction_id r);
  rqo_merchant_id : name_ok (rq_merchant_id r);
  rqo_payment_token : name_ok (rq_payment_token r);
  rqo_prefix : startswith (rq_payment_token r) (py "tok_test_") = true;
  rqo_amount : 0 < rq_amount r;
  rqo_currency : CURRENCY_FORMAT_REGEX (rq_currency r) = true
}.

Lemma field_name_ok fields name f s :
  field_is fields name (before (validate_stripped_nonblank_string f)) s -> name_ok s.
Proof.
  intros (v & _ & H). apply before_ok, stripped_nonblank_ok in H as (t & _ & -> & H1 & H2).
  by apply name_ok_strip.
Qed.

Lemma accepted_request_ok body r : CreateTransactionRequest_accepts body r -> request_ok r.
Proof.
  intros (fields & _ & _ & Ht & Hm & (v & _ & Hp) & (w & _ & Ha) & (x & _ & Hc)).
  apply before_ok, payment_token_ok in Hp as [Hp Hpre]. apply before_ok, amount_ok in Ha as [_ Ha].
  apply currency_ok in Hc as [_ Hc].
  by split; [eapply field_name_ok|eapply field_name_ok|..].
Qed.

(** The fields of an instance as a body. *)
Definition request_json (r : CreateTransactionRequest) : json :=
  JObj [(py "transaction_id", JStr (rq_transaction_id r)); (py "merchant_id", JStr (rq_merchant_id r));
        (py "payment_token", JStr (rq_payment_token r)); (py "amount", JInt (rq_amount r));
        (py "currency", JStr (rq_currency r))].

Lemma no_extra_eval names fields :
  forallb (fun kv => bool_decide (fst kv ∈ names)) fields = true -> no_extra names fields.
Proof.
  rewrite forallb_Forall_iff. unfold no_extra. intros H. eapply Forall_impl; [exact H|].
  intros kv. apply bool_decide_eq_true.
Qed.

Lemma request_json_accepted r : request_ok r -> CreateTransactionRequest_accepts (request_json r) r.
Proof.
  intros [H1 H2 H3 H4 H5 H6]. eexists. split; [reflexivity|].
  split; [apply no_extra_eval; vm_compute; reflexivity|].
  split_and!; eexists; (split; [reflexivity|]).
  - by apply before_ok, stripped_nonblank_again.
  - by apply before_ok, stripped_nonblank_again.
  - by apply before_ok, payment_token_again.
  - by apply before_ok, amount_ok.
  - by apply currency_ok.
Qed.

(** ** A reference implementation *)

(** Every check of a model at once, in the order of the fields and then of the extra keys. *)
Definition field_errors (names : list pystr) (refuses : pystr -> json -> option (pystr * pystr))
    (fields : list (pystr * json)) : list validation_error :=
  (names ≫= fun name =>
     match dict_get name fields with
     | None => [MkValidationError (py "missing") [LocName (py "body"); LocName name]
                  (Some (py "Field required"))]
     | Some v =>
         match refuses name v with
         | None => []
         | Some (ty, msg) =>
             [MkValidationError ty [LocName (py "body"); LocName name] (Some msg)]
         end
     end)
  ++ (fields ≫= fun kv =>
        if bool_decide (fst kv ∈ names) then []
        else [MkValidationError (py "extra_forbidden") [LocName (py "body"); LocName (fst kv)]
                (Some (py "Extra inputs are not permitted"))]).

Lemma field_errors_documented names refuses fields :
  Forall (body_error names refuses (JObj fields)) (field_errors names refuses fields).
Proof.
  apply Forall_app. split; apply Forall_forall; intros e (x & He & Hx)%list_elem_of_bind.
  - destruct (dict_get x fields) as [v|] eqn:Hg.
    + destruct (refuses x v) as [[ty msg]|] eqn:Hr; [|by apply elem_of_nil in He].
      apply list_elem_of_singleton in He. subst e. by eapply field_refused.
    + apply list_elem_of_singleton in He. subst e. by eapply field_missing.
  - case_bool_decide as Hn; [by apply elem_of_nil in He|].
    apply list_elem_of_singleton in He. subst e. eapply field_extra; [done| |done].
    by apply list_elem_of_fmap_2.
Qed.

Lemma bind_nil_inv {A B} (f : A -> list B) l : l ≫= f = [] -> forall x, x ∈ l -> f x = [].
Proof.
  intros H x Hx. destruct (f x) as [|b bs] eqn:E; [done|]. exfalso.
  assert (b ∈ l ≫= f) as Hb. { apply list_elem_of_bind. exists x. rewrite E. split; [by left | done]. }
  rewrite H in Hb. by apply elem_of_nil in Hb.
Qed.

Lemma field_errors_nil names refuses fields :
  field_errors names refuses fields = [] ->
  no_extra names fields
  /\ forall name, name ∈ names -> exists v, dict_get name fields = Some v /\ refuses name v = None.
Proof.
  intros [H1 H2]%app_nil. split.
  - apply Forall_forall. intros kv Hkv. pose proof (bind_nil_inv _ _ H2 kv Hkv) as Hb.
    cbn beta in Hb. by case_bool_decide.
  - intros name Hn. pose proof (bind_nil_inv _ _ H1 name Hn) as Hb. cbn beta in Hb.
    destruct (dict_get name fields) as [v|]; [|done]. exists v. split; [done|].
    by destruct (refuses name v) as [[]|].
Qed.

Lemma bind_nil {A B} (f : A -> list B) l : (forall x, x ∈ l -> f x = []) -> l ≫= f = [].
Proof.
  induction l as [|x l IH]; intros H; [done|]. rewrite bind_cons, H by left.
  apply IH. intros y Hy. apply H. by right.
Qed.

(** A body has no errors when every declared field has a value that is not refused. *)
Lemma field_errors_none names refuses fields :
  no_extra names fields ->
  (forall name, name ∈ names -> exists v, dict_get name fields = Some v /\ refuses name v = None) ->
  field_errors names refuses fields = [].
Proof.
  intros Hx Hf. unfold field_errors. rewrite bind_nil, bind_nil; [done| |].
  - intros kv Hkv. unfold no_extra in Hx. rewrite Forall_forall in Hx.
    by rewrite bool_decide_true by (by apply Hx).
  - intros name (v & -> & ->)%Hf. done.
Qed.

Lemma refusal_none {A} (r : res (pystr * pystr) A) : refusal r = None -> exists a, r = Ok a.
Proof. destruct r as [a|e]; [by exists a | done]. Qed.

Lemma field_is_fun {A} fields name (check : json -> res (pystr * pystr) A) a b :
  field_is fields name check a -> field_is fields name check b -> a = b.
Proof. intros (v & Hv & Ha) (w & Hw & Hb). congruence. Qed.

Lemma field_is_kept {A} fields name (check : json -> res (pystr * pystr) A) a :
  field_is fields name check a ->
  exists v, dict_get name fields = Some v /\ refusal (check v) = None.
Proof. intros (v & Hg & Hc). exists v. by rewrite Hc. Qed.

(** A model whose instance [build] reads off a body without errors. *)
Section reference_model.
Context {A : Type} (accepts : json -> A -> Prop) (names : list pystr)
  (refuses : pystr -> json -> option (pystr * pystr)) (build : list (pystr * json) -> option A).

Definition validate_model (body : json) : res (list validation_error) A :=
  match body with
  | JObj fields =>
      match field_errors names refuses fields with
      | [] => match build fields with Some a => Ok a | None => Raise [] end
      | errors => Raise errors
      end
  | _ => Raise [MkValidationError (py "model_attributes_type") [LocName (py "body")]
                  (Some (py "Input should be a valid dictionary or object to extract fields from"))]
  end.

Hypothesis accepts_clean : forall body a, accepts body a ->
  exists fields, body = JObj fields /\ field_errors names refuses fields = [].
Hypothesis clean_accepts : forall fields, field_errors names refuses fields = [] ->
  exists a, accepts (JObj fields) a /\ build fields = Some a.
Hypothesis accepts_fun : forall body a b, accepts body a -> accepts body b -> a = b.

Lemma validate_model_ok body a : validate_model body = Ok a <-> accepts body a.
Proof.
  split.
  - intros H. destruct body as [| | | | | |fields]; try discriminate. cbn [validate_model] in H.
    destruct (field_errors names refuses fields) as [|e es] eqn:He; [|discriminate].
    destruct (clean_accepts _ He) as (b & Hb & Hbuild). rewrite Hbuild in H.
    apply Ok_inj in H. by subst.
  - intros Ha. destruct (accepts_clean _ _ Ha) as (fields & -> & He). cbn [validate_model].
    rewrite He. destruct (clean_accepts _ He) as (b & Hb & ->). by rewrite (accepts_fun _ _ _ Ha Hb).
Qed.

Lemma validate_model_errors body errors :
  validate_model body = Raise errors -> errors <> [] /\ Forall (body_error names refuses body) errors.
Proof.
  destruct body as [| | | | | |fields]; cbn [validate_model]; intros H;
    try (injection H as <-; split; [discriminate|]; constructor; [by apply body_not_object | done]).
  destruct (field_errors names refuses fields) as [|e es] eqn:He.
  - destruct (clean_accepts _ He) as (b & _ & Hb). rewrite Hb in H. discriminate.
  - injection H as <-. split; [discriminate|]. rewrite <- He. apply field_errors_documented.
Qed.

Definition model_pydantic : Pydantic accepts names refuses := {|
  model_validate := validate_model;
  model_validate_ok := validate_model_ok;
  model_validate_errors := validate_model_errors
|}.
End reference_model.

(** The checked value of a field. *)
Definition checked_field {A} (fields : list (pystr * json)) (name : pystr)
    (check : json -> res (pystr * pystr) A) : option A :=
  v ← dict_get name fields; match check v with Ok a => Some a | Raise _ => None end.

(** The field of a body without errors. *)
Lemma clean_field {A} names refuses fields name (check : json -> res (pystr * pystr) A) :
  field_errors names refuses fields = [] -> name ∈ names ->
  (forall v, refuses name v = refusal (check v)) ->
  exists a, field_is fields name check a /\ checked_field fields name check = Some a.
Proof.
  intros [_ Hf]%field_errors_nil Hn Hr. destruct (Hf name Hn) as (v & Hg & Hv).
  rewrite Hr in Hv. apply refusal_none in Hv as [a Ha]. exists a. split; [by exists v|].
  unfold checked_field. rewrite Hg. cbn. by rewrite Ha.
Qed.

(** Solves the case of each declared field from the facts about the accepted fields. *)
Ltac declared_fields Hn :=
  repeat (apply elem_of_cons in Hn as [->|Hn]); [..|by apply elem_of_nil in Hn];
  match goal with
  | H : field_is _ ?n _ _ |- context [dict_get ?n _] => exact (field_is_kept _ _ _ _ H)
  end.

(** *** CreateTransactionRequest *)

Definition build_request (fields : list (pystr * json)) : option CreateTransactionRequest :=
  t ← checked_field fields (py "transaction_id") transaction_id_field;
  m ← checked_field fields (py "merchant_id") merchant_id_field;
  p ← checked_field fields (py "payment_token") payment_token_field;
  a ← checked_field fields (py "amount") amount_field;
  c ← checked_field fields (py "currency") currency_field;
  Some (MkCreateTransactionRequest t m p a c).

Definition validate_request : json -> res (list validation_error) CreateTransactionRequest :=
  validate_model request_fields request_refuses build_request.

Lemma clean_request fields :
  field_errors request_fields request_refuses fields = [] ->
  exists r, CreateTransactionRequest_accepts (JObj fields) r /\ build_request fields = Some r.
Proof.
  intros He. pose proof (field_errors_nil _ _ _ He) as [Hx _].
  destruct (clean_field _ _ _ (py "transaction_id") transaction_id_field He) as (t & H1 & G1); [evaluate|done|].
  destruct (clean_field _ _ _ (py "merchant_id") merchant_id_field He) as (m & H2 & G2); [evaluate|done|].
  destruct (clean_field _ _ _ (py "payment_token") payment_token_field He) as (p & H3 & G3); [evaluate|done|].
  destruct (clean_field _ _ _ (py "amount") amount_field He) as (a & H4 & G4); [evaluate|done|].
  destruct (clean_field _ _ _ (py "currency") currency_field He) as (c & H5 & G5); [evaluate|done|].
  exists (MkCreateTransactionRequest t m p a c). split; [by exists fields|].
  unfold build_request. rewrite G1, G2, G3, G4, G5. reflexivity.
Qed.

Lemma accepts_fun body r r' :
  CreateTransactionRequest_accepts body r -> CreateTransactionRequest_accepts body r' -> r = r'.
Proof.
  intros (fields & -> & _ & H1 & H2 & H3 & H4 & H5) (? & [= <-] & _ & G1 & G2 & G3 & G4 & G5).
  destruct r, r'. cbn in *. f_equal; by eapply field_is_fun.
Qed.

Lemma accepted_no_errors body r :
  CreateTransactionRequest_accepts body r ->
  exists fields, body = JObj fields /\ field_errors request_fields request_refuses fields = [].
Proof.
  intros (fields & -> & Hx & H1 & H2 & H3 & H4 & H5). exists fields. split; [done|].
  apply field_errors_none; [done|]. intros name Hn. declared_fields Hn.
Qed.

#[export] Instance reference_pydantic :
  Pydantic CreateTransactionRequest_accepts request_fields request_refuses :=
  model_pydantic _ _ _ build_request accepted_no_errors clean_request accepts_fun.

(** *** AuthorizationRequest *)

Definition build_authorization (fields : list (pystr * json)) : option AuthorizationRequest :=
  t ← checked_field fields (py "request_id") request_id_field;
  m ← checked_field fields (py "merchant_id") merchant_id_field;
  p ← checked_field fields (py "payment_token") emulator_token_field;
  a ← checked_field fields (py "amount") amount_field;
  c ← checked_field fields (py "currency") currency_field;
  Some (MkAuthorizationRequest t m p a c).

Definition validate_authorization : json -> res (list validation_error) AuthorizationRequest :=
  validate_model authorization_fields authorization_refuses build_authorization.

Lemma clean_authorization fields :
  field_errors authorization_fields authorization_refuses fields = [] ->
  exists r, AuthorizationRequest_accepts (JObj fields) r /\ build_authorization fields = Some r.
Proof.
  intros He. pose proof (field_errors_nil _ _ _ He) as [Hx _].
  destruct (clean_field _ _ _ (py "request_id") request_id_field He) as (t & H1 & G1); [evaluate|done|].
  destruct (clean_field _ _ _ (py "merchant_id") merchant_id_field He) as (m & H2 & G2); [evaluate|done|].
  destruct (clean_field _ _ _ (py "payment_token") emulator_token_field He) as (p & H3 & G3); [evaluate|done|].
  destruct (clean_field _ _ _ (py "amount") amount_field He) as (a & H4 & G4); [evaluate|done|].
  destruct (clean_field _ _ _ (py "currency") currency_field He) as (c & H5 & G5); [evaluate|done|].
  exists (MkAuthorizationRequest t m p a c). split; [by exists fields|].
  unfold build_authorization. rewrite G1, G2, G3, G4, G5. reflexivity.
Qed.

Lemma authorization_accepts_fun body r r' :
  AuthorizationRequest_accepts body r -> AuthorizationRequest_accepts body r' -> r = r'.
Proof.
  intros (fields & -> & _ & H1 & H2 & H3 & H4 & H5) (? & [= <-] & _ & G1 & G2 & G3 & G4 & G5).
  destruct r, r'. cbn in *. f_equal; by eapply field_is_fun.
Qed.

Lemma accepted_authorization_no_errors body r :
  AuthorizationRequest_accepts body r ->
  exists fields, body = JObj fields
    /\ field_errors authorization_fields authorization_refuses fields = [].
Proof.
  intros (fields & -> & Hx & H1 & H2 & H3 & H4 & H5). exists fields. split; [done|].
  apply field_errors_none; [done|]. intros name Hn. declared_fields Hn.
Qed.

#[export] Instance reference_authorization_pydantic :
  Pydantic AuthorizationRequest_accepts authorization_fields authorization_refuses :=
  model_pydantic _ _ _ build_authorization accepted_authorization_no_errors clean_authorization
    authorization_accepts_fun.

(** ** The request of the platform at the emulator *)

(** The request as the emulator's model reads it. *)
Definition emulator_request (r : CreateTransactionRequest) : AuthorizationRequest :=
  MkAuthorizationRequest (rq_transaction_id r) (rq_merchant_id r) (rq_payment_token r)
    (rq_amount r) (rq_currency r).

Lemma posted_request_accepted (r : CreateTransactionRequest) adapter correlation_id :
  request_ok r ->
  AuthorizationRequest_accepts
    (JObj (hr_json (authorization_post adapter
       (MkPaymentRequest (rq_transaction_id r) (rq_merchant_id r) (rq_payment_token r)
          (rq_amount r) (rq_currency r) correlation_id))))
    (emulator_request r).
Proof.
  intros [H1 H2 H3 H4 H5 H6].
  eexists. split; [reflexivity|]. split; [apply no_extra_eval; vm_compute; reflexivity|].
  split_and!; eexists; (split; [reflexivity|]).
  - by apply before_ok, stripped_nonblank_again.
  - by apply before_ok, stripped_nonblank_again.
  - by apply before_ok, stripped_nonblank_again.
  - by apply before_ok, amount_ok.
  - by apply currency_ok.
Qed.

(** * Properties *)

(** ** Bodies of accepted requests *)

Lemma dict_get_in name fields v : dict_get name fields = Some v -> name ∈ fields.*1.
Proof.
  induction fields as [|[k w] rest IH]; cbn [dict_get fmap list_fmap fst]; [done|].
  destruct (str_eqb k name) eqn:E; [|right; by apply IH].
  apply str_eqb_eq in E. subst k. left.
Qed.

Lemma stripped_before_ok f v s :
  before (validate_stripped_nonblank_string f) v = Ok s <->
  (exists t, v = JStr t /\ s = strip t) /\ name_ok s.
Proof.
  rewrite before_ok, stripped_nonblank_ok. split.
  - intros (t & -> & -> & Hn & Hl). split; [by exists t | by apply name_ok_strip].
  - intros [(t & -> & ->) (_ & Hn & Hl)]. by exists t.
Qed.

Lemma payment_token_field_ok v s :
  payment_token_field v = Ok s <->
  (exists t, v = JStr t /\ s = strip t) /\ name_ok s /\ startswith s (py "tok_test_") = true.
Proof.
  unfold payment_token_field. rewrite before_ok. split.
  - intros H. split; [|by apply payment_token_ok in H]. unfold validate_payment_token in H.
    destruct v as [| | | |t| |]; try discriminate. exists t. split; [done|].
    repeat case_match; try discriminate. by apply Ok_inj in H.
  - intros [(t & -> & ->) [Hn Hp]].
    pose proof (payment_token_again _ Hn Hp) as H. unfold validate_payment_token in *.
    by rewrite strip_id in H by apply Hn.
Qed.

(** What a body that the model accepts looks like, field by field. *)
Lemma accepted_exactly body r :
  CreateTransactionRequest_accepts body r <->
  request_ok r /\ exists fields t m p, body = JObj fields
    /\ (forall name, name ∈ fields.*1 <->
          name ∈ [py "transaction_id"; py "merchant_id"; py "payment_token"; py "amount"; py "currency"])
    /\ dict_get (py "transaction_id") fields = Some (JStr t) /\ rq_transaction_id r = strip t
    /\ dict_get (py "merchant_id") fields = Some (JStr m) /\ rq_merchant_id r = strip m
    /\ dict_get (py "payment_token") fields = Some (JStr p) /\ rq_payment_token r = strip p
    /\ dict_get (py "amount") fields = Some (JInt (rq_amount r))
    /\ dict_get (py "currency") fields = Some (JStr (rq_currency r)).
Proof.
  unfold CreateTransactionRequest_accepts, field_is. setoid_rewrite stripped_before_ok.
  setoid_rewrite payment_token_field_ok. setoid_rewrite before_ok.
  setoid_rewrite amount_ok. setoid_rewrite currency_ok. split.
  - intros (fields & -> & Hx & (? & Ht & (t & -> & ?) & ?) & (? & Hm & (m & -> & ?) & ?)
      & (? & Hp & (p & -> & ?) & ? & ?) & (? & Ha & -> & ?) & (? & Hc & -> & ?)).
    split; [by split|]. exists fields, t, m, p. split_and!; try done. intros name. split.
    + intros ([k v] & -> & Hin)%list_elem_of_fmap. unfold no_extra in Hx. rewrite Forall_forall in Hx.
      exact (Hx _ Hin).
    + rewrite !elem_of_cons. intros [->|[->|[->|[->|[->|[]%elem_of_nil]]]]]; by eapply dict_get_in.
  - intros ([] & fields & t & m & p & -> & Hn & ? & ? & ? & ? & ? & ? & ? & ?). exists fields.
    split; [done|]. split.
    { apply Forall_forall. intros [k v] Hin. apply Hn. apply list_elem_of_fmap. by exists (k, v). }
    split_and!; eexists; (split; [eassumption|]); split; eauto.
Qed.

(** C35.  A body is accepted by the model, as the instance [r], exactly when it is an object
    with the five declared fields and no other, whose name fields and token, trimmed, are
    those of [r] and whose amount and currency are those of [r]; there the trimmed texts
    are not blank and at most 128 characters long, the token is a synthetic one, the
    amount a positive integer (no boolean), and the currency three uppercase letters
    (optionally followed by a newline).  So no default stands in for a missing field, no
    card data field is ever accepted, and submitting the normalised request again gives
    the same instance. *)
Theorem request_model_sound `{Pydantic CreateTransactionRequest CreateTransactionRequest_accepts
    request_fields request_refuses} (body : json) (r : CreateTransactionRequest) :
  (model_validate body = Ok r <->
   request_ok r /\ exists fields t m p, body = JObj fields
     /\ (forall name, name ∈ fields.*1 <->
           name ∈ [py "transaction_id"; py "merchant_id"; py "payment_token"; py "amount"; py "currency"])
     /\ dict_get (py "transaction_id") fields = Some (JStr t) /\ rq_transaction_id r = strip t
     /\ dict_get (py "merchant_id") fields = Some (JStr m) /\ rq_merchant_id r = strip m
     /\ dict_get (py "payment_token") fields = Some (JStr p) /\ rq_payment_token r = strip p
     /\ dict_get (py "amount") fields = Some (JInt (rq_amount r))
     /\ dict_get (py "currency") fields = Some (JStr (rq_currency r)))
  /\ (model_validate body = Ok r ->
      (exists fields, body = JObj fields
         /\ Forall (fun kv => ~ (fst kv ∈ FORBIDDEN_SENSITIVE_FIELDS)) fields)
      /\ (exists letters, Forall (fun c => is_upper_ascii c = true) letters /\ length letters = 3%nat
            /\ (rq_currency r = letters \/ rq_currency r = letters ++ [10%N]))
      /\ model_validate (request_json r) = Ok r).
Proof.
  split; [by rewrite model_validate_ok, accepted_exactly|].
  intros Ha%model_validate_ok. pose proof (accepted_request_ok _ _ Ha) as Hr.
  split_and!; [| |by apply model_validate_ok, request_json_accepted].
  - destruct Ha as (fields & -> & Hx & _). exists fields. split; [done|].
    assert (Hsafe : Forall (fun n => n ∈ SAFE_SCHEMA_FIELDS) request_fields) by evaluate.
    rewrite Forall_forall in Hsafe. eapply Forall_impl; [exact Hx|]. intros kv Hin.
    by apply schema_field_not_sensitive, Hsafe.
  - pose proof (rqo_currency _ Hr) as (w & Hw & Hc)%re_match_class_spec.
    apply class_run_spec in Hw as [Hf Hl]. exists w. split_and!; [done | lia | done].
Qed.

(** C36.  What the platform sends, the emulator accepts: the payload that is posted for an
    accepted request passes the schema of the payment network unchanged. *)
Theorem emulator_accepts_platform_requests `{Pydantic CreateTransactionRequest
    CreateTransactionRequest_accepts request_fields request_refuses}
    `{em : Pydantic AuthorizationRequest AuthorizationRequest_accepts authorization_fields
        authorization_refuses} body (r : CreateTransactionRequest)
    (adapter : HttpPaymentNetworkAdapter) (correlation_id : pystr) :
  model_validate body = Ok r ->
  model_validate (Pydantic := em)
    (JObj (hr_json (authorization_post adapter
       (MkPaymentRequest (rq_transaction_id r) (rq_merchant_id r) (rq_payment_token r)
          (rq_amount r) (rq_currency r) correlation_id))))
  = Ok (emulator_request r).
Proof.
  intros Ha. apply model_validate_ok, posted_request_accepted.
  apply (accepted_request_ok body). by apply model_validate_ok.
Qed.

(** ** Concrete bodies *)

Definition sample_body : json :=
  JObj [(py "transaction_id", JStr (py " txn_1 ")); (py "merchant_id", JStr (py "merchant_1"));
        (py "payment_token", JStr (py "tok_test_approved")); (py "amount", JInt 2500);
        (py "currency", JStr (py "USD"))].
Definition sample_request : CreateTransactionRequest :=
  MkCreateTransactionRequest (py "txn_1") (py "merchant_1") (py "tok_test_approved") 2500 (py "USD").

Lemma request_model_sound_witness :
  validate_request sample_body = Ok sample_request
  /\ request_ok sample_request
  /\ (exists fields, sample_body = JObj fields
        /\ Forall (fun kv => ~ (fst kv ∈ FORBIDDEN_SENSITIVE_FIELDS)) fields)
  /\ validate_request (request_json sample_request) = Ok sample_request.
Proof.
  assert (Hv : validate_request sample_body = Ok sample_request) by (vm_compute; reflexivity).
  split; [exact Hv|].
  destruct (@request_model_sound reference_pydantic sample_body sample_request) as [Hiff Hrest].
  destruct (Hrest Hv) as (Hf & _ & Hagain).
  exact (conj (proj1 (proj1 Hiff Hv)) (conj Hf Hagain)).
Defined.

Lemma emulator_accepts_platform_requests_witness :
  validate_authorization
    (JObj (hr_json (authorization_post sample_adapter
       (MkPaymentRequest (py "txn_1") (py "merchant_1") (py "tok_test_approved") 2500 (py "USD")
          (py "corr_1")))))
  = Ok (MkAuthorizationRequest (py "txn_1") (py "merchant_1") (py "tok_test_approved") 2500 (py "USD")).
Proof.
  apply (@emulator_accepts_platform_requests reference_pydantic reference_authorization_pydantic
           sample_body sample_request sample_adapter (py "corr_1")).
  vm_compute. reflexivity.
Defined.
