(* ===== verification/Api.v ===== *)
(** The transaction API: exception handlers (api/errors.py), the route
    POST /v1/transactions with its dependencies, and the correlation middleware
    (api/app.py). *)
From S2P Require Import Prelude PyStr Sha256 Json Domain Ports Idempotency Schema Effects Adapter.
From S2P Require Import Authorize Problem Coordinator Ledger Orchestrator Protocol Coherence.
From S2P Require Import Requests JsonText Bodies.

Open Scope Z_scope.
Open Scope io_scope.

(** * Exception handlers *)

Definition rate_limit_exceeded_handler (exc : exn) : JSONResponse :=
  let retry_after :=
    match exc with DownstreamRateLimitExceededError _ retry_after => retry_after | _ => 1 end in
  build_problem_response 503 (py "urn:problem-type:provider-rate-limited")
    (py "Downstream rate limit exceeded")
    (py "Downstream payment network rate limit exceeded.") None
    (Some [(py "Retry-After", py_str_int retry_after)]).

Definition downstream_rejected_handler : JSONResponse :=
  build_problem_response 502 (py "urn:problem-type:downstream-rejected")
    (py "Payment network request rejected")
    (py "The payment network rejected the authorization request.") None None.

Definition missing_correlation_id_handler : JSONResponse :=
  build_problem_response 400 (py "urn:problem-type:missing-correlation-id")
    (py "Missing or invalid correlation ID")
    (py "The X-Correlation-ID header is required and must match pattern [A-Za-z0-9._:-]+ up to 128 characters without whitespace.")
    None None.

Definition missing_idempotency_key_handler : JSONResponse :=
  build_problem_response 400 (py "urn:problem-type:missing-idempotency-key")
    (py "Missing or invalid idempotency key")
    (py "The Idempotency-Key header is required and must match pattern [A-Za-z0-9._:-]+ up to 128 characters without whitespace.")
    None None.

Definition persistence_error_handler : JSONResponse :=
  build_problem_response 500 (py "urn:problem-type:internal-persistence-error")
    (py "Internal Server Error")
    (py "A persistence error occurred while processing the transaction.") None None.

(** [str(part)] of a location. *)
Definition loc_str (part : loc_part) : pystr :=
  match part with LocName s => s | LocIndex i => py_str_int i end.

(** [part != "body"]. *)
Definition not_body (part : loc_part) : bool :=
  match part with LocName s => negb (str_eqb s (py "body")) | LocIndex _ => true end.

Definition raw_field (loc : list loc_part) : pystr :=
  match List.filter not_body loc with
  | [] => py "body"
  | part :: _ => loc_str part
  end.

Definition clean_msg (raw_msg : pystr) : pystr :=
  let prefix := py "Value error, " in
  if startswith raw_msg prefix then drop (length prefix) raw_msg else raw_msg.

Definition invalid_parameter (err : validation_error) : InvalidParameter :=
  MkInvalidParameter (map_safe_field_name (raw_field (ve_loc err)))
    (clean_msg (default (py "Invalid value") (ve_msg err))).

(** [validation_exception_handler]; [None] is an exception of another class. *)
Definition validation_exception_handler (exc : option (list validation_error)) : JSONResponse :=
  match exc with
  | None =>
      build_problem_response 400 (py "urn:problem-type:malformed-request") (py "Malformed request")
        (py "The request could not be processed due to a formatting error.") None None
  | Some errors =>
      if existsb (fun err => str_eqb (ve_type err) (py "json_invalid")) errors
      then build_problem_response 400 (py "urn:problem-type:malformed-request")
             (py "Malformed JSON request")
             (py "The request body contains invalid JSON and could not be parsed.") None None
      else build_problem_response 422 (py "urn:problem-type:validation-error")
             (py "Validation error") (py "The request body failed schema validation.")
             (Some (invalid_parameter <$> errors)) None
  end.

(** * The route *)

(** What can go wrong before or in a route. *)
Inductive failure : Type :=
| FValidation (errors : list validation_error)
| FUnreadable           (* FastAPI's own HTTPException *)
| FExn (e : exn).

(** What FastAPI answers, as it documents for its [HTTPException], when the body cannot be
    read or decoding it raises anything but [JSONDecodeError]. *)
Definition unreadable_response : JSONResponse :=
  MkJSONResponse 400 {[ py "detail" := JStr (py "There was an error parsing the body") ]} []
    (Some (py "application/json")).

(** The handlers registered by [create_app], and FastAPI's own; [None]: the server's own
    response. *)
Definition registered_handler (f : failure) : option JSONResponse :=
  match f with
  | FExn MissingCorrelationIdError => Some missing_correlation_id_handler
  | FExn MissingIdempotencyKeyError => Some missing_idempotency_key_handler
  | FExn (DownstreamRateLimitExceededError t k) =>
      Some (rate_limit_exceeded_handler (DownstreamRateLimitExceededError t k))
  | FExn (DownstreamRejectedError _) => Some downstream_rejected_handler
  | FExn e => if is_PersistenceError e then Some persistence_error_handler else None
  | FValidation errors => Some (validation_exception_handler (Some errors))
  | FUnreadable => Some unreadable_response
  end.

(** Assignment to a dict of headers. *)
Definition set_header (name value : pystr) (headers : header_dict) : header_dict :=
  List.filter (fun kv => negb (str_eqb (fst kv) name)) headers ++ [(name, value)].

Section route.
Context `{IdempotencyCoordinatorPort, PaymentNetworkPort}.

Definition create_transaction (request : CreateTransactionRequest)
    (correlation_id idempotency_key : pystr) : io JSONResponse :=
  let command := MkCommand (rq_transaction_id request) (rq_merchant_id request)
                   (rq_payment_token request) (rq_amount request) (rq_currency request)
                   correlation_id in
  let! envelope := handle_authorization command idempotency_key in
  let response_headers := env_headers envelope in
  let response_headers :=
    if env_is_replay envelope then set_header (py "Idempotent-Replay") (py "true") response_headers
    else response_headers in
  io_ret (MkJSONResponse (env_status_code envelope) (env_body envelope) response_headers
            (env_media_type envelope)).
End route.

(** [correlation_id_middleware]; [raw_cid] is the header of the request. *)
Definition correlation_id_middleware (raw_cid : option pystr) (response : JSONResponse)
    : JSONResponse :=
  match raw_cid with
  | Some cid =>
      if negb (str_eqb cid []) && CORRELATION_ID_REGEX cid
      then MkJSONResponse (jr_status_code response) (jr_content response)
             (set_header (py "X-Correlation-ID") cid (jr_headers response)) (jr_media_type response)
      else response
  | None => response
  end.

(** * The framework *)

(** The body of a request as the framework sees it: none; of a content type other than
    JSON, when the model is given its bytes; not JSON, when [json.loads] raises
    [JSONDecodeError]; not to be read, when anything else is raised (the bytes are no text,
    the nesting is too deep, an integer is beyond the interpreter's limit, the client is
    gone); or decoded. *)
Inductive body_input : Type :=
| NoBody
| OtherType
| NotJson
| Unreadable
| Parsed (j : json).

(** The body of a JSON request, as its text is decoded; [too_much] tells which of the texts
    that do not decode raise something else than [JSONDecodeError]. *)
Definition received (too_much : pystr -> bool) (text : pystr) : body_input :=
  match text with
  | [] => NoBody
  | _ => match loads text with
         | Some j => Parsed j
         | None => if too_much text then Unreadable else NotJson
         end
  end.

(** The parts of a request that the route depends on. *)
Record inbound : Type := MkInbound {
  in_correlation_id : option pystr;
  in_idempotency_key : option pystr;
  in_body : body_input
}.

(** The errors of a body that does not give an instance of a model. *)
Definition refused_by (names : list pystr) (refuses : pystr -> json -> option (pystr * pystr))
    (b : body_input) (errors : list validation_error) : Prop :=
  errors <> [] /\
  match b with
  | NotJson => Exists (fun err => ve_type err = py "json_invalid") errors
  | NoBody => Forall (fun err => ve_loc err = [LocName (py "body")] /\ ve_type err = py "missing"
                                 /\ ve_msg err = Some (py "Field required")) errors
  | OtherType => Forall (body_error names refuses JNull) errors
  | Unreadable => False
  | Parsed j => Forall (body_error names refuses j) errors
  end.
Definition refused_body : body_input -> list validation_error -> Prop :=
  refused_by request_fields request_refuses.

(** What FastAPI promises of the parameters of the route: it is called exactly when the
    body is accepted by the model and both header dependencies return; otherwise one of
    the failures is raised, at once when the body cannot be read.  Bytes that are given to
    a model are refused like any value that is no object. *)
Class FastAPI : Type := {
  fa_resolve : inbound -> res failure (CreateTransactionRequest * pystr * pystr);
  fa_calls : forall req r cid key,
    fa_resolve req = Ok (r, cid, key) <->
    (exists j, in_body req = Parsed j /\ CreateTransactionRequest_accepts j r)
    /\ require_correlation_id (in_correlation_id req) = Ok cid
    /\ require_idempotency_key (in_idempotency_key req) = Ok key;
  fa_refuses : forall req f, fa_resolve req = Raise f ->
    (f = FExn MissingCorrelationIdError
     /\ require_correlation_id (in_correlation_id req) = Raise MissingCorrelationIdError)
    \/ (f = FExn MissingIdempotencyKeyError
        /\ require_idempotency_key (in_idempotency_key req) = Raise MissingIdempotencyKeyError)
    \/ (exists errors, f = FValidation errors /\ refused_body (in_body req) errors)
    \/ (f = FUnreadable /\ in_body req = Unreadable);
  fa_unreadable : forall req, in_body req = Unreadable -> fa_resolve req = Raise FUnreadable
}.

(** A response, or an exception that no handler of the application is registered for. *)
Inductive reply : Type :=
| Responded (response : JSONResponse)
| Unhandled (e : exn).

Definition reply_to (raw_cid : option pystr) (r : res failure JSONResponse) : reply :=
  match r with
  | Ok response => Responded (correlation_id_middleware raw_cid response)
  | Raise f =>
      match registered_handler f, f with
      | Some response, _ => Responded (correlation_id_middleware raw_cid response)
      | None, FExn e => Unhandled e
      | None, _ => Unhandled OtherError
      end
  end.

Definition route_result (r : res exn JSONResponse) : res failure JSONResponse :=
  match r with Ok response => Ok response | Raise e => Raise (FExn e) end.

(** POST /v1/transactions. *)
Definition post_transactions `{FastAPI, IdempotencyCoordinatorPort, PaymentNetworkPort}
    (req : inbound) : prog reply :=
  match fa_resolve req with
  | Ok (request, cid, key) =>
      pbind (create_transaction request cid key) (fun r =>
        Ret (reply_to (in_correlation_id req) (route_result r)))
  | Raise f => Ret (reply_to (in_correlation_id req) (Raise f))
  end.

(** The error of a value that is no object. *)
Definition not_an_object : validation_error :=
  MkValidationError (py "model_attributes_type") [LocName (py "body")]
    (Some (py "Input should be a valid dictionary or object to extract fields from")).

Lemma not_an_object_error names refuses : body_error names refuses JNull not_an_object.
Proof. by apply body_not_object. Qed.

(** A framework that checks in the order of FastAPI: the syntax of the body, the
    dependencies, the model. *)
Definition reference_resolve (req : inbound)
    : res failure (CreateTransactionRequest * pystr * pystr) :=
  match in_body req with
  | NotJson => Raise (FValidation [MkValidationError (py "json_invalid") [LocName (py "body")]
                                     (Some (py "JSON decode error"))])
  | Unreadable => Raise FUnreadable
  | b =>
      match require_correlation_id (in_correlation_id req),
            require_idempotency_key (in_idempotency_key req), b with
      | Raise e, _, _ => Raise (FExn e)
      | _, Raise e, _ => Raise (FExn e)
      | Ok cid, Ok key, Parsed j =>
          match validate_request j with
          | Ok r => Ok (r, cid, key)
          | Raise errors => Raise (FValidation errors)
          end
      | _, _, OtherType => Raise (FValidation [not_an_object])
      | _, _, _ => Raise (FValidation [MkValidationError (py "missing") [LocName (py "body")]
                                         (Some (py "Field required"))])
      end
  end.

Lemma require_correlation_id_exn h e :
  require_correlation_id h = Raise e -> e = MissingCorrelationIdError.
Proof. unfold require_correlation_id. destruct h as [v|]; [destruct (negb _)|]; congruence. Qed.

Lemma require_idempotency_key_exn h e :
  require_idempotency_key h = Raise e -> e = MissingIdempotencyKeyError.
Proof. unfold require_idempotency_key. destruct h as [v|]; [destruct (negb _)|]; congruence. Qed.

#[local] Obligation Tactic := idtac.
#[export] Program Instance reference_fastapi : FastAPI := {| fa_resolve := reference_resolve |}.
Next Obligation.
  intros [h k b] r cid key. unfold reference_resolve. cbn [in_body in_correlation_id in_idempotency_key].
  assert (Hv : forall j, validate_request j = Ok r <-> CreateTransactionRequest_accepts j r)
    by (intros j; apply (model_validate_ok (Pydantic := reference_pydantic))).
  destruct b as [| | | |j];
    try (split; [discriminate | by intros [(? & [=] & _) _]]);
    try (split; [destruct (require_correlation_id h), (require_idempotency_key k); discriminate
                | by intros [(? & [=] & _) _]]).
  destruct (require_correlation_id h) as [cid'|e]; [|split; [discriminate | by intros (_ & [=] & _)]].
  destruct (require_idempotency_key k) as [key'|e]; [|split; [discriminate | by intros (_ & _ & [=])]].
  destruct (validate_request j) as [r'|errs] eqn:Ej; split.
  - intros H%Ok_inj. simplify_eq. split_and!; try done. exists j. split; [done | by apply Hv].
  - intros ((j' & [= <-] & Ha) & Hc%Ok_inj & Hk%Ok_inj). apply Hv in Ha. rewrite Ej in Ha.
    apply Ok_inj in Ha. by subst.
  - discriminate.
  - intros ((j' & [= <-] & Ha) & _). apply Hv in Ha. congruence.
Qed.
Next Obligation.
  intros [h k b] f. unfold reference_resolve. cbn [in_body in_correlation_id in_idempotency_key].
  assert (Hn : b = NotJson \/ b <> NotJson) by (destruct b; auto). destruct Hn as [->|Hn].
  { intros [= <-]. right; right; left. eexists. split; [done|]. split; [done|]. by left. }
  assert (Hu : b = Unreadable \/ b <> Unreadable) by (destruct b; auto). destruct Hu as [->|Hu].
  { intros [= <-]. by right; right; right. }
  destruct (require_correlation_id h) as [cid|e] eqn:Hc.
  2: { apply require_correlation_id_exn in Hc. subst e. destruct b; try done; intros [= <-]; by left. }
  destruct (require_idempotency_key k) as [key|e] eqn:Hk.
  2: { apply require_idempotency_key_exn in Hk. subst e.
       destruct b; try done; intros [= <-]; right; by left. }
  destruct b as [| | | |j]; [| |done|done|].
  - intros [= <-]. right; right; left. eexists. split; [done|]. split; [done|]. by repeat constructor.
  - intros [= <-]. right; right; left. eexists. split; [done|]. split; [done|].
    constructor; [apply not_an_object_error | constructor].
  - destruct (validate_request j) as [r|errs] eqn:Ej; [discriminate|]. intros [= <-].
    right; right; left. exists errs. split; [done|].
    exact (model_validate_errors (Pydantic := reference_pydantic) j errs Ej).
Qed.
Next Obligation. intros [h k b] Hb. cbn in Hb. by subst b. Qed.

(** * Validation reports *)

(** Every reason a validation report can give; none of them contains request data. *)
Definition fixed_reasons : list pystr :=
  [py "Field required"; py "Extra inputs are not permitted"; py "Input should be a valid string";
   py "Input should be a valid dictionary or object to extract fields from";
   py "transaction_id must be a string"; py "transaction_id must not be blank";
   py "transaction_id must not exceed 128 characters";
   py "merchant_id must be a string"; py "merchant_id must not be blank";
   py "merchant_id must not exceed 128 characters";
   py "payment_token must be a string"; py "payment_token must not be blank";
   py "payment_token must not exceed 128 characters";
   py "payment_token must be a synthetic test token starting with tok_test_";
   py "currency must be exactly three uppercase ASCII letters (ISO 4217 format)";
   py "amount must be an integer"; py "amount must be greater than zero"].

(** The messages a check can raise, and the type they carry. *)
Definition refusal_known (e : option (pystr * pystr)) : Prop :=
  match e with
  | None => True
  | Some (ty, msg) => ty <> py "json_invalid" /\ clean_msg msg ∈ fixed_reasons
  end.

Lemma name_refusals f v :
  f ∈ [py "transaction_id"; py "merchant_id"] ->
  refusal_known (refusal (before (validate_stripped_nonblank_string f) v)).
Proof.
  rewrite !elem_of_cons. intros Hf. unfold before, validate_stripped_nonblank_string.
  destruct Hf as [->|[->|Hf%elem_of_nil]]; [..|done]; destruct v; try evaluate;
    (destruct (str_eqb _ _); [evaluate|]); (destruct (_ <? _)%nat; [evaluate | done]).
Qed.

Lemma token_refusals v : refusal_known (refusal (payment_token_field v)).
Proof.
  unfold payment_token_field, before, validate_payment_token. destruct v; try evaluate.
  destruct (str_eqb _ _); [evaluate|]. destruct (_ <? _)%nat; [evaluate|].
  destruct (negb _); [evaluate | done].
Qed.

Lemma amount_refusals v : refusal_known (refusal (amount_field v)).
Proof.
  unfold amount_field, before, validate_amount. destruct v; try evaluate.
  destruct (_ <=? _); [evaluate | done].
Qed.

Lemma currency_refusals v : refusal_known (refusal (currency_field v)).
Proof.
  unfold currency_field, after_str, validate_currency_format. destruct v; try evaluate.
  destruct (CURRENCY_FORMAT_REGEX _); [done | evaluate].
Qed.

Lemma request_refusals name v : refusal_known (request_refuses name v).
Proof.
  unfold request_refuses. repeat case_match; try done.
  - apply name_refusals. evaluate.
  - apply name_refusals. evaluate.
  - apply token_refusals.
  - apply amount_refusals.
  - apply currency_refusals.
Qed.

(** An error the handler reports safely. *)
Definition reported_safely (err : validation_error) : Prop :=
  ve_type err <> py "json_invalid"
  /\ ip_field (invalid_parameter err) ∈ safe_labels
  /\ ip_reason (invalid_parameter err) ∈ fixed_reasons.

Lemma body_error_safe j err :
  body_error request_fields request_refuses j err -> reported_safely err.
Proof.
  intros He. unfold reported_safely, invalid_parameter. cbn [ip_field ip_reason].
  split_and!; [|apply map_safe_field_name_label|];
    destruct He as [Hb|fields name Hb Hn Hg|fields name Hb Hn Hx|fields name v ty msg Hb Hn Hg Hr];
    cbn [ve_type ve_msg default]; try evaluate;
    pose proof (request_refusals name v) as Hk; rewrite Hr in Hk; apply Hk.
Qed.

Lemma handler_report errors :
  Forall reported_safely errors ->
  validation_exception_handler (Some errors)
  = build_problem_response 422 (py "urn:problem-type:validation-error") (py "Validation error")
      (py "The request body failed schema validation.") (Some (invalid_parameter <$> errors)) None.
Proof.
  intros Hs. unfold validation_exception_handler. destruct (existsb _ errors) eqn:He; [|done].
  apply existsb_exists in He as (err & Hin & Ht%str_eqb_eq). exfalso.
  rewrite Forall_forall in Hs. apply list_elem_of_In in Hin. by destruct (Hs _ Hin).
Qed.

Lemma refused_safely b errors :
  refused_body b errors -> b <> NotJson -> Forall reported_safely errors.
Proof.
  intros [_ Hb] Hn. destruct b as [| | | |j]; [| |done|done|].
  - eapply Forall_impl; [exact Hb|]. intros [ty loc msg] (Hl & Ht & Hm). cbn in Hl, Ht, Hm. subst.
    split_and!; [evaluate | apply map_safe_field_name_label | evaluate].
  - eapply Forall_impl; [exact Hb|]. intros err. apply body_error_safe.
  - eapply Forall_impl; [exact Hb|]. intros err. apply body_error_safe.
Qed.

Lemma report_parameters status ty title detail l headers :
  jr_content (build_problem_response status ty title detail (Some l) headers) !! py "invalid_parameters"
  = Some (JArr (InvalidParameter_dump <$> l)).
Proof. cbn [build_problem_response jr_content ProblemDetail_dump pd_invalid_parameters].
  by rewrite lookup_insert_eq. Qed.

(** * The route as a whole *)

(** The command of an accepted request. *)
Definition command_of (r : CreateTransactionRequest) (cid : pystr) : AuthorizeTransactionCommand :=
  MkCommand (rq_transaction_id r) (rq_merchant_id r) (rq_payment_token r) (rq_amount r)
    (rq_currency r) cid.

(** The response of the route to an envelope. *)
Definition envelope_response (envelope : ResponseEnvelope) : JSONResponse :=
  MkJSONResponse (env_status_code envelope) (env_body envelope)
    (if env_is_replay envelope
     then set_header (py "Idempotent-Replay") (py "true") (env_headers envelope)
     else env_headers envelope)
    (env_media_type envelope).

Lemma eval_create_transaction net adapter r cid key s :
  eval net (@create_transaction sql_coordinator (http_port adapter) r cid key) s =
  let '(x, s') := eval net (orchestrate adapter (command_of r cid) key) s in
  (match x with Ok envelope => Ok (envelope_response envelope) | Raise e => Raise e end, s').
Proof.
  unfold create_transaction. rewrite eval_io_bind. fold (command_of r cid).
  by destruct (eval net _ s) as [[envelope|e] s'].
Qed.

(** ** Requests the tables refuse *)

Lemma btrim_trimmed s : trimmed s -> s <> [] -> btrim s <> [].
Proof.
  intros [Hh Hl] Hne. unfold btrim.
  assert (Hn : forall t, (forall c, head t = Some c -> is_space c = false) -> ltrim_spaces t = t).
  { intros [|c t] H; [done|]. cbn. destruct (N.eqb_spec c 32) as [->|]; [|done].
    by specialize (H _ eq_refl). }
  rewrite (Hn s) by done. rewrite Hn.
  - by rewrite reverse_involutive.
  - intros c. rewrite head_reverse. apply Hl.
Qed.

(** An accepted name is storable, or no row with it can be stored. *)
Lemma name_storable s : name_ok s -> storable_id s = true \/ store_varchar 128 s = None.
Proof.
  intros (Ht & Hn & Hl). unfold storable_id, storable_text, store_varchar.
  destruct (text_ok s); [left|by right]. cbn [andb]. apply Nat.leb_le in Hl. rewrite Hl.
  apply negb_true_iff, not_true_iff_false. rewrite str_eqb_eq. by apply btrim_trimmed.
Qed.

Lemma currency_storable s :
  CURRENCY_FORMAT_REGEX s = true ->
  class_run is_upper_ascii 3 3 s = true \/ store_varchar 3 s = None.
Proof.
  intros (w & Hw & [->| ->])%re_match_class_spec; [by left|]. right.
  apply class_run_spec in Hw as [Hf Hl]. assert (length w = 3)%nat as Hlen by lia. clear Hl.
  do 3 (destruct w as [|? w]; [discriminate|]). destruct w; [|discriminate].
  unfold store_varchar. destruct (negb _); [done|]. reflexivity.
Qed.

(** An accepted request can be stored, or the first insert is refused as a data error. *)
Lemma request_storable r key fp d :
  request_ok r -> digest_format key = true -> digest_format fp = true ->
  storable_request key fp (rq_transaction_id r) (rq_merchant_id r) (rq_amount r) (rq_currency r) = true
  \/ insert_transaction (reserved_transaction (rq_transaction_id r) (rq_merchant_id r) (rq_amount r)
                           (rq_currency r)) d = SqlDataError.
Proof.
  intros [H1 H2 _ _ H5 H6] Hk Hf. unfold storable_request, insert_transaction. rewrite Hk, Hf.
  unfold store_transaction_row, reserved_transaction.
  cbn [t_transaction_id t_merchant_id t_amount t_currency t_status t_pending_operation t_version
    t_network_reference t_authorization_code t_decline_code andb].
  destruct (name_storable _ H1) as [Ht| ->]; [|by right].
  destruct (name_storable _ H2) as [Hm|Hm]; cycle 1.
  { right. rewrite Hm. by destruct (store_varchar 128 (rq_transaction_id r)). }
  rewrite Ht, Hm, (store_storable_id _ Ht), (store_storable_id _ Hm). cbn [andb mbind option_bind].
  apply Z.ltb_lt in H5 as H5'. rewrite H5'. unfold store_bigint, int_range.
  destruct (Z.ltb_spec (rq_amount r) (2 ^ 63)) as [Hlt|Hge]; cycle 1.
  { right. change (2 ^ (64 - 1)) with (2 ^ 63). destruct (Z.ltb_spec (rq_amount r) (2 ^ 63)); [lia|].
    by rewrite andb_false_r. }
  assert (((- 2 ^ (64 - 1) <=? rq_amount r) && (rq_amount r <? 2 ^ (64 - 1))) = true) as -> by lia.
  cbn [mbind option_bind andb].
  destruct (currency_storable _ H6) as [Hc| ->]; [left; exact Hc | by right].
Qed.

(** ** What the route answers *)

(** The statuses the route documents. *)
Definition documented (code : Z) : Prop :=
  code ∈ [201; 202; 400; 409; 422; 500; 502; 503].

(** A documented response; errors are problem documents. *)
Definition proper (response : JSONResponse) : Prop :=
  documented (jr_status_code response)
  /\ (400 <= jr_status_code response -> jr_media_type response = Some PROBLEM_MEDIA_TYPE).

(** What the orchestrator may answer or raise. *)
Definition answer_ok (r : res exn ResponseEnvelope) : Prop :=
  match r with
  | Ok envelope => proper (envelope_response envelope)
  | Raise e => is_PersistenceError e = true \/ e = OtherError
  end.

Lemma completion_proper tid v c : completion_of tid v = Ok c -> proper (envelope_response (cp_envelope c)).
Proof.
  destruct v; cbn [completion_of]; try discriminate; intros Hc%Ok_inj; subst c;
    (split; [cbn; unfold documented; evaluate | cbn; intros; (reflexivity || lia)]).
Qed.

(** In a coherent database every cached response is a documented one. *)
Lemma immediate_proper d key fp tid mid amount currency a l1 :
  db_ok d -> coherent d -> ledger_reserve key fp tid mid amount currency (ledger_of d) = (a, l1) ->
  res_status a <> ACQUIRED -> proper (envelope_response (immediate a)).
Proof.
  intros (_ & Hdi & _) Hc Hres Ha. unfold immediate.
  destruct (res_status a) eqn:Hs; try done;
    try (split; [cbn; unfold documented; evaluate | cbn; intros; reflexivity]).
  unfold ledger_reserve in Hres. cbn [l_keys l_transactions ledger_of] in Hres. rewrite lookup_fmap in Hres.
  destruct (idempotency_records d !! key) as [rec|] eqn:Hk; cbn [fmap option_fmap option_map] in Hres.
  2: { destruct (transactions d !! tid); injection Hres as <- <-; discriminate. }
  unfold entry_of in Hres. cbn [en_fingerprint en_response] in Hres.
  destruct (negb _); [injection Hres as <- <-; discriminate|].
  destruct (idempotency_row_cases _ _ (Hdi _ _ Hk)) as [(_ & Hcode & _)|(Hst & code & body & Hcode & Hbody)];
    rewrite Hcode, ?Hbody in Hres; injection Hres as <- <-; [discriminate|].
  cbn [res_stored_envelope default]. destruct (co_pair _ Hc _ _ Hk) as (r & _ & Hpair).
  destruct Hpair as [(Hst' & _)|(_ & _ & _ & Htr)]; [rewrite Hst in Hst'; discriminate|].
  rewrite Hcode in Htr. unfold proper, envelope_response, documented.
  cbn [jr_status_code jr_media_type env_status_code env_media_type id].
  destruct Htr as [(_ & [= ->] & _)|[(_ & [= ->] & _)|(_ & [[= ->]|[= ->]])]];
    (split; [evaluate | intros; (reflexivity || lia)]).
Qed.

Lemma handled_answer net adapter command key fp d posts r l' posts' :
  db_ok d -> coherent d ->
  handled net adapter command key fp (ledger_of d) posts r l' posts' -> answer_ok r.
Proof.
  intros Hd Hc Hh. unfold handled in Hh. destruct (ledger_reserve _ _ _ _ _ _ _) as [a l1] eqn:Hres.
  assert (Himm : res_status a <> ACQUIRED -> answer_ok (Ok (immediate a)))
    by (intros; by eapply immediate_proper).
  destruct (res_status a) eqn:Ha; try (destruct Hh as (-> & _); by apply Himm).
  destruct Hh as [_ Hh]. destruct (completion_of _ _) as [c|e] eqn:Hcp.
  - destruct (fits _); [|destruct Hh as [(e & -> & He) _]; by left].
    destruct Hh as [-> _]. by eapply completion_proper.
  - destruct Hh as (-> & -> & _). by right.
Qed.

(** An unforeseen failure of the HTTP client: [post] raises something else than the errors of
    httpx and the time-outs, or [json()] something else than [ValueError]. *)
Definition unforeseen (r : res exn http_response) : Prop :=
  r = Raise OtherError
  \/ exists answer, r = Ok answer /\ hp_status_code answer = 200 /\ hp_json answer = JsonOtherError.

(** Only such a failure leads to no result. *)
Lemma crash_unforeseen (r : res exn http_response) tid e :
  post_contract r -> completion_of tid (http_verdict r) = Raise e -> unforeseen r.
Proof.
  intros Hr. destruct r as [answer|e'].
  - cbn [http_verdict]. unfold _handle_response, verdict_of, completion_of. intros Hc.
    right. exists answer. split; [done|].
    repeat case_match; simplify_eq; by (split; [apply Z.eqb_eq|]).
  - intros Hc. destruct (Hr e' eq_refl) as [->|[->|[->| ->]]]; try discriminate Hc. by left.
Qed.

Lemma handled_crash net adapter command key fp l posts l' posts' :
  (forall n req, post_contract (net n req)) ->
  handled net adapter command key fp l posts (Raise OtherError) l' posts' ->
  exists hreq, unforeseen (net (length posts) hreq).
Proof.
  intros Hnet Hh. unfold handled in Hh. destruct (ledger_reserve _ _ _ _ _ _ _) as [a l1].
  destruct (res_status a); try (by destruct Hh as [[=] _]).
  destruct Hh as [_ Hh]. destruct (completion_of _ _) as [c|e] eqn:Hc.
  - destruct (fits _); [by destruct Hh as [[=] _]|]. by destruct Hh as [(e & [= <-] & [=]) _].
  - eexists. by eapply crash_unforeseen.
Qed.

(** A request whose key is known is classified as the ledger does. *)
Lemma known_key d key fp tid mid amount currency rec :
  db_ok d -> idempotency_records d !! key = Some rec ->
  exists a, res_status a <> ACQUIRED /\ _classify_existing rec fp = Ok a
    /\ ledger_reserve key fp tid mid amount currency (ledger_of d) = (a, ledger_of d)
    /\ match res_status a with COMPLETED => is_Some (res_stored_envelope a) | _ => True end.
Proof.
  intros (_ & Hdi & _) Hk.
  pose proof (ledger_reserve_cases key fp tid mid amount currency (ledger_of d)) as Hcases.
  pose proof (classify_entry key rec fp (Hdi _ _ Hk)) as Hcl.
  unfold ledger_reserve in *. cbn [l_keys l_transactions ledger_of] in *. rewrite lookup_fmap, Hk in *.
  cbn [fmap option_fmap option_map] in *. eexists. split_and!; [|exact Hcl|done|].
  - by eapply classify_status.
  - destruct (res_status _); try done. apply Hcases.
Qed.

(** Every accepted request is answered, storable or not. *)
Lemma eval_accepted net adapter r cid raw_key v d posts :
  (forall n req, post_contract (net n req)) -> db_ok d -> coherent d -> request_ok r ->
  require_idempotency_key (Some v) = Ok raw_key ->
  exists x d' posts',
    eval net (orchestrate adapter (command_of r cid) raw_key) (MkSeq d None posts)
    = (x, MkSeq d' None posts')
    /\ db_ok d' /\ answer_ok x /\ (length posts' <= length posts + 1)%nat
    /\ (x = Raise OtherError -> exists hreq, unforeseen (net (length posts) hreq)).
Proof.
  intros Hnet Hd Hc Hr Hkey.
  destruct (digests_computed v raw_key (rq_amount r) (rq_currency r) (rq_merchant_id r)
              (rq_payment_token r) (rq_transaction_id r) Hkey) as [(key & Hk & Hkf) (fp & Hf & Hff)].
  destruct (request_storable r key fp d Hr Hkf Hff) as [Hs|Hins].
  - assert (Hwf : well_formed (command_of r cid) raw_key key fp).
    { split_and!; try done. cbn [command_of cmd_transaction_id].
      destruct (rqo_transaction_id _ Hr) as (Ht & Hn & _). by rewrite strip_id. }
    pose proof (eval_handle net adapter Hnet (command_of r cid) raw_key key fp (MkSeq d None posts)
                  (ledger_of d)) as He.
    destruct (eval net _ _) as [x [d' tx posts']].
    destruct He as (l' & (Htx & Hd' & ->) & Hh); [done|done|]. cbn in Htx, Hd', Hh. subst tx.
    exists x, d', posts'. split_and!; [done | done | exact (handled_answer _ _ _ _ _ _ _ _ _ _ Hd Hc Hh) | |];
      [|intros ->; by eapply handled_crash].
    unfold handled in Hh. destruct (ledger_reserve _ _ _ _ _ _ _) as [a l1].
    destruct (res_status a); try (destruct Hh as (_ & _ & ->); lia).
    destruct Hh as [-> _]. rewrite length_app. cbn. lia.
  - unfold orchestrate, handle_authorization. rewrite eval_io_bind. cbn [io_lift eval]. rewrite Hk.
    rewrite eval_io_bind. cbn [io_lift eval command_of cmd_amount cmd_currency cmd_merchant_id
      cmd_payment_token cmd_transaction_id]. rewrite Hf.
    rewrite eval_io_bind. cbn [co_reserve sql_coordinator]. rewrite eval_reserve. unfold reserve_result.
    destruct (idempotency_records d !! key) as [rec|] eqn:Hrec.
    + destruct (known_key d key fp (rq_transaction_id r) (rq_merchant_id r) (rq_amount r) (rq_currency r)
                  rec Hd Hrec) as (a & Ha & -> & Hres & Hst).
      exists (Ok (immediate a)), d, posts. split_and!; [|done|by eapply immediate_proper|lia|done].
      unfold immediate. destruct (res_status a) eqn:Hs; try done. by destruct Hst as [e ->].
    + rewrite Hins. eexists _, _, _. split; [reflexivity|]. split_and!; [done | by left | lia | done].
Qed.

Lemma middleware_proper raw_cid response :
  proper response -> proper (correlation_id_middleware raw_cid response).
Proof.
  unfold correlation_id_middleware. destruct raw_cid as [cid|]; [|done].
  by destruct (negb (str_eqb cid []) && CORRELATION_ID_REGEX cid).
Qed.

(** The reply to a request that the framework refuses. *)
Lemma refused_response f req :
  (exists errors, f = FValidation errors /\ refused_body (in_body req) errors)
  \/ f = FExn MissingCorrelationIdError \/ f = FExn MissingIdempotencyKeyError ->
  exists response, reply_to (in_correlation_id req) (Raise f) = Responded response /\ proper response.
Proof.
  intros Hf.
  assert (Hp : exists response, registered_handler f = Some response /\ proper response).
  { destruct Hf as [(errors & -> & Hb)|[->| ->]]; cbn [registered_handler]; cycle 1.
    1,2: eexists; split; [reflexivity|]; split; [unfold documented; evaluate | reflexivity].
    eexists. split; [reflexivity|]. unfold validation_exception_handler.
    destruct (existsb _ errors); (split; [unfold documented; evaluate | reflexivity]). }
  destruct Hp as (response & Hr & Hp). unfold reply_to. rewrite Hr.
  eexists. split; [by destruct f|]. by apply middleware_proper.
Qed.

(** The reply to a request that the route took. *)
Lemma answered_reply raw_cid x :
  answer_ok x ->
  let rep := reply_to raw_cid (route_result
    (match x with Ok envelope => Ok (envelope_response envelope) | Raise e => Raise e end)) in
  (exists response, rep = Responded response /\ proper response)
  \/ rep = Unhandled OtherError /\ x = Raise OtherError.
Proof.
  destruct x as [envelope|e]; cbn [answer_ok route_result reply_to].
  - intros Hp. left. eexists. split; [done|]. by apply middleware_proper.
  - intros [He| ->]; [left|by right].
    assert (registered_handler (FExn e) = Some persistence_error_handler) as ->
      by (by destruct e).
    eexists. split; [done|]. apply middleware_proper. split; [unfold documented; evaluate | reflexivity].
Qed.

(** Running the route is running the orchestrator. *)
Lemma run_route `{FastAPI, Engine} net adapter i st posts req r cid key :
  fa_resolve req = Ok (r, cid, key) ->
  run net i (@post_transactions _ sql_coordinator (http_port adapter) req) st posts =
  match run net i (orchestrate adapter (command_of r cid) key) st posts with
  | Some (x, out) =>
      Some (reply_to (in_correlation_id req) (route_result
              (match x with Ok envelope => Ok (envelope_response envelope) | Raise e => Raise e end)), out)
  | None => None
  end.
Proof.
  intros Hr. unfold post_transactions. rewrite Hr, run_pbind. unfold create_transaction, io_bind.
  rewrite run_pbind. fold (command_of r cid).
  by destruct (run net i _ st posts) as [[[envelope|e] [s' posts']]|].
Qed.

Lemma middleware_same raw_cid response :
  let response' := correlation_id_middleware raw_cid response in
  jr_status_code response' = jr_status_code response
  /\ jr_content response' = jr_content response /\ jr_media_type response' = jr_media_type response.
Proof.
  unfold correlation_id_middleware. destruct raw_cid as [cid|]; [|done]. by destruct (_ && _).
Qed.

Lemma set_header_other name name' value value' headers :
  name <> name' -> (name, value) ∈ headers -> (name, value) ∈ set_header name' value' headers.
Proof.
  intros Hne Hin. apply elem_of_app. left. apply list_elem_of_In, filter_In.
  split; [by apply list_elem_of_In|]. cbn. apply negb_true_iff, not_true_iff_false.
  by rewrite str_eqb_eq.
Qed.

Lemma replay_header raw_cid envelope :
  env_is_replay envelope = true ->
  (py "Idempotent-Replay", py "true")
    ∈ jr_headers (correlation_id_middleware raw_cid (envelope_response envelope)).
Proof.
  intros Hr.
  assert (Hin : (py "Idempotent-Replay", py "true") ∈ jr_headers (envelope_response envelope)).
  { cbn [envelope_response jr_headers]. rewrite Hr. apply elem_of_app. right. by left. }
  unfold correlation_id_middleware. destruct raw_cid as [cid|]; [|done].
  destruct (_ && _); [|done]. cbn [jr_headers]. apply set_header_other; [evaluate | done].
Qed.

(** A final response of the route comes from the orchestrator. *)
Lemma responded_final raw_cid x response :
  reply_to raw_cid (route_result
    (match x with Ok envelope => Ok (envelope_response envelope) | Raise e => Raise e end))
  = Responded response ->
  answer_ok x -> jr_status_code response <> 500 ->
  exists envelope, x = Ok envelope
    /\ response = correlation_id_middleware raw_cid (envelope_response envelope).
Proof.
  destruct x as [envelope|e]; cbn [route_result reply_to answer_ok].
  - intros [= <-] _ _. by exists envelope.
  - intros Hr He Hne. exfalso. destruct He as [He| ->]; [|discriminate].
    assert (registered_handler (FExn e) = Some persistence_error_handler) as Heq
      by (by destruct e).
    rewrite Heq in Hr. injection Hr as <-. apply Hne.
    by destruct (middleware_same raw_cid persistence_error_handler) as [-> _].
Qed.

(** ** The properties of the API *)

Section properties.
Context `{FastAPI, Engine} (net : network) (adapter : HttpPaymentNetworkAdapter).
Hypothesis net_contract : forall n req, post_contract (net n req).

Abbreviation serve req := (@post_transactions _ sql_coordinator (http_port adapter) req).

(** C10.  POST /v1/transactions answers every request: whatever the headers and the body
    are (missing, malformed, oversized, unstorable), on a healthy database it ends, the
    tables stay well-formed and the network is contacted at most once.  The reply has one of
    the documented statuses 201, 202, 400, 409, 422, 500, 502 or 503, and an error is an
    RFC 7807 problem document, with two exceptions.  A body that cannot be read or decoded
    for another reason than its syntax is always answered by FastAPI itself, 400 with its
    own JSON object and no problem document.  An exception of the HTTP client that the
    adapter does not translate leaves the route unhandled, which happens only when the
    client raised one. *)
Theorem api_answers_every_request i st d posts (req : inbound) :
  idle st d -> db_ok d -> coherent d ->
  exists rep st' d' posts',
    run net i (serve req) st posts = Some (rep, (st', posts'))
    /\ idle st' d' /\ db_ok d' /\ (length posts' <= length posts + 1)%nat
    /\ (in_body req = Unreadable ->
        rep = Responded (correlation_id_middleware (in_correlation_id req) unreadable_response))
    /\ match rep with
       | Responded response =>
           documented (jr_status_code response)
           /\ (400 <= jr_status_code response -> in_body req <> Unreadable ->
               jr_media_type response = Some PROBLEM_MEDIA_TYPE)
       | Unhandled e => exists hreq, unforeseen (net (length posts) hreq)
       end.
Proof.
  intros Hst Hd Hc. unfold post_transactions. destruct (fa_resolve req) as [[[r cid] key]|f] eqn:Hr.
  - apply fa_calls in Hr as ((j & Hb & Ha) & _ & Hk). apply accepted_request_ok in Ha.
    destruct (in_idempotency_key req) as [v|] eqn:Hv; [|discriminate].
    destruct (eval_accepted net adapter r cid key v d posts net_contract Hd Hc Ha Hk)
      as (x & d' & posts' & He & Hd' & Hx & Hp & Hcrash).
    pose proof (eval_create_transaction net adapter r cid key (MkSeq d None posts)) as Hev.
    rewrite He in Hev. destruct (run_alone net _ i st d posts _ _ _ Hst Hev) as (st' & Hrun & Hi).
    eexists _, st', d', posts'. rewrite run_pbind, Hrun. cbn [run]. split_and!; [reflexivity|done..| |].
    + rewrite Hb. discriminate.
    + destruct (answered_reply (in_correlation_id req) x Hx) as [(response & -> & H1 & H2)|[-> ->]];
        [by split; [|intros ? _; apply H2] | by apply Hcrash].
  - eexists _, st, d, posts. cbn [run]. split_and!; [reflexivity|done..|lia| |].
    + intros Hb. apply fa_unreadable in Hb. rewrite Hb in Hr. by injection Hr as <-.
    + apply fa_refuses in Hr. destruct Hr as [[-> _]|[[-> _]|[He|[-> Hb]]]]; cycle 3.
      { cbn [reply_to registered_handler]. rewrite Hb.
        destruct (middleware_same (in_correlation_id req) unreadable_response) as [-> _].
        split; [unfold documented; evaluate | intros _ Hn; by destruct Hn]. }
      all: edestruct refused_response as (response & -> & H1 & H2);
        [eauto | split; [done | intros ? _; by apply H2]].
Qed.

(** C11.  Retrying through the API: once a request was answered with a final status (201,
    202, 502 or 503), repeating it with the same key and body, under any correlation
    identifier and whatever the network would answer, gives the same status, body and
    media type with the header Idempotent-Replay: true, and sends nothing to the network. *)
Theorem api_retry_replays net' adapter' i i' st d posts req req' r cid cid' key hash fp
    st1 posts1 response :
  (forall n q, post_contract (net' n q)) ->
  idle st d -> db_ok d -> coherent d ->
  fa_resolve req = Ok (r, cid, key) -> fa_resolve req' = Ok (r, cid', key) ->
  well_formed (command_of r cid) key hash fp ->
  run net i (serve req) st posts = Some (Responded response, (st1, posts1)) ->
  jr_status_code response ∈ [201; 202; 502; 503] ->
  exists st2 response',
    run net' i' (@post_transactions _ sql_coordinator (http_port adapter') req') st1 posts1
    = Some (Responded response', (st2, posts1))
    /\ jr_status_code response' = jr_status_code response
    /\ jr_content response' = jr_content response
    /\ jr_media_type response' = jr_media_type response
    /\ (py "Idempotent-Replay", py "true") ∈ jr_headers response'.
Proof.
  intros Hnet' Hst Hd Hc Hr Hr' Hwf Hrun Hs. rewrite (run_route _ _ _ _ _ _ _ _ _ Hr) in Hrun.
  destruct (run_handle net adapter i st d posts _ _ _ _ net_contract Hst Hd Hwf)
    as (x & st1' & d1 & posts1' & Hrun1 & Hi1 & Hd1 & Hh1).
  rewrite Hrun1 in Hrun. injection Hrun as Hrep -> ->.
  pose proof (handled_answer _ _ _ _ _ _ _ _ _ _ Hd Hc Hh1) as Hx.
  destruct (responded_final _ _ _ Hrep Hx) as (envelope & -> & Hresp).
  { intros E. rewrite E in Hs. revert Hs. evaluate. }
  destruct (middleware_same (in_correlation_id req) (envelope_response envelope)) as (E1 & E2 & E3).
  rewrite <- Hresp in E1, E2, E3. cbn in E1, E2, E3.
  assert (Hne : env_status_code envelope <> 409).
  { intros E. rewrite E1, E in Hs. revert Hs. evaluate. }
  destruct (run_retry net net' adapter adapter' i i' st d posts (command_of r cid) (command_of r cid')
              key hash fp envelope st1 posts1 net_contract Hnet' Hst Hd Hwf) as (st2 & d1' & _ & Hrun2 & _);
    [done | exact Hrun1 | done |].
  exists st2, (correlation_id_middleware (in_correlation_id req') (envelope_response (as_replay envelope))).
  rewrite (run_route _ _ _ _ _ _ _ _ _ Hr'), Hrun2.
  destruct (middleware_same (in_correlation_id req') (envelope_response (as_replay envelope)))
    as (-> & -> & ->).
  rewrite E1, E2, E3. split_and!; try done. by apply replay_header.
Qed.

(** C37.  A validation report gives nothing of the request back: a body that is not JSON
    is answered 400 without details; any other refused body is answered 422 with at least
    one entry, and every entry has one of nine fixed labels and one of seventeen fixed
    reasons, whatever names and values the client sent. *)
Theorem validation_reports_reveal_nothing b errors :
  refused_body b errors ->
  let response := validation_exception_handler (Some errors) in
  (b = NotJson /\ jr_status_code response = 400 /\ jr_content response !! py "invalid_parameters" = None)
  \/ (b <> NotJson /\ jr_status_code response = 422
      /\ exists l, jr_content response !! py "invalid_parameters" = Some (JArr (InvalidParameter_dump <$> l))
           /\ l <> [] /\ Forall (fun p => ip_field p ∈ safe_labels /\ ip_reason p ∈ fixed_reasons) l).
Proof.
  intros Hb. cbv zeta. assert (Hn : b = NotJson \/ b <> NotJson) by (destruct b; auto).
  destruct Hn as [->|Hn]; [left|right].
  - split; [done|]. unfold validation_exception_handler.
    assert (existsb (fun err => str_eqb (ve_type err) (py "json_invalid")) errors = true) as ->.
    { destruct Hb as [_ He]. apply existsb_exists. apply Exists_exists in He as (err & Hin & Ht).
      exists err. split; [by apply list_elem_of_In | by apply str_eqb_eq]. }
    split; reflexivity.
  - pose proof (refused_safely b errors Hb Hn) as Hs. rewrite handler_report by done.
    split; [done|]. split; [done|]. exists (invalid_parameter <$> errors).
    split; [apply report_parameters|]. split.
    + intros He%fmap_nil_inv. by destruct Hb.
    + apply Forall_fmap. eapply Forall_impl; [exact Hs|]. intros err (_ & H1 & H2). done.
Qed.
End properties.

(** ** Concrete requests *)

Definition sample_inbound : inbound :=
  MkInbound (Some (py "corr_1")) (Some sample_raw_key) (Parsed sample_body).
Definition sample_inbound_retry : inbound :=
  MkInbound (Some (py "corr_2")) (Some sample_raw_key) (Parsed sample_body).

(** A request whose body is no text in any encoding. *)
Definition unreadable_inbound : inbound :=
  MkInbound (Some (py "corr_1")) (Some sample_raw_key) Unreadable.

Lemma api_answers_every_request_witness :
  exists rep st' posts',
    @run ReferenceEngine.engine approving_network _ 0
      (@post_transactions reference_fastapi sql_coordinator (http_port sample_adapter) unreadable_inbound)
      (ReferenceEngine.serving empty_db) [] = Some (rep, (st', posts'))
    /\ rep = Responded (correlation_id_middleware (Some (py "corr_1")) unreadable_response).
Proof.
  destruct (@api_answers_every_request reference_fastapi ReferenceEngine.engine approving_network
           sample_adapter approving_contract 0 (ReferenceEngine.serving empty_db) empty_db []
           unreadable_inbound (serving_idle empty_db) db_ok_empty coherent_empty)
    as (rep & st' & d' & posts' & Hrun & _ & _ & _ & Hu & _).
  exists rep, st', posts'. split; [exact Hrun | exact (Hu eq_refl)].
Defined.

Lemma sample_resolved : reference_resolve sample_inbound = Ok (sample_request, py "corr_1", sample_raw_key).
Proof. vm_compute. reflexivity. Qed.
Lemma sample_resolved_retry :
  reference_resolve sample_inbound_retry = Ok (sample_request, py "corr_2", sample_raw_key).
Proof. vm_compute. reflexivity. Qed.

Definition sample_http_response : JSONResponse :=
  correlation_id_middleware (Some (py "corr_1")) (envelope_response sample_response).

Lemma sample_served :
  @run ReferenceEngine.engine approving_network _ 0
    (@post_transactions reference_fastapi sql_coordinator (http_port sample_adapter) sample_inbound)
    (ReferenceEngine.serving empty_db) []
  = Some (Responded sample_http_response, (sample_state, sample_posts)).
Proof.
  rewrite (run_route (H := reference_fastapi) (H0 := ReferenceEngine.engine) approving_network
             sample_adapter 0 _ [] sample_inbound _ _ _ sample_resolved).
  change (command_of sample_request (py "corr_1")) with sample_command.
  rewrite sample_run_computed. reflexivity.
Qed.

Lemma api_retry_replays_witness :
  exists st2 response',
    @run ReferenceEngine.engine silent_network _ 1
      (@post_transactions reference_fastapi sql_coordinator (http_port sample_adapter)
         sample_inbound_retry) sample_state sample_posts
    = Some (Responded response', (st2, sample_posts))
    /\ jr_status_code response' = jr_status_code sample_http_response
    /\ jr_content response' = jr_content sample_http_response
    /\ jr_media_type response' = jr_media_type sample_http_response
    /\ (py "Idempotent-Replay", py "true") ∈ jr_headers response'.
Proof.
  refine (@api_retry_replays reference_fastapi ReferenceEngine.engine approving_network
           sample_adapter approving_contract silent_network sample_adapter 0 1
           (ReferenceEngine.serving empty_db) empty_db [] sample_inbound sample_inbound_retry
           sample_request (py "corr_1") (py "corr_2") sample_raw_key sample_key_hash
           sample_request_fingerprint sample_state sample_posts sample_http_response
           silent_contract (serving_idle empty_db) db_ok_empty coherent_empty
           sample_resolved sample_resolved_retry sample_well_formed sample_served _).
  vm_compute. left.
Defined.

(** A body with a card number. *)
Definition sample_card_body : json :=
  JObj [(py "PAN", JStr (py "4111111111111111")); (py "amount", JInt 0)].
Definition sample_card_errors : list validation_error :=
  field_errors request_fields request_refuses
    [(py "PAN", JStr (py "4111111111111111")); (py "amount", JInt 0)].

Lemma sample_card_refused : refused_body (Parsed sample_card_body) sample_card_errors.
Proof. split; [vm_compute; discriminate | apply field_errors_documented]. Qed.

Lemma validation_reports_reveal_nothing_witness :
  let response := validation_exception_handler (Some sample_card_errors) in
  (Parsed sample_card_body = NotJson /\ jr_status_code response = 400
   /\ jr_content response !! py "invalid_parameters" = None)
  \/ (Parsed sample_card_body <> NotJson /\ jr_status_code response = 422
      /\ exists l, jr_content response !! py "invalid_parameters" = Some (JArr (InvalidParameter_dump <$> l))
           /\ l <> [] /\ Forall (fun p => ip_field p ∈ safe_labels /\ ip_reason p ∈ fixed_reasons) l).
Proof.
  exact (validation_reports_reveal_nothing (Parsed sample_card_body) sample_card_errors
           sample_card_refused).
Defined.
