(* ===== verification/History.v ===== *)
(** Requests one after another on a database that may fail at any operation: once an
    answer is recorded, every later request with the same key and body gets that
    answer, whatever other requests were served in between and whatever failed. *)
From S2P Require Import Prelude PyStr Sha256 Json Domain Ports Idempotency Schema Effects Adapter.
From S2P Require Import Authorize Problem Coordinator Ledger Orchestrator Protocol Coherence Faults.
From S2P Require Import Requests JsonText Bodies Api.

Open Scope Z_scope.
Open Scope io_scope.

(** * What is recorded *)

(** The key [key] was used with the fingerprint [fp] and answered with [envelope]. *)
Definition recorded (d : db) (key fp : pystr) (envelope : ResponseEnvelope) : Prop :=
  exists rec, idempotency_records d !! key = Some rec
    /\ _classify_existing rec fp = Ok (MkReservation COMPLETED (Some envelope)).

Lemma classified_completed rec fp envelope :
  _classify_existing rec fp = Ok (MkReservation COMPLETED (Some envelope)) ->
  i_processing_status rec = py "COMPLETED".
Proof.
  unfold _classify_existing. repeat case_match; try discriminate; intros _; by apply str_eqb_eq.
Qed.

(** No reservation changes what is recorded. *)
Lemma recorded_reserve key fp envelope key' fp' tid mid amount currency d :
  recorded d key fp envelope ->
  recorded (snd (reserve_result key' fp' tid mid amount currency d)) key fp envelope.
Proof.
  intros (rec & Hk & Hc). exists rec. split; [|done]. unfold reserve_result.
  destruct (idempotency_records d !! key'); [done|].
  destruct (insert_transaction _ d) as [r| |]; [|done..].
  destruct (insert_idempotency _ _) as [r'| |] eqn:Hi; [|done..].
  apply insert_idempotency_ok in Hi as (_ & _ & Hn & _). cbn in Hn |- *.
  rewrite lookup_insert_ne; [done|]. intros E. rewrite E in Hn. congruence.
Qed.

(** Nor does a completion. *)
Lemma recorded_complete key fp envelope key' t ver envelope' nref auth decl d :
  db_ok d -> recorded d key fp envelope ->
  recorded (snd (complete_result key' t ver envelope' nref auth decl d)) key fp envelope.
Proof.
  intros (_ & Hi & _) (rec & Hk & Hc). exists rec. split; [|done]. unfold complete_result.
  destruct (negb _); [done|]. destruct (update_transaction _ _ _ d) as [[r|]| |]; [|done..].
  destruct (update_idempotency _ _ _ _ _) as [[r'|]| |] eqn:Hu; [|done..]. cbn.
  apply update_idempotency_row in Hu as (r0 & Hl & _ & Hp & Hs & _). cbn in Hl.
  destruct (updated_idempotency_row _ _ _ _ (Hi _ _ Hl) Hs) as (-> & _).
  rewrite lookup_insert_ne; [done|]. intros ->. rewrite Hk in Hl. simplify_eq.
  apply classified_completed in Hc. rewrite Hp in Hc. discriminate.
Qed.

(** A completed row is stored with the response it is given. *)
Lemma completed_as_given k w rec r' :
  idempotency_row_ok k rec -> v_processing_status w = py "COMPLETED" ->
  store_idempotency_row (set_idempotency w rec) = Some r' -> r' = set_idempotency w rec.
Proof.
  intros Hrec Hw Hs. destruct (updated_idempotency_row _ _ _ _ Hrec Hs) as (Hk & Hf & Ht).
  destruct Hrec as [Hk0 _].
  rewrite (stored_as_completed _ _ _ Hs Hw). unfold set_idempotency. f_equal; congruence.
Qed.

(** The row of a new reservation. *)
Lemma reserved_row key fp tid mid amount currency d d1 rec :
  digest_format key = true -> digest_format fp = true ->
  reserve_result key fp tid mid amount currency d = (Ok (reservation ACQUIRED), d1) ->
  idempotency_records d1 !! key = Some rec -> i_request_fingerprint rec = fp.
Proof.
  intros Hkf Hff. unfold reserve_result, conflict_result.
  destruct (idempotency_records d !! key) as [rec0|] eqn:Hk.
  { intros [= Hr _] _. by apply classify_status in Hr. }
  destruct (insert_transaction _ d) as [r| |]; [|by destruct (transactions d !! tid)|done].
  destruct (insert_idempotency _ _) as [r'| |] eqn:Hi; [|by destruct (transactions d !! tid)|done].
  intros [= <-]. apply insert_idempotency_ok in Hi as (Hs & _). cbn.
  unfold store_idempotency_row, reserved_idempotency in Hs.
  cbn [i_idempotency_key_hash i_request_fingerprint] in Hs.
  rewrite (store_digest _ Hkf), (store_digest _ Hff) in Hs. cbn [mbind option_bind] in Hs.
  bind_some. simplify_eq. cbn. rewrite lookup_insert_eq. by intros [= <-].
Qed.

Lemma recorded_completed key fp tid mid amount currency d d1 d2 v c :
  db_ok d -> digest_format key = true -> digest_format fp = true ->
  reserve_result key fp tid mid amount currency d = (Ok (reservation ACQUIRED), d1) ->
  completion_of tid v = Ok c ->
  complete_result key (cp_transaction c) 0 (cp_envelope c) (cp_network_reference c)
    (cp_authorization_code c) (cp_decline_code c) d1 = (Ok tt, d2) ->
  recorded d2 key fp (as_replay (cp_envelope c)).
Proof.
  intros Hd Hkf Hff Hres Hc Hcpl.
  pose proof (reserve_result_ok key fp tid mid amount currency d Hd) as Hd1. rewrite Hres in Hd1.
  destruct Hd1 as (_ & Hi & _). cbn [snd] in Hi.
  unfold complete_result in Hcpl. destruct (negb _); [discriminate|].
  destruct (update_transaction _ _ _ d1) as [[r|]| |]; try discriminate.
  destruct (update_idempotency _ _ _ _ _) as [[r'|]| |] eqn:Hu; try discriminate.
  injection Hcpl as <-. apply update_idempotency_row in Hu as (rec & Hl & _ & _ & Hs & Hok).
  cbn in Hl. pose proof (reserved_row _ _ _ _ _ _ _ _ _ Hkf Hff Hres Hl) as Hfp.
  pose proof (completed_as_given _ (completed_idempotency (cp_envelope c)) _ _ (Hi _ _ Hl) eq_refl Hs) as ->.
  destruct (Hi _ _ Hl) as [Hkey _]. exists (set_idempotency (completed_idempotency (cp_envelope c)) rec).
  split.
  - cbn. by rewrite Hkey, lookup_insert_eq.
  - rewrite (classify_entry _ _ _ Hok), entry_completed. cbn [en_fingerprint en_response].
    rewrite Hfp, (proj2 (str_eqb_eq fp fp) eq_refl).
    by destruct (replay_of_completion _ _ _ Hc) as [-> _].
Qed.

(** * One request on a failing database *)

(** What it leaves behind keeps the tables well-formed and the records as they were. *)
Lemma left_behind_keeps adapter command key fp d posts r d' posts' :
  left_behind adapter command key fp d posts r d' posts' -> db_ok d ->
  db_ok d' /\ forall k f e, recorded d k f e -> recorded d' k f e.
Proof.
  intros H Hd.
  pose proof (reserve_result_ok key fp (cmd_transaction_id command) (cmd_merchant_id command)
                (cmd_amount command) (cmd_currency command) d Hd) as Hok.
  pose proof (fun k f e => recorded_reserve k f e key fp (cmd_transaction_id command)
                (cmd_merchant_id command) (cmd_amount command) (cmd_currency command) d) as Hkeep.
  destruct H as [a Ha Hne|e He|d1 e Hres He|d1 answer e Hres Hans He|d1 d2 answer c r Hres Hans Hc Hcpl Hr];
    try done; rewrite Hres in Hok, Hkeep; try done. cbn [snd] in Hok, Hkeep.
  pose proof (complete_result_ok key (cp_transaction c) 0 (cp_envelope c) (cp_network_reference c)
                (cp_authorization_code c) (cp_decline_code c) d1 Hok) as Hok2.
  rewrite Hcpl in Hok2. split; [done|]. intros k f e Hrec.
  pose proof (recorded_complete k f e key (cp_transaction c) 0 (cp_envelope c)
    (cp_network_reference c) (cp_authorization_code c) (cp_decline_code c) d1 Hok (Hkeep _ _ _ Hrec)) as Hr2.
  by rewrite Hcpl in Hr2.
Qed.

(** A response that is no conflict is recorded. *)
Lemma left_behind_recorded adapter command key fp d posts envelope d' posts' :
  left_behind adapter command key fp d posts (Ok envelope) d' posts' -> db_ok d ->
  digest_format key = true -> digest_format fp = true -> env_status_code envelope <> 409 ->
  recorded d' key fp (as_replay envelope).
Proof.
  intros H Hd Hkf Hff Hne. remember (Ok envelope) as r eqn:Er.
  destruct H as [a Ha Hacq|e He|d1 e Hres He|d1 answer e Hres Hans He|d1 d2 answer c r Hres Hans Hc Hcpl Hr];
    try discriminate.
  - apply Ok_inj in Er. subst envelope. unfold reserve_result in Ha.
    destruct (idempotency_records d !! key) as [rec|] eqn:Hk.
    + exists rec. split; [done|]. cbn [fst] in Ha. rewrite Ha.
      revert Ha. unfold _classify_existing.
      repeat case_match; intros Ha; try discriminate; apply Ok_inj in Ha; subst a; try done;
        by destruct Hne.
    + exfalso. revert Ha. unfold conflict_result.
      repeat case_match; cbn [fst]; intros Ha; try discriminate; apply Ok_inj in Ha; subst a;
        [by destruct Hacq | by destruct Hne..].
  - destruct Hr as [Hr|(e & _ & Hr)]; rewrite Hr in Er; [|discriminate]. apply Ok_inj in Er.
    subst envelope. by eapply recorded_completed.
Qed.

(** A request whose answer is recorded is answered with it, or fails, and changes
    nothing. *)
Lemma left_behind_replays adapter command key fp d posts r d' posts' envelope :
  left_behind adapter command key fp d posts r d' posts' ->
  recorded d key fp envelope ->
  d' = d /\ posts' = posts /\ (r = Ok envelope \/ exists e, persistence_failure e /\ r = Raise e).
Proof.
  intros H (rec & Hk & Hc).
  assert (Hres : forall tid mid amount currency,
            reserve_result key fp tid mid amount currency d
            = (Ok (MkReservation COMPLETED (Some envelope)), d)).
  { intros. unfold reserve_result. by rewrite Hk, Hc. }
  destruct H as [a Ha Hne|e He|d1 e Hr He|d1 answer e Hr Hans He|d1 d2 answer c r Hr Hans Hcp Hcpl Hr'];
    try (rewrite Hres in Hr; discriminate).
  - rewrite Hres in Ha. cbn [fst] in Ha. apply Ok_inj in Ha. subst a. split_and!; auto.
  - split_and!; eauto.
Qed.

(** * The API on a failing database *)

Section api.
Context `{FastAPI}.
Abbreviation serve adapter req := (@post_transactions _ sql_coordinator (http_port adapter) req).

(** The reply to what the orchestrator returned or raised. *)
Definition reply_from (req : inbound) (x : res exn ResponseEnvelope) : reply :=
  reply_to (in_correlation_id req)
    (route_result (match x with Ok envelope => Ok (envelope_response envelope) | Raise e => Raise e end)).

(** A request is refused without effect, or leaves behind what the orchestrator does. *)
Definition served (adapter : HttpPaymentNetworkAdapter) (req : inbound) (d : db)
    (posts : list http_request) (rep : reply) (d' : db) (posts' : list http_request) : Prop :=
  match fa_resolve req with
  | Raise f => rep = reply_to (in_correlation_id req) (Raise f) /\ d' = d /\ posts' = posts
  | Ok (r, cid, raw_key) =>
      exists key fp x, compute_key_hash raw_key = Ok key /\ digest_format key = true
        /\ compute_request_fingerprint (rq_amount r) (rq_currency r) (rq_merchant_id r)
             (rq_payment_token r) (rq_transaction_id r) = Ok fp /\ digest_format fp = true
        /\ rep = reply_from req x
        /\ left_behind adapter (command_of r cid) key fp d posts x d' posts'
  end.

Lemma may_create_transaction adapter r cid key s x s' :
  may (@create_transaction sql_coordinator (http_port adapter) r cid key) s x s' ->
  exists y, may (orchestrate adapter (command_of r cid) key) s y s'
    /\ x = match y with Ok envelope => Ok (envelope_response envelope) | Raise e => Raise e end.
Proof.
  unfold create_transaction. intros Hm. apply may_io_bind in Hm as (y & s1 & Hy & Hm).
  exists y. destruct y as [envelope|e]; [destruct Hm as [<- ->] | destruct Hm as [-> ->]]; done.
Qed.

Lemma outcome_served adapter i req d posts rep w' :
  outcome i (serve adapter req) (MkWorld (MkPg d ∅) posts) rep w' ->
  exists d' posts', w' = MkWorld (MkPg d' ∅) posts' /\ served adapter req d posts rep d' posts'.
Proof.
  intros Ho. eapply outcome_idle; [exact Ho|]. intros s' Hm. unfold post_transactions, served in *.
  destruct (fa_resolve req) as [[[r cid] raw_key]|f] eqn:Hr.
  2: { destruct Hm as [<- ->]. by exists d, posts. }
  apply fa_calls in Hr as ((j & _ & Ha) & _ & Hkey). apply accepted_request_ok in Ha.
  destruct (in_idempotency_key req) as [v|]; [|discriminate].
  destruct (digests_computed v raw_key (rq_amount r) (rq_currency r) (rq_merchant_id r)
              (rq_payment_token r) (rq_transaction_id r) Hkey) as [(key & Hk & Hkf) (fp & Hf & Hff)].
  apply may_pbind in Hm as (x & s1 & Hm & [<- ->]).
  apply may_create_transaction in Hm as (y & Hm & ->).
  destruct (may_handle adapter (command_of r cid) raw_key key fp d posts y s1) as (d' & posts' & -> & Hl);
    [|done..|].
  { cbn [command_of cmd_transaction_id]. destruct (rqo_transaction_id _ Ha) as (Ht & Hn & _). by rewrite strip_id. }
  exists d', posts'. split; [done|]. exists key, fp, y. done.
Qed.

(** Requests served one after another, by any workers, over any network, with any
    failures. *)
Inductive history : world -> world -> Prop :=
| history_nil w : history w w
| history_next w adapter i req rep w1 w2 :
    outcome i (serve adapter req) w rep w1 -> history w1 w2 -> history w w2.

Lemma history_keeps w w' :
  history w w' -> forall d posts, w = MkWorld (MkPg d ∅) posts -> db_ok d ->
  exists d' posts', w' = MkWorld (MkPg d' ∅) posts' /\ db_ok d'
    /\ forall k f e, recorded d k f e -> recorded d' k f e.
Proof.
  induction 1 as [w|w adapter i req rep w1 w2 Ho Hh IH]; intros d posts -> Hd.
  { exists d, posts. done. }
  apply outcome_served in Ho as (d1 & posts1 & -> & Hs).
  assert (Hk : db_ok d1 /\ forall k f e, recorded d k f e -> recorded d1 k f e).
  { unfold served in Hs. destruct (fa_resolve req) as [[[r cid] raw_key]|f].
    - destruct Hs as (key & fp & x & _ & _ & _ & _ & _ & Hl). by eapply left_behind_keeps.
    - by destruct Hs as (_ & -> & _). }
  destruct Hk as [Hd1 Hk]. destruct (IH d1 posts1 eq_refl Hd1) as (d2 & posts2 & -> & Hd2 & Hk2).
  exists d2, posts2. eauto.
Qed.

(** Final answers come from recorded envelopes. *)
Definition final (response : JSONResponse) : Prop := jr_status_code response ∈ [201; 202; 502; 503].

Lemma final_envelope req x response :
  reply_from req x = Responded response -> final response ->
  (forall e, x = Raise e -> persistence_failure e \/ e = OptimisticConcurrencyError) ->
  exists envelope, x = Ok envelope /\ env_status_code envelope <> 409
    /\ jr_status_code response = env_status_code envelope
    /\ jr_content response = env_body envelope /\ jr_media_type response = env_media_type envelope.
Proof.
  unfold reply_from, final. destruct x as [envelope|e]; cbn [route_result reply_to].
  - intros [= <-] Hf _. exists envelope.
    destruct (middleware_same (in_correlation_id req) (envelope_response envelope)) as (E1 & E2 & E3).
    rewrite E1 in Hf |- *. split_and!; [done | | done..]. intros E. cbn in Hf. rewrite E in Hf.
    revert Hf. evaluate.
  - intros Hr Hf He. exfalso.
    assert (Hp : Responded (correlation_id_middleware (in_correlation_id req) persistence_error_handler)
                 = Responded response \/ Unhandled OtherError = Responded response).
    { destruct (He e eq_refl) as [[->| ->]| ->]; cbn in Hr; auto. }
    destruct Hp as [[= <-]|[=]].
    destruct (middleware_same (in_correlation_id req) persistence_error_handler) as [E _].
    rewrite E in Hf. revert Hf. evaluate.
Qed.

Lemma left_behind_errors adapter command key fp d posts e d' posts' :
  left_behind adapter command key fp d posts (Raise e) d' posts' ->
  persistence_failure e \/ e = OptimisticConcurrencyError.
Proof. inversion 1; naive_solver. Qed.

(** C13.  The first final answer stands.  Once a request was answered 201, 202, 502 or 503,
    then after any number of other requests, in which anything may have failed, over
    any networks, every request with the same idempotency key and body (under any
    correlation identifier) gets the same status, body and media type with
    Idempotent-Replay: true, unless a failure of the database makes it a 500 or an
    unhandled error; in every case it changes nothing in the tables and sends nothing
    to the network. *)
Theorem first_answer_stands adapter adapter' i i' req req' r cid cid' raw_key d posts
    response w1 w2 rep' w3 :
  db_ok d ->
  fa_resolve req = Ok (r, cid, raw_key) -> fa_resolve req' = Ok (r, cid', raw_key) ->
  outcome i (serve adapter req) (MkWorld (MkPg d ∅) posts) (Responded response) w1 ->
  final response ->
  history w1 w2 ->
  outcome i' (serve adapter' req') w2 rep' w3 ->
  w3 = w2
  /\ ((exists response', rep' = Responded response'
        /\ jr_status_code response' = jr_status_code response
        /\ jr_content response' = jr_content response
        /\ jr_media_type response' = jr_media_type response
        /\ (py "Idempotent-Replay", py "true") ∈ jr_headers response')
      \/ (exists response', rep' = Responded response' /\ jr_status_code response' = 500)
      \/ rep' = Unhandled OtherError).
Proof.
  intros Hd Hr Hr' Ho Hfin Hh Ho'. apply outcome_served in Ho as (d1 & posts1 & -> & Hs).
  unfold served in Hs. rewrite Hr in Hs.
  destruct Hs as (key & fp & x & Hk & Hkf & Hf & Hff & Hrep & Hl).
  destruct (final_envelope req x response) as (envelope & -> & Hne & E1 & E2 & E3); [done..| |].
  { intros e ->. by eapply left_behind_errors. }
  pose proof (left_behind_recorded _ _ _ _ _ _ _ _ _ Hl Hd Hkf Hff Hne) as Hrec.
  destruct (left_behind_keeps _ _ _ _ _ _ _ _ _ Hl Hd) as [Hd1 _].
  destruct (history_keeps _ _ Hh d1 posts1 eq_refl Hd1) as (d2 & posts2 & -> & _ & Hk2).
  apply outcome_served in Ho' as (d3 & posts3 & -> & Hs').
  unfold served in Hs'. rewrite Hr' in Hs'.
  destruct Hs' as (key' & fp' & x' & Hk' & _ & Hf' & _ & -> & Hl').
  rewrite Hk in Hk'. apply Ok_inj in Hk'. subst key'. rewrite Hf in Hf'. apply Ok_inj in Hf'. subst fp'.
  destruct (left_behind_replays _ _ _ _ _ _ _ _ _ _ Hl' (Hk2 _ _ _ Hrec)) as (-> & -> & Hx).
  split; [done|]. destruct Hx as [->|(e & He & ->)].
  - left. eexists. split; [reflexivity|].
    destruct (middleware_same (in_correlation_id req') (envelope_response (as_replay envelope)))
      as (-> & -> & ->).
    rewrite E1, E2, E3. split_and!; try done. by apply replay_header.
  - right. destruct He as [->| ->]; [left|by right]. eexists. split; [reflexivity|].
    by destruct (middleware_same (in_correlation_id req') persistence_error_handler) as [-> _].
Qed.
End api.

(** ** A concrete history *)

(** Another customer's request, the commit of whose completion is lost. *)
Definition other_inbound : inbound :=
  MkInbound (Some (py "corr_9")) (Some (py "key-9"))
    (Parsed (JObj [(py "transaction_id", JStr (py "txn_9")); (py "merchant_id", JStr (py "merchant_9"));
                   (py "payment_token", JStr (py "tok_test_approved")); (py "amount", JInt 100);
                   (py "currency", JStr (py "EUR"))])).

Abbreviation sample_serve req :=
  (@post_transactions reference_fastapi sql_coordinator (http_port sample_adapter) req).

Definition answered_world : world := MkWorld (fst sample_state) sample_posts.
Definition other_run :=
  Eval vm_compute in
  @run ReferenceEngine.engine approving_network _ 0 (sample_serve other_inbound)
    (w_pg answered_world, lost_commit 8) (w_posts answered_world).
Definition later_world : world := Eval vm_compute in failing_state other_run.
Definition other_reply : reply :=
  Eval vm_compute in match other_run with Some (rep, _) => rep | None => Unhandled OtherError end.
Definition retry_run :=
  Eval vm_compute in
  @run ReferenceEngine.engine silent_network _ 0 (sample_serve sample_inbound_retry)
    (w_pg later_world, []) (w_posts later_world).
Definition retry_reply : reply :=
  Eval vm_compute in match retry_run with Some (rep, _) => rep | None => Unhandled OtherError end.

Lemma first_outcome :
  @outcome reply 0 (sample_serve sample_inbound) (MkWorld (MkPg empty_db ∅) [])
    (Responded sample_http_response) answered_world.
Proof.
  exact (@run_outcome ReferenceEngine.engine _ approving_network 0 _ (ReferenceEngine.serving empty_db) []
           _ sample_state sample_posts approving_contract sample_served).
Qed.

Lemma other_run_computed :
  @run ReferenceEngine.engine approving_network _ 0 (sample_serve other_inbound)
    (w_pg answered_world, lost_commit 8) (w_posts answered_world)
  = Some (other_reply, ((w_pg later_world, []), w_posts later_world)).
Proof. by_run. Qed.

Lemma later_history : @history reference_fastapi answered_world later_world.
Proof.
  apply (history_next _ sample_adapter 0 other_inbound other_reply later_world); [|apply history_nil].
  exact (@run_outcome ReferenceEngine.engine _ approving_network 0 _ (w_pg answered_world, lost_commit 8)
           (w_posts answered_world) _ (w_pg later_world, []) (w_posts later_world)
           approving_contract other_run_computed).
Qed.

Lemma retry_run_computed :
  @run ReferenceEngine.engine silent_network _ 0 (sample_serve sample_inbound_retry)
    (w_pg later_world, []) (w_posts later_world)
  = Some (retry_reply, ((w_pg later_world, []), w_posts later_world)).
Proof. by_run. Qed.

Lemma retry_outcome :
  @outcome reply 0 (sample_serve sample_inbound_retry) later_world retry_reply later_world.
Proof.
  exact (@run_outcome ReferenceEngine.engine _ silent_network 0 _ (w_pg later_world, [])
           (w_posts later_world) _ (w_pg later_world, []) (w_posts later_world)
           silent_contract retry_run_computed).
Qed.

Lemma first_answer_stands_witness :
  length (w_posts later_world) = 2%nat
  /\ later_world = later_world
  /\ ((exists response', retry_reply = Responded response'
        /\ jr_status_code response' = jr_status_code sample_http_response
        /\ jr_content response' = jr_content sample_http_response
        /\ jr_media_type response' = jr_media_type sample_http_response
        /\ (py "Idempotent-Replay", py "true") ∈ jr_headers response')
      \/ (exists response', retry_reply = Responded response' /\ jr_status_code response' = 500)
      \/ retry_reply = Unhandled OtherError).
Proof.
  split; [reflexivity|].
  refine (@first_answer_stands reference_fastapi sample_adapter sample_adapter 0 0 sample_inbound
            sample_inbound_retry sample_request (py "corr_1") (py "corr_2") sample_raw_key empty_db []
            sample_http_response answered_world later_world retry_reply later_world
            db_ok_empty sample_resolved sample_resolved_retry first_outcome _ later_history retry_outcome).
  vm_compute. left.
Defined.
