(* ===== verification/Atomic.v ===== *)
(** The API as its clients may think of it: a machine in which every request acts on the
    ledger of keys and transactions in at most two indivisible actions, the reservation
    and the completion, and asks the network at most once in between. *)
From S2P Require Import Prelude PyStr Sha256 Json Domain Ports Idempotency Schema Effects Adapter.
From S2P Require Import Authorize Problem Coordinator Ledger Orchestrator Protocol Coherence Faults.
From S2P Require Import Requests JsonText Bodies Api History.

Open Scope Z_scope.

Section atomic.
Context `{FastAPI}.

(** * Requests *)

(** What an accepted request asks of the ledger. *)
Record demand : Type := MkDemand {
  dm_key : pystr;
  dm_fingerprint : pystr;
  dm_command : AuthorizeTransactionCommand
}.

Definition demand_of (req : inbound) : option demand :=
  match fa_resolve req with
  | Raise _ => None
  | Ok (r, cid, raw_key) =>
      match compute_key_hash raw_key,
            compute_request_fingerprint (rq_amount r) (rq_currency r) (rq_merchant_id r)
              (rq_payment_token r) (rq_transaction_id r) with
      | Ok key, Ok fp => Some (MkDemand key fp (command_of r cid))
      | _, _ => None
      end
  end.

Definition dm_transaction (dm : demand) : pystr := cmd_transaction_id (dm_command dm).

Definition reserving (dm : demand) (l : ledger) : IdempotencyReservation * ledger :=
  ledger_reserve (dm_key dm) (dm_fingerprint dm) (dm_transaction dm)
    (cmd_merchant_id (dm_command dm)) (cmd_amount (dm_command dm)) (cmd_currency (dm_command dm)) l.

Definition completing (dm : demand) (c : completion) (l : ledger) : res exn unit * ledger :=
  ledger_complete (dm_key dm) (cp_transaction c) 0 (cp_envelope c) (cp_network_reference c)
    (cp_authorization_code c) (cp_decline_code c) l.

(** Errors a request may end with: a persistence error, which is answered 500, or a
    failure of a library that no handler covers. *)
Definition failing (e : exn) : Prop := is_PersistenceError e = true \/ e = OtherError.

(** What the network, or its absence, may make of a request. *)
Definition possible_verdict (v : verdict) : Prop := exists r, post_contract r /\ v = http_verdict r.

(** The HTTP request that asks the network for it. *)
Definition posts_demand (hreq : http_request) (dm : demand) : Prop :=
  exists adapter, hreq = authorization_post adapter (port_request (dm_command dm)).

Lemma posted_demand hreq dm :
  posts_demand hreq dm -> posted_id hreq = Some (JStr (dm_transaction dm)).
Proof. by intros [adapter ->]. Qed.

(** * The machine *)

(** How far a request has come. *)
Inductive phase : Type :=
| Pending
| Granted
| Asked (v : verdict)
| Answering (rep : reply).

(** A request that is refused by its headers or its body never reaches the ledger. *)
Definition opening (req : inbound) : phase :=
  match fa_resolve req with
  | Ok _ => Pending
  | Raise f => Answering (reply_to (in_correlation_id req) (Raise f))
  end.

(** The indivisible actions of a request on the ledger. *)
Inductive act (req : inbound) : phase -> ledger -> phase -> ledger -> Prop :=
| act_refused dm a l :
    demand_of req = Some dm -> reserving dm l = (a, l) -> res_status a <> ACQUIRED ->
    act req Pending l (Answering (reply_from req (Ok (immediate a)))) l
| act_granted dm a l l' :
    demand_of req = Some dm -> reserving dm l = (a, l') -> res_status a = ACQUIRED ->
    act req Pending l Granted l'
| act_settled dm v c l l' :
    demand_of req = Some dm -> completion_of (dm_transaction dm) v = Ok c ->
    completing dm c l = (Ok tt, l') ->
    act req (Asked v) l (Answering (reply_from req (Ok (cp_envelope c)))) l'
| act_failed ph e l :
    failing e -> act req ph l (Answering (reply_from req (Raise e))) l.

(** The ledger, the transactions the network was asked for, the live requests, and the
    replies given.  What the network makes of a request is one of the [allowed] verdicts. *)
Record atomic : Type := MkAtomic {
  at_ledger : ledger;
  at_asked : list pystr;
  at_live : gmap nat (inbound * phase);
  at_answered : list (inbound * reply)
}.

Inductive atomic_step (allowed : demand -> verdict -> Prop) (a : atomic) : atomic -> Prop :=
| at_arrives i req :
    at_live a !! i = None ->
    atomic_step allowed a (MkAtomic (at_ledger a) (at_asked a) (<[i := (req, opening req)]> (at_live a))
                     (at_answered a))
| at_acts i req ph ph' l' :
    at_live a !! i = Some (req, ph) -> act req ph (at_ledger a) ph' l' ->
    atomic_step allowed a (MkAtomic l' (at_asked a) (<[i := (req, ph')]> (at_live a)) (at_answered a))
| at_asks i req dm v :
    at_live a !! i = Some (req, Granted) -> demand_of req = Some dm -> possible_verdict v -> allowed dm v ->
    atomic_step allowed a (MkAtomic (at_ledger a) (at_asked a ++ [dm_transaction dm])
                     (<[i := (req, Asked v)]> (at_live a)) (at_answered a))
| at_returns i req rep :
    at_live a !! i = Some (req, Answering rep) ->
    atomic_step allowed a (MkAtomic (at_ledger a) (at_asked a) (delete i (at_live a))
                     (at_answered a ++ [(req, rep)]))
| at_vanishes i req ph :
    at_live a !! i = Some (req, ph) ->
    atomic_step allowed a (MkAtomic (at_ledger a) (at_asked a) (delete i (at_live a)) (at_answered a)).

Definition at_initial : atomic := MkAtomic (MkLedger ∅ ∅) [] ∅ [].

(** A request may fail at any point. *)
Lemma at_fails allowed a i req ph e :
  at_live a !! i = Some (req, ph) -> failing e ->
  rtc (atomic_step allowed) a (MkAtomic (at_ledger a) (at_asked a) (delete i (at_live a))
                       (at_answered a ++ [(req, reply_from req (Raise e))])).
Proof.
  intros Ha He. set (rep := reply_from req (Raise e)).
  set (a1 := MkAtomic (at_ledger a) (at_asked a) (<[i := (req, Answering rep)]> (at_live a)) (at_answered a)).
  eapply rtc_l; [eapply (at_acts allowed a i req ph (Answering rep)); [exact Ha | by apply act_failed]|].
  apply rtc_once. rewrite <- (delete_insert_eq (at_live a) i (req, Answering rep)).
  apply (at_returns allowed a1 i req rep). cbn. by rewrite lookup_insert_eq.
Qed.

(** * What the ledger keeps *)

(** A key keeps its request, and its response once it has one; transactions stay. *)
Record keeps (l l' : ledger) : Prop := MkKeeps {
  kp_keys : forall key e, l_keys l !! key = Some e ->
    exists e', l_keys l' !! key = Some e' /\ en_fingerprint e' = en_fingerprint e
      /\ en_transaction_id e' = en_transaction_id e /\ (is_Some (en_response e) -> e' = e);
  kp_transactions : forall tid, is_Some (l_transactions l !! tid) -> is_Some (l_transactions l' !! tid)
}.

#[export] Instance keeps_preorder : PreOrder keeps.
Proof.
  split.
  - intros l. constructor; [|done]. intros key e Hk. by exists e.
  - intros l1 l2 l3 [K1 T1] [K2 T2]. constructor; [|auto]. intros key e Hk.
    destruct (K1 _ _ Hk) as (e2 & Hk2 & Hf & Ht & Hr). destruct (K2 _ _ Hk2) as (e3 & Hk3 & Hf3 & Ht3 & Hr3).
    exists e3. split_and!; [done | congruence.. |]. intros Hs. rewrite Hr3; [by apply Hr|]. by rewrite Hr.
Qed.

(** Cached responses are marked as replays. *)
Definition replays_marked (l : ledger) : Prop :=
  forall key e s, l_keys l !! key = Some e -> en_response e = Some s -> as_replay s = s.

Lemma reserving_keeps dm a l l' :
  reserving dm l = (a, l') -> keeps l l' /\ (replays_marked l -> replays_marked l').
Proof.
  unfold reserving, ledger_reserve. destruct (l_keys l !! dm_key dm) as [e|] eqn:Hk; [by intros [= _ <-]|].
  destruct (l_transactions l !! dm_transaction dm) as [r|] eqn:Ht; [by intros [= _ <-]|].
  intros [= _ <-]. split.
  - constructor; cbn.
    + intros key e He. exists e. by rewrite lookup_insert_ne by congruence.
    + intros tid Hs. apply lookup_insert_is_Some'. by right.
  - intros Hm key e s. cbn. intros [[<- <-]|[_ He]]%lookup_insert_Some; [done | by eapply Hm].
Qed.

(** What an accepted completion finds and leaves. *)
Lemma completing_ok dm c l l' :
  completing dm c l = (Ok tt, l') ->
  exists e r, l_keys l !! dm_key dm = Some e /\ en_response e = None
    /\ l_transactions l !! transaction_id (cp_transaction c) = Some r
    /\ l_keys l' = <[dm_key dm := MkEntry (en_fingerprint e) (en_transaction_id e)
                                    (Some (replay_of (cp_envelope c)))]> (l_keys l)
    /\ l_transactions l' = <[transaction_id (cp_transaction c) :=
         set_transaction (completed_transaction (cp_transaction c) (cp_network_reference c)
           (cp_authorization_code c) (cp_decline_code c)) r]> (l_transactions l).
Proof.
  unfold completing, ledger_complete. destruct (l_transactions l !! _) as [r|]; [|done].
  destruct (l_keys l !! dm_key dm) as [[fp tid [s|]]|]; [done| |done]. destruct (_ && _); [|done].
  intros [= <-]. by eexists _, r.
Qed.

Lemma completing_keeps dm v c l l' :
  completing dm c l = (Ok tt, l') -> completion_of (dm_transaction dm) v = Ok c ->
  keeps l l' /\ (replays_marked l -> replays_marked l').
Proof.
  intros (e & r & Hk & Hn & Ht & Hk' & Ht')%completing_ok Hc. split.
  - constructor; rewrite ?Hk', ?Ht'.
    + intros key e0 He. destruct (decide (key = dm_key dm)) as [->|Hne].
      * rewrite lookup_insert_eq. eexists. split; [done|]. simplify_eq. split_and!; [done..|].
        rewrite Hn. by intros [? [=]].
      * exists e0. by rewrite lookup_insert_ne.
    + intros tid Hs. apply lookup_insert_is_Some'. by right.
  - intros Hm key e0 s. rewrite Hk'. intros [[<- <-]|[_ He]]%lookup_insert_Some; [|by eapply Hm].
    cbn [en_response]. destruct (replay_of_completion _ _ _ Hc) as [-> _]. by intros [= <-].
Qed.

(** * What the replies say *)

(** The answer to an accepted request is the cached one, or a conflict that the ledger
    shows. *)
Inductive explained (l : ledger) (dm : demand) : ResponseEnvelope -> Prop :=
| ex_answered e envelope :
    l_keys l !! dm_key dm = Some e -> en_fingerprint e = dm_fingerprint dm ->
    en_response e = Some (as_replay envelope) -> explained l dm envelope
| ex_in_progress e :
    l_keys l !! dm_key dm = Some e -> en_fingerprint e = dm_fingerprint dm ->
    explained l dm in_progress_envelope
| ex_conflict e :
    l_keys l !! dm_key dm = Some e -> en_fingerprint e <> dm_fingerprint dm ->
    explained l dm idempotency_conflict_envelope
| ex_transaction_conflict :
    is_Some (l_transactions l !! dm_transaction dm) ->
    explained l dm transaction_id_conflict_envelope.

Inductive account (l : ledger) (req : inbound) : reply -> Prop :=
| ac_refused f :
    fa_resolve req = Raise f -> account l req (reply_to (in_correlation_id req) (Raise f))
| ac_failed e : failing e -> account l req (reply_from req (Raise e))
| ac_explained dm envelope :
    demand_of req = Some dm -> explained l dm envelope ->
    account l req (reply_from req (Ok envelope)).

Lemma explained_keeps l l' dm envelope :
  keeps l l' -> explained l dm envelope -> explained l' dm envelope.
Proof.
  intros [Hk Ht] He. destruct He as [e envelope He Hf Hr|e He Hf|e He Hf|Hs].
  - destruct (Hk _ _ He) as (e' & He' & _ & _ & Heq). rewrite Heq in He' by (by rewrite Hr).
    by eapply ex_answered.
  - destruct (Hk _ _ He) as (e' & He' & Hf' & _). eapply ex_in_progress; [done | congruence].
  - destruct (Hk _ _ He) as (e' & He' & Hf' & _). eapply ex_conflict; [done | congruence].
  - by apply ex_transaction_conflict, Ht.
Qed.

Lemma account_keeps l l' req rep : keeps l l' -> account l req rep -> account l' req rep.
Proof.
  intros Hk [f Hf|e He|dm envelope Hd He]; [by apply ac_refused | by apply ac_failed |].
  eapply ac_explained; [done | by eapply explained_keeps].
Qed.

(** What is known of a request at each phase. *)
Definition phase_ok (l : ledger) (req : inbound) (ph : phase) : Prop :=
  match ph with
  | Pending => True
  | Granted | Asked _ => forall dm, demand_of req = Some dm ->
      exists e, l_keys l !! dm_key dm = Some e /\ en_fingerprint e = dm_fingerprint dm
  | Answering rep => account l req rep
  end.

Lemma phase_ok_keeps l l' req ph : keeps l l' -> phase_ok l req ph -> phase_ok l' req ph.
Proof.
  intros Hk. destruct ph; cbn; [done|intros Hg dm Hd..|by apply account_keeps];
    destruct (Hg dm Hd) as (e & He & Hf); destruct (kp_keys _ _ Hk _ _ He) as (e' & He' & Hf' & _);
    exists e'; (split; [done | congruence]).
Qed.

Lemma opening_ok l req : phase_ok l req (opening req).
Proof. unfold opening. destruct (fa_resolve req) eqn:Hr; [done | by apply ac_refused]. Qed.

Lemma refused_explained dm a l :
  replays_marked l -> reserving dm l = (a, l) -> res_status a <> ACQUIRED -> explained l dm (immediate a).
Proof.
  intros Hm. unfold reserving, ledger_reserve, immediate.
  destruct (l_keys l !! dm_key dm) as [e|] eqn:Hk.
  - destruct (str_eqb (en_fingerprint e) (dm_fingerprint dm)) eqn:Hf; cbn [negb].
    + apply str_eqb_eq in Hf. destruct (en_response e) as [s|] eqn:Hr; intros [= <-] _; cbn.
      * eapply ex_answered; [done..|]. by rewrite (Hm _ _ _ Hk Hr).
      * by eapply ex_in_progress.
    + intros [= <-] _. eapply ex_conflict; [done|]. intros E. apply str_eqb_eq in E. congruence.
  - destruct (l_transactions l !! dm_transaction dm) as [r|] eqn:Ht; intros [= <-]; [|done].
    intros _. apply ex_transaction_conflict. by rewrite Ht.
Qed.

Lemma act_ok req ph l ph' l' :
  act req ph l ph' l' -> replays_marked l -> phase_ok l req ph ->
  keeps l l' /\ replays_marked l' /\ phase_ok l' req ph'.
Proof.
  intros Ha Hm Hp. destruct Ha as [dm a l Hd Hres Hne|dm a l l' Hd Hres Ha|dm v c l l' Hd Hc Hcpl|ph e l He].
  - split_and!; [done..|]. eapply ac_explained; [done | by apply refused_explained].
  - destruct (reserving_keeps _ _ _ _ Hres) as [Hk Hm']. split_and!; [done | auto|].
    intros dm' Hd'. rewrite Hd in Hd'. injection Hd' as <-.
    pose proof (ledger_reserve_cases (dm_key dm) (dm_fingerprint dm) (dm_transaction dm)
      (cmd_merchant_id (dm_command dm)) (cmd_amount (dm_command dm)) (cmd_currency (dm_command dm)) l) as Hcs.
    unfold reserving in Hres. rewrite Hres, Ha in Hcs. destruct Hcs as (_ & _ & -> & _).
    eexists. rewrite lookup_insert_eq. done.
  - destruct (completing_keeps _ _ _ _ _ Hcpl Hc) as [Hk Hm']. split_and!; [done | auto|].
    eapply ac_explained; [done|]. destruct (Hp dm Hd) as (e & He & Hf).
    apply completing_ok in Hcpl as (e' & r & He' & _ & _ & Hk' & _). simplify_eq.
    eapply ex_answered; [by rewrite Hk', lookup_insert_eq | done|].
    cbn [en_response]. by destruct (replay_of_completion _ _ _ Hc) as [-> _].
  - split_and!; [done..|]. by apply ac_failed.
Qed.

(** * Runs of the machine *)

Record machine_ok (a : atomic) : Prop := MkMachineOk {
  mo_replays : replays_marked (at_ledger a);
  mo_live : forall i req ph, at_live a !! i = Some (req, ph) -> phase_ok (at_ledger a) req ph;
  mo_answered : forall req rep, (req, rep) ∈ at_answered a -> account (at_ledger a) req rep
}.

Lemma machine_ok_initial : machine_ok at_initial.
Proof. constructor; cbn; [intros ? ? ? [=] | intros ? ? ? [=] | by intros ? ? ?%elem_of_nil]. Qed.

(** A request that moved, the others seeing a ledger that kept what it knew. *)
Lemma live_insert (live : gmap nat (inbound * phase)) l l' i req ph :
  keeps l l' -> (forall j q p, live !! j = Some (q, p) -> phase_ok l q p) -> phase_ok l' req ph ->
  forall j q p, <[i := (req, ph)]> live !! j = Some (q, p) -> phase_ok l' q p.
Proof.
  intros Hk Hl Hp j q p [[_ [= <- <-]]|[_ Hj]]%lookup_insert_Some; [done|].
  by eapply phase_ok_keeps, Hl.
Qed.

Lemma live_delete (live : gmap nat (inbound * phase)) l i :
  (forall j q p, live !! j = Some (q, p) -> phase_ok l q p) ->
  forall j q p, delete i live !! j = Some (q, p) -> phase_ok l q p.
Proof. intros Hl j q p [_ Hj]%lookup_delete_Some. by eapply Hl. Qed.

Lemma machine_ok_step allowed a a' :
  machine_ok a -> atomic_step allowed a a' -> machine_ok a' /\ keeps (at_ledger a) (at_ledger a').
Proof.
  intros [Hm Hl Ha] Hs. destruct Hs as [i req Hi|i req ph ph' l' Hi Hact|i req dm v Hi Hd Hv _|i req rep Hi|i req ph Hi].
  - split; [|done]. constructor; cbn; [done| |done]. eapply live_insert; [done..|apply opening_ok].
  - destruct (act_ok _ _ _ _ _ Hact Hm (Hl _ _ _ Hi)) as (Hk & Hm' & Hp'). split; [|done].
    constructor; cbn; [done | by eapply live_insert|]. intros q r Hin. by eapply account_keeps, Ha.
  - split; [|done]. constructor; cbn; [done| |done]. eapply live_insert; [done..|].
    exact (Hl _ _ _ Hi).
  - split; [|done]. constructor; cbn; [done | by apply live_delete|].
    intros q r [Hin|[= -> ->]%list_elem_of_singleton]%elem_of_app; [by apply Ha|].
    exact (Hl _ _ _ Hi).
  - split; [|done]. constructor; cbn; [done | by apply live_delete | done].
Qed.

Lemma machine_ok_reachable allowed a : rtc (atomic_step allowed) at_initial a -> machine_ok a.
Proof.
  revert a. refine (rtc_ind_r _ _ _ _); [apply machine_ok_initial|].
  intros a a' _ Hs Ha. by apply (machine_ok_step allowed a a').
Qed.

(** ** Where the cached responses come from *)

Section sources.
Context (allowed : demand -> verdict -> Prop).

(** A response that completed the request of a client, as an allowed verdict has it. *)
Definition sourced (key : pystr) (e : entry) (envelope : ResponseEnvelope) : Prop :=
  exists dm v c, dm_key dm = key /\ dm_fingerprint dm = en_fingerprint e
    /\ dm_transaction dm = en_transaction_id e /\ (exists req, demand_of req = Some dm)
    /\ allowed dm v /\ completion_of (dm_transaction dm) v = Ok c /\ envelope = replay_of (cp_envelope c).

(** The entry that a request has reserved. *)
Definition reserved_entry (l : ledger) (dm : demand) : Prop :=
  exists e, l_keys l !! dm_key dm = Some e /\ en_fingerprint e = dm_fingerprint dm
    /\ en_transaction_id e = dm_transaction dm.

Definition phase_sourced (l : ledger) (req : inbound) (ph : phase) : Prop :=
  forall dm, demand_of req = Some dm ->
  match ph with
  | Granted => reserved_entry l dm
  | Asked v => reserved_entry l dm /\ allowed dm v
  | _ => True
  end.

Record machine_sourced (a : atomic) : Prop := MkMachineSourced {
  ms_entries : forall key e s, l_keys (at_ledger a) !! key = Some e -> en_response e = Some s -> sourced key e s;
  ms_live : forall i req ph, at_live a !! i = Some (req, ph) -> phase_sourced (at_ledger a) req ph
}.

Lemma reserved_entry_keeps l l' dm : keeps l l' -> reserved_entry l dm -> reserved_entry l' dm.
Proof.
  intros Hk (e & He & Hf & Ht). destruct (kp_keys _ _ Hk _ _ He) as (e' & He' & Hf' & Ht' & _).
  exists e'. split_and!; [done | congruence..].
Qed.

Lemma phase_sourced_keeps l l' req ph : keeps l l' -> phase_sourced l req ph -> phase_sourced l' req ph.
Proof.
  intros Hk Hp dm Hd. specialize (Hp dm Hd). destruct ph; try done.
  - by eapply reserved_entry_keeps.
  - destruct Hp. split; [by eapply reserved_entry_keeps | done].
Qed.

Lemma act_sourced req ph l ph' l' :
  act req ph l ph' l' -> phase_sourced l req ph ->
  (forall key e s, l_keys l !! key = Some e -> en_response e = Some s -> sourced key e s) ->
  keeps l l' /\ phase_sourced l' req ph'
  /\ forall key e s, l_keys l' !! key = Some e -> en_response e = Some s -> sourced key e s.
Proof.
  intros Ha Hp He. destruct Ha as [dm a l Hd Hres Hne|dm a l l' Hd Hres Ha|dm v c l l' Hd Hc Hcpl|ph e l Hf]; try done.
  - destruct (reserving_keeps _ _ _ _ Hres) as [Hk _]. split; [done|].
    unfold reserving, ledger_reserve in Hres. destruct (l_keys l !! dm_key dm) as [e0|] eqn:Hkey.
    { exfalso. repeat case_match; simplify_eq. }
    destruct (l_transactions l !! dm_transaction dm) eqn:Ht; simplify_eq. split.
    + intros dm' Hd'. simplify_eq. eexists. cbn. by rewrite lookup_insert_eq.
    + intros key e s. cbn. intros [[<- <-]|[_ Hl]]%lookup_insert_Some; [done | by apply He].
  - destruct (completing_keeps _ _ _ _ _ Hcpl Hc) as [Hk _]. split; [done|]. split; [done|].
    destruct (Hp dm Hd) as [(e0 & He0 & Hf0 & Ht0) Hall].
    apply completing_ok in Hcpl as (e1 & r & Hl & _ & _ & Hk' & _). simplify_eq.
    intros key e s. rewrite Hk'. intros [[<- <-]|[_ Hl']]%lookup_insert_Some; [|by apply He].
    cbn [en_response en_fingerprint en_transaction_id]. intros [= <-].
    exists dm, v, c. split_and!; try done. by exists req.
Qed.

Lemma machine_sourced_step a a' :
  machine_sourced a -> atomic_step allowed a a' -> machine_sourced a'.
Proof.
  intros [He Hl] Hs.
  assert (Hins : forall i req ph l, keeps (at_ledger a) l -> phase_sourced l req ph ->
    forall j q p, <[i := (req, ph)]> (at_live a) !! j = Some (q, p) -> phase_sourced l q p).
  { intros i req ph l Hk Hp j q p [[_ [= <- <-]]|[_ Hj]]%lookup_insert_Some; [done|].
    by eapply phase_sourced_keeps, Hl. }
  destruct Hs as [i req Hi|i req ph ph' l' Hi Hact|i req dm v Hi Hd _ Hv|i req rep Hi|i req ph Hi].
  - constructor; cbn; [done|]. eapply Hins; [done|]. intros dm _. unfold opening. by destruct (fa_resolve req).
  - destruct (act_sourced _ _ _ _ _ Hact (Hl _ _ _ Hi) He) as (Hk & Hp & He'). constructor; cbn; [done|].
    by apply Hins.
  - constructor; cbn; [done|]. apply Hins; [done|]. intros dm' Hd'. simplify_eq. split; [|done].
    exact (Hl _ _ _ Hi dm Hd).
  - constructor; cbn; [done|]. intros j q p [_ Hj]%lookup_delete_Some. by eapply Hl.
  - constructor; cbn; [done|]. intros j q p [_ Hj]%lookup_delete_Some. by eapply Hl.
Qed.

Lemma machine_sourced_reachable a : rtc (atomic_step allowed) at_initial a -> machine_sourced a.
Proof.
  revert a. refine (rtc_ind_r _ _ _ _); [by constructor|].
  intros a a' _ Hs Ha. by eapply machine_sourced_step.
Qed.

End sources.

(** ** Final answers *)

Lemma refused_not_final req f response :
  fa_resolve req = Raise f -> reply_to (in_correlation_id req) (Raise f) = Responded response ->
  ~ final response.
Proof.
  intros Hf%fa_refuses Hr Hfin.
  assert (Hh : exists r0, registered_handler f = Some r0
                          /\ (jr_status_code r0 = 400 \/ jr_status_code r0 = 422)).
  { destruct Hf as [[-> _]|[[-> _]|[(errors & -> & _)|[-> _]]]]; cbn [registered_handler].
    1,2,4: eexists; split; [reflexivity | by left].
    eexists. split; [reflexivity|]. unfold validation_exception_handler.
    destruct (existsb _ errors); [by left | by right]. }
  destruct Hh as (r0 & Hh & Hc). unfold reply_to in Hr. rewrite Hh in Hr.
  assert (Hresp : correlation_id_middleware (in_correlation_id req) r0 = response)
    by (destruct f; by injection Hr).
  subst response. unfold final in Hfin. destruct (middleware_same (in_correlation_id req) r0) as [E _].
  rewrite E in Hfin. revert Hfin. destruct Hc as [-> | ->]; evaluate.
Qed.

(** A final answer is the one the ledger holds for the key. *)
Lemma final_recorded l req response :
  account l req (Responded response) -> final response ->
  exists dm e envelope, demand_of req = Some dm /\ l_keys l !! dm_key dm = Some e
    /\ en_fingerprint e = dm_fingerprint dm /\ en_response e = Some envelope
    /\ jr_status_code response = env_status_code envelope
    /\ jr_content response = env_body envelope /\ jr_media_type response = env_media_type envelope.
Proof.
  intros Ha Hfin. remember (Responded response) as rep eqn:Erep.
  destruct Ha as [f Hf|e He|dm envelope Hd Hex].
  - by destruct (refused_not_final req f response).
  - exfalso. destruct (final_envelope req (Raise e) response Erep Hfin) as (? & [=] & _).
    intros e' [= <-]. unfold persistence_failure.
    destruct He as [He| ->]; [destruct e; try discriminate He|]; auto.
  - destruct (final_envelope req (Ok envelope) response Erep Hfin) as (env & He & Hne & E1 & E2 & E3);
      [done|]. apply Ok_inj in He. subst env.
    destruct Hex as [e envelope He Hf Hr|e He Hf|e He Hf|Hs]; [|by destruct Hne..].
    exists dm, e, (as_replay envelope). done.
Qed.

Lemma finals_agree l req req' dm dm' response response' :
  account l req (Responded response) -> account l req' (Responded response') ->
  final response -> final response' ->
  demand_of req = Some dm -> demand_of req' = Some dm' -> dm_key dm = dm_key dm' ->
  dm_fingerprint dm = dm_fingerprint dm'
  /\ jr_status_code response = jr_status_code response'
  /\ jr_content response = jr_content response' /\ jr_media_type response = jr_media_type response'.
Proof.
  intros Ha Ha' Hfin Hfin' Hd Hd' Hk.
  destruct (final_recorded _ _ _ Ha Hfin) as (dm1 & e & env & Hd1 & He & Hf & Hr & -> & -> & ->).
  destruct (final_recorded _ _ _ Ha' Hfin') as (dm2 & e2 & env2 & Hd2 & He2 & Hf2 & Hr2 & -> & -> & ->).
  simplify_eq. rewrite Hk in He. simplify_eq. split_and!; congruence.
Qed.

End atomic.
