(* ===== verification/Tracking.v ===== *)
(** How far one request of the API has come in the machine of Atomic.v, as a logic over
    its program: every operation the program performs, whatever the database and the
    network answer and whatever the other requests do, is an action of the machine or
    leaves the ledger alone. *)
From S2P Require Import Prelude PyStr Sha256 Json Domain Ports Idempotency Schema Effects Adapter.
From S2P Require Import Authorize Problem Coordinator Ledger Orchestrator Protocol Coherence Faults.
From S2P Require Import Requests JsonText Bodies Api History Atomic.

Open Scope Z_scope.
Open Scope io_scope.

Section tracking.
Context `{FastAPI} (i : nat) (req : inbound).

(** * The logic *)

Definition may_move (ph : phase) (l : ledger) (ph' : phase) (l' : ledger) : Prop :=
  (ph' = ph /\ l' = l) \/ act req ph l ph' l'.

(** What the request may rely on when it performs an operation: the committed rows have
    evolved from those it knew of, and its session holds what it wrote. *)
Record stage (d : db) (g : ghost) (pg : pgstate) : Prop := MkStage {
  sg_evolves : evolves d (committed pg);
  sg_db : db_ok (committed pg);
  sg_coherent : coherent (committed pg);
  sg_session : sessions pg !! i = overlay_of (gt g);
  sg_ghost : exists l, ghost_ok (committed pg) l g
}.

(** An operation that is answered [r] takes the request to a phase for which [K] holds. *)
Definition advances (g : ghost) (ph : phase) (d : db) (o : op)
    : res exn (op_val o) -> ghost -> (phase -> db -> Prop) -> Prop :=
  match o with
  | Db q => fun r g' K => forall pg pg',
      stage d g pg -> pg_contract pg i q r pg' -> db_post g q r g' ->
      exists ph', may_move ph (ledger_of (committed pg)) ph' (ledger_of (committed pg'))
                  /\ K ph' (committed pg')
  | Post hreq => fun r g' K => post_contract r -> post g (Post hreq) r g' ->
      ph = Granted
      /\ (exists dm, demand_of req = Some dm /\ posts_demand hreq dm)
      /\ forall d', evolves d d' -> K (Asked (http_verdict r)) d'
  end.

(** The program follows the machine from the phase [ph] and ends as [Q] says. *)
Fixpoint tracks {A} (g : ghost) (ph : phase) (d : db) (p : prog A)
    (Q : A -> ghost -> phase -> db -> Prop) : Prop :=
  match p with
  | Ret a => forall d', evolves d d' -> Q a g ph d'
  | Vis o k => forall r g', advances g ph d o r g' (fun ph' d' => tracks g' ph' d' (k r) Q)
  end.

Lemma advances_mono g ph d o r g' (K K' : phase -> db -> Prop) :
  (forall ph' d', K ph' d' -> K' ph' d') -> advances g ph d o r g' K -> advances g ph d o r g' K'.
Proof.
  intros HK. destruct o as [q|hreq]; cbn.
  - intros Ha pg pg' Hs Hc Hp. destruct (Ha pg pg' Hs Hc Hp) as (ph' & Hm & Hk). eauto.
  - intros Ha Hc Hp. destruct (Ha Hc Hp) as (Hg & Hd & Hk). eauto.
Qed.

Lemma advances_evolves g ph d d' o r g' K :
  evolves d d' -> advances g ph d o r g' K -> advances g ph d' o r g' K.
Proof.
  intros Hev. destruct o as [q|hreq]; cbn.
  - intros Ha pg pg' [H1 H2 H3 H4 H5]. apply Ha. constructor; [by etransitivity|done..].
  - intros Ha Hc Hp. destruct (Ha Hc Hp) as (Hg & Hd & Hk). split_and!; [done..|].
    intros d2 Hd2. apply Hk. by etransitivity.
Qed.

Lemma tracks_mono {A} (p : prog A) g ph d (Q Q' : A -> ghost -> phase -> db -> Prop) :
  (forall a g' ph' d', Q a g' ph' d' -> Q' a g' ph' d') ->
  tracks g ph d p Q -> tracks g ph d p Q'.
Proof.
  intros HQ. revert g ph d. induction p as [a|o k IH]; intros g ph d; cbn [tracks]; [by auto|].
  intros Hk r g'. eapply advances_mono; [|apply Hk]. intros ph' d'. apply IH.
Qed.

Lemma tracks_evolves {A} (p : prog A) g ph d d' Q :
  evolves d d' -> tracks g ph d p Q -> tracks g ph d' p Q.
Proof.
  intros Hev. destruct p as [a|o k]; cbn [tracks].
  - intros HQ d2 Hd2. apply HQ. by etransitivity.
  - intros Hk r g'. by eapply advances_evolves.
Qed.

Lemma tracks_ret {A} (a : A) g ph d (Q : A -> ghost -> phase -> db -> Prop) :
  (forall d', evolves d d' -> Q a g ph d') -> tracks g ph d (Ret a) Q.
Proof. done. Qed.

Lemma tracks_pbind {A B} (p : prog A) (f : A -> prog B) g ph d Q :
  tracks g ph d p (fun a g' ph' d' => tracks g' ph' d' (f a) Q) -> tracks g ph d (pbind p f) Q.
Proof.
  revert g ph d. induction p as [a|o k IH]; intros g ph d; cbn [tracks pbind].
  - intros HQ. by apply HQ.
  - intros Hk r g'. eapply advances_mono; [|apply Hk]. intros ph' d'. apply IH.
Qed.

Lemma tracks_io_bind {A B} (p : io A) (f : A -> io B) g ph d (Q : res exn B -> _) :
  tracks g ph d p (fun r g' ph' d' =>
    match r with
    | Ok a => tracks g' ph' d' (f a) Q
    | Raise e => forall d2, evolves d' d2 -> Q (Raise e) g' ph' d2
    end) ->
  tracks g ph d (io_bind p f) Q.
Proof. intros Hp. apply tracks_pbind. revert Hp. apply tracks_mono. by intros [a|e]. Qed.

Lemma tracks_try_except {A} (p : io A) (h : exn -> io A) g ph d (Q : res exn A -> _) :
  tracks g ph d p (fun r g' ph' d' =>
    match r with
    | Ok a => forall d2, evolves d' d2 -> Q (Ok a) g' ph' d2
    | Raise e => tracks g' ph' d' (h e) Q
    end) ->
  tracks g ph d (try_except p h) Q.
Proof. intros Hp. apply tracks_pbind. revert Hp. apply tracks_mono. by intros [a|e]. Qed.

(** An operation that commits nothing. *)
Lemma tracks_await_db q g ph d (Q : res exn (db_val q) -> _) :
  q <> OpCommit ->
  (forall pg pg' r g', stage d g pg -> pg_contract pg i q r pg' -> db_post g q r g' ->
     let c := committed pg in
     exists ph', may_move ph (ledger_of c) ph' (ledger_of c) /\ forall d', evolves c d' -> Q r g' ph' d') ->
  tracks g ph d (await_db q) Q.
Proof.
  intros Hq Hk r g' pg pg' Hs Hc Hp. rewrite (nominal_committed _ _ _ _ _ Hq Hc).
  exact (Hk pg pg' r g' Hs Hc Hp).
Qed.

Lemma stay ph l : may_move ph l ph l.
Proof. by left. Qed.

Lemma commit_cases pg r pg' :
  pg_contract pg i OpCommit r pg' ->
  (committed pg' = visible pg i \/ committed pg' = committed pg /\ exists e, db_fault e /\ r = Raise e)
  /\ (r = Ok tt \/ exists e, db_fault e /\ r = Raise e).
Proof.
  intros [[-> ->]|[(e & He & ->) Hc]]; [by split; left|].
  split; [|by eauto]. destruct Hc as [-> | ->]; [by left | right; by eauto].
Qed.

(** A short transaction: its commit is one move, acknowledged or not. *)
Lemma tracks_with_transaction {A} (body : io A) rt ph d (Q : res exn A -> _) :
  (forall e d', db_fault e -> Q (Raise e) (Gh Closed rt) ph d') ->
  tracks (Gh Fresh rt) ph d body (fun r g' ph' d' =>
    match r with
    | Ok a => forall pg, stage d' g' pg ->
        (exists ph2, may_move ph' (ledger_of (committed pg)) ph2 (ledger_of (visible pg i))
           /\ (forall d2, Q (Ok a) (Gh Closed (committed_right g')) ph2 d2)
           /\ (forall e d2, db_fault e -> Q (Raise e) idle_ghost ph2 d2))
        /\ (forall e d2, db_fault e -> Q (Raise e) idle_ghost ph' d2)
    | Raise e => forall d2 e', evolves d' d2 -> e' = e \/ db_fault e' ->
                               Q (Raise e') (Gh Closed (gr g')) ph' d2
    end) ->
  tracks (Gh Closed rt) ph d (with_transaction body) Q.
Proof.
  intros Hbegin Hbody. apply tracks_io_bind, tracks_await_db; [done|].
  intros pg pg' r g' Hs Hc Hp. exists ph. split; [apply stay|]. destruct r as [[]|e]; cbn in Hp; subst g'.
  2: { intros d1 _ d2 _. apply Hbegin. destruct Hc as [[[=] _]|[(e' & He & [= ->]) _]]. done. }
  intros d1 Hd1. apply (tracks_evolves _ _ _ d); [etransitivity; [apply Hs | done]|].
  apply tracks_pbind. revert Hbody. apply tracks_mono. intros [a|e] g' ph' d' Hq.
  - apply tracks_io_bind. intros r g2 pg2 pg2' Hs2 Hc2 Hp2. cbn in Hp2. subst g2.
    destruct (Hq pg2 Hs2) as [(ph2 & Hm & Hok & Hun) Hno]. apply commit_cases in Hc2 as [Hcm Hr].
    destruct Hcm as [-> |[-> (e & He & ->)]].
    + exists ph2. split; [exact Hm|]. intros d2 _. destruct Hr as [-> |(e & He & ->)];
        intros d3 _; [apply Hok | by apply Hun].
    + exists ph'. split; [apply stay|]. intros d2 _ d3 _. by apply Hno.
  - apply tracks_io_bind, tracks_await_db; [done|]. intros pg2 pg2' r g2 Hs2 _ [-> Hr].
    exists ph'. split; [apply stay|]. intros d2 Hd2.
    assert (Hev : forall d3, evolves d2 d3 -> evolves d' d3).
    { intros d3 Hd3. etransitivity; [apply Hs2|]. by etransitivity. }
    destruct r as [x|e']; intros d3 Hd3; apply Hq; auto.
Qed.

(** * What the statements of a request see *)

Lemma stage_visible d g pg o :
  stage d g pg -> overlay_of (gt g) = Some o -> visible pg i = overlay o (committed pg).
Proof. intros Hs Ho. unfold visible. by rewrite (sg_session _ _ _ Hs), Ho. Qed.

Lemma stage_fresh d rt pg : stage d (Gh Fresh rt) pg -> visible pg i = committed pg.
Proof. intros Hs. by rewrite (stage_visible _ _ _ empty_db Hs), overlay_empty. Qed.

Lemma stage_inserted d r rt pg :
  stage d (Gh (InsTx r) rt) pg -> visible pg i = put_transaction r (committed pg).
Proof. intros Hs. by rewrite (stage_visible _ _ _ _ Hs eq_refl), put_transaction_overlay, overlay_empty. Qed.

Lemma stage_both d t r r' rt pg :
  stage d (Gh t rt) pg -> t = InsBoth r r' \/ t = UpdBoth r r' ->
  visible pg i = put_idempotency r' (put_transaction r (committed pg)).
Proof.
  intros Hs Ht. rewrite (stage_visible _ _ _ (put_idempotency r' (put_transaction r empty_db)) Hs);
    [apply overlay_both|]. by destruct Ht as [-> | ->].
Qed.

(** What a lookup finds. *)
Lemma select_record d rt pg pg' key r :
  stage d (Gh Fresh rt) pg -> pg_contract pg i (OpSelectIdempotency key) r pg' ->
  r = Ok (idempotency_records (committed pg) !! key) \/ exists e, db_fault e /\ r = Raise e.
Proof.
  intros Hs [[_ ->]|[He _]]; [left; by rewrite (stage_fresh _ _ _ Hs) | by right].
Qed.

Lemma select_transaction d rt pg pg' tid r :
  stage d (Gh Fresh rt) pg -> pg_contract pg i (OpSelectTransactionId tid) r pg' ->
  is_Some (transactions (committed pg) !! tid) ->
  (exists x, r = Ok (Some x)) \/ exists e, db_fault e /\ r = Raise e.
Proof.
  intros Hs [[_ ->]|[He _]] [t Ht]; [left; rewrite (stage_fresh _ _ _ Hs), Ht; by eexists | by right].
Qed.

(** * Reservation *)

Section demand.
Context (dm : demand).

(** A request that the route accepted: its digests have the stored form, and the tables
    take its row or refuse it as data they cannot hold. *)
Record acceptable : Prop := MkAcceptable {
  ac_demand : demand_of req = Some dm;
  ac_key : digest_format (dm_key dm) = true;
  ac_fingerprint : digest_format (dm_fingerprint dm) = true;
  ac_row : forall d,
    storable_request (dm_key dm) (dm_fingerprint dm) (dm_transaction dm)
      (cmd_merchant_id (dm_command dm)) (cmd_amount (dm_command dm)) (cmd_currency (dm_command dm)) = true
    \/ insert_transaction (reserved_transaction (dm_transaction dm) (cmd_merchant_id (dm_command dm))
          (cmd_amount (dm_command dm)) (cmd_currency (dm_command dm))) d = SqlDataError;
  ac_transaction : strip (dm_transaction dm) <> []
}.
Hypothesis Hdm : acceptable.

Abbreviation tx_row := (reserved_transaction (dm_transaction dm) (cmd_merchant_id (dm_command dm))
  (cmd_amount (dm_command dm)) (cmd_currency (dm_command dm))).
Abbreviation key_row := (reserved_idempotency (dm_key dm) (dm_fingerprint dm) (dm_transaction dm)).

(** The reservation is decided. *)
Definition decided (a : IdempotencyReservation) (g : ghost) (ph : phase) : Prop :=
  if decide (res_status a = ACQUIRED)
  then g = Gh Closed (MayPost (dm_key dm) (dm_transaction dm)) /\ ph = Granted
  else ph = Answering (reply_from req (Ok (immediate a)))
       /\ (res_status a = COMPLETED -> is_Some (res_stored_envelope a)).

(** A constraint was violated because the key or the transaction is taken. *)
Definition taken (d : db) : Prop :=
  is_Some (idempotency_records d !! dm_key dm) \/ is_Some (transactions d !! dm_transaction dm).

Lemma taken_evolves d d' : evolves d d' -> taken d -> taken d'.
Proof.
  intros [Hr Ht] [[rec Hk]|[r Hk]]; [left | right].
  - destruct (Hr _ _ Hk) as (rec' & -> & _). done.
  - destruct (Ht _ _ Hk) as (r' & -> & _). done.
Qed.

Lemma known_answer c rec :
  db_ok c -> idempotency_records c !! dm_key dm = Some rec ->
  exists a, _classify_existing rec (dm_fingerprint dm) = Ok a
    /\ may_move Pending (ledger_of c) (Answering (reply_from req (Ok (immediate a)))) (ledger_of c)
    /\ forall g, decided a g (Answering (reply_from req (Ok (immediate a)))).
Proof.
  intros Hd Hk. destruct (known_key c (dm_key dm) (dm_fingerprint dm) (dm_transaction dm)
    (cmd_merchant_id (dm_command dm)) (cmd_amount (dm_command dm)) (cmd_currency (dm_command dm)) rec Hd Hk)
    as (a & Ha & Hc & Hres & Hst). exists a. split_and!; [done | |].
  - right. by eapply act_refused; [apply Hdm|..].
  - intros g. unfold decided. rewrite decide_False by done. split; [done|]. intros E. by rewrite E in Hst.
Qed.

Lemma storable_parts :
  storable_request (dm_key dm) (dm_fingerprint dm) (dm_transaction dm)
    (cmd_merchant_id (dm_command dm)) (cmd_amount (dm_command dm)) (cmd_currency (dm_command dm)) = true ->
  storable_id (dm_transaction dm) = true /\ storable_id (cmd_merchant_id (dm_command dm)) = true
  /\ 0 < cmd_amount (dm_command dm) < 2 ^ 63
  /\ class_run is_upper_ascii 3 3 (cmd_currency (dm_command dm)) = true.
Proof. unfold storable_request. rewrite !andb_true_iff, !Z.ltb_lt. tauto. Qed.

(** The first insert: the row as given, a taken identifier, or an error. *)
Lemma insert_transaction_cases d rt pg pg' r g' :
  stage d (Gh Fresh rt) pg -> pg_contract pg i (OpInsertTransaction tx_row) r pg' ->
  db_post (Gh Fresh rt) (OpInsertTransaction tx_row) r g' ->
  (r = Ok tt /\ g' = Gh (InsTx tx_row) NoRight /\ storable_id (dm_transaction dm) = true)
  \/ (exists e, r = Raise e /\ g' = Gh Fresh rt
       /\ (db_fault e \/ e = IntegrityError /\ taken (committed pg))).
Proof.
  intros Hs Hc Hp. destruct (ac_row Hdm (committed pg)) as [Hst|Hda].
  - apply storable_parts in Hst as (Ht & Hm & Ha & Hcu). destruct r as [[]|e]; cbn in Hp; [left|right].
    + destruct Hp as (r' & Hr' & ->). rewrite store_reserved_transaction in Hr' by done. by injection Hr' as <-.
    + exists e. split_and!; [done..|]. destruct Hc as [Hn|[(e' & He & [= ->]) _]]; [right|by left].
      cbn [pg_nominal] in Hn. rewrite (stage_fresh _ _ _ Hs), insert_reserved_transaction in Hn by done.
      destruct (transactions (committed pg) !! dm_transaction dm) eqn:Ht'; destruct Hn as [? Hn]; [|discriminate].
      injection Hn as ->. split; [done|]. right. by rewrite Ht'.
  - right. destruct Hc as [Hn|[(e & He & ->) _]]; [|by exists e; auto].
    cbn [pg_nominal] in Hn. rewrite (stage_fresh _ _ _ Hs), Hda in Hn. destruct Hn as [_ ->].
    exists OtherSQLAlchemyError. split_and!; [done..|]. left. by left.
Qed.

(** The second insert, in the same transaction. *)
Lemma insert_idempotency_cases d pg pg' r g' :
  storable_id (dm_transaction dm) = true ->
  stage d (Gh (InsTx tx_row) NoRight) pg -> pg_contract pg i (OpInsertIdempotency key_row) r pg' ->
  db_post (Gh (InsTx tx_row) NoRight) (OpInsertIdempotency key_row) r g' ->
  (r = Ok tt /\ g' = Gh (InsBoth tx_row key_row) NoRight)
  \/ (exists e, r = Raise e /\ g' = Gh (InsTx tx_row) NoRight
       /\ (db_fault e \/ e = IntegrityError /\ taken (committed pg))).
Proof.
  intros Ht Hs Hc Hp. pose proof (ac_key Hdm) as Hk. pose proof (ac_fingerprint Hdm) as Hf.
  destruct r as [[]|e]; cbn in Hp; [left|right].
  - destruct Hp as (r0 & r' & [= <-] & Hr' & ->).
    rewrite store_reserved_idempotency in Hr' by done. by injection Hr' as <-.
  - exists e. split_and!; [done..|]. destruct Hc as [Hn|[(e' & He & [= ->]) _]]; [right|by left].
    cbn [pg_nominal] in Hn. rewrite (stage_inserted _ _ _ _ Hs) in Hn.
    destruct (idempotency_records (committed pg) !! dm_key dm) as [rec|] eqn:Hkey.
    + split; [|left; by rewrite Hkey]. destruct (insert_idempotency _ _) eqn:Hins.
      * apply insert_idempotency_ok in Hins as (Hst & _ & Hnone & _).
        rewrite store_reserved_idempotency in Hst by done. injection Hst as <-.
        cbn in Hnone. congruence.
      * destruct Hn as [_ Hn]. by injection Hn.
      * unfold insert_idempotency in Hins. rewrite store_reserved_idempotency in Hins by done.
        destruct (negb _); [done|]. case_bool_decide; [done|]. by case_bool_decide.
    + rewrite insert_reserved_idempotency in Hn; try done.
      * by destruct Hn.
      * cbn. by rewrite lookup_insert_eq.
Qed.

Definition after_attempt (r : res exn IdempotencyReservation) (g : ghost) (ph : phase) (d : db) : Prop :=
  match r with
  | Ok a => decided a g ph
  | Raise e => g = idle_ghost
               /\ (db_fault e \/ e = ReservationIntegrityError /\ ph = Pending /\ taken d)
  end.

Lemma after_attempt_fault e ph d : db_fault e -> after_attempt (Raise e) idle_ghost ph d.
Proof. intros He. split; [done | by left]. Qed.

(** The commit of both rows is the reservation in the ledger. *)
Lemma commit_reservation d pg :
  stage d (Gh (InsBoth tx_row key_row) NoRight) pg ->
  may_move Pending (ledger_of (committed pg)) Granted (ledger_of (visible pg i)).
Proof.
  intros Hs. destruct (sg_ghost _ _ _ Hs) as [l [_ (_ & (_ & _ & _ & Ht) & (_ & _ & _ & Hk))]].
  cbn [t_transaction_id i_idempotency_key_hash reserved_transaction reserved_idempotency] in Ht, Hk.
  rewrite (stage_both _ _ _ _ _ _ Hs (or_introl eq_refl)). right.
  eapply (act_granted _ dm (reservation ACQUIRED)); [apply Hdm| |done].
  unfold reserving, ledger_reserve, ledger_of. cbn [l_keys l_transactions put_idempotency put_transaction
    idempotency_records transactions i_idempotency_key_hash t_transaction_id reserved_transaction
    reserved_idempotency].
  rewrite lookup_fmap, Hk, Ht. cbn [fmap option_fmap option_map]. by rewrite fmap_insert.
Qed.

(** A violated constraint is carried out of the transaction. *)
Lemma tracks_carry e g ph d d' (Q : res exn unit -> ghost -> phase -> db -> Prop) :
  (db_fault e \/ e = IntegrityError /\ taken d) -> evolves d d' ->
  (forall e' d2, evolves d' d2 -> (db_fault e' \/ e' = ReservationIntegrityError /\ taken d2) ->
     Q (Raise e') g ph d2) ->
  tracks g ph d' (carry_integrity_error e) Q.
Proof.
  intros He Hev HQ. destruct He as [[->| ->]|[-> Ht]]; cbn; intros d2 Hd2; apply HQ; try done.
  - left. by left.
  - left. by right.
  - right. split; [done|]. eapply taken_evolves, Ht. by etransitivity.
Qed.

(** The body of the transaction that failed leaves nothing. *)
Lemma attempt_failed e g ph d :
  gr g = NoRight -> ph = Pending -> (db_fault e \/ e = ReservationIntegrityError /\ taken d) ->
  forall d2, evolves d d2 -> after_attempt (Raise e) (Gh Closed (gr g)) ph d2.
Proof.
  intros -> -> He d2 Hd2. split; [done|]. destruct He as [He|[-> Ht]]; [by left|].
  right. split_and!; [done..|]. by eapply taken_evolves.
Qed.

Lemma tracks_reserve_attempt d :
  tracks idle_ghost Pending d
    (reserve_attempt (dm_key dm) (dm_fingerprint dm) (dm_transaction dm)
       (cmd_merchant_id (dm_command dm)) (cmd_amount (dm_command dm)) (cmd_currency (dm_command dm)))
    after_attempt.
Proof.
  apply tracks_with_transaction; [intros; by apply after_attempt_fault|].
  apply tracks_io_bind, tracks_await_db; [done|]. intros pg pg' r g' Hs Hc Hp. cbn in Hp. subst g'.
  destruct (select_record _ _ _ _ _ _ Hs Hc) as [-> |(e & He & ->)]; cycle 1.
  { exists Pending. split; [apply stay|]. intros d1 _ d2 _ d3 e' _ [->|He']; by apply after_attempt_fault. }
  destruct (idempotency_records (committed pg) !! dm_key dm) as [rec|] eqn:Hk.
  - destruct (known_answer _ _ (sg_db _ _ _ Hs) Hk) as (a & Ha & Hm & Hdec).
    eexists. split; [exact Hm|]. intros d1 _. cbn [io_lift]. rewrite Ha. apply tracks_ret.
    intros d2 _ pg2 Hs2. rewrite (stage_fresh _ _ _ Hs2). split; [|intros; by apply after_attempt_fault].
    eexists. split; [apply stay|]. split; [intros; apply Hdec | intros; by apply after_attempt_fault].
  - exists Pending. split; [apply stay|]. intros d1 _.
    apply tracks_io_bind, tracks_try_except, tracks_io_bind, tracks_await_db; [done|].
    intros pg2 pg2' r g' Hs2 Hc2 Hp2. exists Pending. split; [apply stay|]. intros d2 Hd2.
    destruct (insert_transaction_cases _ _ _ _ _ _ Hs2 Hc2 Hp2) as [(-> & -> & Ht)|(e & -> & -> & He)]; cycle 1.
    { intros d3 Hd3. eapply tracks_carry; [exact He | by etransitivity|].
      intros e' d4 Hd4 He' d5 Hd5 d6 e2 Hd6 [->|He2]; [|by apply after_attempt_fault].
      eapply attempt_failed; [done..|exact He'|]. by etransitivity. }
    apply tracks_await_db; [done|]. intros pg3 pg3' r g' Hs3 Hc3 Hp3.
    exists Pending. split; [apply stay|]. intros d3 Hd3.
    destruct (insert_idempotency_cases _ _ _ _ _ Ht Hs3 Hc3 Hp3) as [(-> & ->)|(e & -> & -> & He)]; cycle 1.
    { eapply tracks_carry; [exact He | done|].
      intros e' d4 Hd4 He' d5 Hd5 d6 e2 Hd6 [->|He2]; [|by apply after_attempt_fault].
      eapply attempt_failed; [done..|exact He'|]. by etransitivity. }
    intros d4 _. apply tracks_ret. intros d5 _ pg4 Hs4.
    split; [|intros; by apply after_attempt_fault]. exists Granted. split; [by eapply commit_reservation|].
    split; [done | intros; by apply after_attempt_fault].
Qed.

(** Errors of the driver and of the session, as the coordinator wraps them. *)
Definition wrappable (e : exn) : Prop :=
  is_PersistenceError e = true \/ is_SQLAlchemyError e = true \/ e = OtherError.

Lemma fault_wrappable e : db_fault e -> wrappable e.
Proof. intros [-> | ->]; [right; by left | by right; right]. Qed.

Lemma contract_error pg q e pg' : pg_contract pg i q (Raise e) pg' -> wrappable e.
Proof.
  intros [Hn|[(e' & He & [= ->]) _]]; [|by apply fault_wrappable].
  assert (e = IntegrityError \/ e = OtherSQLAlchemyError) as [-> | ->]; [|right; by left..].
  destruct q; cbn [pg_nominal] in Hn; try (by destruct Hn as [[=] _]); try (by destruct Hn as [_ [=]]);
    repeat case_match; unfold wrote, refused in Hn; destruct_and?; simplify_eq; auto.
Qed.

Lemma tracks_wrap {A} e g ph d (Q : res exn A -> ghost -> phase -> db -> Prop) :
  wrappable e -> (forall e' d2, failing e' -> Q (Raise e') g ph d2) ->
  tracks g ph d (wrap_sqlalchemy e) Q.
Proof.
  intros He HQ. unfold wrap_sqlalchemy. destruct (is_PersistenceError e) eqn:Hp.
  { intros d2 _. apply HQ. by left. }
  destruct He as [He|[-> | ->]]; [congruence | |]; intros d2 _; apply HQ; [by left | by right].
Qed.

(** What the second look at the tables finds. *)
Definition after_requery (r : res exn (option IdempotencyReservation)) (ph : phase) : Prop :=
  match r with
  | Ok (Some a) => forall g, decided a g ph
  | Ok None => True
  | Raise e => wrappable e
  end.

Lemma requery_fault e ph : db_fault e -> after_requery (Raise e) ph.
Proof. apply fault_wrappable. Qed.

Lemma conflict_answer c :
  idempotency_records c !! dm_key dm = None -> is_Some (transactions c !! dm_transaction dm) ->
  let a := reservation TRANSACTION_ID_CONFLICT in
  may_move Pending (ledger_of c) (Answering (reply_from req (Ok (immediate a)))) (ledger_of c)
  /\ forall g, decided a g (Answering (reply_from req (Ok (immediate a)))).
Proof.
  intros Hk [r Ht]. split; [|by intros g].
  right. eapply act_refused; [apply Hdm| |done].
  unfold reserving, ledger_reserve. cbn [ledger_of l_keys l_transactions].
  by rewrite lookup_fmap, Hk, Ht.
Qed.

Lemma tracks_reserve_requery d :
  taken d ->
  tracks idle_ghost Pending d
    (reserve_requery (dm_key dm) (dm_fingerprint dm) (dm_transaction dm))
    (fun r g ph _ => match r with Ok a => decided a g ph | Raise e => wrappable e end).
Proof.
  intros Htk. apply tracks_io_bind.
  apply tracks_mono with (fun r (_ : ghost) ph (_ : db) => after_requery r ph).
  { intros [[a|]|e] g ph d' Ha; [apply tracks_ret; intros; apply Ha | intros d2 _; by left | by intros d2 _]. }
  apply tracks_with_transaction; [intros; by apply requery_fault|].
  apply tracks_io_bind, tracks_await_db; [done|]. intros pg pg' r g' Hs Hc Hp. cbn in Hp. subst g'.
  destruct (select_record _ _ _ _ _ _ Hs Hc) as [-> |(e & He & ->)]; cycle 1.
  { exists Pending. split; [apply stay|]. intros d1 _ d2 _ d3 e' _ [->|He']; by apply requery_fault. }
  destruct (idempotency_records (committed pg) !! dm_key dm) as [rec|] eqn:Hk.
  - destruct (known_answer _ _ (sg_db _ _ _ Hs) Hk) as (a & Ha & Hm & Hdec).
    eexists. split; [exact Hm|]. intros d1 _. apply tracks_io_bind. cbn [io_lift]. rewrite Ha.
    intros d2 _ d3 _ pg2 Hs2. rewrite (stage_fresh _ _ _ Hs2). split; [|intros; by apply requery_fault].
    eexists. split; [apply stay|]. split; [done | intros; by apply requery_fault].
  - assert (Ht : is_Some (transactions (committed pg) !! dm_transaction dm)).
    { destruct (taken_evolves _ _ (sg_evolves _ _ _ Hs) Htk) as [[rec Hr]|Ht]; [congruence | done]. }
    destruct (conflict_answer _ Hk Ht) as [Hm Hdec]. eexists. split; [exact Hm|]. intros d1 Hd1.
    apply tracks_io_bind, tracks_await_db; [done|]. intros pg2 pg2' r g' Hs2 Hc2 Hp2. cbn in Hp2. subst g'.
    assert (Ht2 : is_Some (transactions (committed pg2) !! dm_transaction dm)).
    { destruct Ht as [r0 Hr0]. destruct (ev_transactions _ _ Hd1 _ _ Hr0) as (r1 & Hr1 & _).
      destruct (ev_transactions _ _ (sg_evolves _ _ _ Hs2) _ _ Hr1) as (r2 & -> & _). done. }
    eexists. split; [apply stay|].
    destruct (select_transaction _ _ _ _ _ _ Hs2 Hc2 Ht2) as [(x & ->)|(e & He & ->)]; cycle 1.
    { intros d2 _ d3 _ d4 e' _ [->|He']; by apply requery_fault. }
    intros d2 _ d3 _ pg3 Hs3. rewrite (stage_fresh _ _ _ Hs3). split; [|intros; by apply requery_fault].
    eexists. split; [apply stay|]. split; [done | intros; by apply requery_fault].
Qed.

Lemma tracks_reserve d :
  tracks idle_ghost Pending d
    (reserve (dm_key dm) (dm_fingerprint dm) (dm_transaction dm)
       (cmd_merchant_id (dm_command dm)) (cmd_amount (dm_command dm)) (cmd_currency (dm_command dm)))
    (fun r g ph _ => match r with Ok a => decided a g ph | Raise e => failing e end).
Proof.
  apply tracks_try_except. eapply tracks_mono; [|apply tracks_reserve_attempt].
  intros [a|e] g ph d' Ha; [done|]. destruct Ha as [-> [Hf|(-> & -> & Ht)]].
  - assert (Hw : tracks idle_ghost ph d' (wrap_sqlalchemy e)
              (fun r g ph (_ : db) => match r with Ok a => decided a g ph | Raise e => failing e end)).
    { apply tracks_wrap; [by apply fault_wrappable | done]. }
    by destruct Hf as [-> | ->].
  - apply tracks_try_except. eapply tracks_mono; [|by apply tracks_reserve_requery].
    intros [a|e] g ph d2 Ha; [done|]. by apply tracks_wrap.
Qed.

(** * Authorization *)

(** The service asks the network once; what it makes of the answer is the completion. *)
Definition after_service (r : res exn completion) (g : ghost) (ph : phase) : Prop :=
  match r with
  | Ok c => exists v, ph = Asked v /\ possible_verdict v /\ completion_of (dm_transaction dm) v = Ok c
                      /\ g = Gh Closed (HasPosted (dm_key dm) (dm_transaction dm))
  | Raise e => failing e
  end.

Lemma tracks_execute adapter d :
  tracks (Gh Closed (MayPost (dm_key dm) (dm_transaction dm))) Granted d
    (@execute (http_port adapter) (dm_command dm))
    (fun r g ph _ => exists v, possible_verdict v /\ ph = Asked v
       /\ g = Gh Closed (HasPosted (dm_key dm) (dm_transaction dm))
       /\ r = settled (dm_transaction dm) v).
Proof.
  unfold execute. apply tracks_io_bind, tracks_ret. intros d1 _. fold (dm_transaction dm).
  rewrite new_transaction_ok by apply Hdm. cbn [lift_domain]. apply tracks_pbind.
  cbn [pn_authorize http_port]. unfold authorize. apply tracks_io_bind, tracks_try_except.
  intros r g' Hr [_ Hg]. cbn in Hg. subst g'. split; [done|]. split.
  { exists dm. split; [apply Hdm | by exists adapter]. }
  intros d2 _. assert (Hv : possible_verdict (http_verdict r)) by (by exists r).
  destruct r as [response|e]; intros d3 _ d4 _.
  - intros d5 _. exists (http_verdict (Ok response)). split_and!; [done..|]. apply settle_spec.
  - intros d5 _. exists (http_verdict (Raise e)). split_and!; [done..|]. apply settle_spec.
Qed.

Lemma possible_verdict_clean v :
  possible_verdict v ->
  match v with
  | VAuthorized n a => trimmed n /\ trimmed a
  | VDeclined d => trimmed d
  | VCrash e => e = OtherError
  | _ => True
  end.
Proof. intros (r & Hr & ->). pose proof (http_verdict_clean r Hr). by destruct (http_verdict r). Qed.

Lemma tracks_invoke_service adapter d :
  tracks (Gh Closed (MayPost (dm_key dm) (dm_transaction dm))) Granted d
    (@invoke_service (http_port adapter) (dm_command dm))
    (fun r g ph _ => after_service r g ph).
Proof.
  apply tracks_try_except, tracks_io_bind. eapply tracks_mono; [|apply tracks_execute].
  intros r g ph d' (v & Hv & -> & -> & ->). pose proof (possible_verdict_clean v Hv) as Hc.
  destruct v as [n x|dc|k| | |e]; cbn [settled tracks io_ret io_raise after_service];
    try (intros; eexists; split_and!; [reflexivity | exact Hv | reflexivity | reflexivity]).
  cbn in Hc. subst e. intros; by right.
Qed.

(** * Completion *)

Abbreviation tx_values c := (completed_transaction (cp_transaction c) (cp_network_reference c)
  (cp_authorization_code c) (cp_decline_code c)).
Abbreviation key_values c := (completed_idempotency (cp_envelope c)).

Lemma completion_trimmed v c :
  possible_verdict v -> completion_of (dm_transaction dm) v = Ok c ->
  trimmed_opt (cp_network_reference c) /\ trimmed_opt (cp_authorization_code c)
  /\ trimmed_opt (cp_decline_code c).
Proof.
  intros Hv Hc. apply possible_verdict_clean in Hv.
  destruct v; cbn in Hc; try discriminate; apply Ok_inj in Hc; subst c; cbn; tauto.
Qed.

(** The rows that a completion has written, and those the request had reserved. *)
Lemma completion_rows d r r' pg :
  stage d (Gh (UpdBoth r r') (HasPosted (dm_key dm) (dm_transaction dm))) pg ->
  exists r1 rec, transactions (committed pg) !! dm_transaction dm = Some r1 /\ t_version r1 = 0
    /\ idempotency_records (committed pg) !! dm_key dm = Some rec
    /\ entry_of rec = MkEntry (i_request_fingerprint r') (dm_transaction dm) None
    /\ t_transaction_id r = dm_transaction dm /\ t_transaction_id r1 = dm_transaction dm
    /\ same_transaction r1 r
    /\ i_idempotency_key_hash r' = dm_key dm /\ i_transaction_id r' = dm_transaction dm.
Proof.
  intros Hs. destruct (sg_ghost _ _ _ Hs) as [l [(rec & Hk & Ht & Hp) Hts]].
  unfold tstate_ok in Hts. cbn [gt gr] in Hts.
  destruct Hts as (key & tid & [= <- <-] & ((Htid & _) & _ & _ & r1 & Hr1 & Hsame)
    & ((Hkey & _) & _ & Htid' & _ & rec' & Hk' & Hfp)).
  rewrite Hk in Hk'. injection Hk' as <-. destruct (sg_db _ _ _ Hs) as (Hdt & Hdi & _).
  exists r1, rec. destruct (co_pair _ (sg_coherent _ _ _ Hs) _ _ Hk) as (r2 & Hr2 & Hpair).
  rewrite Ht, Hr1 in Hr2. injection Hr2 as <-.
  assert (Hv : t_version r1 = 0).
  { destruct Hpair as [(_ & _ & Hv)|(Hc & _)]; [done|]. rewrite Hp in Hc. discriminate. }
  assert (He : entry_of rec = MkEntry (i_request_fingerprint r') (dm_transaction dm) None).
  { unfold entry_of. rewrite Hfp, Ht. f_equal.
    destruct (idempotency_row_cases _ _ (Hdi _ _ Hk)) as [(_ & -> & _)|(Hc & _)]; [done|].
    rewrite Hp in Hc. discriminate. }
  split_and!; try done. by destruct (Hdt _ _ Hr1).
Qed.

(** The commit of both rows is the completion in the ledger. *)
Lemma commit_completion v c d r0 rec0 r r' pg :
  possible_verdict v -> completion_of (dm_transaction dm) v = Ok c ->
  store_transaction_row (set_transaction (tx_values c) r0) = Some r ->
  store_idempotency_row (set_idempotency (key_values c) rec0) = Some r' ->
  stage d (Gh (UpdBoth r r') (HasPosted (dm_key dm) (dm_transaction dm))) pg ->
  may_move (Asked v) (ledger_of (committed pg)) (Answering (reply_from req (Ok (cp_envelope c))))
    (ledger_of (visible pg i)).
Proof.
  intros Hv Hc Hr Hr' Hs. destruct (completion_trimmed _ _ Hv Hc) as (Hn & Ha & Hd).
  apply stored_as_settled in Hr; [|done..]. apply stored_as_completed in Hr'; [|done].
  destruct (completion_values _ _ _ Hc) as [Hid (Hver & _)]. cbn in Hver.
  destruct (completion_rows _ _ _ _ Hs) as (r1 & rec & Hr1 & Hv1 & Hk & He & Htid & Htid1 & Hsame & Hkey & Htid').
  rewrite (stage_both _ _ _ _ _ _ Hs (or_intror eq_refl)). right.
  eapply act_settled; [apply Hdm | exact Hc |]. unfold completing, ledger_complete.
  cbn [ledger_of l_keys l_transactions]. rewrite Hid, Hr1, lookup_fmap, Hk. cbn [fmap option_fmap option_map].
  rewrite He, Hver, Hv1, (proj2 (str_eqb_eq _ _) eq_refl). cbn [Z.eqb Z.add Pos.eqb andb].
  assert (Heq : set_transaction (tx_values c) r1 = r).
  { rewrite Hr. unfold set_transaction. destruct Hsame as (-> & -> & ->). by rewrite Htid, Htid1. }
  assert (Hentry : entry_of r' = MkEntry (i_request_fingerprint r') (dm_transaction dm)
                                   (Some (replay_of (cp_envelope c)))).
  { rewrite Hr' at 1. by rewrite entry_completed, Htid'. }
  rewrite Heq. unfold ledger_of. cbn [put_idempotency put_transaction idempotency_records transactions].
  by rewrite fmap_insert, Hentry, Hkey, Htid.
Qed.

Lemma tracks_complete v c d :
  possible_verdict v -> completion_of (dm_transaction dm) v = Ok c ->
  tracks (Gh Closed (HasPosted (dm_key dm) (dm_transaction dm))) (Asked v) d
    (complete (dm_key dm) (cp_transaction c) 0 (cp_envelope c) (cp_network_reference c)
       (cp_authorization_code c) (cp_decline_code c))
    (fun r _ ph _ => match r with
       | Ok _ => ph = Answering (reply_from req (Ok (cp_envelope c)))
       | Raise e => failing e
       end).
Proof.
  intros Hv Hc. unfold complete. destruct (completion_values _ _ _ Hc) as [Hid (Hver & _)].
  cbn in Hver. rewrite Hver. cbn [Z.add Z.eqb Pos.eqb negb].
  apply tracks_try_except. apply tracks_mono with (fun r (_ : ghost) ph (_ : db) => match r with
       | Ok _ => ph = Answering (reply_from req (Ok (cp_envelope c)))
       | Raise e => wrappable e
       end).
  { intros [u|e] g ph d' Hr; [done | by apply tracks_wrap]. }
  assert (Hopt : wrappable OptimisticConcurrencyError) by (by left).
  assert (Hw : forall e e', wrappable e -> e' = e \/ db_fault e' -> wrappable e').
  { intros e e' He [->|He']; [done | by apply fault_wrappable]. }
  apply tracks_with_transaction; [intros; by apply fault_wrappable|].
  apply tracks_io_bind, tracks_await_db; [done|]. intros pg pg' r g' Hs Hct Hp.
  exists (Asked v). split; [apply stay|]. intros d1 _. destruct r as [n|e]; cbn [db_post] in Hp; cycle 1.
  { intros d2 _ d3 e' _. apply Hw. by eapply contract_error. }
  apply tracks_io_bind. destruct (n =? 1) eqn:Hn; cbn [negb]; [|intros d2 _ d3 _ d4 e' _; by apply Hw].
  destruct Hp as (r0 & r1 & Hst & _ & ->). intros d2 _.
  apply tracks_io_bind, tracks_await_db; [done|]. intros pg2 pg2' r g' Hs2 Hct2 Hp2.
  exists (Asked v). split; [apply stay|]. intros d3 _. destruct r as [m|e]; cbn [db_post] in Hp2; cycle 1.
  { intros d4 _ d5 e' _. apply Hw. by eapply contract_error. }
  destruct (m =? 1) eqn:Hm; cbn [negb]; [|intros d4 _ d5 e' _; by apply Hw].
  destruct Hp2 as (r2 & rec0 & r3 & [= <-] & Hst' & ->). intros d4 _ pg3 Hs3.
  split; [|intros; by apply fault_wrappable]. eexists. split; [by eapply commit_completion|].
  split; [done | intros; by apply fault_wrappable].
Qed.

End demand.

(** * The route *)

(** A program that ends: with the reply that the machine gives, or with a failure. *)
Definition concluded (r : res exn ResponseEnvelope) (ph : phase) : Prop :=
  match r with Ok _ => ph = Answering (reply_from req r) | Raise e => failing e end.

Lemma tracks_handle adapter dm raw_key d :
  acceptable dm -> compute_key_hash raw_key = Ok (dm_key dm) ->
  compute_request_fingerprint (cmd_amount (dm_command dm)) (cmd_currency (dm_command dm))
    (cmd_merchant_id (dm_command dm)) (cmd_payment_token (dm_command dm)) (dm_transaction dm)
  = Ok (dm_fingerprint dm) ->
  tracks idle_ghost Pending d (orchestrate adapter (dm_command dm) raw_key)
    (fun r _ ph _ => concluded r ph).
Proof.
  intros Hdm Hk Hf. unfold orchestrate, handle_authorization.
  apply tracks_io_bind, tracks_ret. intros d1 _. rewrite Hk.
  apply tracks_io_bind, tracks_ret. intros d2 _. fold (dm_transaction dm). rewrite Hf.
  apply tracks_io_bind. cbn [co_reserve sql_coordinator].
  eapply tracks_mono; [|by apply tracks_reserve]. intros [a|e] g ph d3 Ha; [|done].
  unfold decided in Ha. case_decide as Hacq.
  - destruct Ha as [-> ->]. rewrite Hacq. apply tracks_io_bind.
    eapply tracks_mono; [|by apply tracks_invoke_service]. intros [c|e] g ph d4 Hc; [|done].
    destruct Hc as (v & -> & Hv & Hc & ->). apply tracks_io_bind. cbn [co_complete sql_coordinator].
    eapply tracks_mono; [|by eapply tracks_complete]. intros [u|e] g ph d5 Hph; [|done]. by subst.
  - destruct Ha as [-> Hst]. unfold immediate. destruct (res_status a); try done.
    destruct (Hst eq_refl) as [s ->]. done.
Qed.

End tracking.
