(* ===== verification/Serving.v ===== *)
(** Any number of clients of the API at once, with failures and lost requests: the
    system of System.v that runs the route POST /v1/transactions is refined by the
    machine of Atomic.v, in which every request acts on the ledger in indivisible steps. *)
From S2P Require Import Prelude PyStr Sha256 Json Domain Ports Idempotency Schema Effects Adapter.
From S2P Require Import Authorize Problem Coordinator Ledger Orchestrator Protocol Coherence System Progress Fairness Faults.
From S2P Require Import Requests JsonText Bodies Api History Atomic Tracking.

Open Scope Z_scope.
Open Scope io_scope.

(** * The route as a workload *)

Section serving.
Context `{FastAPI} (adapter : HttpPaymentNetworkAdapter).

Definition serve (req : inbound) : prog reply :=
  @post_transactions _ sql_coordinator (http_port adapter) req.

(** The reply to what the orchestrator returned or raised, as the route computes it. *)
Lemma serve_accepted req r cid raw_key :
  fa_resolve req = Ok (r, cid, raw_key) ->
  serve req = pbind (pbind (orchestrate adapter (command_of r cid) raw_key) (fun x =>
      match x with Ok envelope => io_ret (envelope_response envelope) | Raise e => io_raise e end))
    (fun y => Ret (reply_to (in_correlation_id req) (route_result y))).
Proof. intros Hr. unfold serve, post_transactions. rewrite Hr. reflexivity. Qed.

Lemma serve_protocol req :
  true = true -> wp idle_ghost (serve req) (fun _ g => gt g = Closed).
Proof.
  intros _. destruct (fa_resolve req) as [[[r cid] raw_key]|f] eqn:Hr.
  - rewrite (serve_accepted _ _ _ _ Hr). apply fa_calls in Hr as ((j & _ & Ha) & _ & _).
    apply accepted_request_ok in Ha. apply wp_pbind, wp_pbind.
    eapply wp_mono; [|apply wp_handle; apply (rqo_transaction_id _ Ha)].
    by intros [envelope|e] g Hg.
  - unfold serve, post_transactions. by rewrite Hr.
Qed.

Lemma serve_bounded req : within 14 (serve req).
Proof.
  destruct (fa_resolve req) as [[[r cid] raw_key]|f] eqn:Hr.
  - rewrite (serve_accepted _ _ _ _ Hr). apply (within_pbind _ _ 14 0); [|done].
    apply (within_pbind _ _ 14 0); [apply within_handle|]. by intros [envelope|e].
  - unfold serve, post_transactions. by rewrite Hr.
Qed.

#[local] Instance api_workload : Workload :=
  MkWorkload inbound reply (fun _ => true) serve 14 serve_protocol serve_bounded.

(** ** The route follows the machine *)

(** A reply that the machine gives from the phase [ph]. *)
Definition replying (req : inbound) (rep : reply) (ph : phase) : Prop :=
  ph = Answering rep \/ exists e, failing e /\ rep = reply_from req (Raise e).

Lemma demand_accepted req r cid raw_key :
  fa_resolve req = Ok (r, cid, raw_key) ->
  exists key fp, compute_key_hash raw_key = Ok key
    /\ compute_request_fingerprint (rq_amount r) (rq_currency r) (rq_merchant_id r)
         (rq_payment_token r) (rq_transaction_id r) = Ok fp
    /\ acceptable req (MkDemand key fp (command_of r cid)).
Proof.
  intros Hr. pose proof Hr as Hcalls. apply fa_calls in Hcalls as ((j & _ & Ha) & _ & Hkey).
  apply accepted_request_ok in Ha. destruct (in_idempotency_key req) as [v|]; [|discriminate].
  destruct (digests_computed v raw_key (rq_amount r) (rq_currency r) (rq_merchant_id r)
              (rq_payment_token r) (rq_transaction_id r) Hkey) as [(key & Hk & Hkf) (fp & Hf & Hff)].
  exists key, fp. split_and!; [done..|]. constructor; try done.
  - unfold demand_of. by rewrite Hr, Hk, Hf.
  - intros d. by apply request_storable.
  - unfold dm_transaction. cbn [dm_command command_of cmd_transaction_id].
    destruct (rqo_transaction_id _ Ha) as (Ht & Hn & _). by rewrite strip_id.
Qed.

Lemma tracks_serve i req d :
  tracks i req idle_ghost (opening req) d (serve req) (fun rep _ ph _ => replying req rep ph).
Proof.
  unfold opening. destruct (fa_resolve req) as [[[r cid] raw_key]|f] eqn:Hr.
  - rewrite (serve_accepted _ _ _ _ Hr).
    destruct (demand_accepted _ _ _ _ Hr) as (key & fp & Hk & Hf & Hacc).
    apply tracks_pbind, tracks_pbind.
    eapply tracks_mono; [|exact (tracks_handle i req adapter _ raw_key d Hacc Hk Hf)].
    intros [envelope|e] g ph d1 Hx; intros d2 _ d3 _; [by left | right; by exists e].
  - unfold serve, post_transactions. rewrite Hr. intros d1 _. by left.
Qed.

(** * The simulation *)

(** A program that waits for the network goes on with the answer. *)
Definition resume {A} (p : prog A) (r : res exn http_response) : option (prog A) :=
  match p with
  | Vis o k =>
      match o as o' return (res exn (op_val o') -> prog A) -> option (prog A) with
      | Post _ => fun k' => Some (k' r)
      | Db _ => fun _ => None
      end k
  | Ret _ => None
  end.

(** What is known of the clients and of the network: the requests that arrive, and the
    answers that an HTTP request may get. *)
Section environment.
Context (arriving : inbound -> Prop) (answers : http_request -> res exn http_response -> Prop).
Context (allowed : demand -> verdict -> Prop).
Hypothesis answers_contract : forall hreq r, answers hreq r -> post_contract r.
Hypothesis answers_allowed : forall req dm hreq r,
  arriving req -> demand_of req = Some dm -> posts_demand hreq dm -> answers hreq r ->
  allowed dm (http_verdict r).

(** A step of the system in that environment. *)
Inductive ostep_in (o : observed) : observed -> Prop :=
| ostep_in_intro l sy' :
    lstep (ob_system o) l sy' ->
    (forall i req, l = Arrives i req -> arriving req) ->
    (forall i hreq k, l = Posts i hreq -> sy_threads (ob_system o) !! i = Some (Vis (Post hreq) k) ->
       exists r, answers hreq r /\ sy_threads sy' !! i = Some (k r)) ->
    ostep_in o (observe l sy' o).

Definition on_track (d : db) (i : nat) (g : ghost) (p : option (prog wl_answer))
    (a : option (inbound * phase)) : Prop :=
  match p, a with
  | Some p, Some (req, ph) => tracks i req g ph d p (fun rep _ ph' _ => replying req rep ph')
  | None, None => True
  | _, _ => False
  end.

(** The identifiers of the transactions that the network was asked for. *)
Definition asked_ids (asked : list pystr) : list (option json) := (fun t => Some (JStr t)) <$> asked.

Record linked (o : observed) (γ : nat -> ghost) (a : atomic) : Prop := MkLinked {
  ln_inv : inv (ob_system o) γ;
  ln_ledger : at_ledger a = ledger_of (committed (sy_pg (ob_system o)));
  ln_asked : ids (sy_posts (ob_system o)) = asked_ids (at_asked a);
  ln_live : ob_live o = fst <$> at_live a;
  ln_answered : ob_answered o = at_answered a;
  ln_threads : forall i, on_track (committed (sy_pg (ob_system o))) i (γ i)
                           (sy_threads (ob_system o) !! i) (at_live a !! i)
}.

Lemma linked_initial : linked ob_initial (fun _ => idle_ghost) at_initial.
Proof. constructor; try done. apply inv_initial. Qed.

(** The other requests see rows that have evolved. *)
Lemma on_track_evolves d d' i g p a : evolves d d' -> on_track d i g p a -> on_track d' i g p a.
Proof.
  intros Hev. destruct p as [p|], a as [[req ph]|]; cbn; try done. by apply tracks_evolves.
Qed.

Lemma on_track_insert d d' γ i g' (threads : gmap nat (prog wl_answer)) (live : gmap nat (inbound * phase))
    p req ph :
  evolves d d' -> (forall j, on_track d j (γ j) (threads !! j) (live !! j)) ->
  tracks i req g' ph d' p (fun rep _ ph' _ => replying req rep ph') ->
  forall j, on_track d' j (upd γ i g' j) (<[i := p]> threads !! j) (<[i := (req, ph)]> live !! j).
Proof.
  intros Hev Ht Hp j. destruct (decide (j = i)) as [->|Hne].
  - by rewrite upd_eq, !lookup_insert_eq.
  - rewrite upd_ne, !lookup_insert_ne by done. by eapply on_track_evolves.
Qed.

Lemma on_track_delete d γ i g' (threads : gmap nat (prog wl_answer)) (live : gmap nat (inbound * phase)) :
  (forall j, on_track d j (γ j) (threads !! j) (live !! j)) ->
  forall j, on_track d j (upd γ i g' j) (delete i threads !! j) (delete i live !! j).
Proof.
  intros Ht j. destruct (decide (j = i)) as [->|Hne].
  - by rewrite upd_eq, !lookup_delete_eq.
  - rewrite upd_ne, !lookup_delete_ne by done. apply Ht.
Qed.

Lemma live_request o γ a i (p : prog wl_answer) :
  linked o γ a -> sy_threads (ob_system o) !! i = Some p ->
  exists (req : inbound) ph, at_live a !! i = Some (req, ph) /\ ob_live o !! i = Some (req : @wl_request api_workload)
    /\ tracks i req (γ i) ph (committed (sy_pg (ob_system o))) p (fun rep _ ph' _ => replying req rep ph').
Proof.
  intros Hl Hi. pose proof (ln_threads _ _ _ Hl i) as Ht. rewrite Hi in Ht.
  destruct (at_live a !! i) as [[req ph]|] eqn:Ha; [|done]. exists req, ph. split_and!; try done.
  by rewrite (ln_live _ _ _ Hl), lookup_fmap, Ha.
Qed.

(** What a live request may rely on, from the invariant. *)
Lemma inv_stage sy γ i : inv sy γ -> stage i (committed (sy_pg sy)) (γ i) (sy_pg sy).
Proof.
  intros Hinv. constructor; [done | apply Hinv | apply Hinv | apply Hinv | eexists; apply Hinv].
Qed.

Lemma linked_arrives o γ a i (req : wl_request) :
  linked o γ a -> sy_threads (ob_system o) !! i = None ->
  let sy := ob_system o in
  exists a', atomic_step allowed a a'
    /\ linked (observe (Arrives i req) (MkSystem (sy_pg sy) (sy_posts sy) (<[i := wl_serve req]> (sy_threads sy))) o)
         γ a'.
Proof.
  intros Hl Hi. pose proof (ln_threads _ _ _ Hl i) as Ht. rewrite Hi in Ht.
  destruct (at_live a !! i) as [[q ph]|] eqn:Ha; [done|].
  eexists. split; [by apply (at_arrives allowed _ i req)|]. destruct Hl as [H1 H2 H3 H4 H5 H6].
  constructor; cbn [observe ob_system ob_live ob_answered sy_pg sy_posts sy_threads at_ledger at_asked
    at_live at_answered]; try done.
  - by apply arrive_step.
  - by rewrite H4, fmap_insert.
  - intros j. destruct (decide (j = i)) as [->|Hne].
    + rewrite !lookup_insert_eq. rewrite (inv_absent _ _ H1) by done. apply tracks_serve.
    + rewrite !lookup_insert_ne by done. apply H6.
Qed.

Lemma linked_operates o γ a i q (k : _ -> prog wl_answer) r pg' :
  linked o γ a -> sy_threads (ob_system o) !! i = Some (Vis (Db q) k) ->
  pg_contract (sy_pg (ob_system o)) i q r pg' ->
  let sy := ob_system o in
  exists γ' a', rtc (atomic_step allowed) a a'
    /\ linked (observe (Operates i) (MkSystem pg' (sy_posts sy) (<[i := k r]> (sy_threads sy))) o) γ' a'.
Proof.
  intros Hl Hi Hc. cbv zeta. pose proof (ln_inv _ _ _ Hl) as Hinv.
  destruct (live_request _ _ _ _ _ Hl Hi) as (req & ph & Ha & _ & Ht).
  destruct (db_step _ _ _ _ _ _ _ Hinv Hi Hc) as (g' & Hpost & Hinv' & _).
  assert (Hev : evolves (committed (sy_pg (ob_system o))) (committed pg')).
  { eapply (step_evolves _ _ (MkSystem pg' (sy_posts (ob_system o)) _) Hinv). eexists. by eapply step_db. }
  destruct (Ht r g' _ _ (inv_stage _ _ i Hinv) Hc Hpost) as (ph' & Hm & Ht').
  destruct Hl as [H1 H2 H3 H4 H5 H6]. rewrite <- H2 in Hm.
  assert (Hlive : forall ph2, fst <$> <[i := (req, ph2)]> (at_live a) = fst <$> at_live a).
  { intros ph2. rewrite fmap_insert. apply insert_id. by rewrite lookup_fmap, Ha. }
  exists (upd γ i g'), (MkAtomic (ledger_of (committed pg')) (at_asked a) (<[i := (req, ph')]> (at_live a))
                          (at_answered a)).
  split.
  - destruct Hm as [[-> Heq]|Hact].
    + rewrite Heq, insert_id by done. destruct a. apply rtc_refl.
    + apply rtc_once. by eapply at_acts.
  - constructor; cbn [observe ob_system ob_live ob_answered sy_pg sy_posts sy_threads at_ledger at_asked
      at_live at_answered]; try done.
    + by rewrite Hlive.
    + by eapply on_track_insert.
Qed.

Lemma linked_posts o γ a i hreq (k : _ -> prog wl_answer) r :
  linked o γ a -> sy_threads (ob_system o) !! i = Some (Vis (Post hreq) k) -> post_contract r ->
  (forall req dm, ob_live o !! i = Some (req : @wl_request api_workload) -> demand_of req = Some dm ->
     posts_demand hreq dm -> allowed dm (http_verdict r)) ->
  let sy := ob_system o in
  exists γ' a', atomic_step allowed a a'
    /\ linked (observe (Posts i hreq) (MkSystem (sy_pg sy) (sy_posts sy ++ [hreq])
                 (<[i := k r]> (sy_threads sy))) o) γ' a'.
Proof.
  intros Hl Hi Hr Hall. cbv zeta. pose proof (ln_inv _ _ _ Hl) as Hinv.
  destruct (live_request _ _ _ _ _ Hl Hi) as (req & ph & Ha & Hlive & Ht).
  destruct (post_step _ _ _ _ _ _ Hinv Hi Hr) as (key & tid & Hg & Hid & Hinv' & _).
  destruct (Ht r (Gh Closed (HasPosted key tid)) Hr) as (-> & (dm & Hd & Hid') & Ht').
  { split; [done|]. by rewrite Hg. }
  destruct Hl as [H1 H2 H3 H4 H5 H6].
  eexists (upd γ i (Gh Closed (HasPosted key tid))), _. split.
  { eapply at_asks; [done..|by exists r|]. by eapply Hall. }
  constructor; cbn [observe ob_system ob_live ob_answered sy_pg sy_posts sy_threads at_ledger at_asked
    at_live at_answered]; try done.
  - unfold ids, asked_ids in *. rewrite !fmap_app, H3. cbn. by rewrite (posted_demand _ _ Hid').
  - rewrite fmap_insert, H4. symmetry. apply insert_id. by rewrite lookup_fmap, Ha.
  - by eapply on_track_insert; [| |by apply Ht'].
Qed.

Lemma linked_returns o γ a i (rep : wl_answer) :
  linked o γ a -> sy_threads (ob_system o) !! i = Some (Ret rep) ->
  let sy := ob_system o in
  exists γ' a', rtc (atomic_step allowed) a a'
    /\ linked (observe (Returns i rep) (MkSystem (sy_pg sy) (sy_posts sy) (delete i (sy_threads sy))) o) γ' a'.
Proof.
  intros Hl Hi. cbv zeta. pose proof (ln_inv _ _ _ Hl) as Hinv.
  destruct (live_request _ _ _ _ _ Hl Hi) as (req & ph & Ha & Hlo & Ht).
  specialize (Ht _ (reflexivity _)). destruct Hl as [H1 H2 H3 H4 H5 H6].
  exists (upd γ i idle_ghost), (MkAtomic (at_ledger a) (at_asked a) (delete i (at_live a))
                                  (at_answered a ++ [(req, rep)])).
  split.
  - destruct Ht as [-> |(e & He & ->)]; [by apply rtc_once, at_returns|].
    by eapply at_fails.
  - constructor; cbn [observe ob_system ob_live ob_answered sy_pg sy_posts sy_threads at_ledger at_asked
      at_live at_answered]; try done.
    + by eapply return_step.
    + by rewrite H4, fmap_delete.
    + by rewrite Hlo, H5.
    + by apply on_track_delete.
Qed.

Lemma linked_vanishes o γ a i (p : prog wl_answer) :
  linked o γ a -> sy_threads (ob_system o) !! i = Some p ->
  let sy := ob_system o in
  exists γ' a', atomic_step allowed a a'
    /\ linked (observe (Vanishes i) (MkSystem (close_session i (sy_pg sy)) (sy_posts sy)
                 (delete i (sy_threads sy))) o) γ' a'.
Proof.
  intros Hl Hi. cbv zeta. pose proof (ln_inv _ _ _ Hl) as Hinv.
  destruct (live_request _ _ _ _ _ Hl Hi) as (req & ph & Ha & Hlo & Ht).
  destruct Hl as [H1 H2 H3 H4 H5 H6].
  eexists (upd γ i idle_ghost), _. split; [by eapply at_vanishes|].
  constructor; cbn [observe ob_system ob_live ob_answered sy_pg sy_posts sy_threads at_ledger at_asked
    at_live at_answered]; try done.
  - by apply lost_step.
  - by rewrite H4, fmap_delete.
  - by apply on_track_delete.
Qed.

(** The requests that are live, or were answered, had arrived. *)
Definition arrived (o : observed) : Prop :=
  (forall i req, ob_live o !! i = Some (req : @wl_request api_workload) -> arriving req)
  /\ forall req rep, (req, rep) ∈ ob_answered o -> arriving req.

Lemma arrived_step o o' : arrived o -> ostep_in o o' -> arrived o'.
Proof.
  intros [Hl Ha] [l sy' Hs Harr _]. destruct l as [i req|i|i hreq|i rep|i]; split; cbn; try done.
  - intros j q [[_ <-]|[_ Hj]]%lookup_insert_Some; [by eapply Harr | exact (Hl _ _ Hj)].
  - intros j q [_ Hj]%lookup_delete_Some. exact (Hl _ _ Hj).
  - intros req rep'. case_match eqn:Hi; [|apply Ha].
    intros [Hin|[= -> ->]%list_elem_of_singleton]%elem_of_app; [by eapply Ha | exact (Hl _ _ Hi)].
  - intros j q [_ Hj]%lookup_delete_Some. exact (Hl _ _ Hj).
Qed.

Lemma linked_step o γ a o' :
  linked o γ a -> arrived o -> ostep_in o o' ->
  exists γ' a', rtc (atomic_step allowed) a a' /\ linked o' γ' a'.
Proof.
  intros Hl Harr [l sy' Hs _ Hp]. destruct Hs as [i req Hi _|i q k r pg' Hi Hc|i hreq k r Hi Hr|i rep Hi|i p Hi].
  - destruct (linked_arrives _ _ _ i req Hl Hi) as (a' & Hs & Hl'). exists γ, a'. split; [by apply rtc_once | done].
  - by eapply linked_operates.
  - destruct (Hp i hreq k eq_refl Hi) as (r' & Hr' & Hk). cbn in Hk. rewrite lookup_insert_eq in Hk.
    injection Hk as ->.
    destruct (linked_posts _ _ _ _ _ _ r' Hl Hi) as (γ' & a' & Hs & Hl').
    { by eapply answers_contract. }
    { intros req dm Hreq Hd Hpd. exact (answers_allowed req dm hreq r' (proj1 Harr i req Hreq) Hd Hpd Hr'). }
    exists γ', a'. split; [by apply rtc_once | done].
  - by eapply linked_returns.
  - destruct (linked_vanishes _ _ _ _ _ Hl Hi) as (γ' & a' & Hs & Hl'). exists γ', a'.
    split; [by apply rtc_once | done].
Qed.

Lemma linked_reachable o :
  rtc ostep_in ob_initial o ->
  exists γ a, rtc (atomic_step allowed) at_initial a /\ linked o γ a /\ arrived o.
Proof.
  revert o. refine (rtc_ind_r _ _ _ _).
  - eexists _, at_initial. split_and!; [apply rtc_refl | apply linked_initial |].
    split; [done | by intros ? ? ?%elem_of_nil].
  - intros o o' _ Hs (γ & a & Hr & Hl & Ha). destruct (linked_step _ _ _ _ Hl Ha Hs) as (γ' & a' & Hr' & Hl').
    exists γ', a'. split_and!; [by etransitivity | done | by eapply arrived_step].
Qed.

(** A schedule that the environment allows. *)
Fixpoint plausible (o : observed) (es : list event) : Prop :=
  match es with
  | [] => True
  | e :: es' =>
      match advance (ob_system o) e with
      | None => plausible o es'
      | Some (l, sy') =>
          match e, l with
          | Arrive _ req, _ => arriving req
          | Next _ answer, Posts _ hreq => answers hreq (Ok answer)
          | _, _ => True
          end /\ plausible (observe l sy' o) es'
      end
  end.

Lemma watch_steps_in o es : plausible o es -> rtc ostep_in o (watch o es).
Proof.
  revert o. induction es as [|e es IH]; intros o; cbn; [intros; apply rtc_refl|].
  destruct (advance (ob_system o) e) as [[l sy']|] eqn:He; [|apply IH]. intros [Hp Hes].
  eapply rtc_l; [|by apply IH]. constructor; [by eapply advance_step|..].
  - intros i req ->. apply advance_step in He as Hs. inversion Hs; subst.
    destruct e as [j q|j a|j]; cbn in He; repeat case_match; simplify_eq. done.
  - intros i hreq k -> Hi. destruct (advance_posts _ _ _ _ _ He) as (k' & answer & -> & Hk & Hk').
    exists (Ok answer). split; [done|]. rewrite Hk'. rewrite Hi in Hk.
    apply Some_inj, (f_equal (fun p => resume p (Ok answer))) in Hk. by injection Hk as ->.
Qed.

End environment.

(** Any environment: every request may arrive, and the network may answer anything. *)
Definition anything (dm : demand) (v : verdict) : Prop := True.
Abbreviation ostep_any := (ostep_in (fun _ => True) (fun _ => post_contract)).

Lemma ostep_anywhere o o' : ostep o o' -> ostep_any o o'.
Proof.
  intros [l sy' Hs]. constructor; [done..|]. intros i hreq k Hl Hi.
  destruct Hs as [| |j q k' r Hj Hr| |]; try discriminate. injection Hl as -> ->.
  exists r. split; [done|]. cbn. rewrite lookup_insert_eq.
  rewrite Hi in Hj. apply Some_inj, (f_equal (fun p => resume p r)) in Hj. by injection Hj as ->.
Qed.

Lemma linked_any_step o γ a o' :
  linked o γ a -> ostep o o' -> exists γ' a', rtc (atomic_step anything) a a' /\ linked o' γ' a'.
Proof.
  intros Hl Hs%ostep_anywhere.
  by refine (linked_step (fun _ => True) (fun _ => post_contract) anything _ _ o γ a o' Hl _ Hs).
Qed.

Lemma linked_any_reachable o :
  rtc ostep ob_initial o -> exists γ a, rtc (atomic_step anything) at_initial a /\ linked o γ a.
Proof.
  intros Hr. assert (Hr' : rtc ostep_any ob_initial o) by (eapply rtc_subrel, Hr; apply ostep_anywhere).
  destruct (linked_reachable (fun _ => True) (fun _ => post_contract) anything) with (o := o)
    as (γ & a & H1 & H2 & _); [done..|]. by exists γ, a.
Qed.

(** The tables show the ledger of the machine, and clients see the same requests and the
    same replies. *)
Definition implements (o : observed) (a : atomic) : Prop :=
  ob_live o = fst <$> at_live a
  /\ ob_answered o = at_answered a
  /\ ledger_of (committed (sy_pg (ob_system o))) = at_ledger a
  /\ ids (sy_posts (ob_system o)) = asked_ids (at_asked a).

(** [step2] follows [step1] step by step, showing the same to an observer. *)
Definition simulated {S1 S2 : Type} (step1 : S1 -> S1 -> Prop) (step2 : S2 -> S2 -> Prop)
    (same : S1 -> S2 -> Prop) (s1 : S1) (s2 : S2) : Prop :=
  exists R : S1 -> S2 -> Prop,
    R s1 s2
    /\ (forall x x' y, R x y -> step1 x x' -> exists y', rtc step2 y y' /\ R x' y')
    /\ (forall x y, R x y -> same x y).

(** What was answered is accounted for by the tables. *)
Lemma answered_account o req rep :
  rtc ostep ob_initial o -> (req, rep) ∈ ob_answered o ->
  account (ledger_of (committed (sy_pg (ob_system o)))) req rep.
Proof.
  intros (γ & a & Hr & Hl)%linked_any_reachable Hin. destruct Hl as [_ <- _ _ Hans _].
  rewrite Hans in Hin. by apply (mo_answered _ (machine_ok_reachable _ _ Hr)).
Qed.

(** * Properties *)

(** C1.  Concurrent requests are atomic.  Whatever the interleaving of their operations,
    the failures, the lost requests and the answers of the network, the API behaves like
    the machine of Atomic.v: each request acts on the ledger of keys and transactions in
    at most two indivisible actions, its reservation and its completion, between its
    arrival and its reply; at every moment the committed tables show the ledger of the
    machine, the same requests are live, the same replies were given, and the network
    was asked for the same transactions in the same order. *)
Theorem concurrent_requests_are_atomic :
  simulated ostep (atomic_step anything) implements ob_initial at_initial.
Proof.
  exists (fun o a => exists γ, linked o γ a). split_and!.
  - eexists. apply linked_initial.
  - intros o o' a [γ Hl] Hs. destruct (linked_any_step _ _ _ _ Hl Hs) as (γ' & a' & Hr & Hl').
    exists a'. split; [done | by exists γ'].
  - intros o a [γ [H1 H2 H3 H4 H5 H6]]. by split_and!.
Qed.

(** C2.  Final answers agree.  Under any interleaving and any failures, all the requests
    with one idempotency key that were answered 201, 202, 502 or 503 were given the same
    status, body and media type, had the same body fingerprint, and the answer is the
    one the tables hold for the key. *)
Theorem final_answers_agree o req req' response response' dm dm' :
  rtc ostep ob_initial o ->
  (req, Responded response) ∈ ob_answered o -> (req', Responded response') ∈ ob_answered o ->
  final response -> final response' ->
  demand_of req = Some dm -> demand_of req' = Some dm' -> dm_key dm = dm_key dm' ->
  dm_fingerprint dm = dm_fingerprint dm'
  /\ jr_status_code response = jr_status_code response'
  /\ jr_content response = jr_content response' /\ jr_media_type response = jr_media_type response'
  /\ exists rec, idempotency_records (committed (sy_pg (ob_system o))) !! dm_key dm = Some rec
       /\ i_request_fingerprint rec = dm_fingerprint dm
       /\ i_stored_status_code rec = Some (jr_status_code response)
       /\ i_stored_response_body rec = Some (jr_content response).
Proof.
  intros Hr Hin Hin' Hfin Hfin' Hd Hd' Hk.
  pose proof (answered_account _ _ _ Hr Hin) as Ha. pose proof (answered_account _ _ _ Hr Hin') as Ha'.
  destruct (finals_agree _ _ _ _ _ _ _ Ha Ha' Hfin Hfin' Hd Hd' Hk) as (H1 & H2 & H3 & H4).
  split_and!; [done..|]. destruct (final_recorded _ _ _ Ha Hfin) as (dm1 & e & env & Hd1 & He & Hf & Hs & E1 & E2 & _).
  rewrite Hd in Hd1. injection Hd1 as <-. cbn [ledger_of l_keys] in He. rewrite lookup_fmap in He.
  destruct (idempotency_records _ !! dm_key dm) as [rec|]; [|discriminate]. injection He as <-.
  exists rec. split; [done|]. split; [exact Hf|]. unfold entry_of in Hs. cbn [en_response] in Hs.
  destruct (i_stored_status_code rec), (i_stored_response_body rec); try discriminate.
  injection Hs as <-. rewrite E1, E2. done.
Qed.

(** C3.  Every reply is accounted for, under any interleaving and any failures: a request
    refused by its headers or its body was told so; an error other than a conflict is a
    persistence failure or an unforeseen one; a final answer is the one recorded for the
    key and fingerprint; and each of the three conflicts is what the tables show: a key
    in use with another fingerprint, a key in use with this fingerprint, a transaction
    that exists. *)
Theorem every_reply_is_accounted_for o req rep :
  rtc ostep ob_initial o -> (req, rep) ∈ ob_answered o ->
  account (ledger_of (committed (sy_pg (ob_system o)))) req rep.
Proof. apply answered_account. Qed.

(** C4.  Every request is answered.  From any state the API can reach, whatever failed
    before and however few connections the pool has (at least one): if from then on
    nothing fails, then a schedule, whatever order it chose, can only end when every
    live request has got its reply; and with or without failures, no schedule without
    new arrivals takes more than fifteen steps per live request.  No request holds a
    connection while it waits for the network, nor when it is answered, and none is left
    behind by a request that is gone. *)
Theorem every_request_is_answered capacity o :
  (0 < capacity)%nat -> rtc ostep ob_initial o ->
  (exists n o', nsteps (healthy_ostep capacity) n o o' /\ (n <= 15 * size (ob_live o))%nat
     /\ all_answered o o')
  /\ (forall o', rtc (healthy_ostep capacity) o o' -> (forall o2, ~ healthy_ostep capacity o' o2) ->
       all_answered o o')
  /\ (forall n o', nsteps closing_ostep n o o' -> (n <= 15 * size (ob_live o))%nat)
  /\ let sy := ob_system o in
     (forall i hreq k, sy_threads sy !! i = Some (Vis (Post hreq) k) -> sessions (sy_pg sy) !! i = None)
     /\ (forall i rep, sy_threads sy !! i = Some (Ret rep) -> sessions (sy_pg sy) !! i = None)
     /\ (forall i, is_Some (sessions (sy_pg sy) !! i) -> is_Some (ob_live o !! i)).
Proof.
  intros Hc Hr. destruct (requests_drain capacity Hc o Hr) as [Hd Hb]. split; [exact Hd|].
  split; [intros o'; by apply healthy_stuck|]. split; [exact Hb|].
  destruct (connections_released _ (observed_reachable _ Hr)) as (H1 & H2 & H3). split_and!; [done..|].
  intros i Hs. apply (tended_reachable _ Hr). by apply H3.
Qed.

(** C5.  No client waits for ever.  In every infinite run of the API, with requests that
    keep arriving, operations that fail, requests that are lost and a network that
    answers anything, over a pool of at least one connection: if a request that can go
    on again and again does go on (as lock queues, the pool and the event loop let it),
    then every request is answered in the end, unless it is lost. *)
Theorem no_client_waits_forever capacity σ labels :
  (0 < capacity)%nat -> run capacity σ labels -> fair capacity σ labels ->
  forall n i req, ob_live (σ n) !! i = Some req ->
  exists m, (n <= m)%nat
    /\ (labels m = Some (Vanishes i)
        \/ exists rep, labels m = Some (Returns i rep) /\ (req, rep) ∈ ob_answered (σ (S m))).
Proof. intros Hc Hrun Hfair n i req. by apply (live_leaves capacity). Qed.

End serving.

(** ** Clients that race *)

#[local] Instance sample_workload : Workload := @api_workload reference_fastapi sample_adapter.

(** Two clients send the same request at once; a third sends it again after both have
    their replies. *)
Definition clients : list event :=
  [Arrive 0 sample_inbound; Arrive 1 sample_inbound_retry]
  ++ concat (replicate 14 [Next 0 approval; Next 1 approval])
  ++ [Arrive 2 sample_inbound_retry] ++ replicate 8 (Next 2 approval).

Definition watched : observed := watch ob_initial clients.

Lemma watched_reachable : rtc ostep ob_initial watched.
Proof. exact (watch_steps ob_initial clients). Qed.

(** The second client is told that its request is in progress; the first gets the answer
    of the network, the third its replay. *)
Definition response_of (x : inbound * reply) : JSONResponse :=
  match snd x with Responded response => response | Unhandled _ => persistence_error_handler end.
Definition watched_responses : list JSONResponse :=
  Eval vm_compute in response_of <$> ob_answered watched.
Definition conflict_told : JSONResponse := nth 0 watched_responses persistence_error_handler.
Definition answer_given : JSONResponse := nth 1 watched_responses persistence_error_handler.
Definition replay_given : JSONResponse := nth 2 watched_responses persistence_error_handler.

Lemma watched_answers :
  ob_answered watched = [(sample_inbound_retry, Responded conflict_told);
                         (sample_inbound, Responded answer_given);
                         (sample_inbound_retry, Responded replay_given)].
Proof. by_run. Qed.

Lemma conflict_seen : (sample_inbound_retry, Responded conflict_told) ∈ ob_answered watched.
Proof. rewrite watched_answers. left. Qed.
Lemma answer_seen : (sample_inbound, Responded answer_given) ∈ ob_answered watched.
Proof. rewrite watched_answers. right. left. Qed.
Lemma replay_seen : (sample_inbound_retry, Responded replay_given) ∈ ob_answered watched.
Proof. rewrite watched_answers. right. right. left. Qed.
Lemma answer_final : final answer_given.
Proof. vm_compute. left. Qed.
Lemma replay_final : final replay_given.
Proof. vm_compute. left. Qed.

Definition sample_demand : demand :=
  MkDemand sample_key_hash sample_request_fingerprint sample_command.
Definition sample_demand_retry : demand :=
  MkDemand sample_key_hash sample_request_fingerprint (command_of sample_request (py "corr_2")).

Lemma sample_demanded : @demand_of reference_fastapi sample_inbound = Some sample_demand.
Proof. by_run. Qed.
Lemma sample_demanded_retry :
  @demand_of reference_fastapi sample_inbound_retry = Some sample_demand_retry.
Proof. by_run. Qed.

Lemma final_answers_agree_witness :
  jr_status_code conflict_told = 409
  /\ dm_fingerprint sample_demand = dm_fingerprint sample_demand_retry
  /\ jr_status_code answer_given = jr_status_code replay_given
  /\ jr_content answer_given = jr_content replay_given
  /\ jr_media_type answer_given = jr_media_type replay_given
  /\ exists rec, idempotency_records (committed (sy_pg (ob_system watched))) !! dm_key sample_demand = Some rec
       /\ i_request_fingerprint rec = dm_fingerprint sample_demand
       /\ i_stored_status_code rec = Some (jr_status_code answer_given)
       /\ i_stored_response_body rec = Some (jr_content answer_given).
Proof.
  split; [reflexivity|].
  exact (@final_answers_agree reference_fastapi sample_adapter watched sample_inbound
           sample_inbound_retry answer_given replay_given sample_demand sample_demand_retry
           watched_reachable answer_seen replay_seen answer_final replay_final
           sample_demanded sample_demanded_retry eq_refl).
Defined.

Lemma every_reply_is_accounted_for_witness :
  @account reference_fastapi (ledger_of (committed (sy_pg (ob_system watched)))) sample_inbound_retry
    (Responded conflict_told).
Proof.
  exact (@every_reply_is_accounted_for reference_fastapi sample_adapter watched sample_inbound_retry
           (Responded conflict_told) watched_reachable conflict_seen).
Defined.

(** Two clients in the middle of their race: the second waits for the lock of the first. *)
Definition racing : observed := watch ob_initial (take 8 clients).

Lemma racing_live : size (ob_live racing) = 2%nat /\ ob_answered racing = [].
Proof. vm_compute. done. Qed.

Lemma every_request_is_answered_witness :
  size (sessions (sy_pg (ob_system racing))) = 2%nat
  /\ exists n o', nsteps (healthy_ostep 2) n racing o' /\ (n <= 15 * size (ob_live racing))%nat
     /\ all_answered racing o'.
Proof.
  split; [vm_compute; reflexivity|].
  exact (proj1 (@every_request_is_answered reference_fastapi sample_adapter 2 racing
           (Nat.lt_0_succ 1) (watch_steps ob_initial (take 8 clients)))).
Defined.

(** The schedule of the race, on two connections. *)
Lemma no_client_waits_forever_witness :
  is_Some (ob_live (play clients 8) !! 1%nat)
  /\ forall n i req, ob_live (play clients n) !! i = Some req ->
     exists m, (n <= m)%nat
       /\ (played clients m = Some (Vanishes i)
           \/ exists rep, played clients m = Some (Returns i rep)
                          /\ (req, rep) ∈ ob_answered (play clients (S m))).
Proof.
  split; [vm_compute; by eexists|].
  exact (@no_client_waits_forever reference_fastapi sample_adapter 2 (play clients) (played clients)
           (Nat.lt_0_succ 1) (play_run 2 clients eq_refl) (play_fair 2 clients eq_refl)).
Defined.
