(* ===== verification/Responses.v ===== *)
(** The response models of the API (api/schemas.py), which document the bodies that
    the orchestrator builds, and the proof that every body the API ever sends, first
    answers and replays alike, is an instance of the model of its status. *)
From S2P Require Import Prelude PyStr Sha256 Json Domain Ports Idempotency Schema Effects Adapter.
From S2P Require Import Authorize Problem Coordinator Ledger Orchestrator Protocol Coherence Faults.
From S2P Require Import Requests JsonText Bodies Api History.

Open Scope Z_scope.

(** * The models *)

Record AuthorizedTransactionResponse : Type := MkAuthorizedResponse {
  ra_transaction_id : pystr;
  ra_version : Z;
  ra_network_reference : pystr;
  ra_authorization_code : pystr
}.

Record DeclinedTransactionResponse : Type := MkDeclinedResponse {
  rd_transaction_id : pystr;
  rd_version : Z;
  rd_decline_code : pystr
}.

Record PendingReconciliationTransactionResponse : Type := MkPendingResponse {
  rp_transaction_id : pystr;
  rp_version : Z
}.

(** [model_dump()]: every field by name, the literals included. *)
Definition AuthorizedTransactionResponse_dump (m : AuthorizedTransactionResponse) : body_dict :=
  {[ py "transaction_id" := JStr (ra_transaction_id m); py "status" := JStr (py "AUTHORIZED");
     py "version" := JInt (ra_version m);
     py "network_reference" := JStr (ra_network_reference m);
     py "authorization_code" := JStr (ra_authorization_code m) ]}.

Definition DeclinedTransactionResponse_dump (m : DeclinedTransactionResponse) : body_dict :=
  {[ py "transaction_id" := JStr (rd_transaction_id m); py "status" := JStr (py "DECLINED");
     py "version" := JInt (rd_version m); py "decline_code" := JStr (rd_decline_code m) ]}.

Definition PendingReconciliationTransactionResponse_dump
    (m : PendingReconciliationTransactionResponse) : body_dict :=
  {[ py "transaction_id" := JStr (rp_transaction_id m);
     py "status" := JStr (py "PENDING_RECONCILIATION"); py "version" := JInt (rp_version m);
     py "pending_operation" := JStr (py "AUTHORIZATION") ]}.

(** [Field(ge=0)]. *)
Definition version_field (v : Z) : bool := 0 <=? v.

(** The body is an instance of the model documented for the status. *)
Inductive conforms : Z -> body_dict -> Prop :=
| conforms_authorized m : version_field (ra_version m) = true ->
    conforms 201 (AuthorizedTransactionResponse_dump m)
| conforms_declined m : version_field (rd_version m) = true ->
    conforms 201 (DeclinedTransactionResponse_dump m)
| conforms_pending m : version_field (rp_version m) = true ->
    conforms 202 (PendingReconciliationTransactionResponse_dump m)
| conforms_problem p : documented (pd_status p) -> 400 <= pd_status p ->
    conforms (pd_status p) (ProblemDetail_dump p).

(** * Every body conforms *)

Lemma problem_conforms status ty title detail params :
  documented status -> 400 <= status ->
  conforms status (ProblemDetail_dump (MkProblem ty title status detail params)).
Proof. apply (conforms_problem (MkProblem ty title status detail params)). Qed.

Lemma completion_conforms tid v c :
  completion_of tid v = Ok c ->
  conforms (env_status_code (cp_envelope c)) (env_body (cp_envelope c)).
Proof.
  destruct v as [n a|d|k| | |e]; cbn [completion_of]; try discriminate; intros Hc%Ok_inj; subst c.
  - by apply (conforms_authorized (MkAuthorizedResponse tid 1 n a)).
  - by apply (conforms_declined (MkDeclinedResponse tid 1 d)).
  - apply problem_conforms; [unfold documented; evaluate | lia].
  - apply problem_conforms; [unfold documented; evaluate | lia].
  - by apply (conforms_pending (MkPendingResponse tid 1)).
Qed.

(** The cached bodies conform. *)
Definition cached_conform (d : db) : Prop :=
  map_Forall (fun _ rec => forall code body,
    i_stored_status_code rec = Some code -> i_stored_response_body rec = Some body ->
    conforms code body) (idempotency_records d).

Lemma cached_reserve key fp tid mid amount currency d :
  cached_conform d -> cached_conform (snd (reserve_result key fp tid mid amount currency d)).
Proof.
  intros Hd. unfold reserve_result. destruct (idempotency_records d !! key); [done|].
  destruct (insert_transaction _ d) as [r| |]; [|done..].
  destruct (insert_idempotency _ _) as [r'| |] eqn:Hi; [|done..].
  apply map_Forall_insert_2; [|exact Hd]. intros code body Hc.
  apply insert_idempotency_ok in Hi as (Hs & _).
  unfold store_idempotency_row, reserved_idempotency in Hs. bind_some.
  repeat match goal with
  | H : store_option _ _ = Some _ |- _ => cbn in H; apply Some_inj in H
  end. simplify_eq.
Qed.

Lemma cached_complete key t ver envelope nref auth decl d :
  db_ok d -> cached_conform d -> conforms (env_status_code envelope) (env_body envelope) ->
  cached_conform (snd (complete_result key t ver envelope nref auth decl d)).
Proof.
  intros (_ & Hi & _) Hd He. unfold complete_result. destruct (negb _); [done|].
  destruct (update_transaction _ _ _ d) as [[r|]| |]; [|done..].
  destruct (update_idempotency _ _ _ _ _) as [[r'|]| |] eqn:Hu; [|done..].
  apply update_idempotency_row in Hu as (rec & Hl & _ & _ & Hs & _). cbn in Hl.
  pose proof (completed_as_given _ (completed_idempotency envelope) _ _ (Hi _ _ Hl) eq_refl Hs) as ->.
  apply map_Forall_insert_2; [|exact Hd]. intros code body Hc Hb. cbn in Hc, Hb. by simplify_eq.
Qed.

(** A request leaves conforming bodies behind, and is answered with one. *)
Lemma left_behind_conforms adapter command key fp d posts r d' posts' :
  left_behind adapter command key fp d posts r d' posts' -> db_ok d -> cached_conform d ->
  cached_conform d'
  /\ match r with Ok envelope => conforms (env_status_code envelope) (env_body envelope) | _ => True end.
Proof.
  intros H Hd Hcd.
  pose proof (reserve_result_ok key fp (cmd_transaction_id command) (cmd_merchant_id command)
                (cmd_amount command) (cmd_currency command) d Hd) as Hok.
  pose proof (cached_reserve key fp (cmd_transaction_id command) (cmd_merchant_id command)
                (cmd_amount command) (cmd_currency command) d Hcd) as Hcr.
  destruct H as [a Ha Hne|e He|d1 e Hres He|d1 answer e Hres Hans He|d1 d2 answer c r Hres Hans Hc Hcpl Hr];
    try done; try (by rewrite Hres in Hcr).
  - split; [done|]. clear Hok Hcr. unfold reserve_result in Ha.
    assert (Hi : conforms (env_status_code idempotency_conflict_envelope)
                   (env_body idempotency_conflict_envelope)
                 /\ conforms (env_status_code in_progress_envelope) (env_body in_progress_envelope)
                 /\ conforms (env_status_code transaction_id_conflict_envelope)
                      (env_body transaction_id_conflict_envelope)).
    { split_and!; (apply problem_conforms; [unfold documented; evaluate | lia]). }
    destruct Hi as (H1 & H2 & H3). unfold immediate.
    destruct (idempotency_records d !! key) as [rec|] eqn:Hk.
    + revert Ha. cbn [fst]. unfold _classify_existing.
      repeat case_match; intros Ha; try discriminate; apply Ok_inj in Ha; subst a;
        first [exact H1 | exact H2 | cbn; by eapply (Hcd _ _ Hk)].
    + unfold conflict_result in Ha. revert Ha.
      repeat case_match; cbn [fst]; intros Ha; try discriminate; apply Ok_inj in Ha; subst a;
        first [exact H3 | by destruct Hne | discriminate].
  - rewrite Hres in Hok, Hcr. apply completion_conforms in Hc.
    pose proof (cached_complete key (cp_transaction c) 0 (cp_envelope c) (cp_network_reference c)
                  (cp_authorization_code c) (cp_decline_code c) d1 Hok Hcr Hc) as H2.
    rewrite Hcpl in H2. split; [done|]. by destruct Hr as [->|(e & _ & ->)].
Qed.

Lemma middleware_conforms raw_cid response :
  conforms (jr_status_code response) (jr_content response) ->
  conforms (jr_status_code (correlation_id_middleware raw_cid response))
    (jr_content (correlation_id_middleware raw_cid response)).
Proof. by destruct (middleware_same raw_cid response) as (-> & -> & _). Qed.

Lemma handler_conforms f response :
  registered_handler f = Some response -> f <> FUnreadable ->
  conforms (jr_status_code response) (jr_content response).
Proof.
  intros Hr Hn. revert Hr. destruct f as [errors| |e]; [| done |]; cbn [registered_handler].
  - intros [= <-]. unfold validation_exception_handler.
    destruct (existsb _ errors); (apply problem_conforms; [unfold documented; evaluate | lia]).
  - destruct e; cbn; intros Hr; try discriminate; apply Some_inj in Hr; subst response;
      (apply problem_conforms; [unfold documented; evaluate | evaluate]).
Qed.

Lemma reply_conforms raw_cid (x : res failure JSONResponse) response :
  match x with
  | Ok r => conforms (jr_status_code r) (jr_content r)
  | Raise f => f <> FUnreadable
  end ->
  reply_to raw_cid x = Responded response ->
  conforms (jr_status_code response) (jr_content response).
Proof.
  destruct x as [r|f]; cbn [reply_to].
  - intros Hr [= <-]. by apply middleware_conforms.
  - intros Hn. destruct (registered_handler f) as [r|] eqn:Hr; [|by destruct f].
    intros Heq. assert (response = correlation_id_middleware raw_cid r) as -> by (destruct f; congruence).
    apply middleware_conforms. by apply (handler_conforms f).
Qed.

Section api.
Context `{FastAPI}.
Abbreviation serve adapter req := (@post_transactions _ sql_coordinator (http_port adapter) req).

Lemma served_conforms adapter req d posts rep d' posts' :
  served adapter req d posts rep d' posts' -> db_ok d -> cached_conform d ->
  (db_ok d' /\ cached_conform d')
  /\ forall response, rep = Responded response -> in_body req <> Unreadable ->
       conforms (jr_status_code response) (jr_content response).
Proof.
  intros Hs Hd Hc. unfold served in Hs. destruct (fa_resolve req) as [[[r cid] raw_key]|f] eqn:Hf.
  - destruct Hs as (key & fp & x & _ & _ & _ & _ & -> & Hl).
    destruct (left_behind_conforms _ _ _ _ _ _ _ _ _ Hl Hd Hc) as [Hc' Hx].
    destruct (left_behind_keeps _ _ _ _ _ _ _ _ _ Hl Hd) as [Hd' _]. split; [done|].
    intros response Hr _. eapply reply_conforms; [|exact Hr]. by destruct x.
  - destruct Hs as (-> & -> & ->). split; [done|]. intros response Hr Hn.
    eapply reply_conforms; [|exact Hr]. cbn. intros ->.
    apply fa_refuses in Hf as [[[=] _]|[[[=] _]|[(? & [=] & _)|[_ Hb]]]]. by apply Hn.
Qed.

Lemma history_conforms w w' :
  history w w' -> forall d posts, w = MkWorld (MkPg d ∅) posts -> db_ok d -> cached_conform d ->
  exists d' posts', w' = MkWorld (MkPg d' ∅) posts' /\ db_ok d' /\ cached_conform d'.
Proof.
  induction 1 as [w|w adapter i req rep w1 w2 Ho Hh IH]; intros d posts -> Hd Hc.
  { by exists d, posts. }
  apply outcome_served in Ho as (d1 & posts1 & -> & Hs).
  destruct (served_conforms _ _ _ _ _ _ _ Hs Hd Hc) as [[Hd1 Hc1] _]. by apply (IH d1 posts1).
Qed.

(** C24.  Every response body is an instance of the model the API documents for its
    status.  From empty tables, after any number of requests in which anything may have
    failed, every response of POST /v1/transactions, first answer or replay, to a request
    whose body could be read has a body that is exactly an AuthorizedTransactionResponse
    or a DeclinedTransactionResponse for 201, a PendingReconciliationTransactionResponse
    for 202, and for the documented error statuses a problem document that carries that
    status.  A request whose body could not be read, or not be decoded for another reason
    than its syntax, gets FastAPI's own 400 object, which is no problem document. *)
Theorem responses_conform adapter i req response w w' :
  history (MkWorld (MkPg empty_db ∅) []) w ->
  outcome i (serve adapter req) w (Responded response) w' ->
  (in_body req <> Unreadable -> conforms (jr_status_code response) (jr_content response))
  /\ (in_body req = Unreadable ->
      response = correlation_id_middleware (in_correlation_id req) unreadable_response).
Proof.
  intros Hh Ho.
  assert (H0 : cached_conform empty_db) by (intros k rec; cbn; by rewrite lookup_empty).
  destruct (history_conforms _ _ Hh empty_db [] eq_refl db_ok_empty H0) as (d & posts & -> & Hd & Hc).
  split.
  - apply outcome_served in Ho as (d' & posts' & -> & Hs).
    destruct (served_conforms _ _ _ _ _ _ _ Hs Hd Hc) as [_ Hr]. by apply Hr.
  - intros Hb%fa_unreadable. unfold post_transactions in Ho. rewrite Hb in Ho.
    by destruct Ho as [[= ->] _].
Qed.
End api.

Lemma responses_conform_witness :
  retry_reply = Responded (match retry_reply with Responded r => r | _ => sample_http_response end)
  /\ conforms (jr_status_code (match retry_reply with Responded r => r | _ => sample_http_response end))
       (jr_content (match retry_reply with Responded r => r | _ => sample_http_response end)).
Proof.
  split; [reflexivity|].
  apply (@responses_conform reference_fastapi sample_adapter 0 sample_inbound_retry _ later_world later_world
    (history_next _ sample_adapter 0 sample_inbound _ answered_world later_world first_outcome later_history)
    retry_outcome).
  discriminate.
Defined.
