(* ===== verification/Emulator.v ===== *)
(** The payment network emulator: scenarios (emulator/scenarios.py), handlers
    (emulator/errors.py) and its route (emulator/app.py); and the platform talking to it. *)
From S2P Require Import Prelude PyStr Sha256 Json Domain Ports Idempotency Schema Effects Adapter.
From S2P Require Import Authorize Problem Coordinator Ledger Orchestrator Requests Api JsonText Bodies.

Open Scope Z_scope.

(** * Scenarios *)

Definition TOKEN_APPROVED : pystr := py "tok_test_approved".
Definition TOKEN_DECLINED : pystr := py "tok_test_declined".
Definition TOKEN_RATE_LIMITED : pystr := py "tok_test_rate_limited".
Definition TOKEN_MALFORMED : pystr := py "tok_test_malformed".
Definition TOKEN_TIMEOUT : pystr := py "tok_test_timeout".

Definition SUPPORTED_TOKENS : list pystr :=
  [TOKEN_APPROVED; TOKEN_DECLINED; TOKEN_RATE_LIMITED; TOKEN_MALFORMED; TOKEN_TIMEOUT].

(** [EmulatorError] and its subclasses, and what else can be raised. *)
Inductive emulator_exn : Type :=
| EmulatorMissingCorrelationId
| UnsupportedTokenError
| RateLimitedError
| EmulatorOther (e : exn).

(** [hashlib.sha256(request_id.encode("utf-8")).hexdigest()[:16]] after "net_". *)
Definition derive_network_reference (request_id : pystr) : res emulator_exn pystr :=
  match sha256_of_str request_id with
  | Ok digest => Ok (py "net_" ++ take 16 digest)
  | Raise e => Raise (EmulatorOther e)
  end.

Inductive scenario_response : Type :=
| AuthorizedResponse (network_reference authorization_code : pystr)
| DeclinedResponse (decline_code : pystr)
| RawResponse (content media_type : pystr) (status_code : Z).

Definition quote : pystr := [34%N].
(** The text of the contract-violation scenario, an object that breaks off. *)
Definition malformed_content : pystr :=
  py "{" ++ quote ++ py "outcome" ++ quote ++ py ": " ++ quote ++ py "AUTHORIZED" ++ quote
  ++ py ", network_reference:".

(** What a coroutine does that may sleep: the delays it slept, and what it returned or
    raised after them. *)
Definition sleepy (D A : Type) : Type := list D * res emulator_exn A.

Definition sleepy_ret {D A} (a : A) : sleepy D A := ([], Ok a).
Definition sleepy_lift {D A} (r : res emulator_exn A) : sleepy D A := ([], r).
Definition sleepy_bind {D A B} (p : sleepy D A) (f : A -> sleepy D B) : sleepy D B :=
  match p with
  | (slept, Ok a) => let '(slept', r) := f a in (slept ++ slept', r)
  | (slept, Raise e) => (slept, Raise e)
  end.

(** [AsyncSleeper]: a function that sleeps for the delay it is given. *)
Definition AsyncSleeper (D : Type) : Type := D -> sleepy D unit.

Definition default_async_sleeper {D : Type} : AsyncSleeper D := fun delay => ([delay], Ok tt).
Definition get_async_sleeper {D : Type} : AsyncSleeper D := default_async_sleeper.

Definition execute_authorization_scenario {D : Type} (request : AuthorizationRequest)
    (timeout_delay : D) (sleeper : AsyncSleeper D) : sleepy D scenario_response :=
  let token := az_payment_token request in
  if negb (bool_decide (token ∈ SUPPORTED_TOKENS)) then sleepy_lift (Raise UnsupportedTokenError)
  else if str_eqb token TOKEN_APPROVED
  then sleepy_bind (sleepy_lift (derive_network_reference (az_request_id request))) (fun ref =>
       sleepy_ret (AuthorizedResponse ref (py "AUTH123")))
  else if str_eqb token TOKEN_DECLINED
  then sleepy_ret (DeclinedResponse (py "INSUFFICIENT_FUNDS"))
  else if str_eqb token TOKEN_RATE_LIMITED then sleepy_lift (Raise RateLimitedError)
  else if str_eqb token TOKEN_MALFORMED
  then sleepy_ret (RawResponse malformed_content (py "application/json") 200)
  else if str_eqb token TOKEN_TIMEOUT
  then sleepy_bind (sleeper timeout_delay) (fun _ =>
       sleepy_bind (sleepy_lift (derive_network_reference (az_request_id request))) (fun ref =>
       sleepy_ret (AuthorizedResponse ref (py "AUTH123"))))
  else sleepy_lift (Raise UnsupportedTokenError).

(** * Handlers *)

Definition missing_correlation_id_handler : JSONResponse :=
  build_problem_response 400 (py "urn:problem-type:missing-correlation-id")
    (py "Missing or invalid correlation ID")
    (py "The X-Correlation-ID header is required and must match pattern [A-Za-z0-9._:-]+ up to 128 characters without whitespace.")
    None None.

Definition unsupported_token_handler : JSONResponse :=
  build_problem_response 422 (py "urn:problem-type:unsupported-token")
    (py "Unsupported payment token")
    (py "The provided payment token is not supported by the payment network emulator.") None None.

Definition rate_limited_handler : JSONResponse :=
  build_problem_response 429 (py "urn:problem-type:rate-limited") (py "Rate limit exceeded")
    (py "Payment network emulator simulated rate limit.") None
    (Some [(py "Retry-After", py "1")]).

(** [None] is an exception of another class. *)
Definition validation_exception_handler (exc : option (list validation_error)) : JSONResponse :=
  match exc with
  | None =>
      build_problem_response 400 (py "urn:problem-type:malformed-request") (py "Malformed request")
        (py "The request could not be processed due to a formatting error.") None None
  | Some errors =>
      if existsb (fun err => str_eqb (ve_type err) (py "json_invalid")) errors
      then build_problem_response 400 (py "urn:problem-type:malformed-request")
             (py "Malformed JSON request")
             (py "The request body contains invalid JSON and could not be parsed.") None None
      else build_problem_response 422 (py "urn:problem-type:validation-error")
             (py "Validation error") (py "The request body failed schema validation.")
             (Some (invalid_parameter <$> errors)) None
  end.

Definition require_correlation_id (x_correlation_id : option pystr) : res emulator_exn pystr :=
  match x_correlation_id with
  | None => Raise EmulatorMissingCorrelationId
  | Some v => if negb (CORRELATION_ID_REGEX v) then Raise EmulatorMissingCorrelationId else Ok v
  end.

(** * Over HTTP *)

(** A response body: a model that the framework serialises, the JSON object of a handler (of
    the application or FastAPI's own), or raw text. *)
Inductive content : Type :=
| ModelContent (fields : list (pystr * json))
| ProblemContent (body : body_dict)
| TextContent (text : pystr).

Record emulator_response : Type := MkEmulatorResponse {
  er_status_code : Z;
  er_content : content;
  er_headers : header_dict
}.

Definition problem_content (r : JSONResponse) : emulator_response :=
  MkEmulatorResponse (jr_status_code r) (ProblemContent (jr_content r)) (jr_headers r).

(** The models [AuthorizedResponse] and [DeclinedResponse] as JSON, with status 200. *)
Definition scenario_http (s : scenario_response) : emulator_response :=
  match s with
  | AuthorizedResponse n a =>
      MkEmulatorResponse 200
        (ModelContent [(py "outcome", JStr (py "AUTHORIZED")); (py "network_reference", JStr n);
                       (py "authorization_code", JStr a)]) []
  | DeclinedResponse d =>
      MkEmulatorResponse 200
        (ModelContent [(py "outcome", JStr (py "DECLINED")); (py "decline_code", JStr d)]) []
  | RawResponse text _ status => MkEmulatorResponse status (TextContent text) []
  end.

(** What can go wrong before or in the route, and the handlers registered by [create_app] or
    by FastAPI itself. *)
Inductive emulator_failure : Type :=
| EmulatorValidation (errors : list validation_error)
| EmulatorUnreadable    (* FastAPI's own HTTPException *)
| EmulatorExn (e : emulator_exn).

Definition registered_handler (f : emulator_failure) : option JSONResponse :=
  match f with
  | EmulatorExn EmulatorMissingCorrelationId => Some missing_correlation_id_handler
  | EmulatorExn UnsupportedTokenError => Some unsupported_token_handler
  | EmulatorExn RateLimitedError => Some rate_limited_handler
  | EmulatorExn (EmulatorOther _) => None
  | EmulatorValidation errors => Some (validation_exception_handler (Some errors))
  | EmulatorUnreadable => Some unreadable_response
  end.

Definition correlation_id_middleware (raw_cid : option pystr) (response : emulator_response)
    : emulator_response :=
  match raw_cid with
  | Some cid =>
      if negb (str_eqb cid []) && CORRELATION_ID_REGEX cid
      then MkEmulatorResponse (er_status_code response) (er_content response)
             (set_header (py "X-Correlation-ID") cid (er_headers response))
      else response
  | None => response
  end.

Record emulator_inbound : Type := MkEmulatorInbound {
  ei_correlation_id : option pystr;
  ei_body : body_input
}.

(** What FastAPI promises of the parameters of the route, as for the platform's API. *)
Class EmulatorAPI : Type := {
  em_resolve : emulator_inbound -> res emulator_failure (AuthorizationRequest * pystr);
  em_calls : forall req r cid,
    em_resolve req = Ok (r, cid) <->
    (exists j, ei_body req = Parsed j /\ AuthorizationRequest_accepts j r)
    /\ require_correlation_id (ei_correlation_id req) = Ok cid;
  em_refuses : forall req f, em_resolve req = Raise f ->
    (f = EmulatorExn EmulatorMissingCorrelationId
     /\ require_correlation_id (ei_correlation_id req) = Raise EmulatorMissingCorrelationId)
    \/ (exists errors, f = EmulatorValidation errors
          /\ refused_by authorization_fields authorization_refuses (ei_body req) errors)
    \/ (f = EmulatorUnreadable /\ ei_body req = Unreadable);
  em_unreadable : forall req, ei_body req = Unreadable -> em_resolve req = Raise EmulatorUnreadable
}.

Definition failed (raw_cid : option pystr) (f : emulator_failure) : option emulator_response :=
  response ← registered_handler f;
  Some (correlation_id_middleware raw_cid (problem_content response)).

(** The route POST /v1/authorizations: the delays slept and the response; [None] when an
    exception has no handler. *)
Definition post_authorizations `{EmulatorAPI} {D : Type} (req : emulator_inbound)
    (timeout_delay : D) : list D * option emulator_response :=
  match em_resolve req with
  | Raise f => ([], failed (ei_correlation_id req) f)
  | Ok (request, correlation_id) =>
      let '(slept, outcome) :=
        execute_authorization_scenario request timeout_delay get_async_sleeper in
      (slept, match outcome with
              | Ok s => Some (correlation_id_middleware (ei_correlation_id req) (scenario_http s))
              | Raise e => failed (ei_correlation_id req) (EmulatorExn e)
              end)
  end.

(** A framework that checks in the order of FastAPI. *)
Definition reference_emulator_resolve (req : emulator_inbound)
    : res emulator_failure (AuthorizationRequest * pystr) :=
  match ei_body req with
  | NotJson => Raise (EmulatorValidation [MkValidationError (py "json_invalid") [LocName (py "body")]
                                            (Some (py "JSON decode error"))])
  | Unreadable => Raise EmulatorUnreadable
  | b =>
      match require_correlation_id (ei_correlation_id req), b with
      | Raise e, _ => Raise (EmulatorExn e)
      | Ok cid, Parsed j =>
          match validate_authorization j with
          | Ok r => Ok (r, cid)
          | Raise errors => Raise (EmulatorValidation errors)
          end
      | _, OtherType => Raise (EmulatorValidation [not_an_object])
      | _, _ => Raise (EmulatorValidation [MkValidationError (py "missing") [LocName (py "body")]
                                             (Some (py "Field required"))])
      end
  end.

Lemma emulator_correlation_exn h e :
  require_correlation_id h = Raise e -> e = EmulatorMissingCorrelationId.
Proof. unfold require_correlation_id. destruct h as [v|]; [destruct (negb _)|]; congruence. Qed.

Lemma validate_authorization_ok j r : validate_authorization j = Ok r <-> AuthorizationRequest_accepts j r.
Proof. apply (model_validate_ok (Pydantic := reference_authorization_pydantic)). Qed.

#[local] Obligation Tactic := idtac.
#[export] Program Instance reference_emulator_api : EmulatorAPI := {|
  em_resolve := reference_emulator_resolve
|}.
Next Obligation.
  intros [h b] r cid. unfold reference_emulator_resolve. cbn [ei_body ei_correlation_id].
  destruct b as [| | | |j];
    try (split; [discriminate | by intros [(? & [=] & _) _]]);
    try (split; [destruct (require_correlation_id h); discriminate | by intros [(? & [=] & _) _]]).
  destruct (require_correlation_id h) as [cid'|e]; [|split; [discriminate | by intros (_ & [=])]].
  destruct (validate_authorization j) as [r'|errs] eqn:Ej; split.
  - intros H%Ok_inj. simplify_eq. split; [|done]. exists j. split; [done | by apply validate_authorization_ok].
  - intros ((j' & [= <-] & Ha%validate_authorization_ok) & Hc%Ok_inj). rewrite Ej in Ha.
    apply Ok_inj in Ha. by subst.
  - discriminate.
  - intros ((j' & [= <-] & Ha%validate_authorization_ok) & _). congruence.
Qed.
Next Obligation.
  intros [h b] f. unfold reference_emulator_resolve. cbn [ei_body ei_correlation_id].
  assert (Hn : b = NotJson \/ b <> NotJson) by (destruct b; auto). destruct Hn as [->|Hn].
  { intros [= <-]. right; left. eexists. split; [done|]. split; [done|]. by left. }
  assert (Hu : b = Unreadable \/ b <> Unreadable) by (destruct b; auto). destruct Hu as [->|Hu].
  { intros [= <-]. by right; right. }
  destruct (require_correlation_id h) as [cid|e] eqn:Hc.
  2: { apply emulator_correlation_exn in Hc. subst e. destruct b; try done; intros [= <-]; by left. }
  destruct b as [| | | |j]; [| |done|done|].
  - intros [= <-]. right; left. eexists. split; [done|]. split; [done|]. by repeat constructor.
  - intros [= <-]. right; left. eexists. split; [done|]. split; [done|].
    constructor; [apply not_an_object_error | constructor].
  - destruct (validate_authorization j) as [r|errs] eqn:Ej; [discriminate|]. intros [= <-].
    right; left. exists errs. split; [done|].
    exact (model_validate_errors (Pydantic := reference_authorization_pydantic) j errs Ej).
Qed.
Next Obligation. intros [h b] Hb. cbn in Hb. by subst b. Qed.

(** [headers.get("Retry-After")]. *)
Fixpoint get_header (name : pystr) (headers : header_dict) : option pystr :=
  match headers with
  | [] => None
  | (k, v) :: rest => if str_eqb (lower k) (lower name) then Some v else get_header name rest
  end.

(** The text of a body, and what the client's [response.json()] makes of it. *)
Definition content_text `{BodyRendering} (c : content) : pystr :=
  match c with
  | ModelContent fields => body_text (JObj fields)
  | ProblemContent body => body_text (JObj (map_to_list body))
  | TextContent text => text
  end.
Definition decode_content `{BodyRendering} (c : content) : json_outcome :=
  response_json (content_text c).

Lemma decode_model `{BodyRendering} fields :
  json_plain (JObj fields) = true -> decode_content (ModelContent fields) = JsonValue (JObj fields).
Proof. apply response_json_rendered. Qed.

(** The text of the malformed scenario is not JSON. *)
Lemma decode_malformed `{BodyRendering} :
  decode_content (TextContent malformed_content) = JsonValueError.
Proof. vm_compute. reflexivity. Qed.

(** How the platform's client sees the emulator: an answer in time arrives; one that was
    delayed may instead end in a time-out. *)
Definition delivered `{BodyRendering} {D : Type} (slept : list D) (r : emulator_response)
    (answer : res exn http_response) : Prop :=
  answer = Ok (MkHttpResponse (er_status_code r) (decode_content (er_content r))
                 (get_header (py "Retry-After") (er_headers r)))
  \/ (slept <> [] /\ (answer = Raise HttpxTimeoutException \/ answer = Raise AsyncioTimeoutError)).

(** * The references the emulator gives *)

(** Printable ASCII without space. *)
Definition is_graphic (c : N) : bool := in_range 33 126 c.

Lemma graphic_not_space c : is_graphic c = true -> is_space c = false.
Proof.
  unfold is_graphic, is_space, in_range. rewrite andb_true_iff, !N.leb_le. intros H.
  repeat (apply orb_false_iff; split); rewrite ?andb_false_iff, ?N.leb_gt, ?N.eqb_neq; lia.
Qed.

Lemma graphic_trimmed s : Forall (fun c => is_graphic c = true) s -> trimmed s.
Proof.
  intros Hf. rewrite Forall_forall in Hf. split; intros c Hc; apply graphic_not_space, Hf.
  - destruct s as [|x s]; [done|]. injection Hc as ->. by left.
  - by apply last_Some_elem_of.
Qed.

Lemma graphic_text_ok s : Forall (fun c => is_graphic c = true) s -> text_ok s = true.
Proof.
  intros Hf. apply forallb_Forall_iff. eapply Forall_impl; [exact Hf|]. intros c.
  unfold is_graphic, is_scalar, in_range.
  rewrite !andb_true_iff, !negb_true_iff, andb_false_iff, !N.leb_le, !N.leb_gt, N.eqb_neq. lia.
Qed.

Lemma hex_graphic c : is_hex_lower c = true -> is_graphic c = true.
Proof.
  unfold is_hex_lower, is_graphic, is_digit_ascii, in_range.
  rewrite orb_true_iff, !andb_true_iff, !N.leb_le. lia.
Qed.

Lemma derive_exn rid e : derive_network_reference rid = Raise e -> exists e', e = EmulatorOther e'.
Proof.
  unfold derive_network_reference. destruct (sha256_of_str rid) as [h|e'']; [discriminate|].
  intros [= <-]. by exists e''.
Qed.

Lemma reference_graphic rid ref :
  derive_network_reference rid = Ok ref ->
  Forall (fun c => is_graphic c = true) ref /\ length ref = 20%nat.
Proof.
  unfold derive_network_reference, sha256_of_str. destruct (utf8_encode rid) as [bytes|]; [|discriminate].
  intros H%Ok_inj. subst ref. destruct (sha256_hex_format bytes) as [Hl Hf]. split.
  - apply Forall_app. split; [by repeat constructor|]. apply Forall_take.
    eapply Forall_impl; [exact Hf|]. apply hex_graphic.
  - rewrite length_app, length_take, Hl. reflexivity.
Qed.

Lemma reference_fits rid ref : derive_network_reference rid = Ok ref -> storable_text 128 ref = true.
Proof.
  intros [Hg Hl]%reference_graphic. apply storable_text_spec. split; [by apply graphic_text_ok | lia].
Qed.

(** * The scenarios as the platform sees them *)

(** The verdicts each token can lead to. *)
Definition scenario_verdict (token tid : pystr) (v : verdict) : Prop :=
  if str_eqb token TOKEN_APPROVED
  then exists ref, derive_network_reference tid = Ok ref /\ v = VAuthorized ref (py "AUTH123")
  else if str_eqb token TOKEN_DECLINED then v = VDeclined (py "INSUFFICIENT_FUNDS")
  else if str_eqb token TOKEN_RATE_LIMITED then v = VRateLimited 1
  else if str_eqb token TOKEN_MALFORMED then v = VUnknown
  else if str_eqb token TOKEN_TIMEOUT
  then v = VUnknown
       \/ exists ref, derive_network_reference tid = Ok ref /\ v = VAuthorized ref (py "AUTH123")
  else v = VRejected.

Lemma text_ok_scalar s : text_ok s = true -> scalar_str s = true.
Proof.
  unfold text_ok, scalar_str. rewrite !forallb_Forall_iff. intros H.
  eapply Forall_impl; [exact H|]. by intros c [_ Hc]%andb_true_iff.
Qed.

Lemma authorized_plain ref :
  text_ok ref = true ->
  json_plain (JObj [(py "outcome", JStr (py "AUTHORIZED")); (py "network_reference", JStr ref);
                    (py "authorization_code", JStr (py "AUTH123"))]) = true.
Proof.
  intros Hr%text_ok_scalar. apply plain_obj; [evaluate|].
  repeat constructor; cbn [fst snd json_plain]; rewrite ?Hr; reflexivity.
Qed.

(** What the adapter reads in an authorized answer. *)
Lemma authorized_answer `{BodyRendering} rid ref headers :
  derive_network_reference rid = Ok ref ->
  verdict_of (_handle_response (MkHttpResponse 200
    (decode_content (ModelContent [(py "outcome", JStr (py "AUTHORIZED")); (py "network_reference", JStr ref);
                                   (py "authorization_code", JStr (py "AUTH123"))])) headers))
  = VAuthorized ref (py "AUTH123").
Proof.
  intros Hr. destruct (reference_graphic _ _ Hr) as [Hg Hl].
  rewrite decode_model by (by apply authorized_plain, graphic_text_ok).
  assert (Hs : stripped_field (Some (JStr ref)) = Some ref).
  { apply stripped_field_some. exists ref. rewrite strip_id by (by apply graphic_trimmed).
    split_and!; [done..|]. by intros ->. }
  unfold _handle_response. cbn [hp_status_code hp_json Z.eqb Pos.eqb].
  change (dict_get (py "network_reference") _) with (Some (JStr ref)).
  change (dict_get (py "outcome") _) with (Some (JStr (py "AUTHORIZED"))).
  change (dict_get (py "authorization_code") _) with (Some (JStr (py "AUTH123"))).
  rewrite Hs. reflexivity.
Qed.

Lemma get_set_header name name' value headers :
  str_eqb (lower name') (lower name) = false ->
  get_header name (set_header name' value headers) = get_header name headers.
Proof.
  intros Hn. unfold set_header. induction headers as [|[k v] rest IH].
  - cbn [List.filter app get_header]. by rewrite Hn.
  - cbn [List.filter fst get_header]. destruct (str_eqb k name') eqn:Ek; cbn [negb app get_header].
    + apply str_eqb_eq in Ek. subst k. by rewrite Hn.
    + destruct (str_eqb (lower k) (lower name)); [done | exact IH].
Qed.

(** The middleware changes neither the status and the body nor Retry-After. *)
Lemma middleware_transparent raw_cid response :
  er_status_code (correlation_id_middleware raw_cid response) = er_status_code response
  /\ er_content (correlation_id_middleware raw_cid response) = er_content response
  /\ get_header (py "Retry-After") (er_headers (correlation_id_middleware raw_cid response))
     = get_header (py "Retry-After") (er_headers response).
Proof.
  unfold correlation_id_middleware. destruct raw_cid as [cid|]; [|done].
  destruct (_ && _); [|done]. split_and!; [done..|]. cbn [er_headers].
  by apply get_set_header.
Qed.

Lemma delivered_through `{BodyRendering} {D} (slept : list D) raw_cid response answer :
  delivered slept (correlation_id_middleware raw_cid response) answer -> delivered slept response answer.
Proof.
  unfold delivered. by destruct (middleware_transparent raw_cid response) as (-> & -> & ->).
Qed.

(** What the route gives for an accepted request, before the middleware. *)
Definition scenario_reply {D} (request : AuthorizationRequest) (delay : D)
    : list D * option emulator_response :=
  let '(slept, outcome) := execute_authorization_scenario request delay get_async_sleeper in
  (slept, match outcome with
          | Ok s => Some (scenario_http s)
          | Raise e => response ← registered_handler (EmulatorExn e); Some (problem_content response)
          end).

Lemma accepted_reply `{EmulatorAPI} {D} (delay : D) req request cid slept response :
  em_resolve req = Ok (request, cid) ->
  post_authorizations req delay = (slept, Some response) ->
  exists r, scenario_reply request delay = (slept, Some r)
            /\ response = correlation_id_middleware (ei_correlation_id req) r.
Proof.
  intros Hr. unfold post_authorizations, scenario_reply, failed. rewrite Hr.
  destruct (execute_authorization_scenario request delay _) as [slept' [s|e]].
  - intros [= <- <-]. by eexists.
  - destruct (registered_handler (EmulatorExn e)) as [h|]; [|discriminate].
    cbn [mbind option_bind]. intros [= <- <-]. by eexists.
Qed.

Lemma scenario_verdict_of `{BodyRendering} {D} (delay : D) request slept response answer :
  scenario_reply request delay = (slept, Some response) ->
  delivered slept response answer ->
  scenario_verdict (az_payment_token request) (az_request_id request) (http_verdict answer).
Proof.
  intros Hroute Hdel. unfold scenario_reply, execute_authorization_scenario in Hroute.
  set (token := az_payment_token request) in *. unfold scenario_verdict.
  destruct (str_eqb token TOKEN_APPROVED) eqn:E1.
  { apply str_eqb_eq in E1. rewrite bool_decide_true in Hroute by (rewrite E1; evaluate).
    destruct (derive_network_reference _) as [ref|e] eqn:Hr;
      [|apply derive_exn in Hr as [e' ->]; discriminate Hroute].
    cbn in Hroute.
    injection Hroute as <- <-. destruct Hdel as [->|[Hne _]]; [|done]. exists ref. split; [done|].
    by eapply authorized_answer. }
  destruct (str_eqb token TOKEN_DECLINED) eqn:E2.
  { apply str_eqb_eq in E2. rewrite bool_decide_true in Hroute by (rewrite E2; evaluate). cbn in Hroute.
    injection Hroute as <- <-. destruct Hdel as [->|[Hne _]]; [|done]. cbn [er_content er_status_code].
    rewrite decode_model by (vm_compute; reflexivity). reflexivity. }
  destruct (str_eqb token TOKEN_RATE_LIMITED) eqn:E3.
  { apply str_eqb_eq in E3. rewrite bool_decide_true in Hroute by (rewrite E3; evaluate). cbn in Hroute.
    injection Hroute as <- <-. destruct Hdel as [->|[Hne _]]; [|done]. reflexivity. }
  destruct (str_eqb token TOKEN_MALFORMED) eqn:E4.
  { apply str_eqb_eq in E4. rewrite bool_decide_true in Hroute by (rewrite E4; evaluate). cbn in Hroute.
    injection Hroute as <- <-. destruct Hdel as [->|[Hne _]]; [|done]. cbn [er_content er_status_code].
    change (decode_content _) with (decode_content (TextContent malformed_content)).
    rewrite decode_malformed. reflexivity. }
  destruct (str_eqb token TOKEN_TIMEOUT) eqn:E5.
  { apply str_eqb_eq in E5. rewrite bool_decide_true in Hroute by (rewrite E5; evaluate).
    destruct (derive_network_reference _) as [ref|e] eqn:Hr;
      [|apply derive_exn in Hr as [e' ->]; discriminate Hroute].
    cbn in Hroute.
    injection Hroute as <- <-. destruct Hdel as [->|[_ [->| ->]]]; [right|by left..].
    exists ref. split; [done|]. by eapply authorized_answer. }
  rewrite bool_decide_false in Hroute.
  - injection Hroute as <- <-. destruct Hdel as [->|[Hne _]]; [|done]. reflexivity.
  - apply not_true_iff_false in E1, E2, E3, E4, E5. rewrite str_eqb_eq in *.
    unfold SUPPORTED_TOKENS. rewrite !elem_of_cons, elem_of_nil. tauto.
Qed.

(** The HTTP status and the recorded state for each token. *)
Definition scenario_outcomes (token : pystr) : list (Z * pystr) :=
  if str_eqb token TOKEN_APPROVED then [(201, py "AUTHORIZED")]
  else if str_eqb token TOKEN_DECLINED then [(201, py "DECLINED")]
  else if str_eqb token TOKEN_RATE_LIMITED then [(503, py "FAILED")]
  else if str_eqb token TOKEN_MALFORMED then [(202, py "PENDING_RECONCILIATION")]
  else if str_eqb token TOKEN_TIMEOUT
  then [(202, py "PENDING_RECONCILIATION"); (201, py "AUTHORIZED")]
  else [(502, py "FAILED")].

Lemma scenario_completion token tid v :
  scenario_verdict token tid v ->
  fits v = true
  /\ exists c, completion_of tid v = Ok c /\ transaction_id (cp_transaction c) = tid
       /\ (env_status_code (cp_envelope c), TransactionStatus_value (status (cp_transaction c)))
            ∈ scenario_outcomes token.
Proof.
  unfold scenario_verdict, scenario_outcomes.
  assert (Hauth : forall ref, derive_network_reference tid = Ok ref ->
            fits (VAuthorized ref (py "AUTH123")) = true).
  { intros ref Hr. cbn [fits]. rewrite (reference_fits _ _ Hr). reflexivity. }
  destruct (str_eqb token TOKEN_APPROVED).
  { intros (ref & Hr & ->). split; [by apply Hauth|]. eexists. split_and!; [reflexivity..|]. by left. }
  destruct (str_eqb token TOKEN_DECLINED).
  { intros ->. split; [reflexivity|]. eexists. split_and!; [reflexivity..|]. by left. }
  destruct (str_eqb token TOKEN_RATE_LIMITED).
  { intros ->. split; [reflexivity|]. eexists. split_and!; [reflexivity..|]. by left. }
  destruct (str_eqb token TOKEN_MALFORMED).
  { intros ->. split; [reflexivity|]. eexists. split_and!; [reflexivity..|]. by left. }
  destruct (str_eqb token TOKEN_TIMEOUT).
  { intros [->|(ref & Hr & ->)].
    - split; [reflexivity|]. eexists. split_and!; [reflexivity..|]. by left.
    - split; [by apply Hauth|]. eexists. split_and!; [reflexivity..|]. right. by left. }
  intros ->. split; [reflexivity|]. eexists. split_and!; [reflexivity..|]. by left.
Qed.

(** * Properties *)

(** The request of the platform's client as it reaches the route: the text of the
    payload, and the headers unchanged. *)
Definition inbound_of `{BodyRendering} (post : http_request) : emulator_inbound :=
  MkEmulatorInbound (get_header (py "X-Correlation-ID") (hr_headers post))
    (received reader_gives_up (body_text (JObj (hr_json post)))).

(** The network behaves as the emulator for the [n]-th request. *)
Definition emulated `{EmulatorAPI, BodyRendering} {D : Type} (delay : D) (net : network) (n : nat)
    (post : http_request) : Prop :=
  exists slept response,
    post_authorizations (inbound_of post) delay = (slept, Some response)
    /\ delivered slept response (net n post).

(** A request whose texts can be encoded in UTF-8, with an amount of a length that Python
    reads back. *)
Definition encodable (r : CreateTransactionRequest) : Prop :=
  0 < rq_amount r < 2 ^ 4000
  /\ Forall (fun s => scalar_str s = true)
       [rq_transaction_id r; rq_merchant_id r; rq_payment_token r; rq_currency r].

Lemma post_received `{BodyRendering} adapter r cid :
  encodable r ->
  received reader_gives_up (body_text (JObj (hr_json (authorization_post adapter (port_request (command_of r cid))))))
  = Parsed (JObj (hr_json (authorization_post adapter (port_request (command_of r cid))))).
Proof.
  intros [Ha Hs]. rewrite !Forall_cons in Hs. destruct Hs as (H1 & H2 & H3 & H4 & _).
  set (j := JObj _). assert (Hj : loads (body_text j) = Some j).
  { apply body_text_decodes, plain_obj; [evaluate|].
    repeat constructor; cbn [fst snd json_plain]; try (apply andb_true_iff; split; [reflexivity|]);
      try assumption. apply Z.ltb_lt.
    change (Z.abs (rq_amount r) < 2 ^ 4000). rewrite Z.abs_eq by apply Z.lt_le_incl, Ha.
    apply Ha. }
  unfold received. by destruct (body_text j) eqn:E; [discriminate|rewrite Hj].
Qed.

(** The emulator accepts what the platform posts for an accepted request. *)
Lemma post_resolved `{EmulatorAPI, BodyRendering} adapter r cid :
  request_ok r -> encodable r -> CORRELATION_ID_REGEX cid = true ->
  em_resolve (inbound_of (authorization_post adapter (port_request (command_of r cid))))
  = Ok (emulator_request r, cid).
Proof.
  intros Hr He Hc. apply em_calls. split.
  - eexists. split; [apply post_received, He|]. by apply (posted_request_accepted r adapter cid).
  - cbn [inbound_of ei_correlation_id]. change (get_header _ _) with (Some cid).
    unfold require_correlation_id. by rewrite Hc.
Qed.

Lemma completed_row key c l1 d' row :
  ledger_complete key (cp_transaction c) 0 (cp_envelope c) (cp_network_reference c)
    (cp_authorization_code c) (cp_decline_code c) l1 = (Ok tt, ledger_of d') ->
  l_transactions l1 !! transaction_id (cp_transaction c) = Some row ->
  exists row', transactions d' !! transaction_id (cp_transaction c) = Some row'
               /\ t_status row' = TransactionStatus_value (status (cp_transaction c)).
Proof.
  unfold ledger_complete. intros H Hrow. rewrite Hrow in H.
  destruct (l_keys l1 !! key) as [[fp tid [e|]]|]; try discriminate.
  destruct (_ && _); [|discriminate]. injection H as _ Ht. rewrite <- Ht, lookup_insert_eq.
  by eexists.
Qed.

(** Whatever the tables accept can be encoded. *)
Lemma well_formed_encodable r cid key hash fp :
  well_formed (command_of r cid) key hash fp -> scalar_str (rq_payment_token r) = true -> encodable r.
Proof.
  intros (_ & _ & _ & Hs) Ht. unfold storable_request, storable_id, storable_text in Hs.
  rewrite !andb_true_iff, !Z.ltb_lt in Hs. cbn in Hs.
  destruct Hs as ((((((_ & _) & (Hi & _) & _) & (Hm & _) & _) & H0) & H63) & Hc).
  split; [split; [done | etransitivity; [apply H63 | by apply Z.pow_lt_mono_r]]|].
  repeat constructor; try done; try by apply text_ok_scalar.
  apply class_run_spec in Hc as [Hc _]. apply forallb_Forall_iff. eapply Forall_impl; [exact Hc|].
  intros c Hu. unfold is_upper_ascii in Hu. apply in_range_true in Hu.
  unfold is_scalar. rewrite andb_true_iff, N.leb_le, negb_true_iff, in_range_false. lia.
Qed.

Lemma resolved_request `{FastAPI} req r cid key :
  fa_resolve req = Ok (r, cid, key) -> request_ok r /\ CORRELATION_ID_REGEX cid = true.
Proof.
  intros ((j & _ & Ha) & Hc & _)%fa_calls. split; [by eapply accepted_request_ok|].
  unfold Idempotency.require_correlation_id in Hc. destruct (in_correlation_id req) as [v|]; [|discriminate].
  destruct (CORRELATION_ID_REGEX v) eqn:E; [|discriminate]. apply Ok_inj in Hc. by subst.
Qed.

(** C12.  The whole platform against the emulator: a first request (fresh key and
    identifier) through the API, on a healthy database, always ends with exactly one
    authorization request sent and with the status and the recorded transaction state of
    its (Unicode) payment token: approved 201 AUTHORIZED, declined 201 DECLINED, rate-limited 503
    FAILED, malformed 202 PENDING_RECONCILIATION, timeout 202 PENDING_RECONCILIATION (or
    201 AUTHORIZED when the answer still arrives in time), any other token 502 FAILED. *)
Theorem scenarios_end_to_end `{FastAPI, Engine, EmulatorAPI, BodyRendering} {D : Type} (delay : D) net adapter
    i st d posts req r cid key hash fp :
  (forall n q, post_contract (net n q)) -> idle st d -> db_ok d ->
  fa_resolve req = Ok (r, cid, key) -> well_formed (command_of r cid) key hash fp ->
  idempotency_records d !! hash = None -> transactions d !! rq_transaction_id r = None ->
  scalar_str (rq_payment_token r) = true ->
  let post := authorization_post adapter (port_request (command_of r cid)) in
  emulated delay net (length posts) post ->
  exists response st' d' row,
    run net i (@post_transactions _ sql_coordinator (http_port adapter) req) st posts
    = Some (Responded response, (st', posts ++ [post]))
    /\ idle st' d' /\ db_ok d' /\ transactions d' !! rq_transaction_id r = Some row
    /\ (jr_status_code response, t_status row) ∈ scenario_outcomes (rq_payment_token r).
Proof.
  intros Hnet Hst Hd Hr Hwf Hk Ht Htok post (slept & resp & Hroute & Hdel).
  destruct (resolved_request _ _ _ _ Hr) as [Hok Hcid].
  pose proof (well_formed_encodable _ _ _ _ _ Hwf Htok) as Henc.
  destruct (accepted_reply delay _ _ _ _ _ (post_resolved adapter r cid Hok Henc Hcid) Hroute)
    as (resp' & Hroute' & ->).
  pose proof (scenario_verdict_of delay _ _ _ _ Hroute' (delivered_through _ _ _ _ Hdel)) as Hv.
  destruct (scenario_completion _ _ _ Hv) as (Hfit & c & Hc & Hid & Hout).
  destruct (run_handle net adapter i st d posts _ _ _ _ Hnet Hst Hd Hwf)
    as (x & st' & d' & posts' & Hrun & Hi & Hd' & Hh).
  unfold handled, ledger_reserve in Hh.
  cbn [l_keys l_transactions ledger_of command_of cmd_transaction_id] in Hh.
  rewrite lookup_fmap, Hk, Ht in Hh. cbn [fmap option_fmap option_map res_status reservation] in Hh.
  destruct Hh as [-> Hh]. fold (command_of r cid) in Hh. fold post in Hh.
  cbn [emulator_request az_request_id] in Hc. rewrite Hc, Hfit in Hh. destruct Hh as [-> Hl].
  destruct (completed_row _ _ _ _ (reserved_transaction (rq_transaction_id r) (rq_merchant_id r)
              (rq_amount r) (rq_currency r)) Hl) as (row & Hrow & Hstatus).
  { cbn [l_transactions]. rewrite Hid. apply lookup_insert_eq. }
  exists (Api.correlation_id_middleware (in_correlation_id req) (envelope_response (cp_envelope c))), st', d', row.
  split_and!; [by rewrite (run_route _ _ _ _ _ _ _ _ _ Hr), Hrun | done | done | |].
  - by rewrite Hid in Hrow.
  - destruct (middleware_same (in_correlation_id req) (envelope_response (cp_envelope c))) as [-> _].
    by rewrite Hstatus.
Qed.

(** The responses of the emulator: their status, and no header but Retry-After. *)
Definition emulator_reply (r : emulator_response) : Prop :=
  er_status_code r ∈ [200; 400; 422; 429]
  /\ (er_headers r = [] \/ er_headers r = [(py "Retry-After", py "1")]).

Lemma handled_reply f response :
  registered_handler f = Some response -> emulator_reply (problem_content response).
Proof.
  destruct f as [errors| |e]; cbn [registered_handler].
  - intros H%Some_inj. subst response. unfold validation_exception_handler.
    by destruct (existsb _ errors); (split; [cbn; set_solver | left]).
  - intros H%Some_inj. subst response. split; [cbn; set_solver | by left].
  - destruct e; intros H; try discriminate; apply Some_inj in H; subst response.
    + split; [cbn; set_solver | by left].
    + split; [cbn; set_solver | by left].
    + split; [cbn; set_solver | by right].
Qed.

Lemma middleware_reply raw_cid r :
  emulator_reply r ->
  let r' := correlation_id_middleware raw_cid r in
  er_status_code r' ∈ [200; 400; 422; 429]
  /\ forall cid, require_correlation_id raw_cid = Ok cid ->
       get_header (py "X-Correlation-ID") (er_headers r') = Some cid.
Proof.
  intros [Hs Hh]. cbv zeta. destruct (middleware_transparent raw_cid r) as (-> & _). split; [done|].
  intros cid Hc. destruct raw_cid as [v|]; [|discriminate]. unfold require_correlation_id in Hc.
  destruct (CORRELATION_ID_REGEX v) eqn:Hv; [|discriminate]. apply Ok_inj in Hc. subst v.
  unfold correlation_id_middleware. rewrite Hv.
  destruct (str_eqb cid []) eqn:He; [apply str_eqb_eq in He; by subst|].
  by destruct Hh as [E|E]; cbn [negb andb er_headers]; rewrite E.
Qed.

(** The tokens whose scenario derives a reference from the request identifier. *)
Definition derives_reference (token : pystr) : Prop := token = TOKEN_APPROVED \/ token = TOKEN_TIMEOUT.

(** Every way a scenario can end. *)
Lemma scenario_ends {D} (delay : D) request :
  let '(slept, outcome) := execute_authorization_scenario request delay get_async_sleeper in
  slept = (if str_eqb (az_payment_token request) TOKEN_TIMEOUT then [delay] else [])
  /\ match outcome with
     | Ok s => emulator_reply (scenario_http s)
               /\ (derives_reference (az_payment_token request) -> utf8_encode (az_request_id request) <> None)
     | Raise (EmulatorOther _) =>
         derives_reference (az_payment_token request) /\ utf8_encode (az_request_id request) = None
     | Raise e => e <> EmulatorMissingCorrelationId /\ ~ derives_reference (az_payment_token request)
     end.
Proof.
  assert (Hn : ~ derives_reference TOKEN_DECLINED /\ ~ derives_reference TOKEN_RATE_LIMITED
               /\ ~ derives_reference TOKEN_MALFORMED) by (unfold derives_reference; evaluate).
  destruct Hn as (Hn1 & Hn2 & Hn3).
  unfold execute_authorization_scenario, derive_network_reference, sha256_of_str, get_async_sleeper,
    default_async_sleeper.
  destruct (negb _) eqn:Hs.
  { apply negb_true_iff, bool_decide_eq_false in Hs. cbn. split.
    - destruct (str_eqb _ _) eqn:E; [|done]. apply str_eqb_eq in E. exfalso. apply Hs. rewrite E. evaluate.
    - split; [done|]. intros [E|E]; apply Hs; rewrite E; evaluate. }
  clear Hs. generalize (az_payment_token request) as token. intros token.
  repeat match goal with
  | |- context [str_eqb token ?t] =>
      destruct (decide (token = t)) as [->|?];
        [rewrite (proj2 (str_eqb_eq t t) eq_refl)
        |replace (str_eqb token t) with false
           by (symmetry; apply not_true_iff_false; by rewrite str_eqb_eq)]
  end; try (destruct (utf8_encode (az_request_id request)) eqn:?);
    cbn [sleepy_bind sleepy_lift sleepy_ret app]; (split; [reflexivity|]);
    try (split; [first [done | split; [cbn; set_solver | by left]] | try done; by intros []]);
    try (split; [by (left + right) | done]).
Qed.

(** C40.  What the emulator's route does with any request.  It sleeps exactly for the timeout
    token of an accepted request, once and for the configured delay.  The one case in
    which no handler answers, so that the server sends its own 500, is an accepted request
    for the approved or the timeout token whose identifier is not valid Unicode (an
    unpaired surrogate): its digest raises.  Every other request is answered with
    status 200, 400, 422 or 429; a valid correlation identifier is echoed, and a body
    that cannot be read or decoded for another reason than its syntax gets FastAPI's
    own 400. *)
Theorem emulator_route `{EmulatorAPI} {D : Type} (delay : D) req :
  let '(slept, answer) := post_authorizations req delay in
  slept = (match em_resolve req with
           | Ok (request, _) => if str_eqb (az_payment_token request) TOKEN_TIMEOUT then [delay] else []
           | Raise _ => []
           end)
  /\ (answer = None <->
      exists request cid, em_resolve req = Ok (request, cid)
        /\ derives_reference (az_payment_token request) /\ utf8_encode (az_request_id request) = None)
  /\ (forall response, answer = Some response ->
      er_status_code response ∈ [200; 400; 422; 429]
      /\ forall cid, require_correlation_id (ei_correlation_id req) = Ok cid ->
           get_header (py "X-Correlation-ID") (er_headers response) = Some cid)
  /\ (ei_body req = Unreadable ->
      answer = Some (correlation_id_middleware (ei_correlation_id req) (problem_content unreadable_response))).
Proof.
  unfold post_authorizations, failed. destruct (em_resolve req) as [[request cid]|f] eqn:Hr.
  - assert (Hu : ei_body req <> Unreadable).
    { apply em_calls in Hr as [(j & -> & _) _]. discriminate. }
    pose proof (scenario_ends delay request) as He.
    destruct (execute_authorization_scenario request delay _) as [slept [s|e]]; destruct He as [Hd Hs];
      (split; [exact Hd|]).
    + destruct Hs as [Hs Hn]. split; [|split; [|done]].
      * split; [done|]. intros (? & ? & [= <- <-] & H1 & H2). by apply Hn in H1.
      * intros response [= <-]. exact (middleware_reply (ei_correlation_id req) _ Hs).
    + destruct (registered_handler (EmulatorExn e)) as [h|] eqn:Hh.
      * split; [|split; [|done]].
        -- split; [done|]. intros (? & ? & [= <- <-] & H1 & _). destruct e; try done; by destruct Hs.
        -- intros response [= <-]. exact (middleware_reply (ei_correlation_id req) _ (handled_reply _ _ Hh)).
      * split; [|by split]. split; [|done]. intros _. exists request, cid. split; [done|]. by destruct e.
  - assert (exists h, registered_handler f = Some h) as [h Hh].
    { apply em_refuses in Hr as [[-> _]|[(errors & -> & _)|[-> _]]]; by eexists. }
    rewrite Hh. split; [done|]. split; [|split].
    + split; [done|]. by intros (? & ? & [=] & _).
    + intros response [= <-]. exact (middleware_reply (ei_correlation_id req) _ (handled_reply _ _ Hh)).
    + intros Hb%em_unreadable. rewrite Hr in Hb. injection Hb as ->. by injection Hh as <-.
Qed.

(** ** A concrete run *)

Definition sample_post : http_request :=
  authorization_post sample_adapter (port_request (command_of sample_request (py "corr_1"))).

(** The emulator as a network, for the sample request. *)
Definition sample_emulator_answer : res exn http_response :=
  Eval vm_compute in
  match post_authorizations (inbound_of sample_post) tt with
  | (_, Some r) => Ok (MkHttpResponse (er_status_code r) (decode_content (er_content r))
                         (get_header (py "Retry-After") (er_headers r)))
  | (_, None) => Raise HttpxTransportError
  end.
Definition sample_emulator : network := fun _ _ => sample_emulator_answer.

Lemma sample_emulated : emulated tt sample_emulator 0 sample_post.
Proof. eexists _, _. split; [vm_compute; reflexivity | left; vm_compute; reflexivity]. Qed.

Lemma scenarios_end_to_end_witness :
  exists response st' d' row,
    @run ReferenceEngine.engine sample_emulator _ 0
      (@post_transactions reference_fastapi sql_coordinator (http_port sample_adapter) sample_inbound)
      (ReferenceEngine.serving empty_db) []
    = Some (Responded response, (st', [sample_post]))
    /\ @idle ReferenceEngine.engine st' d' /\ db_ok d' /\ transactions d' !! py "txn_1" = Some row
    /\ (jr_status_code response, t_status row) ∈ scenario_outcomes (py "tok_test_approved").
Proof.
  refine (@scenarios_end_to_end reference_fastapi ReferenceEngine.engine reference_emulator_api
           compact_rendering unit tt
           sample_emulator sample_adapter 0 (ReferenceEngine.serving empty_db) empty_db [] sample_inbound
           sample_request (py "corr_1") sample_raw_key sample_key_hash sample_request_fingerprint
           _ (serving_idle empty_db) db_ok_empty sample_resolved sample_well_formed
           eq_refl eq_refl eq_refl sample_emulated).
  intros n q e. discriminate.
Defined.
