(* ===== verification/Platform.v ===== *)
(** The whole platform at once: any number of clients of the API, the database with its
    failures, and the emulator (emulator/) as the payment network, over a transport that
    may fail. *)
From S2P Require Import Prelude PyStr Sha256 Json Domain Ports Idempotency Schema Effects Adapter.
From S2P Require Import Authorize Problem Coordinator Ledger Orchestrator Protocol Coherence System Faults.
From S2P Require Import Requests JsonText Bodies Api History Atomic Tracking Serving Emulator.

Open Scope Z_scope.

(** * The emulator as the network *)

Section platform.
Context `{FastAPI, EmulatorAPI, BodyRendering} {D : Type} (delay : D) (adapter : HttpPaymentNetworkAdapter).

(** An HTTP request of the platform is answered by the emulator, with the server's own
    500 when no handler covers its exception, or the transport fails. *)
Definition emulator_answers (hreq : http_request) (r : res exn http_response) : Prop :=
  (exists e, http_fault e /\ r = Raise e)
  \/ match post_authorizations (inbound_of hreq) delay with
     | (slept, Some response) => delivered slept response r
     | (_, None) => exists body retry_after, r = Ok (MkHttpResponse 500 body retry_after)
     end.

(** The body of an accepted request is valid Unicode. *)
Definition unicode_request (req : inbound) : Prop :=
  forall r cid key, fa_resolve req = Ok (r, cid, key) -> encodable r.

Definition canonical_text (r : CreateTransactionRequest) : pystr :=
  canonical_json (rq_amount r) (rq_currency r) (rq_merchant_id r) (rq_payment_token r)
    (rq_transaction_id r).

(** The requests that the clients ever send. *)
Context (clients : inbound -> Prop).

(** What the platform relies on SHA-256 for: the canonical texts of no two requests of the
    clients collide. *)
Definition collision_free : Prop :=
  forall req req' r r' cid cid' key key', clients req -> clients req' ->
    fa_resolve req = Ok (r, cid, key) -> fa_resolve req' = Ok (r', cid', key') ->
    ~ collide (canonical_text r) (canonical_text r').

(** The platform: the API for the requests of these clients, against the emulator. *)
Definition platform_step : relation observed := ostep_in adapter clients emulator_answers.

(** What the network makes of a client's request for the token it carries; [VUnknown] when
    the answer is lost. *)
Definition by_scenario (dm : demand) (v : verdict) : Prop :=
  exists req r cid key, clients req /\ fa_resolve req = Ok (r, cid, key)
    /\ dm_command dm = command_of r cid
    /\ (scenario_verdict (rq_payment_token r) (rq_transaction_id r) v
        \/ v = VUnknown \/ exists e, v = VCrash e).

Lemma emulator_contract hreq r : emulator_answers hreq r -> post_contract r.
Proof.
  intros [(e & He & ->)|Ha] e' Hr; [by injection Hr as <-|]. subst r.
  destruct (post_authorizations _ _) as [slept [response|]].
  - destruct Ha as [[=]|[_ [[= ->]|[= ->]]]]; [by left | by right; left].
  - by destruct Ha as (? & ? & [=]).
Qed.

Lemma fault_verdict e : http_fault e -> http_verdict (Raise e) = VUnknown \/ exists e', http_verdict (Raise e) = VCrash e'.
Proof. intros [->|[->|[->| ->]]]; cbn; eauto. Qed.

Lemma demand_request req dm :
  demand_of req = Some dm ->
  exists r cid key, fa_resolve req = Ok (r, cid, key) /\ dm_command dm = command_of r cid
    /\ compute_key_hash key = Ok (dm_key dm)
    /\ compute_request_fingerprint (rq_amount r) (rq_currency r) (rq_merchant_id r)
         (rq_payment_token r) (rq_transaction_id r) = Ok (dm_fingerprint dm).
Proof.
  unfold demand_of. destruct (fa_resolve req) as [[[r cid] key]|]; [|done].
  destruct (compute_key_hash key) as [hash|] eqn:Hk; [|done].
  destruct (compute_request_fingerprint _ _ _ _ _) as [fp|] eqn:Hf; [|done].
  intros [= <-]. by exists r, cid, key.
Qed.

Lemma emulator_by_scenario (Hunicode : forall req, clients req -> unicode_request req) req dm hreq r :
  clients req -> demand_of req = Some dm -> posts_demand hreq dm -> emulator_answers hreq r ->
  by_scenario dm (http_verdict r).
Proof.
  intros Hu Hd [ad ->] Ha. destruct (demand_request _ _ Hd) as (rq & cid & key & Hr & Hc & _ & _).
  pose proof (Hunicode _ Hu _ _ _ Hr) as He. exists req, rq, cid, key. split_and!; [done..|].
  destruct Ha as [(e & Hf & ->)|Ha]; [right; by apply fault_verdict|].
  destruct (resolved_request _ _ _ _ Hr) as [Hok Hcid].
  pose proof (post_resolved ad rq cid Hok He Hcid) as Hres. rewrite Hc in Ha.
  destruct (post_authorizations _ _) as [slept [response|]] eqn:Hpost; cycle 1.
  { destruct Ha as (body & ra & ->). right. left. reflexivity. }
  left. destruct (accepted_reply _ _ _ _ _ _ Hres Hpost) as (response' & Hroute & ->).
  exact (scenario_verdict_of _ _ _ _ _ Hroute (delivered_through _ _ _ _ Ha)).
Qed.

(** * What the tables record *)

Lemma truthful_functional st st' code body :
  truthful st code body -> truthful st' code body -> st = st'.
Proof.
  intros [(Hs & -> & b & -> & Hb)|[(-> & -> & b & -> & Hb)|(-> & Hc)]]
    [(Hs' & Hc' & b' & Eb & Hb')|[(-> & Hc' & b' & Eb & Hb')|(-> & Hc')]]; simplify_eq; try done;
    destruct_or?; simplify_eq; done.
Qed.

(** The status of the response and the state of the transaction that the verdicts on a
    token lead to. *)
Definition token_outcomes (token : pystr) : list (Z * pystr) :=
  scenario_outcomes token ++ [(202, py "PENDING_RECONCILIATION")].

Lemma by_scenario_completion dm v c r cid :
  by_scenario dm v -> dm_command dm = command_of r cid -> completion_of (dm_transaction dm) v = Ok c ->
  (env_status_code (cp_envelope c), TransactionStatus_value (status (cp_transaction c)))
    ∈ token_outcomes (rq_payment_token r).
Proof.
  intros (req' & r' & cid' & key' & _ & _ & Hc' & Hv) Hc Hcpl. rewrite Hc in Hc'.
  assert (rq_payment_token r = rq_payment_token r') as -> by exact (f_equal cmd_payment_token Hc').
  apply elem_of_app. destruct Hv as [Hv|[->|[e ->]]]; [left | right | done].
  - unfold dm_transaction in Hcpl.
    destruct (scenario_completion _ _ _ Hv) as (_ & c' & Hc2 & _ & Hin).
    assert (Hid : cmd_transaction_id (dm_command dm) = rq_transaction_id r') by (rewrite Hc, Hc'; done).
    rewrite Hid, Hc2 in Hcpl. by apply Ok_inj in Hcpl as ->.
  - apply Ok_inj in Hcpl as <-. by left.
Qed.

(** A recorded answer and its transaction. *)
Lemma recorded_transaction d key e envelope :
  db_ok d -> coherent d -> l_keys (ledger_of d) !! key = Some e -> en_response e = Some envelope ->
  exists row, transactions d !! en_transaction_id e = Some row
    /\ truthful (t_status row) (Some (env_status_code envelope)) (Some (env_body envelope)).
Proof.
  intros (_ & Hdi & _) Hc He Hs. cbn in He. apply lookup_fmap_Some in He as (rec & <- & Hrec).
  destruct (co_pair _ Hc _ _ Hrec) as (row & Hrow & Hpair). exists row. split; [exact Hrow|].
  unfold entry_of in Hs. cbn [en_response] in Hs.
  destruct (idempotency_row_cases _ _ (Hdi _ _ Hrec)) as [(_ & E & _)|(Hp & code & body & E1 & E2)];
    [by rewrite E in Hs|].
  rewrite E1, E2 in Hs. injection Hs as <-.
  destruct Hpair as [(Hp' & _)|(_ & _ & _ & Ht)]; [rewrite Hp in Hp'; discriminate|].
  by rewrite E1, E2 in Ht.
Qed.

(** Two requests with the same fingerprint, whose texts do not collide, ask for the same. *)
Lemma same_request r r' fp :
  encodable r -> encodable r' -> ~ collide (canonical_text r) (canonical_text r') ->
  compute_request_fingerprint (rq_amount r) (rq_currency r) (rq_merchant_id r)
    (rq_payment_token r) (rq_transaction_id r) = Ok fp ->
  compute_request_fingerprint (rq_amount r') (rq_currency r') (rq_merchant_id r')
    (rq_payment_token r') (rq_transaction_id r') = Ok fp ->
  rq_payment_token r = rq_payment_token r' /\ rq_transaction_id r = rq_transaction_id r'.
Proof.
  intros [_ Hs] [_ Hs'] Hn Hf Hf'. rewrite !Forall_cons in Hs, Hs'.
  destruct Hs as (H1' & H2' & H3' & H4' & _), Hs' as (H5' & H6' & H7' & H8' & _).
  rewrite <- Hf' in Hf. apply fingerprints_distinguish in Hf as [(_ & _ & _ & Ht & Hi)|]; [done..|].
  by repeat constructor.
Qed.

Lemma command_of_request r r' cid cid' : command_of r cid = command_of r' cid' -> r = r'.
Proof. destruct r, r'. by intros [=-> -> -> -> -> _]. Qed.

(** * Property *)

(** C6.  Tokens decide the answers of the platform.  With any number of concurrent clients,
    database failures, lost requests and transport failures between the platform and the
    emulator: a final answer (201, 202, 502, 503) that a client is given, as a first
    answer or as a replay, and the state that the transaction has in the tables are those
    of the client's own payment token (approved 201 AUTHORIZED, declined 201 DECLINED,
    rate-limited 503 FAILED, malformed 202 PENDING_RECONCILIATION, timeout 202 or 201,
    any other 502 FAILED), or 202 PENDING_RECONCILIATION when the answer of the emulator
    was lost.  For clients whose bodies are valid Unicode and no two of whose requests are
    a SHA-256 collision. *)
Theorem tokens_decide_answers o req response r cid key :
  (forall req, clients req -> unicode_request req) -> collision_free ->
  rtc platform_step ob_initial o -> (req, Responded response) ∈ ob_answered o -> final response ->
  fa_resolve req = Ok (r, cid, key) ->
  exists row, transactions (committed (sy_pg (ob_system o))) !! rq_transaction_id r = Some row
    /\ (jr_status_code response, t_status row) ∈ token_outcomes (rq_payment_token r).
Proof.
  intros Hunicode Hfree Hr Hin Hfin Hres.
  destruct (linked_reachable adapter clients emulator_answers by_scenario emulator_contract
              (emulator_by_scenario Hunicode) o Hr) as (γ & a & Ha & Hl & _ & Harr).
  pose proof (Harr _ _ Hin) as Hu. rewrite (ln_answered _ _ _ _ Hl) in Hin.
  pose proof (mo_answered _ (machine_ok_reachable _ _ Ha) _ _ Hin) as Hacc.
  destruct (final_recorded _ _ _ Hacc Hfin) as (dm & e & env & Hd & He & Hf & Hs & -> & _).
  destruct (ms_entries _ _ (machine_sourced_reachable _ _ Ha) _ _ _ He Hs)
    as (dm0 & v & c & _ & Hf0 & Ht0 & [req0 Hd0] & Hv & Hc & ->).
  destruct (demand_request _ _ Hd) as (r1 & cid1 & key1 & Hr1 & _ & _ & Hfp). rewrite Hres in Hr1. simplify_eq.
  destruct (demand_request _ _ Hd0) as (r0 & cid0 & key0 & _ & Hc0 & _ & Hfp0). rewrite Hf0, Hf in Hfp0.
  destruct Hv as (req' & r' & cid' & key' & Hu' & Hres' & Hc' & Hv).
  assert (r0 = r') as -> by (rewrite Hc0 in Hc'; by eapply command_of_request).
  destruct (same_request _ _ _ (Hunicode _ Hu _ _ _ Hres) (Hunicode _ Hu' _ _ _ Hres')
    (Hfree _ _ _ _ _ _ _ _ Hu Hu' Hres Hres') Hfp Hfp0) as [Htok Hid].
  rewrite (ln_ledger _ _ _ _ Hl) in He. pose proof (ln_inv _ _ _ _ Hl) as Hinv.
  destruct (recorded_transaction _ _ _ _ (inv_db _ _ Hinv) (inv_coherent _ _ Hinv) He Hs) as (row & Hrow & Htr).
  exists row. unfold dm_transaction in Ht0. rewrite Hc0 in Ht0. cbn in Ht0. rewrite Hid, Ht0. split; [done|].
  destruct (completion_values _ _ _ Hc) as (_ & _ & _ & Htr').
  destruct (replay_of_completion _ _ _ Hc) as [Hre _]. rewrite Hre in Htr |- *.
  rewrite (truthful_functional _ _ _ _ Htr Htr'), Htok.
  eapply by_scenario_completion; [|exact Hc0|exact Hc]. by exists req', r', cid', key'.
Qed.

End platform.

(** ** A race against the emulator *)

#[local] Instance sample_platform : Workload := @api_workload reference_fastapi sample_adapter.

Definition emulator_answer : http_response :=
  match sample_emulator_answer with Ok answer => answer | Raise _ => approval end.

(** Two clients send the same request at once, and one of them again later. *)
Definition race : list event :=
  [Arrive 0 sample_inbound; Arrive 1 sample_inbound_retry]
  ++ concat (replicate 14 [Next 0 emulator_answer; Next 1 emulator_answer])
  ++ [Arrive 2 sample_inbound_retry] ++ replicate 8 (Next 2 emulator_answer).

Lemma race_allowed (arriving : inbound -> Prop) (answers : http_request -> res exn http_response -> Prop) :
  arriving sample_inbound -> arriving sample_inbound_retry -> answers sample_post (Ok emulator_answer) ->
  @plausible reference_fastapi sample_adapter arriving answers ob_initial race.
Proof. intros H1 H2 H3. vm_compute. repeat (split; [assumption || exact I|]). exact I. Qed.

Lemma sample_encodable : encodable sample_request.
Proof. split; [split; reflexivity | repeat constructor]. Qed.

Lemma sample_unicode : @unicode_request reference_fastapi sample_inbound.
Proof.
  intros r cid key Hr. assert (Hs : Ok (r, cid, key) = Ok (sample_request, py "corr_1", sample_raw_key))
    by (rewrite <- Hr; exact sample_resolved).
  injection Hs as -> _ _. apply sample_encodable.
Qed.

Lemma sample_unicode_retry : @unicode_request reference_fastapi sample_inbound_retry.
Proof.
  intros r cid key Hr. assert (Hs : Ok (r, cid, key) = Ok (sample_request, py "corr_2", sample_raw_key))
    by (rewrite <- Hr; exact sample_resolved_retry).
  injection Hs as -> _ _. apply sample_encodable.
Qed.

(** The clients of the race send one request, under two correlation identifiers. *)
Definition race_clients (req : inbound) : Prop := req = sample_inbound \/ req = sample_inbound_retry.

Lemma race_request req r cid key :
  race_clients req -> @fa_resolve reference_fastapi req = Ok (r, cid, key) -> r = sample_request.
Proof.
  intros [-> | ->] Hr;
    [pose proof (eq_trans (eq_sym Hr) sample_resolved) as E
    |pose proof (eq_trans (eq_sym Hr) sample_resolved_retry) as E]; by injection E.
Qed.

Lemma race_collision_free : @collision_free reference_fastapi race_clients.
Proof.
  intros req req' r r' cid cid' key key' Hu Hu' ->%race_request ->%race_request [Hn _]; by try apply Hn.
Qed.

Lemma race_unicode req : race_clients req -> @unicode_request reference_fastapi req.
Proof. intros [-> | ->]; [apply sample_unicode | apply sample_unicode_retry]. Qed.

Abbreviation sample_step :=
  (@platform_step reference_fastapi reference_emulator_api compact_rendering unit tt sample_adapter race_clients).

Lemma sample_answered :
  @emulator_answers reference_emulator_api compact_rendering unit tt sample_post (Ok emulator_answer).
Proof. right. vm_compute. by left. Qed.

Lemma race_reachable : rtc sample_step ob_initial (watch ob_initial race).
Proof.
  apply watch_steps_in, race_allowed; [by left | by right | apply sample_answered].
Qed.

(** What the third client is given. *)
Definition last_reply : JSONResponse :=
  Eval vm_compute in
  match last (ob_answered (watch ob_initial race)) with
  | Some (_, Responded response) => response
  | _ => persistence_error_handler
  end.

Lemma last_reply_given : (sample_inbound_retry, Responded last_reply) ∈ ob_answered (watch ob_initial race).
Proof.
  assert (H : last (ob_answered (watch ob_initial race)) = Some (sample_inbound_retry, Responded last_reply))
    by by_run.
  by apply last_Some_elem_of in H.
Qed.

Lemma tokens_decide_answers_witness :
  jr_status_code last_reply = 201
  /\ exists row, transactions (committed (sy_pg (ob_system (watch ob_initial race)))) !! py "txn_1" = Some row
       /\ (jr_status_code last_reply, t_status row) ∈ token_outcomes (py "tok_test_approved").
Proof.
  split; [reflexivity|].
  exact (@tokens_decide_answers reference_fastapi reference_emulator_api compact_rendering unit tt
           sample_adapter race_clients (watch ob_initial race) sample_inbound_retry last_reply sample_request
           (py "corr_2") sample_raw_key race_unicode race_collision_free race_reachable last_reply_given
           ltac:(vm_compute; left) sample_resolved_retry).
Defined.
