(* ===== verification/Wiring.v ===== *)
(** How the two applications are put together: [create_app] of api/app.py with the
    dependency providers, the life time of the HTTP client and the database engine it
    may open, and the routes; [create_app] of emulator/app.py. *)
From Stdlib Require Import SpecFloat.
From S2P Require Import Prelude PyStr Sha256 Json Domain Ports Idempotency Schema Effects Adapter.
From S2P Require Import Authorize Problem Coordinator Ledger Orchestrator Protocol Coherence.
From S2P Require Import Requests JsonText Bodies Api Emulator Settings.

Open Scope Z_scope.

(** * Resources *)

(** What must be closed: HTTP clients and database engines.  They are mutable objects,
    known by their identity. *)
Inductive resource : Type :=
| ClientResource
| EngineResource (e : AsyncEngine).

Record heap : Type := MkHeap {
  next_id : nat;
  open_resources : gmap nat resource
}.

Definition open_resource (r : resource) (h : heap) : nat * heap :=
  (next_id h, MkHeap (S (next_id h)) (<[next_id h := r]> (open_resources h))).

(** [aclose] and [dispose]; [fails] tells which of them raise. *)
Definition close_resource (fails : nat -> option exn) (n : nat) (h : heap) : res exn unit * heap :=
  match fails n with
  | Some e => (Raise e, h)
  | None => (Ok tt, MkHeap (next_id h) (delete n (open_resources h)))
  end.

(** * The objects of the application *)

(** [async_sessionmaker], bound to an engine. *)
Record session_factory : Type := MkSessionFactory {
  sf_engine : nat;
  sf_expire_on_commit : bool
}.

(** Why [create_app] raises. *)
Inductive startup_error : Type :=
| SettingsError (e : settings_exn)
| EngineRefused.

Definition create_engine_and_session_factory `{EngineFactory} (settings : DatabaseSettings) (h : heap)
    : res startup_error (nat * session_factory) * heap :=
  if engine_accepted (engine_config settings) then
    let '(engine, h) := open_resource (EngineResource (engine_config settings)) h in
    (Ok (engine, MkSessionFactory engine false), h)
  else (Raise EngineRefused, h).

(** [get_db_session]: a session for one request, closed when the request is done, however
    it ended; closing rolls back what was not committed. *)
Definition get_db_session {A} (request : io A) : io A :=
  pbind request (fun r => let! _ := await_db OpRollback in io_lift r).

(** An implementation of each port, given by the caller or built by [create_app]. *)
Inductive network_object : Type :=
| GivenNetwork (p : PaymentNetworkPort)
| HttpNetwork (self : HttpPaymentNetworkAdapter) (client : nat) (timeout_seconds : py_float).

(** [SqlAlchemyIdempotencyCoordinator.__init__]. *)
Record SqlAlchemyIdempotencyCoordinator : Type := MkSqlCoordinator {
  sc_session_factory : session_factory
}.

Inductive coordinator_object : Type :=
| GivenCoordinator (c : IdempotencyCoordinatorPort)
| SqlCoordinator (self : SqlAlchemyIdempotencyCoordinator).

Definition as_network (n : network_object) : PaymentNetworkPort :=
  match n with GivenNetwork p => p | HttpNetwork self _ _ => http_port self end.
Definition as_coordinator (c : coordinator_object) : IdempotencyCoordinatorPort :=
  match c with GivenCoordinator c => c | SqlCoordinator _ => sql_coordinator end.

(** ** Dependency providers *)

(** The placeholders raise [RuntimeError]. *)
Definition get_payment_network : res exn network_object := Raise OtherError.
Definition get_coordinator : res exn coordinator_object := Raise OtherError.

Record AuthorizeTransactionService : Type := MkService { sv_payment_network : network_object }.
Record IdempotentTransactionOrchestrator : Type := MkOrchestrator {
  or_coordinator : coordinator_object;
  or_service : AuthorizeTransactionService
}.

Definition get_service (payment_network : network_object) : AuthorizeTransactionService :=
  MkService payment_network.
Definition get_orchestrator (coordinator : coordinator_object) (service : AuthorizeTransactionService)
    : IdempotentTransactionOrchestrator := MkOrchestrator coordinator service.

(** [app.dependency_overrides], for the two providers that are overridden. *)
Record dependency_overrides : Type := MkOverrides {
  ov_payment_network : option network_object;
  ov_coordinator : option coordinator_object
}.

(** [Depends(provider)]: the override is called in place of the provider. *)
Definition depends {A} (override : option A) (provider : res exn A) : res exn A :=
  match override with Some a => Ok a | None => provider end.

Definition resolve_orchestrator (o : dependency_overrides) : res exn IdempotentTransactionOrchestrator :=
  coordinator ← depends (ov_coordinator o) get_coordinator;
  network ← depends (ov_payment_network o) get_payment_network;
  Ok (get_orchestrator coordinator (get_service network)).

(** * [create_app] *)

Record app_arguments : Type := MkAppArguments {
  arg_payment_network : option PaymentNetworkPort;
  arg_coordinator : option IdempotencyCoordinatorPort;
  arg_session_factory : option session_factory;
  arg_engine : option nat;
  arg_http_client : option nat;
  arg_emulator_base_url : pystr;
  arg_network_timeout_seconds : py_float;
  arg_db_settings : option DatabaseSettings
}.

(** No arguments. *)
Definition default_arguments : app_arguments :=
  MkAppArguments None None None None None (py "http://localhost:8001") (float_of_int 5) None.

(** The application, with the variables its closures capture. *)
Record app : Type := MkApp {
  app_overrides : dependency_overrides;
  app_internal_client : option nat;
  app_internal_engine : option nat;
  app_engine : option nat
}.

Definition resolve_network (args : app_arguments) (h : heap) : (network_object * option nat) * heap :=
  match arg_payment_network args with
  | Some p => ((GivenNetwork p, None), h)
  | None =>
      let adapter := HttpPaymentNetworkAdapter_init (arg_emulator_base_url args) in
      match arg_http_client args with
      | Some client => ((HttpNetwork adapter client (arg_network_timeout_seconds args), None), h)
      | None =>
          let '(client, h) := open_resource ClientResource h in
          ((HttpNetwork adapter client (arg_network_timeout_seconds args), Some client), h)
      end
  end.

(** [settings] is what [DatabaseSettings()] gives in the environment of the process. *)
Definition resolve_coordinator `{EngineFactory} (settings : res settings_exn DatabaseSettings)
    (args : app_arguments) (h : heap) : res startup_error (coordinator_object * option nat) * heap :=
  match arg_coordinator args with
  | Some c => (Ok (GivenCoordinator c, None), h)
  | None =>
      match arg_session_factory args with
      | Some f => (Ok (SqlCoordinator (MkSqlCoordinator f), None), h)
      | None =>
          match (match arg_db_settings args with Some cfg => Ok cfg | None => settings end) with
          | Raise e => (Raise (SettingsError e), h)
          | Ok cfg =>
              match create_engine_and_session_factory cfg h with
              | (Ok (engine, f), h) => (Ok (SqlCoordinator (MkSqlCoordinator f), Some engine), h)
              | (Raise e, h) => (Raise e, h)
              end
          end
      end
  end.

Definition create_app `{EngineFactory} (settings : res settings_exn DatabaseSettings)
    (args : app_arguments) (h : heap) : res startup_error app * heap :=
  let '((network, internal_client), h) := resolve_network args h in
  match resolve_coordinator settings args h with
  | (Ok (coordinator, internal_engine), h) =>
      (Ok (MkApp (MkOverrides (Some network) (Some coordinator)) internal_client internal_engine
             (arg_engine args)), h)
  | (Raise e, h) => (Raise e, h)
  end.

(** The second half of [lifespan]. *)
Definition shutdown (fails : nat -> option exn) (a : app) (h : heap) : res exn unit * heap :=
  let closing o h := match o with Some n => close_resource fails n h | None => (Ok tt, h) end in
  match closing (app_internal_client a) h with
  | (Raise e, h) => (Raise e, h)
  | (Ok _, h) =>
      closing (match app_internal_engine a with Some n => Some n | None => app_engine a end) h
  end.

(** ** Routes *)

Inductive route : Set :=
| GetHealthLive
| PostTransactions.

(** [health_live]. *)
Definition health_live : JSONResponse :=
  MkJSONResponse 200 {[ py "status" := JStr (py "ok") ]} [] (Some (py "application/json")).

(** A request to one of the routes. *)
Definition handle_request `{FastAPI} (a : app) (path : route) (req : inbound) : prog reply :=
  match path with
  | GetHealthLive => Ret (reply_to (in_correlation_id req) (Ok health_live))
  | PostTransactions =>
      match resolve_orchestrator (app_overrides a) with
      | Raise e => Ret (reply_to (in_correlation_id req) (Raise (FExn e)))
      | Ok o => @post_transactions _ (as_coordinator (or_coordinator o))
                  (as_network (sv_payment_network (or_service o))) req
      end
  end.

(** * The emulator *)

(** [create_app] keeps the settings; [get_settings] is overridden by them. *)
Record emulator_app : Type := MkEmulatorApp { ea_settings : EmulatorSettings }.

Definition create_emulator_app `{SettingsFields} (environ : environment)
    (settings : option EmulatorSettings) : res settings_exn emulator_app :=
  resolved_settings ← match settings with
                      | Some s => Ok s
                      | None => EmulatorSettings_init environ None
                      end;
  Ok (MkEmulatorApp resolved_settings).

(** The route POST /v1/authorizations of the application. *)
Definition emulator_authorize `{EmulatorAPI} (a : emulator_app) (req : emulator_inbound)
    : list py_float * option emulator_response :=
  post_authorizations req (timeout_delay_seconds (ea_settings a)).

(** * Properties *)

Lemma outcome_pbind {A B} i (p : prog A) (f : A -> prog B) w b w' :
  outcome i (pbind p f) w b w' <-> exists a w1, outcome i p w a w1 /\ outcome i (f a) w1 b w'.
Proof.
  revert w. induction p as [a|o k IH]; intros w; cbn [pbind outcome].
  - split; [intros Ho; by exists a, w | by intros (? & ? & [-> ->] & Ho)].
  - split.
    + intros (r & w1 & Hc & (a & w2 & Ha & Hb)%IH). exists a, w2. split; [by exists r, w1 | done].
    + intros (a & w2 & (r & w1 & Hc & Ha) & Hb). exists r, w1. split; [done|]. apply IH. by exists a, w2.
Qed.

(** The session of [get_db_session] is closed at the end, without a change of the committed
    rows, with the answer of the request or a failure of the roll back. *)
Lemma db_session_closed {A} i (request : io A) w r w' :
  outcome i (get_db_session request) w r w' ->
  sessions (w_pg w') !! i = None
  /\ exists r1 w1, outcome i request w r1 w1 /\ (r = r1 \/ exists e, db_fault e /\ r = Raise e)
       /\ committed (w_pg w') = committed (w_pg w1) /\ w_posts w' = w_posts w1.
Proof.
  intros (a & w1 & Ha & Hf)%outcome_pbind. destruct Hf as (x & w2 & [Hc Hp] & Hr).
  assert (Hs : w_pg w2 = close_session i (w_pg w1)) by (by destruct Hc as [[_ ->]|[_ ->]]).
  assert (Hw : w' = w2 /\ (r = a \/ exists e, db_fault e /\ r = Raise e)).
  { destruct Hc as [[-> _]|[(e & He & ->) _]]; destruct Hr as [<- ->]; eauto 6. }
  destruct Hw as [-> Hr']. rewrite Hs, Hp. split; [apply lookup_delete_eq|]. by exists a, w1.
Qed.

(** Identities at or above [next_id] are not in use. *)
Definition heap_ok (h : heap) : Prop := forall n, (next_id h <= n)%nat -> open_resources h !! n = None.

Lemma delete_opened r h n :
  heap_ok h -> n = next_id h -> delete n (open_resources (snd (open_resource r h))) = open_resources h.
Proof. intros Hh ->. cbn. apply delete_insert_id. by apply Hh. Qed.

Lemma open_ok r h : heap_ok h -> heap_ok (snd (open_resource r h)).
Proof.
  intros Hh n Hn. cbn in *. rewrite lookup_insert_ne by lia. apply Hh. lia.
Qed.

(** The caller provides what the coordinator needs. *)
Definition coordinator_given (args : app_arguments) : bool :=
  match arg_coordinator args, arg_session_factory args with None, None => false | _, _ => true end.

Definition client_given (args : app_arguments) : bool :=
  match arg_payment_network args, arg_http_client args with None, None => false | _, _ => true end.

(** The settings of the engine that [create_app] makes. *)
Definition own_settings (settings : res settings_exn DatabaseSettings) (args : app_arguments)
    : res settings_exn DatabaseSettings :=
  match arg_db_settings args with Some cfg => Ok cfg | None => settings end.

(** What is open after the HTTP client, if one is needed, was made. *)
Definition with_client (args : app_arguments) (h : heap) : heap :=
  if client_given args then h else snd (open_resource ClientResource h).

(** What is open after the application was made, or failed to be made. *)
Lemma created `{EngineFactory} settings args h :
  match create_app settings args h with
  | (Raise _, h1) => coordinator_given args = false /\ h1 = with_client args h
  | (Ok a, h1) =>
      app_engine a = arg_engine args
      /\ app_internal_client a = (if client_given args then None else Some (next_id h))
      /\ app_internal_engine a
        = (if coordinator_given args then None else Some (next_id (with_client args h)))
      /\ exists r, (coordinator_given args = false ->
                    exists cfg, own_settings settings args = Ok cfg /\ r = EngineResource (engine_config cfg))
           /\ h1 = (if coordinator_given args then with_client args h
                    else snd (open_resource r (with_client args h)))
  end.
Proof.
  unfold create_app, resolve_coordinator, create_engine_and_session_factory, own_settings, with_client,
    coordinator_given, client_given, resolve_network.
  destruct args as [[p|] [c|] [f|] e [cl|] url t [cfg|]]; cbn;
    try (split_and!; [done..|]; by exists ClientResource); try (destruct settings as [cfg|err]; [|done]);
    (destruct (engine_accepted (engine_config cfg)); [|done]; cbn; split_and!; [done..|];
     eexists; split; [by exists cfg | done]).
Qed.

Lemma kept_open r h n q :
  heap_ok h -> open_resources h !! n = Some q -> open_resources (snd (open_resource r h)) !! n = Some q.
Proof.
  intros Hh Hn. cbn. rewrite lookup_insert_ne; [done|]. intros <-. by rewrite Hh in Hn.
Qed.

Lemma with_client_ok args h : heap_ok h -> heap_ok (with_client args h).
Proof. intros Hh. unfold with_client. destruct (client_given args); [done | by apply open_ok]. Qed.

Lemma with_client_kept args h n q :
  heap_ok h -> open_resources h !! n = Some q -> open_resources (with_client args h) !! n = Some q.
Proof. intros Hh Hn. unfold with_client. destruct (client_given args); [done | by apply kept_open]. Qed.

(** The engine that is disposed of at shutdown. *)
Definition disposed (args : app_arguments) (h : heap) : option nat :=
  if coordinator_given args then arg_engine args else Some (next_id (with_client args h)).

(** [shutdown] of the application that was made: the client, then the engine; the first
    exception ends it. *)
Lemma shutdown_cases fails a args h h1 :
  app_engine a = arg_engine args ->
  app_internal_client a = (if client_given args then None else Some (next_id h)) ->
  app_internal_engine a = (if coordinator_given args then None else Some (next_id (with_client args h))) ->
  shutdown fails a h1 =
  match (if client_given args then None else fails (next_id h)) with
  | Some e => (Raise e, h1)
  | None =>
      let h2 := if client_given args then h1
                else MkHeap (next_id h1) (delete (next_id h) (open_resources h1)) in
      match disposed args h with
      | Some n => close_resource fails n h2
      | None => (Ok tt, h2)
      end
  end.
Proof.
  intros He Hc Hi. unfold shutdown, disposed. rewrite He, Hc, Hi. unfold close_resource at 1.
  destruct (client_given args), (coordinator_given args); cbn; try done; by destruct (fails (next_id h)).
Qed.

(** What is left of the resources when nothing fails. *)
Definition left_open (args : app_arguments) (h : heap) : gmap nat resource :=
  match arg_engine args with
  | Some n => if coordinator_given args then delete n (open_resources h) else open_resources h
  | None => open_resources h
  end.

Lemma closed_all args h r :
  heap_ok h ->
  let h0 := with_client args h in
  let h1 := if coordinator_given args then h0 else snd (open_resource r h0) in
  let closed o := if client_given args then o else delete (next_id h) o in
  match disposed args h with
  | Some n => delete n (closed (open_resources h1))
  | None => closed (open_resources h1)
  end = left_open args h.
Proof.
  intros Hh. cbv zeta. unfold disposed, left_open, with_client.
  specialize (Hh (next_id h)) as Hn. specialize (Hh (S (next_id h))) as Hs.
  destruct (client_given args), (coordinator_given args), (arg_engine args) as [n|]; cbn;
    rewrite ?(delete_delete _ (S (next_id h)) (next_id h)),
      ?(delete_insert_id (<[next_id h := _]> _) (S (next_id h))) by (rewrite ?lookup_insert_ne by lia; auto);
    by rewrite ?(delete_insert_id (open_resources h)) by auto.
Qed.

(** C38.  What becomes of the HTTP client and the engines.  [create_app] closes nothing.  It
    fails only when it needs database settings or an engine of its own, and then leaves the
    client it opened open.  When the server stops and nothing fails, every client and
    engine that [create_app] opened is closed, a given HTTP client stays open, and a given
    engine is disposed of exactly when the caller also gave the coordinator or the session
    factory (otherwise it is neither used nor disposed of).  When closing the client that
    [create_app] opened raises, nothing is closed: its engine stays open, whether or not
    disposing of it would succeed.  When only the disposal raises, the client is closed and
    the engine stays open. *)
Theorem resources_released `{EngineFactory} settings args h fails :
  heap_ok h ->
  match create_app settings args h with
  | (Raise _, h1) => coordinator_given args = false /\ h1 = with_client args h
  | (Ok a, h1) =>
      (forall n r, open_resources h !! n = Some r -> open_resources h1 !! n = Some r)
      /\ (client_given args = false -> open_resources h1 !! next_id h = Some ClientResource)
      /\ (coordinator_given args = false -> exists cfg, own_settings settings args = Ok cfg
          /\ open_resources h1 !! next_id (with_client args h) = Some (EngineResource (engine_config cfg)))
      /\ ((forall n, fails n = None) ->
          shutdown fails a h1
          = (Ok tt, MkHeap (next_id h1)
                      (match arg_engine args with
                       | Some n => if coordinator_given args then delete n (open_resources h)
                                   else open_resources h
                       | None => open_resources h
                       end)))
      /\ (forall e, client_given args = false -> fails (next_id h) = Some e ->
          shutdown fails a h1 = (Raise e, h1))
      /\ (forall n e, disposed args h = Some n -> fails n = Some e ->
          (client_given args = false -> fails (next_id h) = None) ->
          shutdown fails a h1
          = (Raise e, if client_given args then h1
                      else MkHeap (next_id h1) (delete (next_id h) (open_resources h1))))
  end.
Proof.
  intros Hh. pose proof (created settings args h) as Hc. pose proof (with_client_ok args h Hh) as Hh0.
  destruct (create_app settings args h) as [[a|e] h1]; [|exact Hc].
  destruct Hc as (He & Hi & Hn & r & Hr & ->). set (h1 := if coordinator_given args then _ else _).
  assert (Hsh : forall fs, shutdown fs a h1 = _) by (intros fs; exact (shutdown_cases fs a args h h1 He Hi Hn)).
  assert (Hk : forall n q, open_resources (with_client args h) !! n = Some q -> open_resources h1 !! n = Some q).
  { intros n q Hq. subst h1. destruct (coordinator_given args); [done | by apply kept_open]. }
  split_and!.
  - intros n q Hq. by apply Hk, with_client_kept.
  - intros Hg. apply Hk. unfold with_client. rewrite Hg. apply lookup_insert_eq.
  - intros Hg. destruct (Hr Hg) as (cfg & Ho & ->). exists cfg. split; [done|]. subst h1. rewrite Hg.
    apply lookup_insert_eq.
  - intros Hf. rewrite Hsh. cbv zeta. fold (left_open args h). rewrite <- (closed_all args h r Hh). cbv zeta.
    fold h1. unfold close_resource. destruct (client_given args); rewrite ?Hf;
      (destruct (disposed args h); rewrite ?Hf; [done | by destruct h1]).
  - intros e Hg Hf. by rewrite Hsh, Hg, Hf.
  - intros n e Hd Hf Hcl. rewrite Hsh, Hd. unfold close_resource. rewrite Hf.
    destruct (client_given args); [done|]. by rewrite Hcl.
Qed.

(** The client cannot be closed; the engine could be disposed of. *)
Definition client_fails (n : nat) : option exn := if (n =? 0)%nat then Some OtherError else None.

Lemma resources_released_witness :
  match create_app (DatabaseSettings_init [] []) default_arguments (MkHeap 0 ∅) with
  | (Ok a, h1) =>
      shutdown (fun _ => None) a h1 = (Ok tt, MkHeap (next_id h1) ∅)
      /\ shutdown client_fails a h1 = (Raise OtherError, h1)
      /\ is_Some (open_resources h1 !! 1%nat)
  | (Raise _, _) => False
  end.
Proof.
  pose proof (fun fails => resources_released (DatabaseSettings_init [] []) default_arguments (MkHeap 0 ∅)
                fails (fun _ _ => eq_refl)) as H.
  destruct (create_app _ _ _) as [[a|e] h1] eqn:Ha; [|discriminate Ha].
  destruct (H (fun _ => None)) as (_ & _ & He & Hall & _).
  destruct (H client_fails) as (_ & _ & _ & _ & Hfail & _).
  split; [exact (Hall (fun _ => eq_refl))|]. split; [exact (Hfail OtherError eq_refl eq_refl)|].
  destruct (He eq_refl) as (cfg & _ & Hlook). exact (mk_is_Some _ _ Hlook).
Defined.

(** What a request reaches. *)
Definition served_network (args : app_arguments) : PaymentNetworkPort :=
  match arg_payment_network args with
  | Some p => p
  | None => http_port (HttpPaymentNetworkAdapter_init (arg_emulator_base_url args))
  end.
Definition served_coordinator (args : app_arguments) : IdempotencyCoordinatorPort :=
  default sql_coordinator (arg_coordinator args).

(** C39.  What the applications serve.  However [create_app] is called, and whatever the
    environment, it either fails because it needed database settings or an engine and they
    were refused, or the placeholder providers are never reached: POST /v1/transactions
    runs over the given ports, or over SQL and over HTTP to the given base URL;
    GET /health/live answers 200 with the status ok, echoes a valid correlation identifier,
    and touches neither the database nor the network.  The emulator sleeps, if at all, for
    the delay of its settings, given or read from the environment: it is within 0 and
    30 seconds or NaN, and it is not NaN when it was given as a number, or neither given nor
    in the environment. *)
Theorem applications_serve `{FastAPI, EmulatorAPI, SettingsFields, EngineFactory} imported environ args h req :
  (match create_app (DatabaseSettings_init imported environ) args h with
   | (Ok a, _) =>
       handle_request a PostTransactions req
       = @post_transactions _ (served_coordinator args) (served_network args) req
       /\ handle_request a GetHealthLive req
          = Ret (Responded (Api.correlation_id_middleware (in_correlation_id req) health_live))
   | (Raise e, _) =>
       coordinator_given args = false
       /\ match own_settings (DatabaseSettings_init imported environ) args with
          | Raise e' => e = SettingsError e'
          | Ok cfg => e = EngineRefused /\ engine_accepted (engine_config cfg) = false
          end
   end)
  /\ forall delay given a slept emulator_request,
     match given with Some s => EmulatorSettings_init environ delay = Ok s | None => delay = None end ->
     create_emulator_app environ given = Ok a ->
     slept ∈ fst (emulator_authorize a emulator_request) ->
     is_nan slept || delay_in_range slept = true
     /\ (match delay with
         | Some v => is_Some (as_number v)
         | None => env_setting environ delay_variable = None
         end -> delay_in_range slept = true).
Proof.
  split.
  { unfold create_app, resolve_network, resolve_coordinator, create_engine_and_session_factory,
      served_network, served_coordinator, own_settings, coordinator_given.
    destruct args as [[p|] [c|] [f|] e [cl|] url t [s|]]; cbn;
      try (by split); try (destruct (DatabaseSettings_init imported environ) as [s|e']; [|by split]);
      (destruct (engine_accepted (engine_config s)) eqn:He; by split). }
  intros delay given a slept emulator_request Hg Ha Hin.
  assert (Hs : exists s, EmulatorSettings_init environ delay = Ok s /\ slept = timeout_delay_seconds s).
  { assert (Hset : exists s, EmulatorSettings_init environ delay = Ok s /\ a = MkEmulatorApp s).
    { unfold create_emulator_app in Ha. destruct given as [s|]; [|rewrite Hg];
        [|destruct (EmulatorSettings_init environ None) as [s|]; [|done]];
        cbn in Ha; apply Ok_inj in Ha; by exists s. }
    destruct Hset as (s & Hs & ->). exists s. split; [done|].
    unfold emulator_authorize, post_authorizations in Hin. cbn [ea_settings] in Hin.
    destruct (em_resolve emulator_request) as [[request cid]|f]; [|by apply elem_of_nil in Hin].
    pose proof (scenario_ends (timeout_delay_seconds s) request) as He.
    destruct (execute_authorization_scenario request _ _) as [sl outcome]. destruct He as [-> _].
    cbn [fst] in Hin. destruct (str_eqb _ _); [by apply list_elem_of_singleton in Hin | by apply elem_of_nil in Hin]. }
  destruct Hs as (s & Hs & ->). split; [by eapply delay_settings_bounds|].
  destruct delay as [v|].
  - intros [n Hn]. rewrite (delay_settings _ _ _ Hn) in Hs. destruct n as [f|]; [|done].
    destruct (_ && _) eqn:Hb; [|done]. apply Ok_inj in Hs. subst s. by apply andb_true_iff in Hb as [_ Hb].
  - intros Hv. rewrite delay_settings_default in Hs by done. apply Ok_inj in Hs. by subst s.
Qed.

(** A request for the time-out scenario. *)
Definition timeout_inbound : emulator_inbound :=
  MkEmulatorInbound (Some (py "corr_1"))
    (Parsed (JObj [(py "request_id", JStr (py "txn_1")); (py "merchant_id", JStr (py "merchant_1"));
                   (py "payment_token", JStr TOKEN_TIMEOUT); (py "amount", JInt 100);
                   (py "currency", JStr (py "EUR"))])).

Definition long_delays : emulator_app := MkEmulatorApp (MkEmulatorSettings delay_max).

Lemma timeout_sleeps :
  delay_max ∈ fst (@emulator_authorize reference_emulator_api long_delays timeout_inbound).
Proof. vm_compute. left. Qed.

(** The environment can ask for NaN seconds. *)
Example nan_delay_accepted :
  create_emulator_app [(py "EMULATOR_TIMEOUT_DELAY_SECONDS", py "NaN")] None
  = Ok (MkEmulatorApp (MkEmulatorSettings S754_nan)).
Proof. vm_compute. reflexivity. Qed.

Lemma applications_serve_witness :
  (match create_app (DatabaseSettings_init [] [(py "EMULATOR_TIMEOUT_DELAY_SECONDS", py "30")])
           default_arguments (MkHeap 0 ∅) with
   | (Ok a, _) =>
       @handle_request reference_fastapi a PostTransactions sample_inbound
       = @post_transactions reference_fastapi (served_coordinator default_arguments)
           (served_network default_arguments) sample_inbound
   | (Raise _, _) => False
   end)
  /\ is_nan delay_max || delay_in_range delay_max = true.
Proof.
  destruct (@applications_serve reference_fastapi reference_emulator_api read_fields postgres_engines
              [] [(py "EMULATOR_TIMEOUT_DELAY_SECONDS", py "30")] default_arguments (MkHeap 0 ∅) sample_inbound) as [H1 H2].
  split; [|exact (proj1 (H2 None None long_delays delay_max timeout_inbound eq_refl
                           ltac:(vm_compute; reflexivity) timeout_sleeps))]. destruct (create_app _ _ _) as [[a|e] h1] eqn:Ha; [exact (proj1 H1) | discriminate Ha].
Defined.
